(** * NAT64 core: session database, tuple extraction, RFC 6052 and
      post-translation fragmentation

    A shallow embedding of the parts of the stateful NAT64 kernel module
    (mod/session_db.c, mod/determine_incoming_tuple.c, mod/translate_packet.c
    and the headers they use) that its specification talks about, followed by
    the properties proved about them.

    Conventions.
    - Machine integers are [Z]; every place where the C code can wrap around
      writes the wrap explicitly ([u16], [u32], [u64], [s32]).
    - Addresses are byte lists in network order (4 bytes for [in_addr],
      16 bytes for [in6_addr]); packets are byte lists as well.
    - Pointers to session entries are natural numbers into a store
      ([gmap nat session_entry]); the two trees and the expiration lists of
      a table hold such pointers, so that a write to an entry is seen from
      every structure that links it.
    - Spinlocks, RCU grace periods and reference counters are not part of
      the model: every function below is one critical section. *)

From Stdlib Require Import ZArith List Bool Lia Sorted.
From stdpp Require Import base option list gmap.
Import ListNotations.

Local Open Scope Z_scope.

(** ** Machine arithmetic *)

Definition u8 (x : Z) : Z := x mod 2 ^ 8.
Definition u16 (x : Z) : Z := x mod 2 ^ 16.
Definition u32 (x : Z) : Z := x mod 2 ^ 32.
Definition u64 (x : Z) : Z := x mod 2 ^ 64.

(** A 32-bit [int], two's complement. *)
Definition s32 (x : Z) : Z := (x + 2 ^ 31) mod 2 ^ 32 - 2 ^ 31.

(** Errno values (the functions return them negated). *)
Definition ENOENT : Z := 2.
Definition ENOMEM : Z := 12.
Definition EEXIST : Z := 17.
Definition EINVAL : Z := 22.

(** ** Addresses (linux/in.h, linux/in6.h, nat64/comm/types.h) *)

Definition in_addr := list Z.
Definition in6_addr := list Z.

(** The kernel's generic [memcmp]: the difference of the first pair of
    bytes that differ, zero when there is none within [count] bytes. *)
Fixpoint memcmp (cs ct : list Z) (count : nat) : Z :=
  match count with
  | O => 0
  | S n =>
      let res := nth 0 cs 0 - nth 0 ct 0 in
      if res =? 0 then memcmp (tl cs) (tl ct) n else res
  end.

(** types.h: [ipv4_addr_cmp] is [memcmp] over [sizeof(struct in_addr)]. *)
Definition ipv4_addr_cmp (a1 a2 : in_addr) : Z := memcmp a1 a2 4.

(** net/ipv6.h: [ipv6_addr_cmp] is [memcmp] over 16 bytes. *)
Definition ipv6_addr_cmp (a1 a2 : in6_addr) : Z := memcmp a1 a2 16.

Record ipv6_prefix := mk_prefix {
  prefix_address : in6_addr;
  prefix_len : Z
}.

(** net/ipv6.h: [ipv6_prefix_equal] compares the first [prefixlen] bits. *)
Definition ipv6_prefix_equal (a1 a2 : in6_addr) (prefixlen : Z) : bool :=
  let whole := Z.to_nat (prefixlen / 8) in
  let bits := prefixlen mod 8 in
  (memcmp a1 a2 whole =? 0) &&
  ((bits =? 0) ||
   (Z.shiftr (nth whole a1 0) (8 - bits) =? Z.shiftr (nth whole a2 0) (8 - bits))).

Record ipv4_tuple_address := mk_addr4 {
  a4_address : in_addr;
  a4_l4_id : Z
}.

Record ipv6_tuple_address := mk_addr6 {
  a6_address : in6_addr;
  a6_l4_id : Z
}.

(** A pair of transport addresses: [remote] is the peer as seen on that
    side, [local] is the address the translator shows on that side. *)
Record ipv4_pair := mk_pair4 {
  p4_remote : ipv4_tuple_address;
  p4_local : ipv4_tuple_address
}.

Record ipv6_pair := mk_pair6 {
  p6_local : ipv6_tuple_address;
  p6_remote : ipv6_tuple_address
}.

Inductive l3_protocol := L3PROTO_IPV6 | L3PROTO_IPV4.
Inductive l4_protocol := L4PROTO_NONE | L4PROTO_TCP | L4PROTO_UDP | L4PROTO_ICMP.

Global Instance l4_protocol_eq_dec : EqDecision l4_protocol.
Proof. solve_decision. Defined.

Global Instance l3_protocol_eq_dec : EqDecision l3_protocol.
Proof. solve_decision. Defined.

(** The address of a tuple is a union of the two families in C. *)
Inductive tuple_ip := Ip4 (a : in_addr) | Ip6 (a : in6_addr).

Definition ipv4_of (a : tuple_ip) : in_addr :=
  match a with Ip4 x => x | Ip6 x => firstn 4 x end.

Definition ipv6_of (a : tuple_ip) : in6_addr :=
  match a with Ip6 x => x | Ip4 x => x end.

Record tuple_addr := mk_tuple_addr {
  t_addr : tuple_ip;
  t_l4_id : Z
}.

Record tuple := mk_tuple {
  t_src : tuple_addr;
  t_dst : tuple_addr;
  t_l3_proto : l3_protocol;
  t_l4_proto : l4_protocol
}.

(** types.h: the verdict of a processing step. *)
Inductive verdict := VER_CONTINUE | VER_ACCEPT | VER_DROP | VER_STOLEN.

(** ** RFC 6052 (nat64/mod/rfc6052.h) *)

(** constants.h: [POOL6_PREFIX_LENGTHS]. *)
Definition POOL6_PREFIX_LENGTHS : list Z := [32; 40; 48; 56; 64; 96].

(** The positions of the four bytes of the embedded IPv4 address for each
    prefix length (RFC 6052, section 2.2); byte 8 is the "u" byte. *)
Definition v4_positions (len : Z) : option (list nat) :=
  if len =? 32 then Some [4; 5; 6; 7]%nat
  else if len =? 40 then Some [5; 6; 7; 9]%nat
  else if len =? 48 then Some [6; 7; 9; 10]%nat
  else if len =? 56 then Some [7; 9; 10; 11]%nat
  else if len =? 64 then Some [9; 10; 11; 12]%nat
  else if len =? 96 then Some [12; 13; 14; 15]%nat
  else None.

(** Modelled from the spec: rfc6052.c is not among the sources; only the
    declaration of [addr_6to4] is.  "Strips prefix from v6 per the prefix
    length table; returns a 32-bit v4 address.  Fails-with InvalidPrefix if
    prefix length is not in {32,40,48,56,64,96}."  [None] is the failure. *)
Definition addr_6to4 (src : in6_addr) (prefix : ipv6_prefix) : option in_addr :=
  match v4_positions (prefix_len prefix) with
  | Some pos => Some (map (fun i => nth i src 0) pos)
  | None => None
  end.

(** Modelled from the spec: rfc6052.c is not among the sources.  "Inserts 32
    bits of v4 into prefix, zeroing the RFC 6052 u byte for /64."  The
    result starts as the prefix's address and receives the four bytes. *)
Definition addr_4to6 (src : in_addr) (prefix : ipv6_prefix) : option in6_addr :=
  match v4_positions (prefix_len prefix) with
  | Some pos =>
      let base :=
        if prefix_len prefix =? 64 then <[8%nat := 0]> (prefix_address prefix)
        else prefix_address prefix in
      Some (fold_right (fun '(i, b) acc => <[i := b]> acc) base (combine pos src))
  | None => None
  end.

(** "a lies within p": the first [prefix_len] bits agree. *)
Definition addr_in_prefix (a : in6_addr) (p : ipv6_prefix) : bool :=
  ipv6_prefix_equal (prefix_address p) a (prefix_len p).

(** The bytes of [a] that are neither prefix nor embedded IPv4 address (the
    u byte and the suffix) are those [addr_4to6] writes. *)
Definition plain_embedding (a : in6_addr) (p : ipv6_prefix) : bool :=
  match addr_4to6 [0; 0; 0; 0] p, v4_positions (prefix_len p) with
  | Some z, Some pos =>
      forallb (fun i => (i <? Z.to_nat (prefix_len p / 8))%nat ||
                        existsb (Nat.eqb i) pos ||
                        (nth i a 0 =? nth i z 0))
              (seq 0 16)
  | _, _ => false
  end.

(** ** Reading packets *)

(** A big-endian 16-bit field at byte offset [off]. *)
Definition be16_at (p : list Z) (off : nat) : Z :=
  nth off p 0 * 256 + nth (S off) p 0.

Definition bytes_at (p : list Z) (off n : nat) : list Z :=
  firstn n (skipn off p).

(** [cpu_to_be16] of a value, as its two bytes. *)
Definition be16_bytes (x : Z) : list Z := [u16 x / 256; u16 x mod 256].

(** Overwrite the bytes of [p] from offset [off] on with [bs]. *)
Definition write_at (off : nat) (bs p : list Z) : list Z :=
  fold_right (fun '(i, b) acc => <[i := b]> acc) p (combine (seq off (length bs)) bs).

(** What the hooks hand to the module: the protocols found by the
    validation code of packet.c, the bytes from the network header on and
    the bytes from the transport header on. *)
Record sk_buff := mk_skb {
  skb_l3_proto : l3_protocol;
  skb_l4_proto : l4_protocol;
  skb_network : list Z;
  skb_transport : list Z
}.

Definition IPPROTO_ICMP : Z := 1.
Definition IPPROTO_TCP : Z := 6.
Definition IPPROTO_UDP : Z := 17.
Definition NEXTHDR_TCP : Z := 6.
Definition NEXTHDR_UDP : Z := 17.
Definition NEXTHDR_FRAGMENT : Z := 44.
Definition NEXTHDR_ICMP : Z := 58.

(** struct iphdr *)
Definition iphdr_ihl (h : list Z) : Z := Z.land (nth 0 h 0) 15.
Definition iphdr_frag_off (h : list Z) : Z := be16_at h 6.
Definition iphdr_protocol (h : list Z) : Z := nth 9 h 0.
Definition iphdr_saddr (h : list Z) : in_addr := bytes_at h 12 4.
Definition iphdr_daddr (h : list Z) : in_addr := bytes_at h 16 4.

(** struct ipv6hdr *)
Definition ipv6hdr_nexthdr (h : list Z) : Z := nth 6 h 0.
Definition ipv6hdr_saddr (h : list Z) : in6_addr := bytes_at h 8 16.
Definition ipv6hdr_daddr (h : list Z) : in6_addr := bytes_at h 24 16.

(** struct udphdr and struct tcphdr start with the two ports. *)
Definition l4_source (h : list Z) : Z := be16_at h 0.
Definition l4_dest (h : list Z) : Z := be16_at h 2.

(** struct icmphdr and struct icmp6hdr: type, then the echo identifier. *)
Definition icmp_type (h : list Z) : Z := nth 0 h 0.
Definition icmp_echo_id (h : list Z) : Z := be16_at h 4.

(** ** Step 1: the incoming tuple (mod/determine_incoming_tuple.c) *)

Definition set_src (t : tuple) (a : tuple_ip) (l4 : Z) : tuple :=
  mk_tuple (mk_tuple_addr a l4) (t_dst t) (t_l3_proto t) (t_l4_proto t).
Definition set_dst (t : tuple) (a : tuple_ip) (l4 : Z) : tuple :=
  mk_tuple (t_src t) (mk_tuple_addr a l4) (t_l3_proto t) (t_l4_proto t).
Definition set_src_addr (t : tuple) (a : tuple_ip) : tuple :=
  set_src t a (t_l4_id (t_src t)).
Definition set_dst_addr (t : tuple) (a : tuple_ip) : tuple :=
  set_dst t a (t_l4_id (t_dst t)).
Definition set_src_l4 (t : tuple) (l4 : Z) : tuple :=
  set_src t (t_addr (t_src t)) l4.
Definition set_dst_l4 (t : tuple) (l4 : Z) : tuple :=
  set_dst t (t_addr (t_dst t)) l4.
Definition set_l3_proto (t : tuple) (p : l3_protocol) : tuple :=
  mk_tuple (t_src t) (t_dst t) p (t_l4_proto t).
Definition set_l4_proto (t : tuple) (p : l4_protocol) : tuple :=
  mk_tuple (t_src t) (t_dst t) (t_l3_proto t) p.

(** [ipv4_extract_l4_hdr]: the data after the header and its options. *)
Definition ipv4_extract_l4_hdr (hdr_ipv4 : list Z) : list Z :=
  skipn (Z.to_nat (Z.shiftl (iphdr_ihl hdr_ipv4) 2)) hdr_ipv4.

(** The packet carried by an ICMP error: what follows the 8-byte ICMP
    header ([icmp_hdr(skb) + 1], [icmp6_hdr(skb) + 1]). *)
Definition inner_packet (skb : sk_buff) : list Z := skipn 8 (skb_transport skb).

Section DetermineIncomingTuple.

(** [is_icmp4_info], [is_icmp4_error], [is_icmp6_info] and
    [is_icmp6_error] are declared in types.h and [hdr_iterator_last] in
    ipv6_hdr_iterator.h; their bodies are not among the sources, so the
    step is parameterised by them.  The iterator starts at the next-header
    value and the data that follows the fixed IPv6 header and yields the
    type and the data of the last header of the chain. *)
Variables is_icmp4_info is_icmp4_error is_icmp6_info is_icmp6_error : Z -> bool.
Variable hdr_iterator_last : Z * list Z -> Z * list Z.

Definition ipv4_udp (skb : sk_buff) (tuple4 : tuple) : verdict * tuple :=
  let t := set_src tuple4 (Ip4 (iphdr_saddr (skb_network skb))) (l4_source (skb_transport skb)) in
  let t := set_dst t (Ip4 (iphdr_daddr (skb_network skb))) (l4_dest (skb_transport skb)) in
  (VER_CONTINUE, set_l4_proto (set_l3_proto t L3PROTO_IPV4) L4PROTO_UDP).

Definition ipv4_tcp (skb : sk_buff) (tuple4 : tuple) : verdict * tuple :=
  let t := set_src tuple4 (Ip4 (iphdr_saddr (skb_network skb))) (l4_source (skb_transport skb)) in
  let t := set_dst t (Ip4 (iphdr_daddr (skb_network skb))) (l4_dest (skb_transport skb)) in
  (VER_CONTINUE, set_l4_proto (set_l3_proto t L3PROTO_IPV4) L4PROTO_TCP).

Definition ipv4_icmp_info (skb : sk_buff) (tuple4 : tuple) : verdict * tuple :=
  let t := set_src tuple4 (Ip4 (iphdr_saddr (skb_network skb))) (icmp_echo_id (skb_transport skb)) in
  let t := set_dst t (Ip4 (iphdr_daddr (skb_network skb))) (t_l4_id (t_src t)) in
  (VER_CONTINUE, set_l4_proto (set_l3_proto t L3PROTO_IPV4) L4PROTO_ICMP).

Definition ipv4_icmp_err (skb : sk_buff) (tuple4 : tuple) : verdict * tuple :=
  let inner_ipv4 := inner_packet skb in
  let t := set_src_addr tuple4 (Ip4 (iphdr_daddr inner_ipv4)) in
  let t := set_dst_addr t (Ip4 (iphdr_saddr inner_ipv4)) in
  let protocol := iphdr_protocol inner_ipv4 in
  if protocol =? IPPROTO_UDP then
    let inner_udp := ipv4_extract_l4_hdr inner_ipv4 in
    let t := set_src_l4 t (l4_dest inner_udp) in
    let t := set_dst_l4 t (l4_source inner_udp) in
    (VER_CONTINUE, set_l3_proto (set_l4_proto t L4PROTO_UDP) L3PROTO_IPV4)
  else if protocol =? IPPROTO_TCP then
    let inner_tcp := ipv4_extract_l4_hdr inner_ipv4 in
    let t := set_src_l4 t (l4_dest inner_tcp) in
    let t := set_dst_l4 t (l4_source inner_tcp) in
    (VER_CONTINUE, set_l3_proto (set_l4_proto t L4PROTO_TCP) L3PROTO_IPV4)
  else if protocol =? IPPROTO_ICMP then
    let inner_icmp := ipv4_extract_l4_hdr inner_ipv4 in
    if is_icmp4_error (icmp_type inner_icmp) then (VER_DROP, t)
    else
      let t := set_src_l4 t (icmp_echo_id inner_icmp) in
      let t := set_dst_l4 t (t_l4_id (t_src t)) in
      (VER_CONTINUE, set_l3_proto (set_l4_proto t L4PROTO_ICMP) L3PROTO_IPV4)
  else (VER_DROP, t).

Definition ipv6_udp (skb : sk_buff) (tuple6 : tuple) : verdict * tuple :=
  let t := set_src tuple6 (Ip6 (ipv6hdr_saddr (skb_network skb))) (l4_source (skb_transport skb)) in
  let t := set_dst t (Ip6 (ipv6hdr_daddr (skb_network skb))) (l4_dest (skb_transport skb)) in
  (VER_CONTINUE, set_l4_proto (set_l3_proto t L3PROTO_IPV6) L4PROTO_UDP).

Definition ipv6_tcp (skb : sk_buff) (tuple6 : tuple) : verdict * tuple :=
  let t := set_src tuple6 (Ip6 (ipv6hdr_saddr (skb_network skb))) (l4_source (skb_transport skb)) in
  let t := set_dst t (Ip6 (ipv6hdr_daddr (skb_network skb))) (l4_dest (skb_transport skb)) in
  (VER_CONTINUE, set_l4_proto (set_l3_proto t L3PROTO_IPV6) L4PROTO_TCP).

Definition ipv6_icmp_info (skb : sk_buff) (tuple6 : tuple) : verdict * tuple :=
  let t := set_src tuple6 (Ip6 (ipv6hdr_saddr (skb_network skb))) (icmp_echo_id (skb_transport skb)) in
  let t := set_dst t (Ip6 (ipv6hdr_daddr (skb_network skb))) (t_l4_id (t_src t)) in
  (VER_CONTINUE, set_l4_proto (set_l3_proto t L3PROTO_IPV6) L4PROTO_ICMP).

(** [HDR_ITERATOR_INIT(inner_ipv6)] followed by [hdr_iterator_last]. *)
Definition inner6_last_header (inner_ipv6 : list Z) : Z * list Z :=
  hdr_iterator_last (ipv6hdr_nexthdr inner_ipv6, skipn 40 inner_ipv6).

Definition ipv6_icmp_err (skb : sk_buff) (tuple6 : tuple) : verdict * tuple :=
  let inner_ipv6 := inner_packet skb in
  let t := set_src_addr tuple6 (Ip6 (ipv6hdr_daddr inner_ipv6)) in
  let t := set_dst_addr t (Ip6 (ipv6hdr_saddr inner_ipv6)) in
  let '(hdr_type, data) := inner6_last_header inner_ipv6 in
  if hdr_type =? NEXTHDR_UDP then
    let t := set_src_l4 t (l4_dest data) in
    let t := set_dst_l4 t (l4_source data) in
    (VER_CONTINUE, set_l3_proto (set_l4_proto t L4PROTO_UDP) L3PROTO_IPV6)
  else if hdr_type =? NEXTHDR_TCP then
    let t := set_src_l4 t (l4_dest data) in
    let t := set_dst_l4 t (l4_source data) in
    (VER_CONTINUE, set_l3_proto (set_l4_proto t L4PROTO_TCP) L3PROTO_IPV6)
  else if hdr_type =? NEXTHDR_ICMP then
    if is_icmp6_error (icmp_type data) then (VER_DROP, t)
    else
      let t := set_src_l4 t (icmp_echo_id data) in
      let t := set_dst_l4 t (t_l4_id (t_src t)) in
      (VER_CONTINUE, set_l3_proto (set_l4_proto t L4PROTO_ICMP) L3PROTO_IPV6)
  else (VER_DROP, t).

Definition determine_in_tuple (skb : sk_buff) (in_tuple : tuple) : verdict * tuple :=
  match skb_l3_proto skb with
  | L3PROTO_IPV4 =>
      match skb_l4_proto skb with
      | L4PROTO_UDP => ipv4_udp skb in_tuple
      | L4PROTO_TCP => ipv4_tcp skb in_tuple
      | L4PROTO_ICMP =>
          let icmp4 := skb_transport skb in
          if is_icmp4_info (icmp_type icmp4) then ipv4_icmp_info skb in_tuple
          else if is_icmp4_error (icmp_type icmp4) then ipv4_icmp_err skb in_tuple
          else (VER_DROP, in_tuple)
      | L4PROTO_NONE => (VER_CONTINUE, in_tuple)
      end
  | L3PROTO_IPV6 =>
      match skb_l4_proto skb with
      | L4PROTO_UDP => ipv6_udp skb in_tuple
      | L4PROTO_TCP => ipv6_tcp skb in_tuple
      | L4PROTO_ICMP =>
          let icmp6 := skb_transport skb in
          if is_icmp6_info (icmp_type icmp6) then ipv6_icmp_info skb in_tuple
          else if is_icmp6_error (icmp_type icmp6) then ipv6_icmp_err skb in_tuple
          else (VER_DROP, in_tuple)
      | L4PROTO_NONE => (VER_CONTINUE, in_tuple)
      end
  end.

End DetermineIncomingTuple.

(** ** Step 4: translation and fragmentation (mod/translate_packet.c) *)

(** config_proto.h: [struct translate_config].  [mtu_plateaus] is a
    pointer to an array of 16-bit integers: [None] is the null pointer and
    [Some l] the array it points to. *)
Record translate_config := mk_translate_config {
  reset_traffic_class : Z;
  reset_tos : Z;
  new_tos : Z;
  df_always_on : Z;
  build_ipv4_id : Z;
  lower_mtu_fail : Z;
  mtu_plateau_count : Z;
  mtu_plateaus : option (list Z);
  min_ipv6_mtu : Z
}.

(** packet.h: [struct fragment].  [frag_skb] holds the bytes of the skb
    from its network header (where [skb->data] points once the skb is
    built) to its tail, so [skb->len] is its length; the [ptr] members point
    into it and are not kept. *)
Record fragment := mk_fragment {
  frag_skb : list Z;
  frag_mark : Z;
  l3_hdr_proto : l3_protocol;
  l3_hdr_len : Z;
  l4_hdr_proto : l4_protocol;
  l4_hdr_len : Z;
  payload_len : Z
}.

Definition skb_len (f : fragment) : Z := Z.of_nat (length (frag_skb f)).

(** packet.h: [struct packet]; [first_fragment] is the position of the
    fragment it points to in [fragments]. *)
Record packet := mk_packet {
  pkt_fragments : list fragment;
  pkt_first_fragment : option nat
}.

Definition IP_DF : Z := 0x4000.
Definition IP_MF : Z := 0x2000.
Definition IP_OFFSET : Z := 0x1FFF.
Definition IP6_MF : Z := 0x0001.

(** packet.h *)
Definition is_dont_fragment_set (hdr : list Z) : bool :=
  negb (Z.shiftr (Z.land (iphdr_frag_off hdr) IP_DF) 14 =? 0).

(** [struct frag_hdr]: nexthdr, reserved, frag_off (2), identification (4). *)
Definition frag_hdr_frag_off (hdr : list Z) : Z := be16_at hdr 2.
Definition frag_hdr_identification (hdr : list Z) : list Z := bytes_at hdr 4 4.

Definition is_more_fragments_set_ipv6 (hdr : list Z) : bool :=
  negb (Z.land (frag_hdr_frag_off hdr) IP6_MF =? 0).

Definition get_fragment_offset_ipv6 (hdr : list Z) : Z :=
  Z.land (frag_hdr_frag_off hdr) 0xFFF8.

Definition get_fragment_offset_ipv4 (hdr : list Z) : Z :=
  u16 (Z.shiftl (Z.land (iphdr_frag_off hdr) IP_OFFSET) 3).

Definition build_ipv6_frag_off_field (frag_offset : Z) (mf : bool) : Z :=
  Z.lor (Z.land frag_offset 0xFFF8) (Z.shiftl (if mf then 1 else 0) 0).

(** [sizeof(struct ipv6hdr)] and [sizeof(struct frag_hdr)]. *)
Definition sizeof_ipv6hdr : Z := 40.
Definition sizeof_frag_hdr : Z := 8.

(** [set_frag_headers]: [hdr6_old] and [hdr6_new] are the bytes of the two
    packets from their IPv6 headers on; [same] tells whether they are the
    same buffer. *)
Definition set_frag_headers (hdr6_old hdr6_new : list Z) (same : bool)
    (packet_size offset : Z) (mf : bool) : list Z :=
  let new := if same then hdr6_new else write_at 0 (firstn 40 hdr6_old) hdr6_new in
  let new := write_at 4 (be16_bytes (packet_size - sizeof_ipv6hdr)) new in
  let new := <[40%nat := nth 40 hdr6_old 0]> new in
  let new := <[41%nat := 0]> new in
  let new := write_at 42 (be16_bytes (build_ipv6_frag_off_field offset mf)) new in
  write_at 44 (frag_hdr_identification (skipn 40 hdr6_old)) new.

(** The effects of icmp_wrapper.h's [icmp64_send]: the error asked for, its
    [info] argument and the packet it answers. *)
Inductive icmp_error_code :=
  | ICMPERR_SILENT | ICMPERR_ADDR_UNREACHABLE | ICMPERR_PORT_UNREACHABLE
  | ICMPERR_PROTO_UNREACHABLE | ICMPERR_HOP_LIMIT | ICMPERR_FRAG_NEEDED
  | ICMPERR_HDR_FIELD.

Record icmp_sent := mk_icmp_sent {
  icmp_error : icmp_error_code;
  icmp_info : Z;
  icmp_about : fragment
}.

(** One turn of the loop of [divide]: the number of bytes it copies and the
    fragment it builds.  [current_p] is the offset of the read pointer from
    the network header of [frag]'s skb, which is where [skb->data] points. *)
Definition divide_piece (frag : fragment)
    (headers_size payload_max_size original_fragment_offset : Z) (original_mf : bool)
    (current_p : Z) : Z * fragment :=
  let tail := skb_len frag in
  let is_last := tail - current_p <=? payload_max_size in
  let actual_payload_size :=
    u16 (if is_last then tail - current_p else Z.land payload_max_size 0xFFF8) in
  let actual_total_size := u16 (headers_size + actual_payload_size) in
  let new_skb := repeat 0 (Z.to_nat actual_total_size) in
  let new_skb :=
    set_frag_headers (frag_skb frag) new_skb false actual_total_size
      (u16 (original_fragment_offset + (current_p - 0 - headers_size)))
      (if is_last then original_mf else true) in
  let new_skb :=
    write_at (Z.to_nat headers_size)
      (bytes_at (frag_skb frag) (Z.to_nat current_p) (Z.to_nat actual_payload_size))
      new_skb in
  (actual_payload_size,
   mk_fragment new_skb (frag_mark frag) (l3_hdr_proto frag) (l3_hdr_len frag)
     L4PROTO_NONE 0 actual_payload_size).

(** The loop of [divide].  [alloc_skb n] and [frag_alloc n] tell whether
    [alloc_skb] and the allocation of [frag_create_empty] succeed in the
    turn that follows [n] finished ones; either failure ends the loop with
    [VER_DROP], the pieces built so far staying linked.  The loop need not
    terminate (a turn may copy no byte): [None] is "out of fuel". *)
Fixpoint divide_loop (fuel : nat) (alloc_skb frag_alloc : nat -> bool) (frag : fragment)
    (headers_size payload_max_size original_fragment_offset : Z) (original_mf : bool)
    (current_p : Z) (new_fragments : list fragment) : option (verdict * list fragment) :=
  if current_p <? skb_len frag then
    match fuel with
    | O => None
    | S fuel' =>
        if negb (alloc_skb (length new_fragments)) then Some (VER_DROP, new_fragments)
        else
          let '(actual_payload_size, new_fragment) :=
            divide_piece frag headers_size payload_max_size original_fragment_offset
              original_mf current_p in
          if negb (frag_alloc (length new_fragments)) then Some (VER_DROP, new_fragments)
          else
            divide_loop fuel' alloc_skb frag_alloc frag headers_size payload_max_size
              original_fragment_offset original_mf
              (current_p + actual_payload_size) (new_fragments ++ [new_fragment])
    end
  else Some (VER_CONTINUE, new_fragments).

(** [divide]: [frag] is linked at the tail of [list_] first and the pieces
    cut from it follow; on success [frag] itself is truncated where it
    stands.  The fuel is more than the number of bytes to copy. *)
Definition divide (config : translate_config) (alloc_skb frag_alloc : nat -> bool)
    (frag : fragment) (list_ : list fragment) : option (verdict * list fragment) :=
  let min_ipv6_mtu := Z.land (min_ipv6_mtu config) 0xFFF8 in
  let headers_size := sizeof_ipv6hdr + sizeof_frag_hdr in
  let payload_max_size := u16 (min_ipv6_mtu - headers_size) in
  let frag_header := skipn 40 (frag_skb frag) in
  let original_fragment_offset := get_fragment_offset_ipv6 frag_header in
  let original_mf := is_more_fragments_set_ipv6 frag_header in
  let first_skb :=
    set_frag_headers (frag_skb frag) (frag_skb frag) true min_ipv6_mtu
      original_fragment_offset true in
  let frag1 :=
    mk_fragment first_skb (frag_mark frag) (l3_hdr_proto frag) (l3_hdr_len frag)
      (l4_hdr_proto frag) (l4_hdr_len frag) (payload_len frag) in
  match divide_loop (S (length first_skb)) alloc_skb frag_alloc frag1 headers_size
          payload_max_size original_fragment_offset original_mf min_ipv6_mtu [] with
  | None => None
  | Some (VER_CONTINUE, new_fragments) =>
      let frag2 :=
        mk_fragment (firstn (Z.to_nat min_ipv6_mtu) first_skb) (frag_mark frag)
          (l3_hdr_proto frag) (l3_hdr_len frag) (l4_hdr_proto frag) (l4_hdr_len frag)
          (min_ipv6_mtu - l3_hdr_len frag - l4_hdr_len frag) in
      Some (VER_CONTINUE, list_ ++ frag2 :: new_fragments)
  | Some (v, new_fragments) => Some (v, list_ ++ frag1 :: new_fragments)
  end.

(** The fragment header of a fragment this module builds: what follows
    the IPv6 header ([hdr6 + 1]). *)
Definition fragment_header (f : fragment) : list Z := skipn 40 (frag_skb f).

(** [struct translation_steps]: the four functions of a pipeline.  An
    outgoing fragment under construction is a [fragment] as well. *)
Record translation_steps := mk_steps {
  l3_hdr_function : tuple -> fragment -> fragment -> verdict * fragment;
  l4_hdr_and_payload_function : tuple -> fragment -> fragment -> verdict * fragment;
  l3_post_function : fragment -> verdict * fragment;
  l4_post_function : tuple -> packet -> packet -> verdict * packet
}.

Definition frag_create_empty : fragment :=
  mk_fragment [] 0 L3PROTO_IPV6 0 L4PROTO_NONE 0 0.

Section TranslatePacket.

(** The table of pipelines is filled with functions of
    translate_packet_6to4.c and translate_packet_4to6.c, and
    [frag_create_skb] and [get_extension_header] belong to packet.c and
    ipv6_hdr_iterator.c; none of them is among the sources. *)
Variable steps : l3_protocol -> l4_protocol -> translation_steps.
Variable frag_create_skb : fragment -> option fragment.
Variable get_extension_header : list Z -> Z -> option (list Z).

(** [translate]: [None] stands for [*out = NULL]; [alloc] tells whether
    the allocation of [frag_create_empty] succeeds. *)
Definition translate (alloc : bool) (tuple : tuple) (in_ : fragment)
    (steps : translation_steps) : verdict * option fragment :=
  if negb alloc then (VER_DROP, None)
  else
    let out := frag_create_empty in
    let '(result, out) := l3_hdr_function steps tuple in_ out in
    match result with
    | VER_CONTINUE =>
        let '(result, out) := l4_hdr_and_payload_function steps tuple in_ out in
        match result with
        | VER_CONTINUE =>
            match frag_create_skb out with
            | None => (VER_DROP, None)
            | Some out =>
                let out :=
                  mk_fragment (frag_skb out) (frag_mark in_) (l3_hdr_proto out)
                    (l3_hdr_len out) (l4_hdr_proto out) (l4_hdr_len out) (payload_len out) in
                let '(result, out) := l3_post_function steps out in
                match result with
                | VER_CONTINUE => (result, Some out)
                | _ => (result, None)
                end
            end
        | _ => (result, None)
        end
    | _ => (result, None)
    end.

(** [translate_fragment]: the verdict, the outgoing packet and the ICMP
    errors sent.  [None] when [divide] does not return.  [alloc] is the
    allocation of [translate], [alloc_skb] and [frag_alloc] are those of
    [divide]. *)
Definition translate_fragment (config : translate_config) (alloc : bool)
    (alloc_skb frag_alloc : nat -> bool)
    (in_ : fragment) (tuple : tuple) (pkt_out : packet)
    : option (verdict * packet * list icmp_sent) :=
  match translate alloc tuple in_ (steps (l3_hdr_proto in_) (l4_hdr_proto in_)) with
  | (VER_CONTINUE, Some out) =>
      let here := Some (length (pkt_fragments pkt_out)) in
      let first :=
        match l3_hdr_proto out with
        | L3PROTO_IPV6 =>
            match get_extension_header (frag_skb out) NEXTHDR_FRAGMENT with
            | None => here
            | Some hdr_frag =>
                if get_fragment_offset_ipv6 hdr_frag =? 0 then here
                else pkt_first_fragment pkt_out
            end
        | L3PROTO_IPV4 =>
            if get_fragment_offset_ipv4 (frag_skb out) =? 0 then here
            else pkt_first_fragment pkt_out
        end in
      match l3_hdr_proto in_ with
      | L3PROTO_IPV4 =>
          let min_ipv6_mtu := min_ipv6_mtu config in
          if skb_len out >? min_ipv6_mtu then
            if is_dont_fragment_set (frag_skb in_) then
              Some (VER_DROP, mk_packet (pkt_fragments pkt_out) first,
                    [mk_icmp_sent ICMPERR_FRAG_NEEDED (u32 (min_ipv6_mtu - 20)) in_])
            else
              match divide config alloc_skb frag_alloc out (pkt_fragments pkt_out) with
              | None => None
              | Some (result, fragments) => Some (result, mk_packet fragments first, [])
              end
          else Some (VER_CONTINUE, mk_packet (pkt_fragments pkt_out ++ [out]) first, [])
      | L3PROTO_IPV6 =>
          Some (VER_CONTINUE, mk_packet (pkt_fragments pkt_out ++ [out]) first, [])
      end
  | (result, _) => Some (result, pkt_out, [])
  end.

End TranslatePacket.

(** ** The kernel around the module *)

(** What a call reads from the kernel: the tick counter, the tick rate and
    whether the allocator, the IPv6 routing table and the IPv6 output path
    serve the call.  Time stands still during a call. *)
Record kernel := mk_kernel {
  jiffies : Z;
  HZ : Z;
  kmalloc_ok : bool;
  route_ipv6_ok : bool;
  ip6_local_out_ok : bool
}.

(** linux/jiffies.h, [BITS_PER_LONG == 64]: [(long)(a - b) < 0]. *)
Definition time_before (a b : Z) : bool := 2 ^ 63 <=? u64 (a - b).

(** linux/jiffies.h, [BITS_PER_LONG == 64]: [((LONG_MAX >> 1) - 1)]. *)
Definition MAX_JIFFY_OFFSET : Z := (2 ^ 63 - 1) / 2 - 1.

(** kernel/time.c, for a tick rate that divides 1000 (100, 250, 1000): a
    duration in milliseconds is rounded up to whole ticks. *)
Definition msecs_to_jiffies (k : kernel) (m : Z) : Z :=
  let m := u32 m in
  if 2 ^ 31 <=? m then MAX_JIFFY_OFFSET
  else (m + 1000 / HZ k - 1) / (1000 / HZ k).

(** constants.h *)
Definition UDP_MIN : Z := 2 * 60.
Definition UDP_DEFAULT : Z := 5 * 60.
Definition TCP_EST : Z := 2 * 60 * 60.
Definition TCP_TRANS : Z := 4 * 60.
Definition TCP_INCOMING_SYN : Z := 6.
Definition ICMP_DEFAULT : Z := 1 * 60.
Definition MIN_TIMER_SLEEP : Z := 255.

(** ** Session database (mod/session_db.c) *)

Inductive tcp_state :=
  | CLOSED | V4_INIT | V6_INIT | ESTABLISHED
  | V4_FIN_RCV | V6_FIN_RCV | V4_FIN_V6_FIN_RCV | TRANS.

(** bib_db.h is not among the sources; these are the members of
    [struct bib_entry] the session database reads. *)
Record bib_entry := mk_bib {
  bib_ipv4 : ipv4_tuple_address;
  bib_ipv6 : ipv6_tuple_address;
  bib_l4_proto : l4_protocol;
  bib_is_static : bool
}.

(** [struct session_entry]: the members session_db.c reads and writes.
    [bib] is the pointer to the parent, [None] when it is NULL. *)
Record session_entry := mk_session {
  ipv6 : ipv6_pair;
  ipv4 : ipv4_pair;
  update_time : Z;
  bib : option bib_entry;
  l4_proto : l4_protocol;
  state : tcp_state
}.

(** Modelled from the spec: session.c, which defines [session_create], is
    not among the sources.  A session entry is "{v6-pair, v4-pair, L4
    protocol, TCP-state, update_time, parent BIB, expirer}"; a new one has
    the pairs and the protocol it is created with and no parent yet. *)
Definition session_create (k : kernel) (pair4 : ipv4_pair) (pair6 : ipv6_pair)
    (l4 : l4_protocol) : session_entry :=
  mk_session pair6 pair4 (jiffies k) None l4 CLOSED.

Definition set_state (s : session_entry) (st : tcp_state) : session_entry :=
  mk_session (ipv6 s) (ipv4 s) (update_time s) (bib s) (l4_proto s) st.
Definition set_update_time (s : session_entry) (t : Z) : session_entry :=
  mk_session (ipv6 s) (ipv4 s) t (bib s) (l4_proto s) (state s).
Definition set_bib (s : session_entry) (b : bib_entry) : session_entry :=
  mk_session (ipv6 s) (ipv4 s) (update_time s) (Some b) (l4_proto s) (state s).

(** *** The two indexes of a table *)

(** A tree of the kernel's rbtree library, without its colours: the
    rebalancing keeps the order of the nodes, which is all the database
    observes besides the path of a search.  A node is the hook embedded in
    the session entry it names. *)
Inductive rb_node :=
  | Leaf
  | Node (rb_left : rb_node) (entry : nat) (rb_right : rb_node).

Definition null_session : session_entry :=
  mk_session (mk_pair6 (mk_addr6 [] 0) (mk_addr6 [] 0))
             (mk_pair4 (mk_addr4 [] 0) (mk_addr4 [] 0)) 0 None L4PROTO_NONE CLOSED.

(** Reading through a session pointer. *)
Definition deref (heap : gmap nat session_entry) (p : nat) : session_entry :=
  default null_session (heap !! p).

(** The nodes from [rb_first] on, following [rb_next]. *)
Fixpoint rb_inorder (t : rb_node) : list nat :=
  match t with
  | Leaf => []
  | Node l x r => rb_inorder l ++ x :: rb_inorder r
  end.

Fixpoint rb_join (l r : rb_node) : rb_node :=
  match l with
  | Leaf => r
  | Node a x b => Node a x (rb_join b r)
  end.

(** [rb_erase(&session->hook, root)]. *)
Fixpoint rb_erase (session : nat) (root : rb_node) : rb_node :=
  match root with
  | Leaf => Leaf
  | Node l x r =>
      if decide (x = session) then rb_join l r
      else Node (rb_erase session l) x (rb_erase session r)
  end.

(** The nodes met from [node] by [rb_prev] (nearest first) and those met
    by [rb_next]. *)
Fixpoint rb_around_list (node : nat) (seen : list nat) (l : list nat)
    : list nat * list nat :=
  match l with
  | [] => (seen, [])
  | x :: rest =>
      if decide (x = node) then (seen, rest)
      else rb_around_list node (x :: seen) rest
  end.

Definition rb_around (root : rb_node) (node : nat) : list nat * list nat :=
  rb_around_list node [] (rb_inorder root).

Section Rbtree.

Context {K : Type}.
Variable heap : gmap nat session_entry.
Variable compare_cb : session_entry -> K -> Z.

(** Modelled from the spec: rbtree.h, which defines the macros
    [rbtree_find], [rbtree_find_node] and [rbtree_add], is not among the
    sources.  Each table has "an ordered search structure keyed on" a
    pair; the comparison callbacks document their sign ("positive if
    session < key"), so a search goes left on a negative comparison,
    right on a positive one and stops at zero. *)
Fixpoint rbtree_find (expected : K) (root : rb_node) : option nat :=
  match root with
  | Leaf => None
  | Node l x r =>
      let comparison := compare_cb (deref heap x) expected in
      if comparison <? 0 then rbtree_find expected l
      else if 0 <? comparison then rbtree_find expected r
      else Some x
  end.

(** Modelled from the spec: "Fails-with Exists on any collision".  The
    entry is linked where the search for its key ends; [None] is the
    collision. *)
Fixpoint rbtree_add (session : nat) (key : K) (root : rb_node) : option rb_node :=
  match root with
  | Leaf => Some (Node Leaf session Leaf)
  | Node l x r =>
      let comparison := compare_cb (deref heap x) key in
      if comparison <? 0 then
        match rbtree_add session key l with
        | Some l' => Some (Node l' x r)
        | None => None
        end
      else if 0 <? comparison then
        match rbtree_add session key r with
        | Some r' => Some (Node l x r')
        | None => None
        end
      else None
  end.

End Rbtree.

(** *** Comparison callbacks *)

Definition compare_full6 (session : session_entry) (pair : ipv6_pair) : Z :=
  let gap := ipv6_addr_cmp (a6_address (p6_local pair)) (a6_address (p6_local (ipv6 session))) in
  if negb (gap =? 0) then gap
  else
    let gap := ipv6_addr_cmp (a6_address (p6_remote pair)) (a6_address (p6_remote (ipv6 session))) in
    if negb (gap =? 0) then gap
    else
      let gap := a6_l4_id (p6_local pair) - a6_l4_id (p6_local (ipv6 session)) in
      if negb (gap =? 0) then gap
      else a6_l4_id (p6_remote pair) - a6_l4_id (p6_remote (ipv6 session)).

Definition compare_local4 (session : session_entry) (addr : ipv4_tuple_address) : Z :=
  let gap := ipv4_addr_cmp (a4_address addr) (a4_address (p4_local (ipv4 session))) in
  if negb (gap =? 0) then gap
  else a4_l4_id addr - a4_l4_id (p4_local (ipv4 session)).

Definition compare_addrs4 (session : session_entry) (pair : ipv4_pair) : Z :=
  let gap := compare_local4 session (p4_local pair) in
  if negb (gap =? 0) then gap
  else ipv4_addr_cmp (a4_address (p4_remote pair)) (a4_address (p4_remote (ipv4 session))).

Definition compare_full4 (session : session_entry) (pair : ipv4_pair) : Z :=
  let gap := compare_addrs4 session pair in
  if negb (gap =? 0) then gap
  else a4_l4_id (p4_remote pair) - a4_l4_id (p4_remote (ipv4 session)).

Definition compare_local_addr4 (session : session_entry) (addr : in_addr) : Z :=
  ipv4_addr_cmp addr (a4_address (p4_local (ipv4 session))).

Definition sessiondb_ipv6_prefix_equal (session : session_entry) (prefix : ipv6_prefix) : bool :=
  ipv6_prefix_equal (prefix_address prefix) (a6_address (p6_local (ipv6 session)))
    (prefix_len prefix).

Definition compare_local_prefix6 (session : session_entry) (prefix : ipv6_prefix) : Z :=
  let gap := ipv6_addr_cmp (prefix_address prefix) (a6_address (p6_local (ipv6 session))) in
  if gap =? 0 then 0
  else if sessiondb_ipv6_prefix_equal session prefix then 0
  else gap.

Definition tuple_to_ipv6_pair (tuple : tuple) : ipv6_pair :=
  mk_pair6 (mk_addr6 (ipv6_of (t_addr (t_dst tuple))) (t_l4_id (t_dst tuple)))
           (mk_addr6 (ipv6_of (t_addr (t_src tuple))) (t_l4_id (t_src tuple))).

Definition tuple_to_ipv4_pair (tuple : tuple) : ipv4_pair :=
  mk_pair4 (mk_addr4 (ipv4_of (t_addr (t_src tuple))) (t_l4_id (t_src tuple)))
           (mk_addr4 (ipv4_of (t_addr (t_dst tuple))) (t_l4_id (t_dst tuple))).

(** *** Tables, expirers and the database *)

Record session_table := mk_table {
  tree6 : rb_node;
  tree4 : rb_node;
  count : Z
}.

Inductive table_id := TABLE_UDP | TABLE_TCP | TABLE_ICMP.

Inductive expirer_id :=
  | EXPIRER_UDP | EXPIRER_TCP_EST | EXPIRER_TCP_TRANS | EXPIRER_ICMP | EXPIRER_SYN.

Global Instance table_id_eq_dec : EqDecision table_id.
Proof. solve_decision. Defined.

Global Instance expirer_id_eq_dec : EqDecision expirer_id.
Proof. solve_decision. Defined.

(** [struct expire_timer]: [timer] is [Some expires] while the timer is
    pending; [sessions] is the list from its head. *)
Record expire_timer := mk_expirer {
  timer : option Z;
  sessions : list nat
}.

(** config_proto.h: [struct sessiondb_config], in jiffies. *)
Record sessiondb_config := mk_sessiondb_config {
  ttl_udp : Z;
  ttl_icmp : Z;
  ttl_tcp_est : Z;
  ttl_tcp_trans : Z
}.

Inductive sessiondb_type :=
  | UDP_TIMEOUT | ICMP_TIMEOUT | TCP_EST_TIMEOUT | TCP_TRANS_TIMEOUT.

(** linux/ipv6.h and linux/tcp.h, fields in host order. *)
Record ipv6hdr := mk_ipv6hdr {
  version : Z;
  priority : Z;
  flow_lbl : list Z;
  payload_len6 : Z;
  nexthdr : Z;
  hop_limit : Z;
  saddr : in6_addr;
  daddr : in6_addr
}.

Record tcphdr := mk_tcphdr {
  source : Z;
  dest : Z;
  seq : Z;
  ack_seq : Z;
  res1 : Z;
  doff : Z;
  fin : Z;
  syn : Z;
  rst : Z;
  psh : Z;
  ack : Z;
  urg : Z;
  ece : Z;
  cwr : Z;
  window : Z;
  check : Z;
  urg_ptr : Z
}.

(** The static variables of session_db.c.  [beyond_config] stands for the
    memory that follows the configuration object, in 64-bit words counted
    from the start of the object; [sent] lists the packets handed to
    [ip6_local_out], oldest first. *)
Record sessiondb := mk_db {
  db_heap : gmap nat session_entry;
  session_table_udp : session_table;
  session_table_tcp : session_table;
  session_table_icmp : session_table;
  expirer_udp : expire_timer;
  expirer_tcp_est : expire_timer;
  expirer_tcp_trans : expire_timer;
  expirer_icmp : expire_timer;
  expirer_syn : expire_timer;
  config : sessiondb_config;
  beyond_config : Z -> Z;
  sent : list (ipv6hdr * tcphdr)
}.

Definition get_table (db : sessiondb) (t : table_id) : session_table :=
  match t with
  | TABLE_UDP => session_table_udp db
  | TABLE_TCP => session_table_tcp db
  | TABLE_ICMP => session_table_icmp db
  end.

Definition set_table (db : sessiondb) (t : table_id) (x : session_table) : sessiondb :=
  mk_db (db_heap db)
    (if decide (t = TABLE_UDP) then x else session_table_udp db)
    (if decide (t = TABLE_TCP) then x else session_table_tcp db)
    (if decide (t = TABLE_ICMP) then x else session_table_icmp db)
    (expirer_udp db) (expirer_tcp_est db) (expirer_tcp_trans db) (expirer_icmp db)
    (expirer_syn db) (config db) (beyond_config db) (sent db).

Definition get_expirer (db : sessiondb) (e : expirer_id) : expire_timer :=
  match e with
  | EXPIRER_UDP => expirer_udp db
  | EXPIRER_TCP_EST => expirer_tcp_est db
  | EXPIRER_TCP_TRANS => expirer_tcp_trans db
  | EXPIRER_ICMP => expirer_icmp db
  | EXPIRER_SYN => expirer_syn db
  end.

Definition set_expirer (db : sessiondb) (e : expirer_id) (x : expire_timer) : sessiondb :=
  mk_db (db_heap db) (session_table_udp db) (session_table_tcp db) (session_table_icmp db)
    (if decide (e = EXPIRER_UDP) then x else expirer_udp db)
    (if decide (e = EXPIRER_TCP_EST) then x else expirer_tcp_est db)
    (if decide (e = EXPIRER_TCP_TRANS) then x else expirer_tcp_trans db)
    (if decide (e = EXPIRER_ICMP) then x else expirer_icmp db)
    (if decide (e = EXPIRER_SYN) then x else expirer_syn db)
    (config db) (beyond_config db) (sent db).

Definition set_heap (db : sessiondb) (h : gmap nat session_entry) : sessiondb :=
  mk_db h (session_table_udp db) (session_table_tcp db) (session_table_icmp db)
    (expirer_udp db) (expirer_tcp_est db) (expirer_tcp_trans db) (expirer_icmp db)
    (expirer_syn db) (config db) (beyond_config db) (sent db).

Definition set_config (db : sessiondb) (c : sessiondb_config) : sessiondb :=
  mk_db (db_heap db) (session_table_udp db) (session_table_tcp db) (session_table_icmp db)
    (expirer_udp db) (expirer_tcp_est db) (expirer_tcp_trans db) (expirer_icmp db)
    (expirer_syn db) c (beyond_config db) (sent db).

Definition set_sent (db : sessiondb) (l : list (ipv6hdr * tcphdr)) : sessiondb :=
  mk_db (db_heap db) (session_table_udp db) (session_table_tcp db) (session_table_icmp db)
    (expirer_udp db) (expirer_tcp_est db) (expirer_tcp_trans db) (expirer_icmp db)
    (expirer_syn db) (config db) (beyond_config db) l.

(** Writing through a session pointer. *)
Definition store (db : sessiondb) (p : nat) (s : session_entry) : sessiondb :=
  set_heap db (<[p := s]> (db_heap db)).

(** [init_expire_timer] gives every expirer its table and the
    [offsetof] of its timeout in [struct sessiondb_config]. *)
Definition expirer_table (e : expirer_id) : table_id :=
  match e with
  | EXPIRER_UDP => TABLE_UDP
  | EXPIRER_TCP_EST => TABLE_TCP
  | EXPIRER_TCP_TRANS => TABLE_TCP
  | EXPIRER_SYN => TABLE_TCP
  | EXPIRER_ICMP => TABLE_ICMP
  end.

Definition timeout_offset (e : expirer_id) : Z :=
  match e with
  | EXPIRER_UDP => 0
  | EXPIRER_ICMP => 8
  | EXPIRER_TCP_EST => 16
  | EXPIRER_TCP_TRANS => 24
  | EXPIRER_SYN => 0
  end.

Definition get_session_table (l4 : l4_protocol) : option table_id :=
  match l4 with
  | L4PROTO_UDP => Some TABLE_UDP
  | L4PROTO_TCP => Some TABLE_TCP
  | L4PROTO_ICMP => Some TABLE_ICMP
  | L4PROTO_NONE => None
  end.

(** [list_del(&session->expire_list_hook)]: the hook leaves the list it is
    linked in. *)
Definition list_del (session : nat) (db : sessiondb) : sessiondb :=
  let del e := mk_expirer (timer e) (filter (fun x => x ≠ session) (sessions e)) in
  mk_db (db_heap db) (session_table_udp db) (session_table_tcp db) (session_table_icmp db)
    (del (expirer_udp db)) (del (expirer_tcp_est db)) (del (expirer_tcp_trans db))
    (del (expirer_icmp db)) (del (expirer_syn db))
    (config db) (beyond_config db) (sent db).

Definition list_add_tail (session : nat) (e : expirer_id) (db : sessiondb) : sessiondb :=
  let x := get_expirer db e in
  set_expirer db e (mk_expirer (timer x) (sessions x ++ [session])).

(** *** Probe packets *)

Fixpoint csum_words (bs : list Z) : Z :=
  match bs with
  | a :: b :: rest => a * 256 + b + csum_words rest
  | [a] => a * 256
  | [] => 0
  end.

(** [csum_partial(buff, len, sum)], not yet folded. *)
Definition csum_partial (buff : list Z) (sum : Z) : Z := csum_words buff + sum.

Definition csum_fold (s : Z) : Z :=
  let s := s mod 65536 + s / 65536 in
  let s := s mod 65536 + s / 65536 in
  65535 - s.

Definition csum_ipv6_magic (saddr daddr : in6_addr) (len proto sum : Z) : Z :=
  csum_fold (csum_words saddr + csum_words daddr + len + proto + sum).

Definition be32_bytes (x : Z) : list Z :=
  be16_bytes (u32 x / 65536) ++ be16_bytes (u32 x).

Definition tcphdr_bytes (th : tcphdr) : list Z :=
  be16_bytes (source th) ++ be16_bytes (dest th) ++ be32_bytes (seq th) ++
  be32_bytes (ack_seq th) ++
  [doff th * 16 + res1 th;
   cwr th * 128 + ece th * 64 + urg th * 32 + ack th * 16 + psh th * 8 + rst th * 4
     + syn th * 2 + fin th] ++
  be16_bytes (window th) ++ be16_bytes (check th) ++ be16_bytes (urg_ptr th).

Definition sizeof_tcphdr : Z := 20.

(** What [send_probe_packet] writes into the skb it allocates. *)
Definition probe_packet (session : session_entry) : ipv6hdr * tcphdr :=
  let l4_hdr_len := sizeof_tcphdr in
  let iph :=
    mk_ipv6hdr 6 0 [0; 0; 0] (u16 l4_hdr_len) NEXTHDR_TCP 255
      (a6_address (p6_local (ipv6 session))) (a6_address (p6_remote (ipv6 session))) in
  let th :=
    mk_tcphdr (a6_l4_id (p6_local (ipv6 session))) (a6_l4_id (p6_remote (ipv6 session)))
      0 0 0 (l4_hdr_len / 4) 0 0 0 0 1 0 0 0 8192 0 0 in
  let th :=
    mk_tcphdr (source th) (dest th) (seq th) (ack_seq th) (res1 th) (doff th) (fin th)
      (syn th) (rst th) (psh th) (ack th) (urg th) (ece th) (cwr th) (window th)
      (csum_ipv6_magic (saddr iph) (daddr iph) l4_hdr_len IPPROTO_TCP
         (csum_partial (tcphdr_bytes th) 0))
      (urg_ptr th) in
  (iph, th).

(** [send_probe_packet]: nothing leaves when the skb cannot be allocated,
    the packet cannot be routed or the output path reports an error. *)
Definition send_probe_packet (k : kernel) (session : session_entry) (db : sessiondb)
    : sessiondb :=
  if negb (kmalloc_ok k) then db
  else if negb (route_ipv6_ok k) then db
  else if negb (ip6_local_out_ok k) then db
  else set_sent db (sent db ++ [probe_packet session]).

(** *** Timers *)

(** [remove]: the caller subtracts what it returns from the table's count. *)
Definition remove (session : nat) (t : table_id) (db : sessiondb) : Z * sessiondb :=
  let table := get_table db t in
  let db :=
    set_table db t
      (mk_table (rb_erase session (tree6 table)) (rb_erase session (tree4 table))
         (count table)) in
  (1, list_del session db).

(** [schedule_timer]; [mod_timer] leaves the timer pending at [next_time]. *)
Definition schedule_timer (k : kernel) (e : expirer_id) (next_time : Z) (db : sessiondb)
    : sessiondb :=
  let min_next := u64 (jiffies k + MIN_TIMER_SLEEP) in
  let next_time := if time_before next_time min_next then min_next else next_time in
  set_expirer db e (mk_expirer (Some next_time) (sessions (get_expirer db e))).

(** The 64-bit word at [index] from the configuration pointer once it is
    cast to a pointer to [__u64]: the four members of the object, and
    whatever follows it in memory. *)
Definition config_u64 (db : sessiondb) (index : Z) : Z :=
  if index =? 0 then ttl_udp (config db)
  else if index =? 1 then ttl_icmp (config db)
  else if index =? 2 then ttl_tcp_est (config db)
  else if index =? 3 then ttl_tcp_trans (config db)
  else beyond_config db index.

(** [get_timeout] adds [expirer->timeout_offset], a byte offset, to the
    configuration pointer cast to a pointer to [__u64], and reads the word
    there: the offset counts 64-bit words. *)
Definition get_timeout (k : kernel) (db : sessiondb) (e : expirer_id) : Z :=
  if decide (e = EXPIRER_SYN) then msecs_to_jiffies k (1000 * TCP_INCOMING_SYN)
  else config_u64 db (timeout_offset e).

Definition set_count (db : sessiondb) (t : table_id) (c : Z) : sessiondb :=
  let table := get_table db t in
  set_table db t (mk_table (tree6 table) (tree4 table) c).

(** [session_expire]: whether the entry is to be destroyed. *)
Definition session_expire (k : kernel) (session : nat) (db : sessiondb)
    : bool * sessiondb :=
  let s := deref (db_heap db) session in
  match l4_proto s with
  | L4PROTO_UDP | L4PROTO_ICMP => (true, db)
  | L4PROTO_TCP =>
      match state s with
      | V4_INIT => (true, store db session (set_state s CLOSED))
      | ESTABLISHED =>
          let db := send_probe_packet k s db in
          let db := store db session (set_update_time (set_state s TRANS) (jiffies k)) in
          let db := list_del session db in
          let db := list_add_tail session EXPIRER_TCP_TRANS db in
          let db :=
            match timer (expirer_tcp_trans db) with
            | Some _ => db
            | None =>
                schedule_timer k EXPIRER_TCP_TRANS
                  (u64 (jiffies k + get_timeout k db EXPIRER_TCP_TRANS)) db
            end in
          (false, db)
      | V6_INIT | V4_FIN_RCV | V6_FIN_RCV | V4_FIN_V6_FIN_RCV | TRANS =>
          (true, store db session (set_state s CLOSED))
      | CLOSED => (true, db)
      end
  | L4PROTO_NONE => (true, db)
  end.

(** The hooks of [l] from [hook] on. *)
Fixpoint list_from (hook : nat) (l : list nat) : list nat :=
  match l with
  | [] => []
  | x :: rest => if decide (x = hook) then l else list_from hook rest
  end.

(** The loop of [cleaner_timer].  [list_for_each_safe] saves the hook that
    follows the current one before the body runs and goes on from it in
    the list as the body left it.  [None] is "out of fuel". *)
Fixpoint cleaner_walk (fuel : nat) (k : kernel) (e : expirer_id) (timeout : Z)
    (hooks : list nat) (s : Z) (db : sessiondb) : option sessiondb :=
  let t := expirer_table e in
  match hooks with
  | [] => Some (set_count db t (u64 (count (get_table db t) - s)))
  | current_hook :: next_hooks =>
      match fuel with
      | O => None
      | S fuel' =>
          let session := deref (db_heap db) current_hook in
          if time_before (jiffies k) (u64 (update_time session + timeout)) then
            let db := set_count db t (u64 (count (get_table db t) - s)) in
            Some (schedule_timer k e (u64 (update_time session + timeout)) db)
          else
            let '(destroy, db) := session_expire k current_hook db in
            let '(s, db) :=
              if destroy then
                let '(r, db) := remove current_hook t db in (u32 (s + r), db)
              else (s, db) in
            let hooks :=
              match next_hooks with
              | [] => []
              | next_hook :: _ => list_from next_hook (sessions (get_expirer db e))
              end in
            cleaner_walk fuel' k e timeout hooks s db
      end
  end.

(** [cleaner_timer]: the function of the timer of expirer [e].  The kernel
    takes a timer out of the pending state before it runs its function.  An
    entry is visited at most twice. *)
Definition cleaner_timer (k : kernel) (e : expirer_id) (db : sessiondb) : option sessiondb :=
  let db := set_expirer db e (mk_expirer None (sessions (get_expirer db e))) in
  let timeout := get_timeout k db e in
  let hooks := sessions (get_expirer db e) in
  cleaner_walk (2 * length hooks + 1) k e timeout hooks 0 db.

(** *** Public functions *)

Definition empty_table : session_table := mk_table Leaf Leaf 0.
Definition idle_expirer : expire_timer := mk_expirer None [].

(** [sessiondb_init]; [beyond] is what lies after the configuration object
    the allocator returns. *)
Definition sessiondb_init (k : kernel) (beyond : Z -> Z) : sessiondb :=
  mk_db ∅ empty_table empty_table empty_table
    idle_expirer idle_expirer idle_expirer idle_expirer idle_expirer
    (mk_sessiondb_config
       (msecs_to_jiffies k (1000 * UDP_DEFAULT))
       (msecs_to_jiffies k (1000 * ICMP_DEFAULT))
       (msecs_to_jiffies k (1000 * TCP_EST))
       (msecs_to_jiffies k (1000 * TCP_TRANS)))
    beyond [].

(** [sessiondb_set_config]: [size] is the length of the payload and
    [value] the 64-bit integer its first eight bytes hold.  The pair is
    the status and the database with the configuration then in force. *)
Definition sessiondb_set_config (k : kernel) (type : sessiondb_type) (size value : Z)
    (db : sessiondb) : Z * sessiondb :=
  let max_u32 := 0xFFFFFFFF in
  if negb (size =? 8) then (- EINVAL, db)
  else
    let value64 := u64 value in
    if value64 >? max_u32 then (- EINVAL, db)
    else
      let value64 := msecs_to_jiffies k value64 in
      if negb (kmalloc_ok k) then (- ENOMEM, db)
      else
        let old_config := config db in
        match type with
        | UDP_TIMEOUT =>
            if value64 <? msecs_to_jiffies k (1000 * UDP_MIN) then (- EINVAL, db)
            else
              (0, set_config db
                    (mk_sessiondb_config value64 (ttl_icmp old_config)
                       (ttl_tcp_est old_config) (ttl_tcp_trans old_config)))
        | ICMP_TIMEOUT =>
            (0, set_config db
                  (mk_sessiondb_config (ttl_udp old_config) value64
                     (ttl_tcp_est old_config) (ttl_tcp_trans old_config)))
        | TCP_EST_TIMEOUT =>
            if value64 <? msecs_to_jiffies k (1000 * TCP_EST) then (- EINVAL, db)
            else
              (0, set_config db
                    (mk_sessiondb_config (ttl_udp old_config) (ttl_icmp old_config)
                       value64 (ttl_tcp_trans old_config)))
        | TCP_TRANS_TIMEOUT =>
            if value64 <? msecs_to_jiffies k (1000 * TCP_TRANS) then (- EINVAL, db)
            else
              (0, set_config db
                    (mk_sessiondb_config (ttl_udp old_config) (ttl_icmp old_config)
                       (ttl_tcp_est old_config) value64))
        end.

Definition sessiondb_get_by_ipv4 (pair : ipv4_pair) (l4 : l4_protocol) (db : sessiondb)
    : Z * option nat :=
  match get_session_table l4 with
  | None => (- EINVAL, None)
  | Some t =>
      match rbtree_find (db_heap db) compare_full4 pair (tree4 (get_table db t)) with
      | Some session => (0, Some session)
      | None => (- ENOENT, None)
      end
  end.

Definition sessiondb_get_by_ipv6 (pair : ipv6_pair) (l4 : l4_protocol) (db : sessiondb)
    : Z * option nat :=
  match get_session_table l4 with
  | None => (- EINVAL, None)
  | Some t =>
      match rbtree_find (db_heap db) compare_full6 pair (tree6 (get_table db t)) with
      | Some session => (0, Some session)
      | None => (- ENOENT, None)
      end
  end.

Definition sessiondb_count (proto : l4_protocol) (db : sessiondb) : Z * option Z :=
  match get_session_table proto with
  | None => (- EINVAL, None)
  | Some t => (0, Some (count (get_table db t)))
  end.

(** [sessiondb_add]: [session] points to an entry of the heap. *)
Definition sessiondb_add (session : nat) (db : sessiondb) : Z * sessiondb :=
  let s := deref (db_heap db) session in
  match get_session_table (l4_proto s) with
  | None => (- EINVAL, db)
  | Some t =>
      let table := get_table db t in
      match rbtree_add (db_heap db) compare_full6 session (ipv6 s) (tree6 table) with
      | None => (- EEXIST, db)
      | Some t6 =>
          let db6 := set_table db t (mk_table t6 (tree4 table) (count table)) in
          match rbtree_add (db_heap db) compare_full4 session (ipv4 s) (tree4 table) with
          | None =>
              (- EEXIST,
               set_table db6 t
                 (mk_table (rb_erase session t6) (tree4 table) (count table)))
          | Some t4 => (0, set_table db6 t (mk_table t6 t4 (u64 (count table + 1))))
          end
      end
  end.

Section GetOrCreate.

(** pool6.c is not among the sources.  pool6.h: [pool6_get] "returns the
    pool's prefix corresponding to addr", [pool6_peek] "returns any prefix
    from the pool"; both return a status, zero on success, next to the
    prefix. *)
Variable pool6_get : in6_addr -> Z * ipv6_prefix.
Variable pool6_peek : Z * ipv6_prefix.

(** The status, [*session] ([None] when the function leaves it
    unassigned) and the database. *)
Definition sessiondb_get_or_create_ipv6 (k : kernel) (tuple : tuple) (bib : bib_entry)
    (db : sessiondb) : Z * option nat * sessiondb :=
  let pair6 := tuple_to_ipv6_pair tuple in
  match get_session_table (t_l4_proto tuple) with
  | None => (- EINVAL, None, db)
  | Some t =>
      let table := get_table db t in
      match rbtree_find (db_heap db) compare_full6 pair6 (tree6 table) with
      | Some session => (0, Some session, db)
      | None =>
          let '(error, prefix) := pool6_get (ipv6_of (t_addr (t_dst tuple))) in
          if negb (error =? 0) then (error, None, db)
          else
            match addr_6to4 (ipv6_of (t_addr (t_dst tuple))) prefix with
            | None => (- EINVAL, None, db)
            | Some ipv4_dst =>
                let pair4 :=
                  mk_pair4
                    (mk_addr4 ipv4_dst
                       (if decide (t_l4_proto tuple = L4PROTO_ICMP)
                        then a4_l4_id (bib_ipv4 bib) else t_l4_id (t_dst tuple)))
                    (bib_ipv4 bib) in
                if negb (kmalloc_ok k) then (- ENOMEM, None, db)
                else
                  let session := fresh (dom (db_heap db)) in
                  let db := store db session
                              (session_create k pair4 pair6 (t_l4_proto tuple)) in
                  let t6 :=
                    default (tree6 table)
                      (rbtree_add (db_heap db) compare_full6 session pair6 (tree6 table)) in
                  match rbtree_add (db_heap db) compare_full4 session pair4 (tree4 table) with
                  | None =>
                      (- EEXIST, Some session,
                       set_heap
                         (set_table db t
                            (mk_table (rb_erase session t6) (tree4 table) (count table)))
                         (delete session (db_heap db)))
                  | Some t4 =>
                      let db :=
                        store db session (set_bib (deref (db_heap db) session) bib) in
                      (0, Some session,
                       set_table db t (mk_table t6 t4 (u64 (count table + 1))))
                  end
            end
      end
  end.

Definition sessiondb_get_or_create_ipv4 (k : kernel) (tuple : tuple) (bib : bib_entry)
    (db : sessiondb) : Z * option nat * sessiondb :=
  let pair4 := tuple_to_ipv4_pair tuple in
  match get_session_table (t_l4_proto tuple) with
  | None => (- EINVAL, None, db)
  | Some t =>
      let table := get_table db t in
      match rbtree_find (db_heap db) compare_full4 pair4 (tree4 table) with
      | Some session => (0, Some session, db)
      | None =>
          let '(error, prefix) := pool6_peek in
          if negb (error =? 0) then (error, None, db)
          else
            match addr_4to6 (ipv4_of (t_addr (t_src tuple))) prefix with
            | None => (- EINVAL, None, db)
            | Some ipv6_src =>
                let pair6 :=
                  mk_pair6
                    (mk_addr6 ipv6_src
                       (if decide (t_l4_proto tuple = L4PROTO_ICMP)
                        then a6_l4_id (bib_ipv6 bib) else t_l4_id (t_src tuple)))
                    (bib_ipv6 bib) in
                if negb (kmalloc_ok k) then (- ENOMEM, None, db)
                else
                  let session := fresh (dom (db_heap db)) in
                  let db := store db session
                              (session_create k pair4 pair6 (t_l4_proto tuple)) in
                  let t4 :=
                    default (tree4 table)
                      (rbtree_add (db_heap db) compare_full4 session pair4 (tree4 table)) in
                  match rbtree_add (db_heap db) compare_full6 session pair6 (tree6 table) with
                  | None =>
                      (- EEXIST, Some session,
                       set_heap
                         (set_table db t
                            (mk_table (tree6 table) (rb_erase session t4) (count table)))
                         (delete session (db_heap db)))
                  | Some t6 =>
                      let db :=
                        store db session (set_bib (deref (db_heap db) session) bib) in
                      (0, Some session,
                       set_table db t (mk_table t6 t4 (u64 (count table + 1))))
                  end
            end
      end
  end.

End GetOrCreate.

(** *** Bulk removal *)

(** The two loops of the bulk removals walk away from a root node with
    [rb_prev] and with [rb_next], removing the entries they meet while the
    test holds; [nodes] is that walk in the tree as it is before the loop.
    [s], an [int], counts the removals. *)
Fixpoint remove_while (keep_going : session_entry -> bool) (nodes : list nat)
    (t : table_id) (s : Z) (db : sessiondb) : Z * sessiondb :=
  match nodes with
  | [] => (s, db)
  | node :: rest =>
      if keep_going (deref (db_heap db) node) then
        let '(r, db) := remove node t db in
        remove_while keep_going rest t (s32 (s + r)) db
      else (s, db)
  end.

(** The part the four removals share once the root node is found: both
    walks, the root itself, and the update of the count.  It yields the
    number logged next to the database. *)
Definition remove_around (keep_going : session_entry -> bool) (walk : list nat * list nat)
    (root_session : nat) (t : table_id) (db : sessiondb) : Z * sessiondb :=
  let '(s, db) := remove_while keep_going (fst walk) t 0 db in
  let '(s, db) := remove_while keep_going (snd walk) t s db in
  let '(r, db) := remove root_session t db in
  let s := s32 (s + r) in
  (s, set_count db t (u64 (count (get_table db t) - s))).

Definition sessiondb_delete_by_bib (bib : bib_entry) (db : sessiondb) : Z * sessiondb :=
  match get_session_table (bib_l4_proto bib) with
  | None => (- EINVAL, db)
  | Some t =>
      let table := get_table db t in
      match rbtree_find (db_heap db) compare_local4 (bib_ipv4 bib) (tree4 table) with
      | None => (0, db)
      | Some root_session =>
          let test session := compare_local4 session (bib_ipv4 bib) =? 0 in
          (0, snd (remove_around test (rb_around (tree4 table) root_session)
                     root_session t db))
      end
  end.

Definition delete_sessions_by_ipv4 (t : table_id) (addr : in_addr) (db : sessiondb)
    : Z * sessiondb :=
  let table := get_table db t in
  match rbtree_find (db_heap db) compare_local_addr4 addr (tree4 table) with
  | None => (0, db)
  | Some root_session =>
      let test session := compare_local_addr4 session addr =? 0 in
      (0, snd (remove_around test (rb_around (tree4 table) root_session)
                 root_session t db))
  end.

Definition sessiondb_delete_by_ipv4 (addr4 : in_addr) (db : sessiondb) : Z * sessiondb :=
  let db := snd (delete_sessions_by_ipv4 TABLE_TCP addr4 db) in
  let db := snd (delete_sessions_by_ipv4 TABLE_ICMP addr4 db) in
  let db := snd (delete_sessions_by_ipv4 TABLE_UDP addr4 db) in
  (0, db).

Definition delete_sessions_by_ipv6_prefix (t : table_id) (prefix : ipv6_prefix)
    (db : sessiondb) : Z * sessiondb :=
  let table := get_table db t in
  match rbtree_find (db_heap db) compare_local_prefix6 prefix (tree6 table) with
  | None => (0, db)
  | Some root_session =>
      let test session := sessiondb_ipv6_prefix_equal session prefix in
      (0, snd (remove_around test (rb_around (tree6 table) root_session)
                 root_session t db))
  end.

Definition sessiondb_delete_by_ipv6_prefix (prefix : ipv6_prefix) (db : sessiondb)
    : Z * sessiondb :=
  let db := snd (delete_sessions_by_ipv6_prefix TABLE_TCP prefix db) in
  let db := snd (delete_sessions_by_ipv6_prefix TABLE_ICMP prefix db) in
  let db := snd (delete_sessions_by_ipv6_prefix TABLE_UDP prefix db) in
  (0, db).

Definition flush_aux (t : table_id) (db : sessiondb) : Z * sessiondb :=
  let table := get_table db t in
  match tree4 table with
  | Leaf => (0, db)
  | Node _ root_session _ =>
      (0, snd (remove_around (fun _ => true) (rb_around (tree4 table) root_session)
                 root_session t db))
  end.

Definition sessiondb_flush (db : sessiondb) : Z * sessiondb :=
  let db := snd (flush_aux TABLE_UDP db) in
  let db := snd (flush_aux TABLE_TCP db) in
  let db := snd (flush_aux TABLE_ICMP db) in
  (0, db).

(** The number of entries an index links. *)
Definition rb_size (root : rb_node) : Z := Z.of_nat (length (rb_inorder root)).

(** ** Notions used in the statements *)

(** The lower bound [sessiondb_set_config] enforces on a class of timeout,
    in seconds; the ICMP timeout has none. *)
Definition timeout_minimum (type : sessiondb_type) : option Z :=
  match type with
  | UDP_TIMEOUT => Some UDP_MIN
  | ICMP_TIMEOUT => None
  | TCP_EST_TIMEOUT => Some TCP_EST
  | TCP_TRANS_TIMEOUT => Some TCP_TRANS
  end.

(** Whether [value], in milliseconds, is below that bound once both are in
    jiffies. *)
Definition too_short (k : kernel) (type : sessiondb_type) (value : Z) : bool :=
  match timeout_minimum type with
  | Some m => msecs_to_jiffies k value <? msecs_to_jiffies k (1000 * m)
  | None => false
  end.

(** The configuration with the timeout of one class replaced. *)
Definition with_timeout (c : sessiondb_config) (type : sessiondb_type) (v : Z)
    : sessiondb_config :=
  match type with
  | UDP_TIMEOUT => mk_sessiondb_config v (ttl_icmp c) (ttl_tcp_est c) (ttl_tcp_trans c)
  | ICMP_TIMEOUT => mk_sessiondb_config (ttl_udp c) v (ttl_tcp_est c) (ttl_tcp_trans c)
  | TCP_EST_TIMEOUT => mk_sessiondb_config (ttl_udp c) (ttl_icmp c) v (ttl_tcp_trans c)
  | TCP_TRANS_TIMEOUT => mk_sessiondb_config (ttl_udp c) (ttl_icmp c) (ttl_tcp_est c) v
  end.

(** The data a fragment carries after its IPv6 and Fragment headers. *)
Definition fragment_data (f : fragment) : list Z := skipn 48 (frag_skb f).

(** What [divide] promises of the piece at position [i] among [n], cut from
    the packet whose bytes are [src], when a piece carries up to [pms]
    bytes of data: its length (full when it is not the last one), a payload
    length field that agrees with it, the next-header values, the addresses
    and the identification of [src], an offset that is the offset [orig]
    of [src] plus the position of its data, and the more-fragments flag,
    set on every piece but the last, which has the flag [mf] of [src]. *)
Definition piece_ok (src : list Z) (pms orig : Z) (mf : bool) (n i : nat) (f : fragment)
    : Prop :=
  48 < skb_len f <= 48 + pms /\
  ((S i < n)%nat -> skb_len f = 48 + pms) /\
  be16_at (frag_skb f) 4 = skb_len f - 40 /\
  ipv6hdr_nexthdr (frag_skb f) = ipv6hdr_nexthdr src /\
  ipv6hdr_saddr (frag_skb f) = ipv6hdr_saddr src /\
  ipv6hdr_daddr (frag_skb f) = ipv6hdr_daddr src /\
  nth 40 (frag_skb f) 0 = nth 40 src 0 /\
  get_fragment_offset_ipv6 (fragment_header f) = u16 (orig + Z.of_nat i * pms) /\
  is_more_fragments_set_ipv6 (fragment_header f) = (if decide (S i = n) then mf else true) /\
  frag_hdr_identification (fragment_header f) = frag_hdr_identification (skipn 40 src).

(** Every entry the IPv6 index of table [t] links is found by a search for
    its own IPv6 pair. *)
Definition indexed6 (db : sessiondb) (t : table_id) : Prop :=
  forall x, x ∈ rb_inorder (tree6 (get_table db t)) ->
    rbtree_find (db_heap db) compare_full6 (ipv6 (deref (db_heap db) x))
      (tree6 (get_table db t)) <> None.

(** Invariant A as the code keeps it: the entry has a parent BIB, its
    IPv4 local address is the IPv4 address of the BIB and its IPv6 remote
    address is the IPv6 address of the BIB. *)
Definition parent_ok (s : session_entry) : Prop :=
  exists b, bib s = Some b /\
            p4_local (ipv4 s) = bib_ipv4 b /\ p6_remote (ipv6 s) = bib_ipv6 b.

(** An entry linked by one of the indexes of one of the tables. *)
Definition linked (db : sessiondb) (x : nat) : Prop :=
  exists t, x ∈ rb_inorder (tree6 (get_table db t)) \/
            x ∈ rb_inorder (tree4 (get_table db t)).

Definition invariant_A (db : sessiondb) : Prop :=
  forall x, linked db x -> parent_ok (deref (db_heap db) x).

(** Invariant B and the ranges of the counters: no entry is linked twice
    by an index, the two indexes of a table link the same entries, the
    count is a 64-bit number, and the entries are few enough for the [int]
    that counts the removals. *)
Definition table_ok (tb : session_table) : Prop :=
  NoDup (rb_inorder (tree6 tb)) /\ NoDup (rb_inorder (tree4 tb)) /\
  (forall x, x ∈ rb_inorder (tree6 tb) <-> x ∈ rb_inorder (tree4 tb)) /\
  0 <= count tb < 2 ^ 64 /\
  rb_size (tree4 tb) < 2 ^ 31.

(** The number of entries of table [t] that [db] links and [db'] no longer
    does. *)
Definition deleted (db db' : sessiondb) (t : table_id) : Z :=
  rb_size (tree4 (get_table db t)) - rb_size (tree4 (get_table db' t)).

(** What a removal pass over table [t] leaves: the stored entries and the
    other tables as they were, table [t] still well formed, and its count
    lowered by the number of entries the pass unlinked. *)
Definition removal_pass (t : table_id) (db db' : sessiondb) : Prop :=
  db_heap db' = db_heap db /\
  (forall t', t' <> t -> get_table db' t' = get_table db t') /\
  table_ok (get_table db' t) /\
  0 <= deleted db db' t /\
  count (get_table db' t) = u64 (count (get_table db t) - deleted db db' t).

(** What a bulk removal leaves, table by table. *)
Definition bulk_removal (db db' : sessiondb) : Prop :=
  forall t, table_ok (get_table db' t) /\
            0 <= deleted db db' t /\
            count (get_table db' t) = u64 (count (get_table db t) - deleted db db' t).

(** The fields of the IPv6 header and of the Fragment header next to it,
    which depend on the first 48 bytes of a packet only. *)
Definition headers_view (x : list Z) :=
  (be16_at x 4, ipv6hdr_nexthdr x, ipv6hdr_saddr x, ipv6hdr_daddr x, nth 40 x 0,
   get_fragment_offset_ipv6 (skipn 40 x), is_more_fragments_set_ipv6 (skipn 40 x),
   frag_hdr_identification (skipn 40 x)).

(** ** Examples *)

(** A machine with 250 ticks a second where allocation, routing and output
    succeed. *)
Definition kernel0 : kernel := mk_kernel 1000000 250 true true true.

(** 64:ff9b::192.0.2.1, 2001:db8::1, 192.0.2.1 and 203.0.113.1. *)
Definition addr6_node4 : in6_addr := [0; 100; 255; 155; 0; 0; 0; 0; 0; 0; 0; 0; 192; 0; 2; 1].
Definition addr6_node6 : in6_addr := [32; 1; 13; 184; 0; 0; 0; 0; 0; 0; 0; 0; 0; 0; 0; 1].
Definition addr4_node4 : in_addr := [192; 0; 2; 1].
Definition addr4_pool4 : in_addr := [203; 0; 113; 1].

(** The well-known prefix 64:ff9b::/96. *)
Definition prefix0 : ipv6_prefix :=
  mk_prefix [0; 100; 255; 155; 0; 0; 0; 0; 0; 0; 0; 0; 0; 0; 0; 0] 96.

(** The binding of 2001:db8::1 port 5000 to 203.0.113.1 port 6000, and a
    session of it with 192.0.2.1 port 80. *)
Definition bib0 (l4 : l4_protocol) : bib_entry :=
  mk_bib (mk_addr4 addr4_pool4 6000) (mk_addr6 addr6_node6 5000) l4 false.

Definition session0 (l4 : l4_protocol) (st : tcp_state) (updated : Z) : session_entry :=
  mk_session (mk_pair6 (mk_addr6 addr6_node4 80) (mk_addr6 addr6_node6 5000))
    (mk_pair4 (mk_addr4 addr4_node4 80) (mk_addr4 addr4_pool4 6000))
    updated (Some (bib0 l4)) l4 st.

(** The database right after [sessiondb_init], with zeroes after the
    configuration object, and the one that stores session [s] alone,
    queued on expirer [e]. *)
Definition db0 : sessiondb := sessiondb_init kernel0 (fun _ => 0).

Definition db1 (s : session_entry) (e : expirer_id) : sessiondb :=
  list_add_tail 0%nat e (snd (sessiondb_add 0%nat (store db0 0%nat s))).

(** The tuples of a packet of that session from either side. *)
Definition tuple4 (l4 : l4_protocol) : tuple :=
  mk_tuple (mk_tuple_addr (Ip4 addr4_node4) 80) (mk_tuple_addr (Ip4 addr4_pool4) 6000)
    L3PROTO_IPV4 l4.

Definition tuple6 (l4 : l4_protocol) : tuple :=
  mk_tuple (mk_tuple_addr (Ip6 addr6_node6) 5000) (mk_tuple_addr (Ip6 addr6_node4) 80)
    L3PROTO_IPV6 l4.

(** The ICMP types the examples take as informational (echo request and
    reply) and as errors. *)
Definition icmp4_info0 (type : Z) : bool := (type =? 8) || (type =? 0).
Definition icmp4_error0 (type : Z) : bool :=
  (type =? 3) || (type =? 4) || (type =? 5) || (type =? 11) || (type =? 12).
Definition icmp6_info0 (type : Z) : bool := (type =? 128) || (type =? 129).
Definition icmp6_error0 (type : Z) : bool :=
  (type =? 1) || (type =? 2) || (type =? 3) || (type =? 4).

(** An ICMPv4 "destination unreachable" from 192.0.2.1 about a UDP
    datagram 203.0.113.1 port 6000 sent to 192.0.2.1 port 80. *)
Definition icmp4_error_skb : sk_buff :=
  mk_skb L3PROTO_IPV4 L4PROTO_ICMP
    ([69; 0; 0; 56; 0; 1; 0; 0; 64; 1; 0; 0] ++ addr4_node4 ++ addr4_pool4)
    ([3; 1; 0; 0; 0; 0; 0; 0] ++
     ([69; 0; 0; 28; 0; 2; 0; 0; 63; 17; 0; 0] ++ addr4_pool4 ++ addr4_node4) ++
     [23; 112; 0; 80; 0; 8; 0; 0]).

(** An iterator for the examples: it walks the extension headers of
    RFC 2460, the hop-by-hop options (0), routing (43) and destination
    options (60) headers, whose second byte counts the 8-byte units after
    the first 8 bytes, and the Fragment header (44) of 8 bytes, and ends at
    the first header of another type. *)
Fixpoint hdr_iterator_walk (fuel : nat) (hdr_type : Z) (data : list Z) : Z * list Z :=
  match fuel with
  | O => (hdr_type, data)
  | S fuel' =>
      if (hdr_type =? 0) || (hdr_type =? 43) || (hdr_type =? 60) then
        hdr_iterator_walk fuel' (nth 0 data 0) (skipn (Z.to_nat (8 + 8 * nth 1 data 0)) data)
      else if hdr_type =? NEXTHDR_FRAGMENT then
        hdr_iterator_walk fuel' (nth 0 data 0) (skipn 8 data)
      else (hdr_type, data)
  end.

Definition hdr_iterator_last0 (iterator : Z * list Z) : Z * list Z :=
  hdr_iterator_walk (length (snd iterator)) (fst iterator) (snd iterator).

(** An ICMPv6 "destination unreachable" from 2001:db8::1 about a UDP
    datagram 64:ff9b::192.0.2.1 port 80 sent to 2001:db8::1 port 5000,
    which has a destination options header and a Fragment header. *)
Definition icmp6_error_skb : sk_buff :=
  mk_skb L3PROTO_IPV6 L4PROTO_ICMP
    ([96; 0; 0; 0; 0; 72; 58; 64] ++ addr6_node6 ++ addr6_node4)
    ([1; 0; 0; 0; 0; 0; 0; 0] ++
     ([96; 0; 0; 0; 0; 24; 60; 63] ++ addr6_node4 ++ addr6_node6) ++
     [44; 0; 1; 4; 0; 0; 0; 0] ++
     [17; 0; 0; 0; 0; 0; 18; 52] ++
     [0; 80; 19; 136; 0; 8; 0; 0]).

(** A tuple that holds nothing of these packets. *)
Definition tuple_blank : tuple :=
  mk_tuple (mk_tuple_addr (Ip4 [0; 0; 0; 0]) 0) (mk_tuple_addr (Ip4 [0; 0; 0; 0]) 0)
    L3PROTO_IPV4 L4PROTO_NONE.

(** A translation whose steps change nothing. *)
Definition steps0 (_ : l3_protocol) (_ : l4_protocol) : translation_steps :=
  mk_steps (fun _ _ o => (VER_CONTINUE, o)) (fun _ _ o => (VER_CONTINUE, o))
           (fun o => (VER_CONTINUE, o)) (fun _ _ p => (VER_CONTINUE, p)).

(** A UDP datagram of 44 bytes of data from 192.0.2.1 port 80 to
    203.0.113.1 port 6000 that may be fragmented, and its translation: 100
    bytes, with a Fragment header. *)
Definition in0 : fragment :=
  mk_fragment
    ([69; 0; 0; 72; 18; 52; 0; 0; 64; 17; 0; 0] ++ addr4_node4 ++ addr4_pool4 ++
     [0; 80; 23; 112; 0; 52; 0; 0] ++ repeat 9 44)
    7 L3PROTO_IPV4 20 L4PROTO_UDP 8 44.

Definition out0 : fragment :=
  mk_fragment
    ([96; 0; 0; 0; 0; 60; 44; 63] ++ addr6_node4 ++ addr6_node6 ++
     [17; 0; 0; 0; 0; 0; 18; 52] ++
     [0; 80; 19; 136; 0; 52; 0; 0] ++ repeat 9 44)
    7 L3PROTO_IPV6 48 L4PROTO_UDP 8 44.

Definition config0 (mtu : Z) : translate_config :=
  mk_translate_config 0 0 0 1 0 1 5 (Some [1492; 1006; 508; 296; 68]) mtu.

(** 2001:db8::/32 and 2001:db8:c000:201::1, which lies within it and has
    a suffix that is not zero. *)
Definition prefix32 : ipv6_prefix :=
  mk_prefix [32; 1; 13; 184; 0; 0; 0; 0; 0; 0; 0; 0; 0; 0; 0; 0] 32.
Definition addr6_suffix : in6_addr := [32; 1; 13; 184; 192; 0; 2; 1; 0; 0; 0; 0; 0; 0; 0; 1].

(** ** More of packet.h *)

Definition is_more_fragments_set_ipv4 (hdr : list Z) : bool :=
  negb (Z.shiftr (Z.land (iphdr_frag_off hdr) IP_MF) 13 =? 0).

(** [build_ipv4_frag_off_field], before [cpu_to_be16]: [result] is a
    [__u16]. *)
Definition build_ipv4_frag_off_field (df mf : bool) (frag_offset : Z) : Z :=
  u16 (Z.lor (Z.lor (if df then Z.shiftl 1 14 else 0) (if mf then Z.shiftl 1 13 else 0))
         (Z.shiftr frag_offset 3)).

(** ** The configuration of the translation (mod/translate_packet.c) *)

(** config_proto.h: [enum translate_type]. *)
Inductive translate_type :=
  | RESET_TCLASS | RESET_TOS | NEW_TOS | DF_ALWAYS_ON | BUILD_IPV4_ID | LOWER_MTU_FAIL
  | MTU_PLATEAUS | MIN_IPV6_MTU.

Global Instance translate_type_eq_dec : EqDecision translate_type.
Proof. solve_decision. Defined.

(** [be16_compare]: the callback [sort] is given; positive when [b] is the
    larger, which sorts in descending order. *)
Definition be16_compare (a b : Z) : Z := b - a.

(** linux/sort.h: [sort] with [be16_compare] and [be16_swap].  The kernel's
    heapsort is not among the sources; an array of integers has one sorted
    arrangement, which an insertion sort with the same callback gives. *)
Fixpoint sort_insert (x : Z) (l : list Z) : list Z :=
  match l with
  | [] => [x]
  | y :: rest => if be16_compare x y <=? 0 then x :: l else y :: sort_insert x rest
  end.

Definition sort (l : list Z) : list Z := fold_right sort_insert [] l.

(** The loop of [update_plateaus] that removes zeroes and duplicates, with
    [n] turns left: [i] and [j] are its two indexes. *)
Fixpoint remove_zeroes_and_duplicates (n i j : nat) (list_ : list Z) : nat * list Z :=
  match n with
  | O => (i, list_)
  | S n' =>
      if nth j list_ 0 =? 0 then (i, list_)
      else if negb (nth i list_ 0 =? nth j list_ 0) then
        remove_zeroes_and_duplicates n' (S i) (S j) (<[S i := nth j list_ 0]> list_)
      else remove_zeroes_and_duplicates n' i (S j) list_
  end.

(** The fields of a configuration, one at a time. *)
Definition set_mtu_plateaus (c : translate_config) (l : option (list Z)) : translate_config :=
  mk_translate_config (reset_traffic_class c) (reset_tos c) (new_tos c) (df_always_on c)
    (build_ipv4_id c) (lower_mtu_fail c) (mtu_plateau_count c) l (min_ipv6_mtu c).

Definition set_mtu_plateau_count (c : translate_config) (n : Z) : translate_config :=
  mk_translate_config (reset_traffic_class c) (reset_tos c) (new_tos c) (df_always_on c)
    (build_ipv4_id c) (lower_mtu_fail c) n (mtu_plateaus c) (min_ipv6_mtu c).

(** [update_plateaus]: [value] is the payload read as an array of 16-bit
    integers and [size] its length in bytes; [alloc] tells whether its
    [kmalloc] succeeds.  The result of [kmalloc] is assigned to
    [config->mtu_plateaus] before it is tested, so a failure leaves the
    configuration with a null pointer and the count it had.  The new array
    has [count] entries, and [mtu_plateau_count], a [__u16], is set from
    [count], an [unsigned int].  The pair is the status and the
    configuration. *)
Definition update_plateaus (alloc : bool) (config : translate_config) (size : Z)
    (value : list Z) : Z * translate_config :=
  let count := u32 (size / 2) in
  if count =? 0 then (- EINVAL, config)
  else if size mod 2 =? 1 then (- EINVAL, config)
  else
    let list_ := sort (firstn (Z.to_nat count) value) in
    let '(i, list_) := remove_zeroes_and_duplicates (Z.to_nat count - 1) 0 1 list_ in
    if nth 0 list_ 0 =? 0 then (- EINVAL, config)
    else
      let count := u32 (Z.of_nat i + 1) in
      if negb alloc then (- ENOMEM, set_mtu_plateaus config None)
      else (0, set_mtu_plateau_count
                 (set_mtu_plateaus config (Some (firstn (Z.to_nat count) list_)))
                 (u16 count)).

Definition expect_u16 (actual : Z) : bool := 2 =? actual.
Definition expect_u8 (actual : Z) : bool := 1 =? actual.

(** [translate_set_config]: [value] is the payload as the case reads it,
    bytes for the 8-bit options and 16-bit integers for the two others.
    The kernel tells whether the copy of the configuration can be
    allocated and [plateaus_alloc] whether the array of [update_plateaus]
    can, which works on the copy.  The pair is the status and the
    configuration then in force. *)
Definition translate_set_config (k : kernel) (plateaus_alloc : bool) (type : translate_type)
    (size : Z) (value : list Z) (config : translate_config) : Z * translate_config :=
  if negb (kmalloc_ok k) then (- ENOMEM, config)
  else
    let old := config in
    let u8_value := u8 (nth 0 value 0) in
    match type with
    | RESET_TCLASS =>
        if negb (expect_u8 size) then (- EINVAL, config)
        else (0, mk_translate_config u8_value (reset_tos old) (new_tos old) (df_always_on old)
                   (build_ipv4_id old) (lower_mtu_fail old) (mtu_plateau_count old)
                   (mtu_plateaus old) (min_ipv6_mtu old))
    | RESET_TOS =>
        if negb (expect_u8 size) then (- EINVAL, config)
        else (0, mk_translate_config (reset_traffic_class old) u8_value (new_tos old)
                   (df_always_on old) (build_ipv4_id old) (lower_mtu_fail old)
                   (mtu_plateau_count old) (mtu_plateaus old) (min_ipv6_mtu old))
    | NEW_TOS =>
        if negb (expect_u8 size) then (- EINVAL, config)
        else (0, mk_translate_config (reset_traffic_class old) (reset_tos old) u8_value
                   (df_always_on old) (build_ipv4_id old) (lower_mtu_fail old)
                   (mtu_plateau_count old) (mtu_plateaus old) (min_ipv6_mtu old))
    | DF_ALWAYS_ON =>
        if negb (expect_u8 size) then (- EINVAL, config)
        else (0, mk_translate_config (reset_traffic_class old) (reset_tos old) (new_tos old)
                   u8_value (build_ipv4_id old) (lower_mtu_fail old) (mtu_plateau_count old)
                   (mtu_plateaus old) (min_ipv6_mtu old))
    | BUILD_IPV4_ID =>
        if negb (expect_u8 size) then (- EINVAL, config)
        else (0, mk_translate_config (reset_traffic_class old) (reset_tos old) (new_tos old)
                   (df_always_on old) u8_value (lower_mtu_fail old) (mtu_plateau_count old)
                   (mtu_plateaus old) (min_ipv6_mtu old))
    | LOWER_MTU_FAIL =>
        if negb (expect_u8 size) then (- EINVAL, config)
        else (0, mk_translate_config (reset_traffic_class old) (reset_tos old) (new_tos old)
                   (df_always_on old) (build_ipv4_id old) u8_value (mtu_plateau_count old)
                   (mtu_plateaus old) (min_ipv6_mtu old))
    | MTU_PLATEAUS =>
        let '(error, tmp) := update_plateaus plateaus_alloc old size value in
        if negb (error =? 0) then (error, config) else (0, tmp)
    | MIN_IPV6_MTU =>
        if negb (expect_u16 size) then (- EINVAL, config)
        else (0, mk_translate_config (reset_traffic_class old) (reset_tos old) (new_tos old)
                   (df_always_on old) (build_ipv4_id old) (lower_mtu_fail old)
                   (mtu_plateau_count old) (mtu_plateaus old) (u16 (nth 0 value 0)))
    end.

(** ** The packet an ICMP error quotes *)

(** The packet quoted by an ICMP error, as the hooks would hand it to the
    module had it arrived by itself: its bytes are the quoted network
    header [hdr] and the bytes [rest] that follow it, and [l4hdr] is where
    its transport header starts. *)
Definition quoted (l3 : l3_protocol) (l4 : l4_protocol) (hdr rest l4hdr : list Z)
    : sk_buff :=
  mk_skb l3 l4 (hdr ++ rest) l4hdr.

(** The UDP datagrams that the ICMPv4 error and the ICMPv6 error of the
    examples quote, by themselves. *)
Definition quoted4_0 : sk_buff :=
  quoted L3PROTO_IPV4 L4PROTO_UDP
    [69; 0; 0; 28; 0; 2; 0; 0; 63; 17; 0; 0; 203; 0; 113; 1; 192; 0; 2; 1]
    [23; 112; 0; 80; 0; 8; 0; 0] [23; 112; 0; 80; 0; 8; 0; 0].

Definition quoted6_0 : sk_buff :=
  quoted L3PROTO_IPV6 L4PROTO_UDP
    [96; 0; 0; 0; 0; 24; 60; 63;
     0; 100; 255; 155; 0; 0; 0; 0; 0; 0; 0; 0; 192; 0; 2; 1;
     32; 1; 13; 184; 0; 0; 0; 0; 0; 0; 0; 0; 0; 0; 0; 1]
    [44; 0; 1; 4; 0; 0; 0; 0; 17; 0; 0; 0; 0; 0; 18; 52; 0; 80; 19; 136; 0; 8; 0; 0]
    [0; 80; 19; 136; 0; 8; 0; 0].

(** A tuple with its two ends exchanged. *)
Definition mirror (t : tuple) : tuple :=
  mk_tuple (t_dst t) (t_src t) (t_l3_proto t) (t_l4_proto t).

(** ** The configuration on the wire (mod/config_proto.c) *)

(** linux/jiffies.h, for a tick rate that divides 1000: ticks to
    milliseconds, as an [unsigned int]. *)
Definition jiffies_to_msecs (k : kernel) (j : Z) : Z := u32 (1000 / HZ k * j).

(** config_proto.h *)
Record pktqueue_config := mk_pktqueue_config {
  max_pkts : Z
}.

Record filtering_config := mk_filtering_config {
  drop_by_addr : Z;
  drop_icmp6_info : Z;
  drop_external_tcp : Z
}.

Record fragmentation_config := mk_fragmentation_config {
  fragment_timeout : Z
}.

(** [struct response_general]; the members are [sessiondb], [pktqueue],
    [filtering], [translate] and [fragmentation]. *)
Record response_general := mk_response_general {
  rg_sessiondb : sessiondb_config;
  rg_pktqueue : pktqueue_config;
  rg_filtering : filtering_config;
  rg_translate : translate_config;
  rg_fragmentation : fragmentation_config
}.

(** Integers in memory, the least significant byte first as on x86-64. *)
Definition le_bytes (n : nat) (x : Z) : list Z :=
  map (fun i => (x / 2 ^ (8 * Z.of_nat i)) mod 256) (List.seq 0 n).

Fixpoint le_value (bs : list Z) : Z :=
  match bs with
  | [] => 0
  | b :: rest => b + 256 * le_value rest
  end.

(** The integer of [n] bytes at offset [off] of a buffer. *)
Definition field (buffer : list Z) (off n : nat) : Z := le_value (bytes_at buffer off n).

(** [struct response_general] in memory where pointers have 8 bytes and the
    members lie at their natural alignment (x86-64): [sessiondb] at 0, four
    [__u64]; [pktqueue] at 32; [filtering] at 40, three bytes and 5 of
    padding; [translate] at 48, 24 bytes: six bytes, [mtu_plateau_count] at
    54, the pointer [mtu_plateaus] at 56, [min_ipv6_mtu] at 64 and 6 of
    padding; [fragmentation] at 72. *)
Definition sizeof_response_general : Z := 80.
Definition sizeof_translate_config : Z := 24.

(** The [mtu_plateau_count] entries that [memcpy] reads through
    [mtu_plateaus]; [None] where it would read through a null pointer or
    past the array. *)
Definition plateaus_read (t : translate_config) : option (list Z) :=
  match mtu_plateaus t with
  | None => if mtu_plateau_count t =? 0 then Some [] else None
  | Some l =>
      if mtu_plateau_count t <=? Z.of_nat (length l)
      then Some (firstn (Z.to_nat (mtu_plateau_count t)) l)
      else None
  end.

(** [serialize_general_config]: the status and [*buffer_out];
    [*buffer_len_out] is the length of the buffer.  [None] when the call
    reads memory the model does not have.  [kmalloc] does not clear what it
    returns, and [memcpy] copies the padding and the pointer of
    [config->translate] with its members: [untracked] gives, by its offset
    in the buffer, each byte that the model does not follow.  The plateaus
    are copied to [tconfig + 1], which is offset 72, where the
    fragmentation member is written afterwards. *)
Definition serialize_general_config (k : kernel) (untracked : nat -> Z)
    (config : response_general) : option (Z * option (list Z)) :=
  let t := rg_translate config in
  let mtus_len := mtu_plateau_count t * 2 in
  if negb (kmalloc_ok k) then Some (- ENOMEM, None)
  else
    match plateaus_read t with
    | None => None
    | Some plateaus =>
        let buffer :=
          map untracked (List.seq 0 (Z.to_nat (sizeof_response_general + mtus_len))) in
        let s := rg_sessiondb config in
        let buffer := write_at 0 (le_bytes 8 (jiffies_to_msecs k (ttl_udp s))) buffer in
        let buffer := write_at 16 (le_bytes 8 (jiffies_to_msecs k (ttl_tcp_est s))) buffer in
        let buffer := write_at 24 (le_bytes 8 (jiffies_to_msecs k (ttl_tcp_trans s))) buffer in
        let buffer := write_at 8 (le_bytes 8 (jiffies_to_msecs k (ttl_icmp s))) buffer in
        let f := rg_filtering config in
        let buffer :=
          write_at 40 [drop_by_addr f; drop_icmp6_info f; drop_external_tcp f] buffer in
        let buffer :=
          write_at 48
            ([reset_traffic_class t; reset_tos t; new_tos t; df_always_on t;
              build_ipv4_id t; lower_mtu_fail t] ++ le_bytes 2 (mtu_plateau_count t))
            buffer in
        let buffer := write_at 64 (le_bytes 2 (min_ipv6_mtu t)) buffer in
        let buffer := write_at 72 (concat (map (le_bytes 2) plateaus)) buffer in
        let buffer := write_at 32 (le_bytes 8 (max_pkts (rg_pktqueue config))) buffer in
        let buffer :=
          write_at 72 (le_bytes 8 (fragment_timeout (rg_fragmentation config))) buffer in
        Some (0, Some buffer)
    end.

(** [deserialize_general_config]: the status and [*target_out], which is
    written before the plateaus are allocated.  [buffer_len] is not looked
    at: the structure is read from the first 80 bytes and the plateaus,
    as many as the count read says, from offset 80, the size of the
    structure; [None] when the buffer is shorter than what is read.  A timeout is converted as an [unsigned int].  [kmalloc] of no
    byte does not answer a null pointer. *)
Definition deserialize_general_config (k : kernel) (buffer : list Z)
    : option (Z * response_general) :=
  if Z.of_nat (length buffer) <? sizeof_response_general then None
  else
    let sconfig :=
      mk_sessiondb_config (msecs_to_jiffies k (field buffer 0 8))
        (msecs_to_jiffies k (field buffer 8 8)) (msecs_to_jiffies k (field buffer 16 8))
        (msecs_to_jiffies k (field buffer 24 8)) in
    let count := field buffer 54 2 in
    let mtus_len := count * 2 in
    let target plateaus :=
      mk_response_general sconfig (mk_pktqueue_config (field buffer 32 8))
        (mk_filtering_config (field buffer 40 1) (field buffer 41 1) (field buffer 42 1))
        (mk_translate_config (field buffer 48 1) (field buffer 49 1) (field buffer 50 1)
           (field buffer 51 1) (field buffer 52 1) (field buffer 53 1) count plateaus
           (field buffer 64 2))
        (mk_fragmentation_config (field buffer 72 8)) in
    if negb ((mtus_len =? 0) || kmalloc_ok k) then Some (- ENOMEM, target None)
    else if Z.of_nat (length buffer) <? sizeof_response_general + mtus_len then None
    else
      Some (0, target (Some (map (fun i => field buffer (80 + 2 * i) 2)
                               (List.seq 0 (Z.to_nat count))))).

(** The members of a configuration that are not bytes hold integers of
    their types. *)
Definition fits (config : response_general) : Prop :=
  0 <= max_pkts (rg_pktqueue config) < 2 ^ 64 /\
  0 <= fragment_timeout (rg_fragmentation config) < 2 ^ 64 /\
  0 <= mtu_plateau_count (rg_translate config) < 2 ^ 16 /\
  0 <= min_ipv6_mtu (rg_translate config) < 2 ^ 16.

(** [sessiondb_clone_config] *)
Definition sessiondb_clone_config (db : sessiondb) : Z * sessiondb_config := (0, config db).

(** The timeout of one class in a configuration. *)
Definition timeout_of (c : sessiondb_config) (type : sessiondb_type) : Z :=
  match type with
  | UDP_TIMEOUT => ttl_udp c
  | ICMP_TIMEOUT => ttl_icmp c
  | TCP_EST_TIMEOUT => ttl_tcp_est c
  | TCP_TRANS_TIMEOUT => ttl_tcp_trans c
  end.

(** ** More of the session database (mod/session_db.c) *)

(** [sessiondb_get]: the lookup for the side the tuple comes from. *)
Definition sessiondb_get (tuple : tuple) (db : sessiondb) : Z * option nat :=
  match t_l3_proto tuple with
  | L3PROTO_IPV6 => sessiondb_get_by_ipv6 (tuple_to_ipv6_pair tuple) (t_l4_proto tuple) db
  | L3PROTO_IPV4 => sessiondb_get_by_ipv4 (tuple_to_ipv4_pair tuple) (t_l4_proto tuple) db
  end.

(** [sessiondb_allow]: the function returns [bool]; the error of
    [get_session_table] is returned as it is, so it reads as true. *)
Definition sessiondb_allow (tuple : tuple) (db : sessiondb) : bool :=
  match get_session_table (t_l4_proto tuple) with
  | None => negb (- EINVAL =? 0)
  | Some t =>
      match rbtree_find (db_heap db) compare_addrs4 (tuple_to_ipv4_pair tuple)
              (tree4 (get_table db t)) with
      | Some _ => true
      | None => false
      end
  end.

(** linux/rbtree.h: [RB_EMPTY_NODE] tells whether a hook is in no tree, for
    hooks that are cleared whenever they are not linked.  [remove] clears
    the two hooks of the entry it unlinks; an entry is made by session.c,
    which is not among the sources, and is taken to come with its hooks
    cleared.  A hook that [rb_erase] alone took out of a tree (the second
    failure of [sessiondb_add]) is not cleared, but then the other hook of
    that entry was never linked: the disjunction of the two tests that
    [sessiondb_update_timer] makes is "some index does not link the
    entry" in every state the functions above lead to. *)
Definition RB_EMPTY_NODE (index : session_table -> rb_node) (db : sessiondb) (session : nat)
    : bool :=
  forallb (fun t => negb (bool_decide (session ∈ rb_inorder (index (get_table db t)))))
    [TABLE_UDP; TABLE_TCP; TABLE_ICMP].

Definition timer_pending (e : expire_timer) : bool :=
  match timer e with Some _ => true | None => false end.

(** [sessiondb_update_timer] *)
Definition sessiondb_update_timer (k : kernel) (session : nat) (e : expirer_id)
    (db : sessiondb) : sessiondb :=
  if RB_EMPTY_NODE tree6 db session || RB_EMPTY_NODE tree4 db session then db
  else
    let db := store db session (set_update_time (deref (db_heap db) session) (jiffies k)) in
    let db := list_del session db in
    let db := list_add_tail session e db in
    if timer_pending (get_expirer db e) then db
    else schedule_timer k e (u64 (jiffies k + get_timeout k db e)) db.

Definition set_udp_timer (k : kernel) (session : nat) (db : sessiondb) : sessiondb :=
  sessiondb_update_timer k session EXPIRER_UDP db.

Definition set_tcp_est_timer (k : kernel) (session : nat) (db : sessiondb) : sessiondb :=
  sessiondb_update_timer k session EXPIRER_TCP_EST db.

Definition set_tcp_trans_timer (k : kernel) (session : nat) (db : sessiondb) : sessiondb :=
  sessiondb_update_timer k session EXPIRER_TCP_TRANS db.

Definition set_icmp_timer (k : kernel) (session : nat) (db : sessiondb) : sessiondb :=
  sessiondb_update_timer k session EXPIRER_ICMP db.

(** *** Notions used in the statements about the database *)

(** The bytes two addresses are compared on agree. *)
Definition same_bytes (n : nat) (a b : list Z) : Prop :=
  forall i, (i < n)%nat -> nth i a 0 = nth i b 0.

(** Two pairs are the same key: their addresses agree on the bytes that
    are compared and their ports are equal. *)
Definition same_pair6 (p q : ipv6_pair) : Prop :=
  same_bytes 16 (a6_address (p6_local p)) (a6_address (p6_local q)) /\
  same_bytes 16 (a6_address (p6_remote p)) (a6_address (p6_remote q)) /\
  a6_l4_id (p6_local p) = a6_l4_id (p6_local q) /\
  a6_l4_id (p6_remote p) = a6_l4_id (p6_remote q).

Definition same_pair4 (p q : ipv4_pair) : Prop :=
  same_bytes 4 (a4_address (p4_local p)) (a4_address (p4_local q)) /\
  a4_l4_id (p4_local p) = a4_l4_id (p4_local q) /\
  same_bytes 4 (a4_address (p4_remote p)) (a4_address (p4_remote q)) /\
  a4_l4_id (p4_remote p) = a4_l4_id (p4_remote q).

(** Every session linked in a table is an allocated one, so that what
    [kmalloc] returns next is linked nowhere. *)
Definition allocated (db : sessiondb) : Prop :=
  forall x, linked db x -> is_Some (db_heap db !! x).

(** The tables are well formed and each count is the number of entries of
    its table. *)
Definition counted (db : sessiondb) : Prop :=
  forall t, table_ok (get_table db t) /\
            count (get_table db t) = rb_size (tree4 (get_table db t)).

(** The queue of expirer [e] is in the order of the last updates, none of
    which is later than [now]. *)
Definition fifo_ordered (db : sessiondb) (now : Z) (e : expirer_id) : Prop :=
  StronglySorted Z.le (map (fun x => update_time (deref (db_heap db) x))
                         (sessions (get_expirer db e))) /\
  forall x, x ∈ sessions (get_expirer db e) -> update_time (deref (db_heap db) x) <= now.

(** What is left of a list once the entries of another are taken out. *)
Definition without (removed l : list nat) : list nat :=
  filter (fun x => x ∉ removed) l.

(** The longest run of [nodes], from its head, that passes the test. *)
Definition run_of (keep_going : session_entry -> bool) (heap : gmap nat session_entry)
    (nodes removed : list nat) : Prop :=
  (exists rest, nodes = removed ++ rest /\
     match rest with
     | [] => True
     | x :: _ => keep_going (deref heap x) = false
     end) /\
  forall x, x ∈ removed -> keep_going (deref heap x) = true.

(** What a walk of [remove_while] has done: the entries it removed are the
    longest run of [nodes], from its head, that passes the test. *)
Record walked (keep_going : session_entry -> bool) (t : table_id) (nodes removed : list nat)
    (db db' : sessiondb) : Prop := mk_walked {
  walked_prefix : exists rest, nodes = removed ++ rest /\
    match rest with
    | [] => True
    | x :: _ => keep_going (deref (db_heap db) x) = false
    end;
  walked_test : forall x, x ∈ removed -> keep_going (deref (db_heap db) x) = true;
  walked_heap : db_heap db' = db_heap db;
  walked_other : forall t', t' <> t -> get_table db' t' = get_table db t';
  walked_tree4 : rb_inorder (tree4 (get_table db' t))
                 = without removed (rb_inorder (tree4 (get_table db t)));
  walked_tree6 : rb_inorder (tree6 (get_table db' t))
                 = without removed (rb_inorder (tree6 (get_table db t)));
  walked_count : count (get_table db' t) = count (get_table db t);
  walked_sessions : forall e, sessions (get_expirer db' e)
                              = without removed (sessions (get_expirer db e));
  walked_timer : forall e, timer (get_expirer db' e) = timer (get_expirer db e);
  walked_config : config db' = config db;
  walked_sent : sent db' = sent db
}.

(** What a removal pass that unlinked the entries [removed] of table [t]
    leaves. *)
Record removed_from (t : table_id) (removed : list nat) (db db' : sessiondb) : Prop :=
  mk_removed_from {
  removed_heap : db_heap db' = db_heap db;
  removed_other : forall t', t' <> t -> get_table db' t' = get_table db t';
  removed_tree4 : rb_inorder (tree4 (get_table db' t))
                  = without removed (rb_inorder (tree4 (get_table db t)));
  removed_tree6 : rb_inorder (tree6 (get_table db' t))
                  = without removed (rb_inorder (tree6 (get_table db t)));
  removed_count : count (get_table db' t)
                  = u64 (count (get_table db t) - Z.of_nat (length removed));
  removed_sessions : forall e, sessions (get_expirer db' e)
                               = without removed (sessions (get_expirer db e));
  removed_timer : forall e, timer (get_expirer db' e) = timer (get_expirer db e);
  removed_config : config db' = config db;
  removed_sent : sent db' = sent db
}.

(** What a bulk removal that unlinked the entries [removed t] of each table
    [t] leaves: the indexes and the expiration lists without them, in the
    order they had, and each count lowered by their number. *)
Record removed_all (removed : table_id -> list nat) (db db' : sessiondb) : Prop :=
  mk_removed_all {
  all_heap : db_heap db' = db_heap db;
  all_tree4 : forall t, rb_inorder (tree4 (get_table db' t))
                        = without (removed t) (rb_inorder (tree4 (get_table db t)));
  all_tree6 : forall t, rb_inorder (tree6 (get_table db' t))
                        = without (removed t) (rb_inorder (tree6 (get_table db t)));
  all_count : forall t, count (get_table db' t)
                        = u64 (count (get_table db t) - Z.of_nat (length (removed t)));
  all_sessions : forall e,
    sessions (get_expirer db' e)
    = without (removed TABLE_UDP ++ removed TABLE_TCP ++ removed TABLE_ICMP)
        (sessions (get_expirer db e));
  all_timer : forall e, timer (get_expirer db' e) = timer (get_expirer db e);
  all_config : config db' = config db;
  all_sent : sent db' = sent db
}.

(** The pass of [sessiondb_delete_by_bib] and of [delete_sessions_by_ipv4]
    over the IPv4 index of a table, without the status. *)
Definition pass_matching {K : Type} (compare_cb : session_entry -> K -> Z) (key : K)
    (t : table_id) (db : sessiondb) : sessiondb :=
  match rbtree_find (db_heap db) compare_cb key (tree4 (get_table db t)) with
  | None => db
  | Some root_session =>
      snd (remove_around (fun session => compare_cb session key =? 0)
             (rb_around (tree4 (get_table db t)) root_session) root_session t db)
  end.

(** *** Order of the indexes *)

(** The first difference of two rows of numbers, zero when there is none:
    what the comparison callbacks compute over the fields of a pair. *)
Fixpoint lex (a b : list Z) : Z :=
  match a, b with
  | x :: a', y :: b' => if x - y =? 0 then lex a' b' else x - y
  | _, _ => 0
  end.

(** The first [n] bytes of an address, as [memcmp] reads them. *)
Definition bytes_of (n : nat) (a : list Z) : list Z :=
  map (fun i => nth i a 0) (List.seq 0 n).

(** The fields of a pair in the order [compare_full4] and [compare_full6]
    look at them. *)
Definition key4 (pair : ipv4_pair) : list Z :=
  bytes_of 4 (a4_address (p4_local pair)) ++ [a4_l4_id (p4_local pair)] ++
  bytes_of 4 (a4_address (p4_remote pair)) ++ [a4_l4_id (p4_remote pair)].

Definition key6 (pair : ipv6_pair) : list Z :=
  bytes_of 16 (a6_address (p6_local pair)) ++ bytes_of 16 (a6_address (p6_remote pair)) ++
  [a6_l4_id (p6_local pair)] ++ [a6_l4_id (p6_remote pair)].

(** The fields [compare_local4] looks at. *)
Definition key_local4 (addr : ipv4_tuple_address) : list Z :=
  bytes_of 4 (a4_address addr) ++ [a4_l4_id addr].

(** The entries of an index, from [rb_first] on, in the strict order of its
    comparison callback: each one compares as greater than the pair of
    every entry before it. *)
Definition sorted4 (db : sessiondb) (t : table_id) : Prop :=
  StronglySorted
    (fun a b => compare_full4 (deref (db_heap db) b) (ipv4 (deref (db_heap db) a)) < 0)
    (rb_inorder (tree4 (get_table db t))).

Definition sorted6 (db : sessiondb) (t : table_id) : Prop :=
  StronglySorted
    (fun a b => compare_full6 (deref (db_heap db) b) (ipv6 (deref (db_heap db) a)) < 0)
    (rb_inorder (tree6 (get_table db t))).

(** Along the entries [l] of an index the comparisons with [key] fall: once
    one is negative the later ones are, and before a positive one all
    are.  A search that compares with [key] then misses no entry that
    compares as equal. *)
Definition signs_fall {K : Type} (heap : gmap nat session_entry)
    (compare_cb : session_entry -> K -> Z) (key : K) (l : list nat) : Prop :=
  StronglySorted
    (fun a b =>
       (compare_cb (deref heap a) key < 0 -> compare_cb (deref heap b) key < 0) /\
       (0 < compare_cb (deref heap b) key -> 0 < compare_cb (deref heap a) key)) l.

(** The state the functions of the database keep: the tables are well
    formed and counted, every index is in order, and what is linked is
    allocated. *)
Definition consistent (db : sessiondb) : Prop :=
  counted db /\ (forall t, sorted4 db t /\ sorted6 db t) /\ allocated db.

(** *** More examples *)

(** A second session of the binding, with port 443 of 192.0.2.1. *)
Definition session1 (l4 : l4_protocol) (st : tcp_state) (updated : Z) : session_entry :=
  mk_session (mk_pair6 (mk_addr6 addr6_node4 443) (mk_addr6 addr6_node6 5000))
    (mk_pair4 (mk_addr4 addr4_node4 443) (mk_addr4 addr4_pool4 6000))
    updated (Some (bib0 l4)) l4 st.

(** A database with two TCP sessions and one UDP session, each in the list
    of its expirer. *)
Definition db2 : sessiondb :=
  let db := store db0 0%nat (session0 L4PROTO_TCP ESTABLISHED 0) in
  let db := store db 1%nat (session1 L4PROTO_TCP TRANS 10) in
  let db := store db 2%nat (session0 L4PROTO_UDP CLOSED 20) in
  let db := snd (sessiondb_add 0%nat db) in
  let db := snd (sessiondb_add 1%nat db) in
  let db := snd (sessiondb_add 2%nat db) in
  list_add_tail 2%nat EXPIRER_UDP
    (list_add_tail 1%nat EXPIRER_TCP_TRANS (list_add_tail 0%nat EXPIRER_TCP_EST db)).

(** *** Notions used in the statements about the timers *)

(** A session is in one expiration list at most, once: it has one hook. *)
Definition queued_once (db : sessiondb) : Prop :=
  (forall e, NoDup (sessions (get_expirer db e))) /\
  forall e e' x,
    x ∈ sessions (get_expirer db e) -> x ∈ sessions (get_expirer db e') -> e = e'.

(** Both hooks of the session are linked. *)
Definition in_database (db : sessiondb) (session : nat) : Prop :=
  (exists t, session ∈ rb_inorder (tree6 (get_table db t))) /\
  (exists t, session ∈ rb_inorder (tree4 (get_table db t))).

(** The expiry of the session moves it to another list instead of having
    it removed. *)
Definition established (s : session_entry) : Prop :=
  l4_proto s = L4PROTO_TCP /\ state s = ESTABLISHED.

(** What [schedule_timer] makes of [next_time]. *)
Definition floored (k : kernel) (next_time : Z) : Z :=
  let min_next := u64 (jiffies k + MIN_TIMER_SLEEP) in
  if time_before next_time min_next then min_next else next_time.

(** What a run of the cleaner of expirer [e] that removed the sessions
    [expired] and stopped in front of [rest] leaves: the removed sessions
    may have had their state set, nothing else is written in a session;
    the table of the expirer and every list have lost them; the timer is
    set for the first session of [rest], if any. *)
Record cleaned (k : kernel) (e : expirer_id) (timeout : Z) (expired rest : list nat)
    (db db' : sessiondb) : Prop := mk_cleaned {
  cleaned_kept : forall x, x ∉ expired -> deref (db_heap db') x = deref (db_heap db) x;
  cleaned_fields : forall x,
    ipv4 (deref (db_heap db') x) = ipv4 (deref (db_heap db) x) /\
    ipv6 (deref (db_heap db') x) = ipv6 (deref (db_heap db) x) /\
    update_time (deref (db_heap db') x) = update_time (deref (db_heap db) x) /\
    l4_proto (deref (db_heap db') x) = l4_proto (deref (db_heap db) x) /\
    bib (deref (db_heap db') x) = bib (deref (db_heap db) x);
  cleaned_alloc : forall x, is_Some (db_heap db !! x) -> is_Some (db_heap db' !! x);
  cleaned_other : forall t, t <> expirer_table e -> get_table db' t = get_table db t;
  cleaned_tree4 : rb_inorder (tree4 (get_table db' (expirer_table e)))
                  = without expired (rb_inorder (tree4 (get_table db (expirer_table e))));
  cleaned_tree6 : rb_inorder (tree6 (get_table db' (expirer_table e)))
                  = without expired (rb_inorder (tree6 (get_table db (expirer_table e))));
  cleaned_count : count (get_table db' (expirer_table e))
                  = u64 (count (get_table db (expirer_table e)) - Z.of_nat (length expired));
  cleaned_sessions : sessions (get_expirer db' e) = rest;
  cleaned_lists : forall e', e' <> e ->
    sessions (get_expirer db' e') = without expired (sessions (get_expirer db e')) /\
    timer (get_expirer db' e') = timer (get_expirer db e');
  cleaned_timer : timer (get_expirer db' e) =
    match rest with
    | [] => None
    | x :: _ => Some (floored k (u64 (update_time (deref (db_heap db) x) + timeout)))
    end;
  cleaned_config : config db' = config db;
  cleaned_sent : sent db' = sent db
}.

(** ** More of the tuple (nat64/mod/types.h) *)

Definition is_3_tuple (tuple : tuple) : bool :=
  bool_decide (t_l4_proto tuple = L4PROTO_ICMP).

Definition is_5_tuple (tuple : tuple) : bool := negb (is_3_tuple tuple).

(** The member of the union that the address holds. *)
Definition family (a : tuple_ip) : l3_protocol :=
  match a with Ip4 _ => L3PROTO_IPV4 | Ip6 _ => L3PROTO_IPV6 end.

(** The tuple that step 1 leaves for a packet when it continues. *)
Definition tuple_of_packet (skb : sk_buff) (tuple : tuple) : Prop :=
  t_l3_proto tuple = skb_l3_proto skb /\
  family (t_addr (t_src tuple)) = skb_l3_proto skb /\
  family (t_addr (t_dst tuple)) = skb_l3_proto skb /\
  t_l4_proto tuple <> L4PROTO_NONE /\
  (skb_l4_proto skb <> L4PROTO_ICMP -> t_l4_proto tuple = skb_l4_proto skb) /\
  (is_3_tuple tuple = true -> t_l4_id (t_src tuple) = t_l4_id (t_dst tuple)).

(** ** More of the session database: iteration *)

Section ForEach.

(** The callback of [sessiondb_for_each] reads the entry and works on
    what [arg] points to, of type [A], which it may change; it is taken
    not to touch the database. *)
Context {A : Type}.
Variable func : session_entry -> A -> Z * A.

(** The loop, for the nodes that [rb_next] gives from [node] on. *)
Fixpoint for_each_loop (heap : gmap nat session_entry) (nodes : list nat) (error : Z)
    (arg : A) : Z * A :=
  match nodes with
  | [] => (error, arg)
  | node :: rest =>
      if negb (error =? 0) then (error, arg)
      else
        let '(error, arg) := func (deref heap node) arg in
        for_each_loop heap rest error arg
  end.

Definition sessiondb_for_each (l4_proto : l4_protocol) (arg : A) (db : sessiondb)
    : Z * A :=
  match get_session_table l4_proto with
  | None => (- EINVAL, arg)
  | Some t => for_each_loop (db_heap db) (rb_inorder (tree4 (get_table db t))) 0 arg
  end.

End ForEach.

(** ** The states of the database *)

Section Reachable.

Variable pool6_get : in6_addr -> Z * ipv6_prefix.
Variable pool6_peek : Z * ipv6_prefix.

(** Every table has room for one more entry below the range of [int]. *)
Definition room (db : sessiondb) : Prop :=
  forall t, rb_size (tree4 (get_table db t)) + 1 < 2 ^ 31.

(** The databases that the functions of the module make of the one
    [sessiondb_init] builds.  [sessiondb_add] is given an entry that was
    just allocated; it and the two creating functions are called while
    there is room. *)
Inductive reachable : sessiondb -> Prop :=
| reach_init k beyond : reachable (sessiondb_init k beyond)
| reach_add s db :
    reachable db -> room db ->
    reachable (snd (sessiondb_add (fresh (dom (db_heap db)))
                      (store db (fresh (dom (db_heap db))) s)))
| reach_get_or_create_ipv6 k tuple bib db :
    reachable db -> room db ->
    reachable (snd (sessiondb_get_or_create_ipv6 pool6_get k tuple bib db))
| reach_get_or_create_ipv4 k tuple bib db :
    reachable db -> room db ->
    reachable (snd (sessiondb_get_or_create_ipv4 pool6_peek k tuple bib db))
| reach_delete_by_bib bib db :
    reachable db -> reachable (snd (sessiondb_delete_by_bib bib db))
| reach_delete_by_ipv4 addr4 db :
    reachable db -> reachable (snd (sessiondb_delete_by_ipv4 addr4 db))
| reach_delete_by_ipv6_prefix prefix db :
    reachable db -> reachable (snd (sessiondb_delete_by_ipv6_prefix prefix db))
| reach_flush db :
    reachable db -> reachable (snd (sessiondb_flush db))
| reach_set_config k type size value db :
    reachable db -> reachable (snd (sessiondb_set_config k type size value db))
| reach_update_timer k session e db :
    reachable db -> reachable (sessiondb_update_timer k session e db).

End Reachable.

(** * Theorems *)

(** ** RFC 6052 *)

Lemma memcmp_zero_firstn (n : nat) : forall cs ct : list Z,
  (n <= length cs)%nat -> (n <= length ct)%nat ->
  memcmp cs ct n = 0 -> firstn n cs = firstn n ct.
Proof.
  induction n as [|n IH]; intros cs ct Hcs Hct H; [reflexivity|].
  destruct cs as [|c cs]; [simpl in Hcs; lia|].
  destruct ct as [|d ct]; [simpl in Hct; lia|].
  simpl in H. simpl.
  destruct (c - d =? 0) eqn:E.
  - apply Z.eqb_eq in E. assert (c = d) by lia. subst d.
    f_equal. apply IH; simpl in *; lia.
  - apply Z.eqb_neq in E. lia.
Qed.

Ltac sixteen l :=
  do 16 (destruct l as [|? l]; [discriminate|]); destruct l; [|discriminate].

(** C9: for every prefix [p] of a valid length (32, 40, 48, 56, 64 or 96)
    and every IPv6 address [a] that lies within [p] and whose remaining
    bytes, the u byte and the suffix, are those [addr_4to6] writes,
    translating [a] to IPv4 and back with [p] gives [a]. *)
Theorem addr_roundtrip_plain (a : in6_addr) (p : ipv6_prefix) :
  In (prefix_len p) POOL6_PREFIX_LENGTHS ->
  length a = 16%nat -> length (prefix_address p) = 16%nat ->
  addr_in_prefix a p = true ->
  plain_embedding a p = true ->
  exists v, addr_6to4 a p = Some v /\ addr_4to6 v p = Some a.
Proof.
  destruct p as [pa len]. unfold addr_in_prefix, ipv6_prefix_equal. simpl.
  intros Hlen Ha Hpa Hin Hplain.
  apply andb_true_iff in Hin. destruct Hin as [Hin _].
  apply Z.eqb_eq in Hin.
  sixteen a. sixteen pa.
  unfold plain_embedding, addr_6to4, addr_4to6 in *. simpl prefix_len in *. simpl prefix_address in *.
  destruct Hlen as [<-|[<-|[<-|[<-|[<-|[<-|[]]]]]]];
    repeat (match goal with H : context [Z.to_nat ?x] |- _ =>
       let v := eval vm_compute in (Z.to_nat x) in change (Z.to_nat x) with v in H end);
    (apply memcmp_zero_firstn in Hin; [|simpl; lia|simpl; lia]);
    cbn in Hin; simplify_eq;
    cbn in Hplain;
    repeat (apply andb_true_iff in Hplain; destruct Hplain as [?H Hplain]);
    repeat match goal with H : (_ =? _) = true |- _ => apply Z.eqb_eq in H end;
    subst; eexists; split; reflexivity.
Qed.

(** ** The incoming tuple *)

(** Reading a packet that is given by its parts *)

Lemma nth_app_inside (a b : list Z) (i : nat) :
  (i < length a)%nat -> nth i (a ++ b) 0 = nth i a 0.
Proof. intros H. apply app_nth1. exact H. Qed.

Lemma bytes_at_app_inside (a b : list Z) (off n : nat) :
  (off + n <= length a)%nat -> bytes_at (a ++ b) off n = bytes_at a off n.
Proof.
  intros H. unfold bytes_at. rewrite drop_app_le by lia.
  rewrite take_app_le by (rewrite length_drop; lia). reflexivity.
Qed.

Lemma inner_packet_parts (skb : sk_buff) (icmp hdr rest : list Z) :
  skb_transport skb = icmp ++ hdr ++ rest -> length icmp = 8%nat ->
  inner_packet skb = hdr ++ rest /\ icmp_type (skb_transport skb) = icmp_type icmp.
Proof.
  intros Ht Hl. unfold inner_packet, icmp_type. rewrite Ht. split.
  - rewrite <- Hl. apply drop_app_length.
  - apply nth_app_inside. lia.
Qed.

Lemma ipv4_header_parts (hdr rest : list Z) :
  Z.of_nat (length hdr) = 4 * iphdr_ihl hdr -> 5 <= iphdr_ihl hdr ->
  iphdr_protocol (hdr ++ rest) = iphdr_protocol hdr /\
  iphdr_saddr (hdr ++ rest) = iphdr_saddr hdr /\
  iphdr_daddr (hdr ++ rest) = iphdr_daddr hdr /\
  ipv4_extract_l4_hdr (hdr ++ rest) = rest.
Proof.
  intros Hl Hi.
  assert (E0 : iphdr_ihl (hdr ++ rest) = iphdr_ihl hdr).
  { unfold iphdr_ihl. rewrite nth_app_inside by lia. reflexivity. }
  repeat apply conj.
  - unfold iphdr_protocol. apply nth_app_inside. lia.
  - unfold iphdr_saddr. apply bytes_at_app_inside. lia.
  - unfold iphdr_daddr. apply bytes_at_app_inside. lia.
  - unfold ipv4_extract_l4_hdr. rewrite E0, Z.shiftl_mul_pow2 by lia.
    replace (Z.to_nat (iphdr_ihl hdr * 2 ^ 2)) with (length hdr) by lia.
    apply drop_app_length.
Qed.

Lemma ipv6_header_parts (hdr rest : list Z) :
  length hdr = 40%nat ->
  ipv6hdr_nexthdr (hdr ++ rest) = ipv6hdr_nexthdr hdr /\
  ipv6hdr_saddr (hdr ++ rest) = ipv6hdr_saddr hdr /\
  ipv6hdr_daddr (hdr ++ rest) = ipv6hdr_daddr hdr /\
  skipn 40 (hdr ++ rest) = rest.
Proof.
  intros Hl. repeat apply conj.
  - unfold ipv6hdr_nexthdr. apply nth_app_inside. lia.
  - unfold ipv6hdr_saddr. apply bytes_at_app_inside. lia.
  - unfold ipv6hdr_daddr. apply bytes_at_app_inside. lia.
  - rewrite <- Hl. apply drop_app_length.
Qed.

Section DetermineIncomingTupleFacts.

Variables is_icmp4_info is_icmp4_error is_icmp6_info is_icmp6_error : Z -> bool.
Variable hdr_iterator_last : Z * list Z -> Z * list Z.

Let step1 := determine_in_tuple is_icmp4_info is_icmp4_error is_icmp6_info
               is_icmp6_error hdr_iterator_last.



End DetermineIncomingTupleFacts.


(** ** The timeouts of the session database *)

Lemma msecs_to_jiffies_tick_below (k : kernel) (v m : Z) :
  0 < HZ k -> 1000 mod HZ k = 0 ->
  0 <= v -> 0 < m -> 1000 * m < 2 ^ 31 ->
  v + 1000 / HZ k <= 1000 * m ->
  msecs_to_jiffies k v < msecs_to_jiffies k (1000 * m).
Proof.
  intros Hz Hdiv Hv Hm Hmax Hle.
  assert (HT : 1000 = HZ k * (1000 / HZ k)) by (apply Z.div_exact; lia).
  set (T := 1000 / HZ k) in *.
  assert (0 < T) by nia.
  unfold msecs_to_jiffies. fold T.
  assert (Ev : u32 v = v) by (unfold u32; apply Z.mod_small; lia).
  assert (Em : u32 (1000 * m) = 1000 * m) by (unfold u32; apply Z.mod_small; lia).
  rewrite Ev, Em.
  destruct (2 ^ 31 <=? v) eqn:E1; [apply Z.leb_le in E1; lia|].
  destruct (2 ^ 31 <=? 1000 * m) eqn:E2; [apply Z.leb_le in E2; lia|].
  assert (HM : 1000 * m = HZ k * m * T) by (rewrite HT at 1; ring).
  replace (1000 * m + T - 1) with ((T - 1) + (HZ k * m) * T) by lia.
  rewrite Z.div_add by lia.
  rewrite (Z.div_small (T - 1) T) by lia.
  assert (v + T - 1 < T * (HZ k * m)) by nia.
  simpl. apply Z.div_lt_upper_bound; lia.
Qed.

(** What [msecs_to_jiffies] answers, for a tick rate that divides 1000:
    below 2^31 milliseconds the least number of ticks that lasts as long,
    and from 2^31 on, where the argument read as an [int] is negative,
    [MAX_JIFFY_OFFSET], which is 2^62 - 2. *)
Lemma msecs_to_jiffies_ticks (k : kernel) (v : Z) :
  0 < HZ k -> 1000 mod HZ k = 0 -> 0 <= v <= 0xFFFFFFFF ->
  (v < 2 ^ 31 ->
   1000 / HZ k * (msecs_to_jiffies k v - 1) < v <= 1000 / HZ k * msecs_to_jiffies k v) /\
  (2 ^ 31 <= v -> msecs_to_jiffies k v = 2 ^ 62 - 2).
Proof.
  intros Hz Hdiv Hv.
  assert (HT : 1000 = HZ k * (1000 / HZ k)) by (apply Z.div_exact; lia).
  set (T := 1000 / HZ k) in *.
  assert (0 < T) by nia.
  unfold msecs_to_jiffies. fold T.
  assert (Ev : u32 v = v) by (unfold u32; apply Z.mod_small; lia).
  rewrite Ev. split; intros Hlt.
  - destruct (2 ^ 31 <=? v) eqn:E1; [apply Z.leb_le in E1; lia|].
    pose proof (Z.div_mod (v + T - 1) T ltac:(lia)) as Hd.
    pose proof (Z.mod_pos_bound (v + T - 1) T ltac:(lia)) as Hm.
    lia.
  - destruct (2 ^ 31 <=? v) eqn:E1; [reflexivity|apply Z.leb_gt in E1; lia].
Qed.

(** C10: on a machine whose tick rate divides 1000,
    [sessiondb_set_config] rejects an update and leaves the database as it
    is when the size of the payload is not 8, when the value exceeds
    0xFFFFFFFF milliseconds, or when the value is too short, which the code
    decides in ticks: the value and the minimum of its class (UDP 120
    seconds, TCP established 7200, TCP transitory 240) are both rounded up
    to whole ticks before they are compared, so that a value at least one
    tick below the minimum is always rejected.  The ICMP timeout has no
    lower bound.  The status of a rejection is minus [EINVAL], or minus
    [ENOMEM] when the new configuration cannot be allocated, which also
    fails an acceptable update.  On success the whole configuration is
    replaced by one that differs in the timeout of that class alone, which
    is the value in ticks: the least number of ticks that lasts as long
    for a value below 2^31, and 2^62 - 2 from there on. *)
Theorem sessiondb_set_config_checks (k : kernel) (type : sessiondb_type)
    (size value : Z) (db : sessiondb) :
  0 < HZ k -> 1000 mod HZ k = 0 ->
  let r := sessiondb_set_config k type size value db in
  (size <> 8 \/ u64 value > 0xFFFFFFFF \/ too_short k type (u64 value) = true ->
   (fst r = - EINVAL \/ fst r = - ENOMEM /\ kmalloc_ok k = false) /\ snd r = db) /\
  (size = 8 -> u64 value <= 0xFFFFFFFF -> too_short k type (u64 value) = false ->
   (kmalloc_ok k = false -> fst r = - ENOMEM /\ snd r = db) /\
   (kmalloc_ok k = true ->
    exists ticks,
      fst r = 0 /\
      snd r = set_config db (with_timeout (config db) type ticks) /\
      (u64 value < 2 ^ 31 ->
       1000 / HZ k * (ticks - 1) < u64 value <= 1000 / HZ k * ticks) /\
      (2 ^ 31 <= u64 value -> ticks = 2 ^ 62 - 2))) /\
  (too_short k ICMP_TIMEOUT (u64 value) = false) /\
  (forall m, timeout_minimum type = Some m ->
   u64 value + 1000 / HZ k <= 1000 * m -> too_short k type (u64 value) = true).
Proof.
  intros Hz Hdiv r. subst r. unfold sessiondb_set_config, too_short.
  assert (H64 : 0 <= u64 value) by (unfold u64; apply Z.mod_pos_bound; lia).
  repeat apply conj.
  - intros [Hs|[Hv|Ht]].
    + apply Z.eqb_neq in Hs. rewrite Hs. simpl. auto.
    + destruct (size =? 8); simpl; [|auto].
      apply Z.gtb_gt in Hv. rewrite Hv. auto.
    + destruct (size =? 8); simpl; [|auto].
      destruct (u64 value >? 4294967295); [auto|].
      destruct (kmalloc_ok k); simpl.
      * destruct type; simpl in Ht; try rewrite Ht; auto; discriminate.
      * auto.
  - intros Hs Hv Ht. subst size. simpl.
    assert (E : (u64 value >? 4294967295) = false) by (rewrite Z.gtb_ltb; apply Z.ltb_ge; lia).
    rewrite E. split; intros Hk; rewrite Hk; simpl; [auto|].
    exists (msecs_to_jiffies k (u64 value)).
    pose proof (msecs_to_jiffies_ticks k (u64 value) Hz Hdiv ltac:(lia)) as [V1 V2].
    repeat apply conj; [| |exact V1|exact V2];
      destruct type; simpl in *; try rewrite Ht; auto.
  - reflexivity.
  - intros m Hm Hle. rewrite Hm. apply Z.ltb_lt.
    destruct type; simpl in Hm; simplify_eq;
      apply msecs_to_jiffies_tick_below; try assumption; try reflexivity; vm_compute; congruence.
Qed.

(** At 250 ticks a second a UDP timeout of 120 seconds is accepted and
    stored as 30000 ticks, and one of 0xFFFFFFFF milliseconds as 2^62 - 2. *)
Lemma sessiondb_set_config_checks_witness :
  (exists ticks,
     fst (sessiondb_set_config kernel0 UDP_TIMEOUT 8 120000 db0) = 0 /\
     snd (sessiondb_set_config kernel0 UDP_TIMEOUT 8 120000 db0)
       = set_config db0 (with_timeout (config db0) UDP_TIMEOUT ticks) /\
     (u64 120000 < 2 ^ 31 -> 1000 / 250 * (ticks - 1) < u64 120000 <= 1000 / 250 * ticks) /\
     (2 ^ 31 <= u64 120000 -> ticks = 2 ^ 62 - 2)) /\
  (exists ticks,
     fst (sessiondb_set_config kernel0 UDP_TIMEOUT 8 0xFFFFFFFF db0) = 0 /\
     snd (sessiondb_set_config kernel0 UDP_TIMEOUT 8 0xFFFFFFFF db0)
       = set_config db0 (with_timeout (config db0) UDP_TIMEOUT ticks) /\
     (u64 0xFFFFFFFF < 2 ^ 31 ->
      1000 / 250 * (ticks - 1) < u64 0xFFFFFFFF <= 1000 / 250 * ticks) /\
     (2 ^ 31 <= u64 0xFFFFFFFF -> ticks = 2 ^ 62 - 2)).
Proof.
  split.
  - apply (proj2 (proj1 (proj2 (sessiondb_set_config_checks kernel0 UDP_TIMEOUT 8 120000 db0
                                   eq_refl eq_refl)) eq_refl ltac:(vm_compute; discriminate)
                           eq_refl)).
    reflexivity.
  - apply (proj2 (proj1 (proj2 (sessiondb_set_config_checks kernel0 UDP_TIMEOUT 8 0xFFFFFFFF db0
                                   eq_refl eq_refl)) eq_refl ltac:(vm_compute; discriminate)
                           eq_refl)).
    reflexivity.
Defined.

(** ** Fragmentation: bytes and fields *)

(** Bit masks *)

Lemma land_ldiff (x a b : Z) : Z.land x (Z.ldiff a b) = Z.ldiff (Z.land x a) b.
Proof.
  apply Z.bits_inj'. intros n Hn.
  rewrite Z.land_spec, !Z.ldiff_spec, Z.land_spec.
  destruct (Z.testbit x n), (Z.testbit a n), (Z.testbit b n); reflexivity.
Qed.

Lemma land_fff8 (x : Z) : Z.land x 0xFFF8 = 8 * (u16 x / 8).
Proof.
  change 0xFFF8 with (Z.ldiff (Z.ones 16) (Z.ones 3)).
  rewrite land_ldiff, Z.land_ones, Z.ldiff_ones_r by lia.
  rewrite Z.shiftl_mul_pow2, Z.shiftr_div_pow2 by lia.
  unfold u16. change (2 ^ 3) with 8. lia.
Qed.

Lemma land_fff8_aligned (x : Z) :
  0 <= x < 65536 -> x mod 8 = 0 -> Z.land x 0xFFF8 = x.
Proof.
  intros Hx H8. rewrite land_fff8. unfold u16.
  rewrite Z.mod_small by (change (2 ^ 16) with 65536; lia).
  pose proof (Z.div_mod x 8). lia.
Qed.

Lemma u16_small (x : Z) : 0 <= x < 65536 -> u16 x = x.
Proof. intros H. unfold u16. apply Z.mod_small. change (2 ^ 16) with 65536. lia. Qed.

Lemma u16_range (x : Z) : 0 <= u16 x < 65536.
Proof. unfold u16. change 65536 with (2 ^ 16). apply Z.mod_pos_bound. lia. Qed.

Lemma frag_off_field_value (offset : Z) (mf : bool) :
  build_ipv6_frag_off_field offset mf = 8 * (u16 offset / 8) + (if mf then 1 else 0).
Proof.
  unfold build_ipv6_frag_off_field. rewrite Z.shiftl_0_r, land_fff8.
  destruct mf.
  - rewrite <- Z.lxor_lor, <- Z.add_nocarry_lxor; try reflexivity.
    + change 1 with (Z.ones 1). rewrite Z.land_ones by lia.
      change (2 ^ 1) with 2. rewrite Z.mul_comm.
      replace (u16 offset / 8 * 8) with (u16 offset / 8 * 4 * 2) by ring.
      apply Z.mod_mul. lia.
    + change 1 with (Z.ones 1). rewrite Z.land_ones by lia.
      change (2 ^ 1) with 2. rewrite Z.mul_comm.
      replace (u16 offset / 8 * 8) with (u16 offset / 8 * 4 * 2) by ring.
      apply Z.mod_mul. lia.
  - rewrite Z.lor_0_r. lia.
Qed.

Lemma frag_off_field_range (offset : Z) (mf : bool) :
  0 <= build_ipv6_frag_off_field offset mf < 65536.
Proof.
  rewrite frag_off_field_value. pose proof (u16_range offset).
  assert (0 <= u16 offset / 8 < 8192).
  { split; [apply Z.div_pos; lia|]. apply Z.div_lt_upper_bound; lia. }
  destruct mf; lia.
Qed.

(** Reading what was written *)

Lemma nth_lookup_Z (l : list Z) (i : nat) : nth i l 0 = default 0 (l !! i).
Proof. apply nth_lookup. Qed.

Lemma nth_insert (l : list Z) (i j : nat) (x : Z) :
  nth j (<[i := x]> l) 0 =
  if decide (i = j /\ (i < length l)%nat) then x else nth j l 0.
Proof.
  rewrite !nth_lookup_Z. case_decide as H.
  - destruct H as [-> H]. rewrite list_lookup_insert_eq by exact H. reflexivity.
  - destruct (decide (i = j)) as [->|Hne].
    + rewrite list_insert_ge by lia. reflexivity.
    + rewrite list_lookup_insert_ne by exact Hne. reflexivity.
Qed.

Lemma write_at_cons (off : nat) (b : Z) (bs p : list Z) :
  write_at off (b :: bs) p = <[off := b]> (write_at (S off) bs p).
Proof. reflexivity. Qed.

Lemma write_at_length (bs : list Z) : forall (off : nat) (p : list Z),
  length (write_at off bs p) = length p.
Proof.
  induction bs as [|b bs IH]; intros off p; [reflexivity|].
  rewrite write_at_cons, length_insert. apply IH.
Qed.

Lemma nth_write_at (bs : list Z) : forall (off : nat) (p : list Z) (j : nat),
  nth j (write_at off bs p) 0 =
  if decide ((off <= j < off + length bs)%nat /\ (j < length p)%nat)
  then nth (j - off) bs 0 else nth j p 0.
Proof.
  induction bs as [|b bs IH]; intros off p j.
  - simpl. case_decide; [lia|reflexivity].
  - rewrite write_at_cons, nth_insert, write_at_length, IH.
    repeat case_decide; simpl length in *; try lia.
    + destruct H as [-> _]. replace (j - j)%nat with 0%nat by lia. reflexivity.
    + replace (j - off)%nat with (S (j - S off)) by lia. reflexivity.
Qed.

Lemma nth_skipn_Z (n i : nat) (l : list Z) : nth i (skipn n l) 0 = nth (n + i) l 0.
Proof. rewrite !nth_lookup_Z. rewrite lookup_drop. reflexivity. Qed.

Lemma be16_at_bytes (x : Z) (p : list Z) (off : nat) :
  (S off < length p)%nat ->
  be16_at (write_at off (be16_bytes x) p) off = u16 x.
Proof.
  intros H. unfold be16_at. rewrite !nth_write_at.
  simpl length. repeat case_decide; try lia.
  replace (off - off)%nat with 0%nat by lia.
  replace (S off - off)%nat with 1%nat by lia. simpl.
  pose proof (Z.div_mod (u16 x) 256). lia.
Qed.

(** Headers after [set_frag_headers] *)

Lemma identification_nth (x : list Z) :
  frag_hdr_identification (skipn 40 x) =
  firstn 4 (skipn 44 x).
Proof.
  unfold frag_hdr_identification, bytes_at. rewrite drop_drop. reflexivity.
Qed.

Lemma firstn4_nth (x : list Z) (n : nat) :
  (n + 4 <= length x)%nat ->
  firstn 4 (skipn n x) = [nth n x 0; nth (n + 1) x 0; nth (n + 2) x 0; nth (n + 3) x 0].
Proof.
  intros H. apply list_eq. intros i.
  destruct (decide (i < 4)%nat) as [Hi|Hi].
  - rewrite lookup_take_lt by exact Hi. rewrite lookup_drop.
    assert (Hl : (n + i < length x)%nat) by lia.
    apply lookup_lt_is_Some in Hl. destruct Hl as [v Hv].
    rewrite Hv.
    assert (nth (n + i) x 0 = v) by (apply nth_lookup_Some; exact Hv).
    destruct i as [|[|[|[|i]]]]; simpl; try lia;
      rewrite ?Nat.add_0_r in *; congruence.
  - rewrite lookup_take_ge by lia.
    destruct i as [|[|[|[|i]]]]; simpl; try lia. reflexivity.
Qed.

Section SetFragHeaders.

Variables (old new : list Z) (same : bool) (size offset : Z) (mf : bool).
Hypothesis Hold : (48 <= length old)%nat.
Hypothesis Hnew : (48 <= length new)%nat.
Hypothesis Hsame : same = true -> new = old.

Let r := set_frag_headers old new same size offset mf.

Lemma set_frag_headers_length : length r = length new.
Proof.
  unfold r, set_frag_headers.
  rewrite !write_at_length, !length_insert, write_at_length.
  destruct same; [reflexivity|apply write_at_length].
Qed.

Lemma set_frag_headers_nth (j : nat) :
  nth j r 0 =
  if decide (j < 4 \/ 6 <= j < 40)%nat then nth j old 0
  else if decide (j = 4)%nat then u16 (size - 40) / 256
  else if decide (j = 5)%nat then u16 (size - 40) mod 256
  else if decide (j = 40)%nat then nth 40 old 0
  else if decide (j = 41)%nat then 0
  else if decide (j = 42)%nat then build_ipv6_frag_off_field offset mf / 256
  else if decide (j = 43)%nat then build_ipv6_frag_off_field offset mf mod 256
  else if decide (44 <= j < 48)%nat then nth j old 0
  else nth j new 0.
Proof.
  pose proof (frag_off_field_range offset mf) as Hr.
  assert (Hid : frag_hdr_identification (skipn 40 old) =
                [nth 44 old 0; nth 45 old 0; nth 46 old 0; nth 47 old 0]).
  { rewrite identification_nth. apply (firstn4_nth old 44). lia. }
  unfold r, set_frag_headers. rewrite Hid.
  assert (Hbase : forall i, (i < 40)%nat ->
            nth i (if same then new else write_at 0 (firstn 40 old) new) 0 = nth i old 0).
  { intros i Hi. destruct same.
    - rewrite Hsame by reflexivity. reflexivity.
    - rewrite nth_write_at. rewrite length_take_le by lia.
      case_decide; [|lia]. rewrite Nat.sub_0_r.
      rewrite !nth_lookup_Z, lookup_take_lt by lia. reflexivity. }
  assert (Hrest : forall i, (40 <= i)%nat ->
            nth i (if same then new else write_at 0 (firstn 40 old) new) 0 = nth i new 0).
  { intros i Hi. destruct same; [reflexivity|].
    rewrite nth_write_at. rewrite length_take_le by lia.
    case_decide; [lia|reflexivity]. }
  assert (Hlen : length (if same then new else write_at 0 (firstn 40 old) new) = length new).
  { destruct same; [reflexivity|apply write_at_length]. }
  rewrite nth_write_at, write_at_length, !length_insert, write_at_length, Hlen.
  rewrite nth_write_at, !length_insert, write_at_length, Hlen.
  rewrite !nth_insert, !length_insert, write_at_length, Hlen.
  rewrite nth_write_at, Hlen.
  unfold be16_bytes. rewrite (u16_small _ Hr). simpl length.
  repeat (case_decide; try lia);
    try (rewrite Hbase by lia; reflexivity);
    try (rewrite Hrest by lia);
    try (rewrite Hsame by (destruct same; [reflexivity|]; lia));
    repeat match goal with
    | |- context [nth (?a - ?b)%nat _ _] =>
        let v := fresh in
        evar (v : nat); replace (a - b)%nat with v by (subst v; lia); subst v
    end;
    try reflexivity.
  all: try (subst j; reflexivity).
  assert (j = 44 \/ j = 45 \/ j = 46 \/ j = 47)%nat as [->|[->|[->| ->]]] by lia;
    reflexivity.
Qed.

Lemma set_frag_headers_offset :
  get_fragment_offset_ipv6 (skipn 40 r) = 8 * (u16 offset / 8).
Proof.
  unfold get_fragment_offset_ipv6, frag_hdr_frag_off, be16_at.
  rewrite !nth_skipn_Z. simpl Nat.add. rewrite !set_frag_headers_nth.
  repeat (case_decide; try lia).
  pose proof (frag_off_field_range offset mf) as Hr.
  pose proof (Z.div_mod (build_ipv6_frag_off_field offset mf) 256) as Hd.
  replace (build_ipv6_frag_off_field offset mf `div` 256 * 256 +
           build_ipv6_frag_off_field offset mf `mod` 256)
    with (build_ipv6_frag_off_field offset mf) by lia.
  rewrite land_fff8, (u16_small _ Hr), frag_off_field_value.
  pose proof (u16_range offset).
  destruct mf; cbv iota.
  - replace (8 * (u16 offset `div` 8) + 1) with (1 + (u16 offset `div` 8) * 8) by ring.
    rewrite Z.div_add by lia. change (1 `div` 8) with 0. lia.
  - replace (8 * (u16 offset `div` 8) + 0) with ((u16 offset `div` 8) * 8) by ring.
    rewrite Z.div_mul by lia. lia.
Qed.

Lemma set_frag_headers_mf :
  is_more_fragments_set_ipv6 (skipn 40 r) = mf.
Proof.
  unfold is_more_fragments_set_ipv6, frag_hdr_frag_off, be16_at.
  rewrite !nth_skipn_Z. simpl Nat.add. rewrite !set_frag_headers_nth.
  repeat (case_decide; try lia).
  pose proof (frag_off_field_range offset mf) as Hr.
  pose proof (Z.div_mod (build_ipv6_frag_off_field offset mf) 256) as Hd.
  replace (build_ipv6_frag_off_field offset mf `div` 256 * 256 +
           build_ipv6_frag_off_field offset mf `mod` 256)
    with (build_ipv6_frag_off_field offset mf) by lia.
  unfold IP6_MF. change 1 with (Z.ones 1). rewrite Z.land_ones by lia.
  rewrite frag_off_field_value. change (2 ^ 1) with 2.
  replace (8 * (u16 offset `div` 8)) with ((u16 offset `div` 8 * 4) * 2) by ring.
  rewrite Z.add_comm, Z.mod_add by lia.
  destruct mf; reflexivity.
Qed.

Lemma set_frag_headers_identification :
  frag_hdr_identification (skipn 40 r) = frag_hdr_identification (skipn 40 old).
Proof.
  rewrite !identification_nth.
  rewrite (firstn4_nth r 44) by (rewrite set_frag_headers_length; lia).
  rewrite (firstn4_nth old 44) by lia.
  rewrite !set_frag_headers_nth. simpl Nat.add.
  repeat (case_decide; try lia). reflexivity.
Qed.

Lemma set_frag_headers_payload_len :
  be16_at r 4 = u16 (size - 40).
Proof.
  unfold be16_at. rewrite !set_frag_headers_nth.
  repeat (case_decide; try lia).
  pose proof (Z.div_mod (u16 (size - 40)) 256). lia.
Qed.

Lemma set_frag_headers_nexthdr :
  ipv6hdr_nexthdr r = ipv6hdr_nexthdr old /\ nth 40 r 0 = nth 40 old 0.
Proof.
  unfold ipv6hdr_nexthdr. rewrite !set_frag_headers_nth.
  repeat (case_decide; try lia).
Qed.

Lemma set_frag_headers_addresses :
  ipv6hdr_saddr r = ipv6hdr_saddr old /\ ipv6hdr_daddr r = ipv6hdr_daddr old.
Proof.
  unfold ipv6hdr_saddr, ipv6hdr_daddr, bytes_at.
  split; apply list_eq; intros i;
    (destruct (decide (i < 16)%nat);
     [rewrite !lookup_take_lt, !lookup_drop by lia;
      pose proof (set_frag_headers_nth (8 + i)) as H8;
      pose proof (set_frag_headers_nth (24 + i)) as H24;
      rewrite !nth_lookup_Z in H8, H24;
      pose proof set_frag_headers_length as HL;
      repeat (case_decide; try lia)
     |rewrite !lookup_take_ge by lia; reflexivity]).
  - destruct (lookup_lt_is_Some_2 r (8 + i)) as [x Hx]; [lia|].
    destruct (lookup_lt_is_Some_2 old (8 + i)) as [y Hy]; [lia|].
    rewrite Hx, Hy in *. simpl in H8. congruence.
  - destruct (lookup_lt_is_Some_2 r (24 + i)) as [x Hx]; [lia|].
    destruct (lookup_lt_is_Some_2 old (24 + i)) as [y Hy]; [lia|].
    rewrite Hx, Hy in *. simpl in H24. congruence.
Qed.

End SetFragHeaders.

(** ** Fragmentation: the pieces *)

Lemma nth_take_Z (x : list Z) (n j : nat) : (j < n)%nat -> nth j (take n x) 0 = nth j x 0.
Proof. intros H. rewrite !nth_lookup_Z, lookup_take_lt by exact H. reflexivity. Qed.

Lemma take_drop_take (x : list Z) (k o n : nat) :
  (o + k <= n)%nat -> take k (drop o (take n x)) = take k (drop o x).
Proof.
  intros H. apply list_eq. intros i.
  destruct (decide (i < k)%nat).
  - rewrite !lookup_take_lt, !lookup_drop, lookup_take_lt by lia. reflexivity.
  - rewrite !lookup_take_ge by lia. reflexivity.
Qed.

Lemma headers_view_take (x : list Z) (n : nat) :
  (48 <= n)%nat -> headers_view (take n x) = headers_view x.
Proof.
  intros H. unfold headers_view, get_fragment_offset_ipv6, is_more_fragments_set_ipv6,
    frag_hdr_frag_off, frag_hdr_identification, ipv6hdr_nexthdr, ipv6hdr_saddr,
    ipv6hdr_daddr, bytes_at, be16_at.
  rewrite !nth_skipn_Z, !drop_drop. simpl Nat.add.
  rewrite !nth_take_Z, !take_drop_take by lia. reflexivity.
Qed.

Lemma headers_view_eq (x y : list Z) :
  take 48 x = take 48 y -> headers_view x = headers_view y.
Proof.
  intros H. rewrite <- (headers_view_take x 48), <- (headers_view_take y 48) by lia.
  rewrite H. reflexivity.
Qed.

Lemma take_write_at_above (n off : nat) (bs p : list Z) :
  (n <= off)%nat -> take n (write_at off bs p) = take n p.
Proof.
  intros H. apply list_eq. intros i.
  destruct (decide (i < n)%nat).
  - rewrite !lookup_take_lt by lia.
    pose proof (nth_write_at bs off p i) as E. rewrite !nth_lookup_Z in E.
    pose proof (write_at_length bs off p) as L.
    case_decide; [lia|].
    destruct (decide (i < length p)%nat).
    + destruct (lookup_lt_is_Some_2 p i) as [a Ha]; [lia|].
      destruct (lookup_lt_is_Some_2 (write_at off bs p) i) as [b Hb]; [lia|].
      rewrite Ha, Hb in *. simpl in E. congruence.
    + rewrite !lookup_ge_None_2 by lia. reflexivity.
  - rewrite !lookup_take_ge by lia. reflexivity.
Qed.

Lemma drop_write_at_exact (off : nat) (bs p : list Z) :
  length p = (off + length bs)%nat -> drop off (write_at off bs p) = bs.
Proof.
  intros H. apply (nth_ext _ _ 0 0).
  - rewrite length_drop, write_at_length. lia.
  - intros n Hn. rewrite length_drop, write_at_length in Hn.
    rewrite nth_skipn_Z, nth_write_at. case_decide; [|lia].
    f_equal. lia.
Qed.

(** One turn of the loop *)

Section DividePiece.

Variables (frag : fragment) (pms orig : Z) (mf : bool) (cur : Z).
Hypothesis Hlen : 48 <= skb_len frag.
Hypothesis Hpms : 8 <= pms <= 65480.
Hypothesis Hal : pms mod 8 = 0.
Hypothesis Hcur : 0 <= cur < skb_len frag.

Let is_last := skb_len frag - cur <=? pms.
Let size := if is_last then skb_len frag - cur else pms.
Let piece := divide_piece frag 48 pms orig mf cur.

Lemma divide_piece_size : fst piece = size /\ 0 < size <= pms.
Proof using Hlen Hpms Hal Hcur.
  unfold piece, divide_piece, size, is_last. simpl fst.
  destruct (skb_len frag - cur <=? pms) eqn:E.
  - apply Z.leb_le in E. rewrite u16_small by lia. lia.
  - apply Z.leb_gt in E. rewrite land_fff8_aligned by lia.
    rewrite u16_small by lia. lia.
Qed.

Lemma divide_piece_skb :
  frag_skb (snd piece) =
  write_at 48 (bytes_at (frag_skb frag) (Z.to_nat cur) (Z.to_nat size))
    (set_frag_headers (frag_skb frag) (repeat 0 (Z.to_nat (48 + size))) false
       (48 + size) (u16 (orig + (cur - 48))) (if is_last then mf else true)).
Proof using Hlen Hpms Hal Hcur.
  destruct divide_piece_size as [Hs Hr]. unfold piece in Hs.
  unfold piece, divide_piece in *. simpl fst in Hs. simpl snd. simpl frag_skb.
  fold is_last. fold is_last in Hs. rewrite Hs.
  rewrite (u16_small (48 + size)) by lia.
  replace (cur - 0 - 48) with (cur - 48) by lia. reflexivity.
Qed.

Lemma divide_piece_len : skb_len (snd piece) = 48 + size.
Proof using Hlen Hpms Hal Hcur.
  destruct divide_piece_size as [_ Hr].
  unfold skb_len. rewrite divide_piece_skb, write_at_length.
  rewrite set_frag_headers_length, repeat_length by discriminate. lia.
Qed.

Lemma divide_piece_headers :
  be16_at (frag_skb (snd piece)) 4 = 8 + size /\
  ipv6hdr_nexthdr (frag_skb (snd piece)) = ipv6hdr_nexthdr (frag_skb frag) /\
  ipv6hdr_saddr (frag_skb (snd piece)) = ipv6hdr_saddr (frag_skb frag) /\
  ipv6hdr_daddr (frag_skb (snd piece)) = ipv6hdr_daddr (frag_skb frag) /\
  nth 40 (frag_skb (snd piece)) 0 = nth 40 (frag_skb frag) 0 /\
  get_fragment_offset_ipv6 (fragment_header (snd piece)) =
    8 * (u16 (orig + (cur - 48)) / 8) /\
  is_more_fragments_set_ipv6 (fragment_header (snd piece)) = (if is_last then mf else true) /\
  frag_hdr_identification (fragment_header (snd piece)) =
    frag_hdr_identification (fragment_header frag).
Proof using Hlen Hpms Hal Hcur.
  destruct divide_piece_size as [_ Hr].
  assert (Hl : (48 <= length (frag_skb frag))%nat) by (unfold skb_len in Hlen; lia).
  assert (Hn : (48 <= length (repeat 0 (Z.to_nat (48 + size))))%nat)
    by (rewrite repeat_length; lia).
  unfold fragment_header. rewrite divide_piece_skb.
  set (X := set_frag_headers (frag_skb frag) (repeat 0 (Z.to_nat (48 + size))) false
       (48 + size) (u16 (orig + (cur - 48))) (if is_last then mf else true)).
  set (bs := bytes_at (frag_skb frag) (Z.to_nat cur) (Z.to_nat size)).
  assert (Hv : headers_view (write_at 48 bs X) = headers_view X).
  { apply headers_view_eq, take_write_at_above. lia. }
  unfold headers_view in Hv. injection Hv as -> -> -> -> -> -> -> ->.
  subst X.
  rewrite set_frag_headers_payload_len, set_frag_headers_offset,
    set_frag_headers_mf, set_frag_headers_identification
    by (first [assumption | discriminate | rewrite ?repeat_length; lia]).
  destruct (set_frag_headers_nexthdr (frag_skb frag) (repeat 0 (Z.to_nat (48 + size)))
              false (48 + size) (u16 (orig + (cur - 48))) (if is_last then mf else true))
    as [-> ->]; try (first [assumption | discriminate | rewrite ?repeat_length; lia]).
  destruct (set_frag_headers_addresses (frag_skb frag) (repeat 0 (Z.to_nat (48 + size)))
              false (48 + size) (u16 (orig + (cur - 48))) (if is_last then mf else true))
    as [-> ->]; try (first [assumption | discriminate | rewrite ?repeat_length; lia]).
  rewrite (u16_small (48 + size - 40)) by lia.
  rewrite (u16_small (u16 _)) by apply u16_range.
  repeat apply conj; try reflexivity. lia.
Qed.

Lemma divide_piece_data :
  skipn 48 (frag_skb (snd piece)) =
  firstn (Z.to_nat size) (skipn (Z.to_nat cur) (frag_skb frag)).
Proof using Hlen Hpms Hal Hcur.
  destruct divide_piece_size as [_ Hr].
  rewrite divide_piece_skb. apply drop_write_at_exact.
  rewrite set_frag_headers_length, repeat_length by discriminate.
  unfold bytes_at. rewrite length_take, length_drop.
  unfold skb_len in *. unfold size, is_last in *.
  destruct (Z.of_nat (length (frag_skb frag)) - cur <=? pms) eqn:E;
    [apply Z.leb_le in E|apply Z.leb_gt in E]; lia.
Qed.

End DividePiece.

Lemma u16_aligned (x : Z) : x mod 8 = 0 -> 8 * (u16 x / 8) = u16 x.
Proof.
  intros H. unfold u16.
  assert (E : (x mod 2 ^ 16) mod 8 = 0).
  { rewrite Z.mod_mod_divide; [exact H|]. exists 8192. reflexivity. }
  pose proof (Z.div_mod (x mod 2 ^ 16) 8). lia.
Qed.

Lemma divide_loop_done (fuel : nat) (alloc_skb frag_alloc : nat -> bool) (frag : fragment)
    (hs pms orig : Z) (mf : bool) (cur : Z) (acc : list fragment) :
  skb_len frag <= cur ->
  divide_loop fuel alloc_skb frag_alloc frag hs pms orig mf cur acc
  = Some (VER_CONTINUE, acc).
Proof.
  intros H. destruct fuel; simpl;
    (destruct (cur <? skb_len frag) eqn:E; [apply Z.ltb_lt in E; lia|reflexivity]).
Qed.

Lemma divide_loop_step (fuel : nat) (alloc_skb frag_alloc : nat -> bool) (frag : fragment)
    (hs pms orig : Z) (mf : bool) (cur : Z) (acc : list fragment) :
  cur < skb_len frag ->
  alloc_skb (length acc) = true -> frag_alloc (length acc) = true ->
  divide_loop (S fuel) alloc_skb frag_alloc frag hs pms orig mf cur acc =
  divide_loop fuel alloc_skb frag_alloc frag hs pms orig mf
    (cur + fst (divide_piece frag hs pms orig mf cur))
    (acc ++ [snd (divide_piece frag hs pms orig mf cur)]).
Proof.
  intros H Ha Hf. cbn [divide_loop].
  apply Z.ltb_lt in H. rewrite H, Ha. cbn [negb].
  destruct (divide_piece frag hs pms orig mf cur). rewrite Hf. reflexivity.
Qed.

(** A turn whose allocations fail ends the loop with [VER_DROP]. *)
Lemma divide_loop_drop (fuel : nat) (alloc_skb frag_alloc : nat -> bool) (frag : fragment)
    (hs pms orig : Z) (mf : bool) (cur : Z) (acc : list fragment) :
  cur < skb_len frag ->
  alloc_skb (length acc) = false \/ frag_alloc (length acc) = false ->
  divide_loop (S fuel) alloc_skb frag_alloc frag hs pms orig mf cur acc
  = Some (VER_DROP, acc).
Proof.
  intros H Hno. cbn [divide_loop].
  apply Z.ltb_lt in H. rewrite H.
  destruct (alloc_skb (length acc)); cbn [negb]; [|reflexivity].
  destruct (divide_piece frag hs pms orig mf cur).
  destruct Hno as [Hno|Hno]; [discriminate|]. rewrite Hno. reflexivity.
Qed.

Section DivideLoop.

Variables (alloc_skb frag_alloc : nat -> bool).
Variables (frag : fragment) (pms orig : Z) (mf : bool).
Hypothesis Hskb : forall n, alloc_skb n = true.
Hypothesis Hfrag : forall n, frag_alloc n = true.
Hypothesis Hlen : 48 <= skb_len frag.
Hypothesis Hpms : 8 <= pms <= 65480.
Hypothesis Hal : pms mod 8 = 0.
Hypothesis Horig : orig mod 8 = 0.

Lemma piece_offset_aligned (k : nat) :
  8 * (u16 (orig + (48 + Z.of_nat k * pms - 48)) / 8) = u16 (orig + Z.of_nat k * pms).
Proof.
  replace (orig + (48 + Z.of_nat k * pms - 48)) with (orig + Z.of_nat k * pms) by lia.
  apply u16_aligned.
  apply Z.mod_divide; [lia|]. apply Z.mod_divide in Hal, Horig; try lia.
  apply Z.divide_add_r; [assumption|]. apply Z.divide_mul_r. assumption.
Qed.

Lemma divide_loop_pieces : forall (fuel k : nat) (acc : list fragment),
  (Z.to_nat (skb_len frag - (48 + Z.of_nat k * pms)) < fuel)%nat ->
  exists news,
    divide_loop fuel alloc_skb frag_alloc frag 48 pms orig mf (48 + Z.of_nat k * pms) acc
      = Some (VER_CONTINUE, acc ++ news) /\
    (48 + Z.of_nat k * pms < skb_len frag -> news <> []) /\
    concat (map fragment_data news)
      = skipn (Z.to_nat (48 + Z.of_nat k * pms)) (frag_skb frag) /\
    forall i f, news !! i = Some f ->
      piece_ok (frag_skb frag) pms orig mf (k + length news) (k + i) f.
Proof.
  induction fuel as [|fuel IH]; intros k acc Hfuel; [lia|].
  set (cur := 48 + Z.of_nat k * pms) in *.
  destruct (decide (cur < skb_len frag)) as [Hlt|Hge].
  2:{ exists []. rewrite divide_loop_done by lia. rewrite app_nil_r.
      repeat apply conj; try done.
      simpl. symmetry. apply drop_ge. unfold skb_len in *. lia. }
  assert (Hcur : 0 <= cur < skb_len frag) by (unfold cur; lia).
  destruct (divide_piece_size frag pms orig mf cur Hlen Hpms Hal Hcur) as [Hsz Hrange].
  pose proof (divide_piece_len frag pms orig mf cur Hlen Hpms Hal Hcur) as Hplen.
  pose proof (divide_piece_headers frag pms orig mf cur Hlen Hpms Hal Hcur) as Hhdr.
  pose proof (divide_piece_data frag pms orig mf cur Hlen Hpms Hal Hcur) as Hdata.
  rewrite divide_loop_step by (lia || apply Hskb || apply Hfrag).
  destruct (divide_piece frag 48 pms orig mf cur) as [sz nf] eqn:Ep.
  cbn [fst snd] in *.
  destruct Hhdr as (Hpl & Hnh & Hsa & Hda & H40 & Hoff & Hmf & Hid).
  unfold cur in Hoff. rewrite piece_offset_aligned in Hoff.
  destruct (skb_len frag - cur <=? pms) eqn:Elast;
    rewrite ?Elast in Hsz, Hrange, Hplen, Hdata, Hmf, Hpl.
  - (* the last piece *)
    apply Z.leb_le in Elast.
    exists [nf]. rewrite divide_loop_done by lia.
    repeat apply conj; try done.
    + simpl. rewrite app_nil_r. unfold fragment_data. rewrite Hdata.
      apply take_ge. rewrite length_drop. unfold skb_len in *. lia.
    + intros i f Hi. destruct i as [|i]; [|done]. simpl in Hi. injection Hi as <-.
      unfold piece_ok. simpl length.
      replace (k + 0)%nat with k by lia.
      repeat apply conj; try assumption; try lia.
      * rewrite Hmf. case_decide; [reflexivity|lia].
  - (* a full piece, and more to come *)
    apply Z.leb_gt in Elast.
    assert (Ecur : cur + sz = 48 + Z.of_nat (S k) * pms) by (unfold cur; lia).
    rewrite Ecur.
    destruct (IH (S k) (acc ++ [nf])) as (news & Hrun & Hne & Hcat & Hall).
    { unfold cur in *. lia. }
    exists (nf :: news). rewrite Hrun, <- app_assoc. simpl app.
    repeat apply conj; try done.
    + simpl. rewrite Hcat. unfold fragment_data. rewrite Hdata.
      rewrite <- Ecur, <- Hsz.
      replace (Z.to_nat (cur + sz)) with (Z.to_nat cur + Z.to_nat sz)%nat by lia.
      rewrite <- drop_drop. apply take_drop.
    + assert (Hnn : news <> []) by (apply Hne; unfold cur in *; lia).
      intros i f Hi. destruct i as [|i]; simpl in Hi.
      * injection Hi as <-. unfold piece_ok. simpl length.
        replace (k + 0)%nat with k by lia.
        assert (0 < length news)%nat by (destruct news; [done|simpl; lia]).
        repeat apply conj; try assumption; try lia.
        rewrite Hmf. case_decide; [lia|reflexivity].
      * specialize (Hall i f Hi). simpl length.
        replace (k + S (length news))%nat with (S k + length news)%nat by lia.
        replace (k + S i)%nat with (S k + i)%nat by lia. exact Hall.
Qed.

End DivideLoop.

Lemma drop_set_frag_headers_same (old : list Z) (size offset : Z) (mf : bool) :
  (48 <= length old)%nat ->
  skipn 48 (set_frag_headers old old true size offset mf) = skipn 48 old.
Proof.
  intros H. apply (nth_ext _ _ 0 0).
  - rewrite !length_drop, set_frag_headers_length; done.
  - intros n Hn. rewrite !nth_skipn_Z, set_frag_headers_nth by done.
    repeat case_decide; first [lia | reflexivity].
Qed.

Lemma mtu_mask (mtu : Z) :
  56 <= mtu <= 65535 ->
  56 <= Z.land mtu 0xFFF8 <= mtu /\ Z.land mtu 0xFFF8 <= 65528 /\
  Z.land mtu 0xFFF8 mod 8 = 0.
Proof.
  intros H. rewrite land_fff8, u16_small by lia.
  pose proof (Z.div_mod mtu 8). pose proof (Z.mod_pos_bound mtu 8).
  assert (7 <= mtu / 8) by (apply Z.div_le_lower_bound; lia).
  assert (mtu / 8 < 8192) by (apply Z.div_lt_upper_bound; lia).
  repeat apply conj; try lia. rewrite Z.mul_comm. apply Z.mod_mul. lia.
Qed.

Lemma fragment_offset_aligned (hdr : list Z) :
  0 <= get_fragment_offset_ipv6 hdr < 65536 /\ get_fragment_offset_ipv6 hdr mod 8 = 0.
Proof.
  unfold get_fragment_offset_ipv6. rewrite land_fff8.
  pose proof (u16_range (frag_hdr_frag_off hdr)).
  assert (0 <= u16 (frag_hdr_frag_off hdr) / 8 < 8192).
  { split; [apply Z.div_pos; lia|]. apply Z.div_lt_upper_bound; lia. }
  split; [lia|]. rewrite Z.mul_comm. apply Z.mod_mul. lia.
Qed.

Lemma u16_mod8 (x : Z) : x mod 8 = 0 -> u16 x mod 8 = 0.
Proof.
  intros H. unfold u16. rewrite Z.mod_mod_divide; [exact H|]. exists 8192. reflexivity.
Qed.

Lemma divide_pieces (config : translate_config) (alloc_skb frag_alloc : nat -> bool)
    (out : fragment) (list_ : list fragment) :
  (forall n, alloc_skb n = true) -> (forall n, frag_alloc n = true) ->
  56 <= min_ipv6_mtu config <= 65535 ->
  skb_len out > min_ipv6_mtu config ->
  let mtu := min_ipv6_mtu config in
  let pms := Z.land mtu 0xFFF8 - 48 in
  let orig := get_fragment_offset_ipv6 (fragment_header out) in
  let mf := is_more_fragments_set_ipv6 (fragment_header out) in
  exists pieces,
    divide config alloc_skb frag_alloc out list_ = Some (VER_CONTINUE, list_ ++ pieces) /\
    (2 <= length pieces)%nat /\
    concat (map fragment_data pieces) = fragment_data out /\
    forall i f, pieces !! i = Some f ->
      skb_len f <= mtu /\
      get_fragment_offset_ipv6 (fragment_header f) mod 8 = 0 /\
      piece_ok (frag_skb out) pms orig mf (length pieces) i f.
Proof.
  intros Hskb Hfrag Hmtu Hbig mtu pms orig mf.
  destruct (mtu_mask mtu Hmtu) as (Hm & Hm' & Hm8).
  fold mtu in Hmtu, Hbig.
  destruct (fragment_offset_aligned (fragment_header out)) as [Ho Ho8].
  fold orig in Ho, Ho8.
  set (m := Z.land mtu 0xFFF8) in *.
  assert (Hpms : 8 <= pms <= 65480) by (unfold pms; lia).
  assert (Hpms8 : pms mod 8 = 0).
  { unfold pms. apply Z.mod_divide; [lia|]. apply Z.mod_divide in Hm8; [|lia].
    apply Z.divide_sub_r; [assumption|]. exists 6. reflexivity. }
  assert (Hout : (48 <= length (frag_skb out))%nat) by (unfold skb_len in *; lia).
  assert (HL : mtu < Z.of_nat (length (frag_skb out))) by (unfold skb_len in Hbig; lia).
  set (first_skb := set_frag_headers (frag_skb out) (frag_skb out) true m orig true).
  assert (Hflen : length first_skb = length (frag_skb out))
    by (apply set_frag_headers_length; done).
  set (frag1 := mk_fragment first_skb (frag_mark out) (l3_hdr_proto out) (l3_hdr_len out)
                  (l4_hdr_proto out) (l4_hdr_len out) (payload_len out)).
  assert (Hl1 : 48 <= skb_len frag1) by (unfold skb_len, frag1 in *; simpl; lia).
  destruct (divide_loop_pieces alloc_skb frag_alloc frag1 pms orig mf Hskb Hfrag Hl1 Hpms
              Hpms8 Ho8
              (S (length first_skb)) 1%nat [])
    as (news & Hrun & Hne & Hcat & Hall).
  { unfold skb_len, frag1. simpl. lia. }
  replace (48 + Z.of_nat 1 * pms) with m in * by (unfold pms; lia).
  assert (Hnn : news <> []).
  { apply Hne. unfold skb_len, frag1 in *. simpl. lia. }
  (* the fields of the first fragment *)
  pose proof (set_frag_headers_payload_len (frag_skb out) (frag_skb out) true m orig true
                Hout Hout (fun _ => eq_refl)) as F1.
  pose proof (set_frag_headers_offset (frag_skb out) (frag_skb out) true m orig true
                Hout Hout (fun _ => eq_refl)) as F2.
  pose proof (set_frag_headers_mf (frag_skb out) (frag_skb out) true m orig true
                Hout Hout (fun _ => eq_refl)) as F3.
  pose proof (set_frag_headers_identification (frag_skb out) (frag_skb out) true m orig true
                Hout Hout (fun _ => eq_refl)) as F4.
  pose proof (set_frag_headers_nexthdr (frag_skb out) (frag_skb out) true m orig true
                Hout Hout (fun _ => eq_refl)) as [F5 F6].
  pose proof (set_frag_headers_addresses (frag_skb out) (frag_skb out) true m orig true
                Hout Hout (fun _ => eq_refl)) as [F7 F8].
  fold first_skb in F1, F2, F3, F4, F5, F6, F7, F8.
  rewrite (u16_aligned orig Ho8), (u16_small orig Ho) in F2.
  rewrite u16_small in F1 by lia.
  set (frag2 := mk_fragment (firstn (Z.to_nat m) first_skb) (frag_mark out)
                  (l3_hdr_proto out) (l3_hdr_len out) (l4_hdr_proto out) (l4_hdr_len out)
                  (m - l3_hdr_len out - l4_hdr_len out)).
  assert (Hv2 : headers_view (frag_skb frag2) = headers_view first_skb).
  { apply headers_view_take. lia. }
  unfold headers_view in Hv2. injection Hv2 as V1 V2 V3 V4 V5 V6 V7 V8.
  exists (frag2 :: news).
  repeat apply conj.
  - unfold divide. fold mtu. fold m.
    rewrite (u16_small (m - (sizeof_ipv6hdr + sizeof_frag_hdr)))
      by (unfold sizeof_ipv6hdr, sizeof_frag_hdr; lia).
    change (sizeof_ipv6hdr + sizeof_frag_hdr) with 48.
    change (skipn 40 (frag_skb out)) with (fragment_header out).
    fold orig. fold mf. fold pms. fold first_skb. fold frag1. fold frag2.
    rewrite Hrun. reflexivity.
  - simpl. destruct news; [done|simpl; lia].
  - simpl. rewrite Hcat. unfold fragment_data at 1 2. simpl frag_skb.
    rewrite <- (drop_set_frag_headers_same (frag_skb out) m orig true Hout).
    fold first_skb.
    rewrite <- (take_drop (Z.to_nat m - 48) (drop 48 first_skb)).
    rewrite drop_drop. f_equal.
    + rewrite skipn_firstn_comm. reflexivity.
    + f_equal. lia.
  - intros i f H. split; [|split].
    { unfold skb_len. destruct i as [|i]; simpl in H; [injection H as <-|].
    + simpl. rewrite length_take. lia.
    + destruct (Hall i f H) as ((_ & Hle) & _). unfold skb_len in Hle. lia. }
    { destruct i as [|i]; simpl in H; [injection H as <-|].
    + unfold fragment_header, frag2. simpl frag_skb. rewrite V6, F2. exact Ho8.
    + destruct (Hall i f H) as (_ & _ & _ & _ & _ & _ & _ & Hoff & _).
      rewrite Hoff. apply u16_mod8.
      apply Z.mod_divide; [lia|]. apply Z.mod_divide in Ho8, Hpms8; try lia.
      apply Z.divide_add_r; [assumption|]. apply Z.divide_mul_r. assumption. }
    destruct i as [|i]; simpl in H; [injection H as <-|].
    + assert (Hs2 : skb_len frag2 = m).
      { unfold skb_len, frag2. simpl. rewrite length_take. lia. }
      unfold piece_ok, fragment_header. rewrite Hs2. unfold frag2. simpl frag_skb.
      rewrite V1, V2, V3, V4, V5, V6, V7, V8.
      rewrite F1, F2, F3, F4, F5, F6, F7, F8.
      simpl length.
      assert (0 < length news)%nat by (destruct news; [done|simpl; lia]).
      repeat apply conj; try reflexivity; try (unfold pms; lia).
      * rewrite Z.mul_0_l, Z.add_0_r, u16_small by lia. reflexivity.
      * case_decide; [lia|reflexivity].
    + specialize (Hall i f H). simpl length.
      unfold piece_ok in *. simpl frag_skb in Hall.
      rewrite F5, F6, F7, F8, F4 in Hall.
      replace (S (S i)) with (S (1 + i)) by lia.
      replace (S (length news)) with (1 + length news)%nat by lia.
      replace (Z.of_nat (S i)) with (Z.of_nat (1 + i)) by lia.
      exact Hall.
Qed.

(** ** Fragmentation: [translate_fragment] *)

Section TranslatePacketFacts.

Variable steps : l3_protocol -> l4_protocol -> translation_steps.
Variable frag_create_skb : fragment -> option fragment.
Variable get_extension_header : list Z -> Z -> option (list Z).

Lemma translate_needs_memory (alloc : bool) (tuple : tuple) (in_ : fragment)
    (st : translation_steps) (out : fragment) :
  translate frag_create_skb alloc tuple in_ st = (VER_CONTINUE, Some out) ->
  alloc = true.
Proof.
  unfold translate. destruct alloc; [reflexivity|]. simpl. discriminate.
Qed.

(** A fragment that comes out of the translation of an IPv4 fragment
    longer than [min_ipv6_mtu], when that minimum is at least 56 and fits
    16 bits: if the IPv4 packet has DF set it is dropped and an ICMP
    "fragmentation needed" error with MTU [min_ipv6_mtu - 20] is sent;
    otherwise, when every allocation of [divide] succeeds, the fragment
    is divided into two or more pieces that carry its data in order, each
    at most [min_ipv6_mtu] bytes long, each with the next-header values,
    the addresses and the identification of the fragment, with offsets
    that are multiples of 8 and the more-fragments flag set on every piece
    but the last, which has the flag of the fragment that was divided. *)
Lemma translate_fragment_divides (config : translate_config) (alloc : bool)
    (alloc_skb frag_alloc : nat -> bool)
    (in_ : fragment) (tuple : tuple) (pkt_out : packet) (out : fragment) :
  l3_hdr_proto in_ = L3PROTO_IPV4 ->
  translate frag_create_skb alloc tuple in_ (steps (l3_hdr_proto in_) (l4_hdr_proto in_))
    = (VER_CONTINUE, Some out) ->
  56 <= min_ipv6_mtu config <= 65535 ->
  skb_len out > min_ipv6_mtu config ->
  let mtu := min_ipv6_mtu config in
  let res := translate_fragment steps frag_create_skb get_extension_header config alloc
               alloc_skb frag_alloc in_ tuple pkt_out in
  (is_dont_fragment_set (frag_skb in_) = true ->
   exists first,
     res = Some (VER_DROP, mk_packet (pkt_fragments pkt_out) first,
                 [mk_icmp_sent ICMPERR_FRAG_NEEDED (mtu - 20) in_])) /\
  (is_dont_fragment_set (frag_skb in_) = false ->
   (forall n, alloc_skb n = true) -> (forall n, frag_alloc n = true) ->
   exists pieces first,
     res = Some (VER_CONTINUE, mk_packet (pkt_fragments pkt_out ++ pieces) first, []) /\
     (2 <= length pieces)%nat /\
     concat (map fragment_data pieces) = fragment_data out /\
     forall i f, pieces !! i = Some f ->
       skb_len f <= mtu /\
       get_fragment_offset_ipv6 (fragment_header f) mod 8 = 0 /\
       piece_ok (frag_skb out) (Z.land mtu 0xFFF8 - 48)
         (get_fragment_offset_ipv6 (fragment_header out))
         (is_more_fragments_set_ipv6 (fragment_header out)) (length pieces) i f).
Proof.
  intros H4 Htr Hmtu Hbig mtu res.
  pose proof (translate_needs_memory _ _ _ _ _ Htr) as ->.
  assert (Egt : (skb_len out >? min_ipv6_mtu config) = true) by (apply Z.gtb_gt; lia).
  subst res. unfold translate_fragment. rewrite Htr, H4, Egt.
  split; intros Hdf; rewrite Hdf.
  - eexists. unfold mtu, u32. rewrite (Z.mod_small (min_ipv6_mtu config - 20)); [reflexivity|].
    change (2 ^ 32) with 4294967296. lia.
  - intros Hskb Hfrag.
    destruct (divide_pieces config alloc_skb frag_alloc out (pkt_fragments pkt_out)
                Hskb Hfrag Hmtu Hbig) as (pieces & Hdiv & Hn & Hcat & Hall).
    exists pieces. eexists. rewrite Hdiv. repeat apply conj; try done.
Qed.

End TranslatePacketFacts.

(** With no room for data in a piece the loop of [divide] copies nothing
    and never ends, whatever the fuel, while its allocations succeed. *)
Lemma divide_loop_stuck (frag : fragment) (orig : Z) (mf : bool) :
  48 < skb_len frag ->
  forall (fuel : nat) (acc : list fragment),
    divide_loop fuel (fun _ => true) (fun _ => true) frag 48 0 orig mf 48 acc = None.
Proof.
  intros Hlen. induction fuel as [|fuel IH]; intros acc.
  - cbn [divide_loop]. apply Z.ltb_lt in Hlen. rewrite Hlen. reflexivity.
  - cbn [divide_loop negb]. pose proof Hlen as Hlt. apply Z.ltb_lt in Hlt. rewrite Hlt.
    unfold divide_piece.
    assert (E : (skb_len frag - 48 <=? 0) = false) by (apply Z.leb_gt; lia).
    rewrite E. change (u16 (Z.land 0 65528)) with 0. rewrite Z.add_0_r. apply IH.
Qed.

(** C8: the room for data in a piece is computed by [divide] in 16 bits as
    [min_ipv6_mtu], rounded down to a multiple of 8, minus the 48 bytes of
    the two headers, and [translate_set_config] accepts any 16-bit value as
    [min_ipv6_mtu].  With a minimum of 40, which it accepts, the datagram
    of the examples, 100 bytes long and free to be fragmented, is cut in
    two pieces, the second 108 bytes long, which is more than the minimum.
    With a minimum of 48, which it accepts as well, there is no room for
    data in a piece: the loop of [divide] never ends while its allocations
    succeed, and the translation of the datagram does not return. *)
Theorem translate_fragment_small_mtu :
  translate_set_config kernel0 true MIN_IPV6_MTU 2 [40] (config0 1280) = (0, config0 40) /\
  translate_set_config kernel0 true MIN_IPV6_MTU 2 [48] (config0 1280) = (0, config0 48) /\
  l3_hdr_proto in0 = L3PROTO_IPV4 /\
  is_dont_fragment_set (frag_skb in0) = false /\
  translate (fun _ => Some out0) true (tuple4 L4PROTO_UDP) in0
    (steps0 (l3_hdr_proto in0) (l4_hdr_proto in0)) = (VER_CONTINUE, Some out0) /\
  skb_len out0 = 100 /\
  (exists f1 f2 first,
     translate_fragment steps0 (fun _ => Some out0) (fun _ _ => None) (config0 40)
       true (fun _ => true) (fun _ => true) in0 (tuple4 L4PROTO_UDP) (mk_packet [] None)
     = Some (VER_CONTINUE, mk_packet [f1; f2] first, []) /\
     skb_len f1 = 40 /\ skb_len f2 = 108 /\ ~ skb_len f2 <= min_ipv6_mtu (config0 40)) /\
  translate_fragment steps0 (fun _ => Some out0) (fun _ _ => None) (config0 48)
    true (fun _ => true) (fun _ => true) in0 (tuple4 L4PROTO_UDP) (mk_packet [] None)
  = None /\
  (forall (fuel : nat) (frag : fragment) (orig : Z) (mf : bool) (acc : list fragment),
     48 < skb_len frag ->
     divide_loop fuel (fun _ => true) (fun _ => true) frag
       (sizeof_ipv6hdr + sizeof_frag_hdr)
       (u16 (Z.land (min_ipv6_mtu (config0 48)) 0xFFF8 - (sizeof_ipv6hdr + sizeof_frag_hdr)))
       orig mf (Z.land (min_ipv6_mtu (config0 48)) 0xFFF8) acc = None).
Proof.
  repeat apply conj; try reflexivity.
  - do 3 eexists. split; [vm_compute; reflexivity|].
    repeat apply conj; try reflexivity.
    vm_compute. intros H. apply H. reflexivity.
  - intros fuel frag orig mf acc Hlen. apply divide_loop_stuck. exact Hlen.
Qed.

(** ** Session database: stores and trees *)

(** Tables and expirers of a database *)

Lemma table_eta (tb : session_table) : mk_table (tree6 tb) (tree4 tb) (count tb) = tb.
Proof. destruct tb. reflexivity. Qed.

Lemma get_set_table (db : sessiondb) (t t' : table_id) (x : session_table) :
  get_table (set_table db t x) t' = if decide (t = t') then x else get_table db t'.
Proof. destruct t, t'; reflexivity. Qed.

Lemma set_table_same (db : sessiondb) (t : table_id) : set_table db t (get_table db t) = db.
Proof. destruct db, t; reflexivity. Qed.

Lemma set_table_twice (db : sessiondb) (t : table_id) (x y : session_table) :
  set_table (set_table db t x) t y = set_table db t y.
Proof. destruct t; reflexivity. Qed.

Lemma heap_set_table (db : sessiondb) (t : table_id) (x : session_table) :
  db_heap (set_table db t x) = db_heap db.
Proof. reflexivity. Qed.

Lemma get_set_expirer (db : sessiondb) (e e' : expirer_id) (x : expire_timer) :
  get_expirer (set_expirer db e x) e' = if decide (e = e') then x else get_expirer db e'.
Proof. destruct e, e'; reflexivity. Qed.

Lemma get_table_set_expirer (db : sessiondb) (e : expirer_id) (x : expire_timer) (t : table_id) :
  get_table (set_expirer db e x) t = get_table db t.
Proof. destruct t; reflexivity. Qed.

Lemma get_table_list_del (db : sessiondb) (p : nat) (t : table_id) :
  get_table (list_del p db) t = get_table db t.
Proof. destruct t; reflexivity. Qed.

Lemma get_expirer_list_del (db : sessiondb) (p : nat) (e : expirer_id) :
  get_expirer (list_del p db) e =
  mk_expirer (timer (get_expirer db e))
    (filter (fun x => x <> p) (sessions (get_expirer db e))).
Proof. destruct e; reflexivity. Qed.

Lemma deref_insert (h : gmap nat session_entry) (p x : nat) (v : session_entry) :
  deref (<[p := v]> h) x = if decide (p = x) then v else deref h x.
Proof.
  unfold deref. case_decide as E.
  - subst. rewrite lookup_insert_eq. reflexivity.
  - rewrite lookup_insert_ne by exact E. reflexivity.
Qed.

Lemma deref_delete_ne (h : gmap nat session_entry) (p x : nat) :
  p <> x -> deref (delete p h) x = deref h x.
Proof. intros E. unfold deref. rewrite lookup_delete_ne by exact E. reflexivity. Qed.

Lemma deref_Some (h : gmap nat session_entry) (p : nat) (s : session_entry) :
  h !! p = Some s -> deref h p = s.
Proof. intros E. unfold deref. rewrite E. reflexivity. Qed.

(** Trees *)

Lemma rb_join_inorder (l r : rb_node) : rb_inorder (rb_join l r) = rb_inorder l ++ rb_inorder r.
Proof.
  induction l as [|a IHa x b IHb]; [reflexivity|].
  simpl. rewrite IHb, <- app_assoc. reflexivity.
Qed.

Lemma rb_erase_notin (p : nat) (t : rb_node) : p ∉ rb_inorder t -> rb_erase p t = t.
Proof.
  induction t as [|l IHl x r IHr]; [reflexivity|].
  simpl. intros H. rewrite not_elem_of_app, not_elem_of_cons in H.
  destruct H as (Hl & Hx & Hr).
  case_decide; [congruence|]. rewrite IHl, IHr by assumption. reflexivity.
Qed.

Lemma filter_all (P : nat -> Prop) `{forall x, Decision (P x)} (l : list nat) :
  (forall x, x ∈ l -> P x) -> filter P l = l.
Proof.
  induction l as [|a l IH]; intros Hl; [reflexivity|].
  rewrite filter_cons. case_decide as E.
  - f_equal. apply IH. intros x Hx. apply Hl. right. exact Hx.
  - destruct E. apply Hl. left.
Qed.

Lemma rb_erase_inorder (p : nat) (t : rb_node) :
  NoDup (rb_inorder t) ->
  rb_inorder (rb_erase p t) = filter (fun x => x <> p) (rb_inorder t).
Proof.
  induction t as [|l IHl x r IHr]; [reflexivity|].
  simpl. intros H. apply NoDup_app in H. destruct H as (Hl & Hd & Hr).
  apply NoDup_cons in Hr. destruct Hr as [Hx Hr].
  rewrite filter_app, filter_cons.
  case_decide as E.
  - subst x. rewrite rb_join_inorder.
    case_decide; [congruence|].
    f_equal; symmetry; apply filter_all; intros y Hy Ey; subst y.
    + apply (Hd p Hy). left.
    + exact (Hx Hy).
  - case_decide; [|congruence]. simpl. rewrite IHl, IHr by assumption. reflexivity.
Qed.

Section RbtreeFacts.

Context {K : Type}.
Variable heap : gmap nat session_entry.
Variable compare_cb : session_entry -> K -> Z.

Lemma rbtree_find_in (key : K) (t : rb_node) (x : nat) :
  rbtree_find heap compare_cb key t = Some x -> x ∈ rb_inorder t.
Proof.
  induction t as [|l IHl y r IHr]; simpl; [discriminate|].
  intros H. rewrite elem_of_app, elem_of_cons.
  destruct (compare_cb (deref heap y) key <? 0); [left; auto|].
  destruct (0 <? compare_cb (deref heap y) key); [right; right; auto|].
  injection H as ->. right. left. reflexivity.
Qed.

Lemma rbtree_find_zero (key : K) (t : rb_node) (x : nat) :
  rbtree_find heap compare_cb key t = Some x -> compare_cb (deref heap x) key = 0.
Proof.
  induction t as [|l IHl y r IHr]; simpl; [discriminate|].
  destruct (compare_cb (deref heap y) key <? 0) eqn:E1; [auto|].
  destruct (0 <? compare_cb (deref heap y) key) eqn:E2; [auto|].
  intros H. injection H as <-. apply Z.ltb_ge in E1, E2. lia.
Qed.

Lemma rbtree_add_collision (session : nat) (key : K) (t : rb_node) :
  rbtree_add heap compare_cb session key t = None <->
  rbtree_find heap compare_cb key t <> None.
Proof.
  induction t as [|l IHl y r IHr]; simpl; [split; [discriminate|congruence]|].
  destruct (compare_cb (deref heap y) key <? 0).
  - rewrite <- IHl. destruct (rbtree_add heap compare_cb session key l);
      split; congruence.
  - destruct (0 <? compare_cb (deref heap y) key).
    + rewrite <- IHr. destruct (rbtree_add heap compare_cb session key r);
        split; congruence.
    + split; congruence.
Qed.

Lemma rbtree_add_inorder (session : nat) (key : K) (t t' : rb_node) :
  rbtree_add heap compare_cb session key t = Some t' ->
  exists l1 l2, rb_inorder t = l1 ++ l2 /\ rb_inorder t' = l1 ++ session :: l2.
Proof.
  revert t'. induction t as [|l IHl y r IHr]; simpl; intros t' H.
  - injection H as <-. exists [], []. split; reflexivity.
  - destruct (compare_cb (deref heap y) key <? 0).
    + destruct (rbtree_add heap compare_cb session key l) as [l'|]; [|discriminate].
      injection H as <-. destruct (IHl l' eq_refl) as (l1 & l2 & E1 & E2).
      exists l1, (l2 ++ y :: rb_inorder r). simpl. rewrite E1, E2.
      rewrite <- !app_assoc. split; reflexivity.
    + destruct (0 <? compare_cb (deref heap y) key); [|discriminate].
      destruct (rbtree_add heap compare_cb session key r) as [r'|]; [|discriminate].
      injection H as <-. destruct (IHr r' eq_refl) as (l1 & l2 & E1 & E2).
      exists (rb_inorder l ++ y :: l1), l2. simpl. rewrite E1, E2.
      rewrite <- !app_assoc. split; reflexivity.
Qed.

Lemma rbtree_add_elem (session : nat) (key : K) (t t' : rb_node) (x : nat) :
  rbtree_add heap compare_cb session key t = Some t' ->
  x ∈ rb_inorder t' <-> x = session \/ x ∈ rb_inorder t.
Proof.
  intros H. destruct (rbtree_add_inorder session key t t' H) as (l1 & l2 & -> & ->).
  rewrite !elem_of_app, elem_of_cons. tauto.
Qed.

Lemma rbtree_add_erase (session : nat) (key : K) (t t' : rb_node) :
  session ∉ rb_inorder t ->
  rbtree_add heap compare_cb session key t = Some t' ->
  rb_erase session t' = t.
Proof.
  revert t'. induction t as [|l IHl y r IHr]; simpl; intros t' Hn H.
  - injection H as <-. simpl. case_decide; [reflexivity|congruence].
  - rewrite not_elem_of_app, not_elem_of_cons in Hn. destruct Hn as (Hl & Hy & Hr).
    destruct (compare_cb (deref heap y) key <? 0).
    + destruct (rbtree_add heap compare_cb session key l) as [l'|]; [|discriminate].
      injection H as <-. simpl. case_decide; [congruence|].
      rewrite (IHl l') by auto. rewrite rb_erase_notin by assumption. reflexivity.
    + destruct (0 <? compare_cb (deref heap y) key); [|discriminate].
      destruct (rbtree_add heap compare_cb session key r) as [r'|]; [|discriminate].
      injection H as <-. simpl. case_decide; [congruence|].
      rewrite (IHr r') by auto. rewrite rb_erase_notin by assumption. reflexivity.
Qed.

End RbtreeFacts.

(** ** Session database: expiry *)

Lemma get_table_store (db : sessiondb) (p : nat) (s : session_entry) (t : table_id) :
  get_table (store db p s) t = get_table db t.
Proof. destruct t; reflexivity. Qed.

Lemma get_expirer_store (db : sessiondb) (p : nat) (s : session_entry) (e : expirer_id) :
  get_expirer (store db p s) e = get_expirer db e.
Proof. destruct e; reflexivity. Qed.

Lemma get_table_schedule_timer (k : kernel) (e : expirer_id) (n : Z) (db : sessiondb)
    (t : table_id) :
  get_table (schedule_timer k e n db) t = get_table db t.
Proof. destruct t; reflexivity. Qed.

Lemma sessions_schedule_timer (k : kernel) (e e' : expirer_id) (n : Z) (db : sessiondb) :
  sessions (get_expirer (schedule_timer k e n db) e') = sessions (get_expirer db e').
Proof. destruct e, e'; reflexivity. Qed.



Lemma heap_send_probe (k : kernel) (s : session_entry) (db : sessiondb) :
  db_heap (send_probe_packet k s db) = db_heap db.
Proof.
  unfold send_probe_packet.
  destruct (kmalloc_ok k), (route_ipv6_ok k), (ip6_local_out_ok k); reflexivity.
Qed.

(** The expiry of a V4_INIT session closes it, asks for its
    removal and sends nothing. *)
Lemma session_expire_v4_init (k : kernel) (db : sessiondb) (session : nat)
    (s : session_entry) :
  db_heap db !! session = Some s ->
  l4_proto s = L4PROTO_TCP -> state s = V4_INIT ->
  session_expire k session db = (true, store db session (set_state s CLOSED)) /\
  sent (snd (session_expire k session db)) = sent db.
Proof.
  intros Hs Hp Hst. unfold session_expire.
  rewrite (deref_Some _ _ _ Hs), Hp, Hst. split; reflexivity.
Qed.


(** ** Session database: the cases of [sessiondb_add] *)

(** The cases of [sessiondb_add], by what the searches of the two indexes
    find for the keys of the session. *)
Lemma sessiondb_add_cases (db : sessiondb) (session : nat) :
  (forall t, indexed6 db t) ->
  let s := deref (db_heap db) session in
  let r := sessiondb_add session db in
  (fst r = 0 \/ fst r = - EEXIST \/ fst r = - EINVAL) /\
  (fst r <> 0 -> snd r = db) /\
  (get_session_table (l4_proto s) = None -> fst r = - EINVAL) /\
  (forall t, get_session_table (l4_proto s) = Some t ->
     let table := get_table db t in
     (fst r = - EEXIST <->
      rbtree_find (db_heap db) compare_full6 (ipv6 s) (tree6 table) <> None \/
      rbtree_find (db_heap db) compare_full4 (ipv4 s) (tree4 table) <> None) /\
     (fst r = 0 ->
      rb_inorder (tree6 (get_table (snd r) t)) ≡ₚ session :: rb_inorder (tree6 table) /\
      rb_inorder (tree4 (get_table (snd r) t)) ≡ₚ session :: rb_inorder (tree4 table) /\
      count (get_table (snd r) t) = u64 (count table + 1) /\
      db_heap (snd r) = db_heap db /\
      forall t', t' <> t -> get_table (snd r) t' = get_table db t')).
Proof.
  intros Hidx s r. subst r. unfold sessiondb_add. fold s.
  destruct (get_session_table (l4_proto s)) as [t|] eqn:Et.
  2:{ simpl. repeat apply conj; auto; try discriminate. }
  pose proof (rbtree_add_collision (db_heap db) compare_full6 session (ipv6 s)
                (tree6 (get_table db t))) as C6.
  pose proof (rbtree_add_collision (db_heap db) compare_full4 session (ipv4 s)
                (tree4 (get_table db t))) as C4.
  destruct (rbtree_add (db_heap db) compare_full6 session (ipv6 s) (tree6 (get_table db t)))
    as [t6|] eqn:E6.
  2:{ simpl. repeat apply conj; auto; try discriminate.
      intros t' Ht'. injection Ht' as <-. split; [|intros H; exfalso; vm_compute in H; lia].
      split; [intros _; left; apply C6; reflexivity|reflexivity]. }
  assert (N6 : rbtree_find (db_heap db) compare_full6 (ipv6 s) (tree6 (get_table db t)) = None).
  { destruct (rbtree_find (db_heap db) compare_full6 (ipv6 s) (tree6 (get_table db t))) eqn:F;
      [|reflexivity].
    assert (Some t6 = None) by (apply C6; congruence). discriminate. }
  assert (Hfresh : session ∉ rb_inorder (tree6 (get_table db t))).
  { intros Hin. apply (Hidx t session Hin). exact N6. }
  destruct (rbtree_add (db_heap db) compare_full4 session (ipv4 s) (tree4 (get_table db t)))
    as [t4|] eqn:E4.
  - (* linked in both indexes *)
    cbn [fst snd]. rewrite set_table_twice.
    repeat apply conj; auto; try discriminate; try (intros H; exfalso; apply H; reflexivity).
    intros t' Ht'. injection Ht' as <-.
    assert (N4 : rbtree_find (db_heap db) compare_full4 (ipv4 s) (tree4 (get_table db t)) = None).
    { destruct (rbtree_find (db_heap db) compare_full4 (ipv4 s) (tree4 (get_table db t))) eqn:F;
        [|reflexivity].
      assert (Some t4 = None) by (apply C4; congruence). discriminate. }
    split.
    + split; [intros H; vm_compute in H; lia|].
      intros [H|H]; contradiction.
    + intros _. rewrite get_set_table. case_decide; [|congruence]. simpl.
      destruct (rbtree_add_inorder _ _ _ _ _ _ E6) as (a1 & a2 & -> & ->).
      destruct (rbtree_add_inorder _ _ _ _ _ _ E4) as (b1 & b2 & -> & ->).
      repeat apply conj; try reflexivity.
      * symmetry. apply Permutation_middle.
      * symmetry. apply Permutation_middle.
      * intros t' Hne. rewrite get_set_table. case_decide; [congruence|reflexivity].
  - (* the IPv4 index refuses: the IPv6 index is restored *)
    cbn [fst snd]. rewrite set_table_twice.
    rewrite (rbtree_add_erase _ _ _ _ _ _ Hfresh E6).
    rewrite table_eta, set_table_same.
    repeat apply conj; auto; try discriminate.
    + intros t' Ht'. injection Ht' as <-. split; [|intros H; exfalso; vm_compute in H; lia].
      split; [intros _; right; apply C4; reflexivity|reflexivity].
Qed.

(** ** Session database: parents *)

Lemma fresh_heap (h : gmap nat session_entry) : h !! fresh (dom h) = None.
Proof. apply not_elem_of_dom. apply is_fresh. Qed.

Lemma fresh_not_linked (db : sessiondb) :
  invariant_A db -> ~ linked db (fresh (dom (db_heap db))).
Proof.
  intros Hinv Hl. destruct (Hinv _ Hl) as (b & Hb & _).
  unfold deref in Hb. rewrite fresh_heap in Hb. discriminate.
Qed.

Lemma invariant_A_ext (db db' : sessiondb) :
  (forall t, get_table db' t = get_table db t) -> db_heap db' = db_heap db ->
  invariant_A db -> invariant_A db'.
Proof.
  intros Ht Hh Hinv x [t Hx]. rewrite Ht in Hx. rewrite Hh. apply Hinv. exists t. exact Hx.
Qed.

(** A new entry linked in both indexes of table [t], with its parent set. *)
Lemma invariant_A_created (db : sessiondb) (t : table_id) (p : nat) (new : session_entry)
    (t6 t4 : rb_node) (c : Z) :
  invariant_A db -> ~ linked db p -> parent_ok new ->
  (forall x, x ∈ rb_inorder t6 -> x = p \/ x ∈ rb_inorder (tree6 (get_table db t))) ->
  (forall x, x ∈ rb_inorder t4 -> x = p \/ x ∈ rb_inorder (tree4 (get_table db t))) ->
  invariant_A (set_table (store db p new) t (mk_table t6 t4 c)).
Proof.
  intros Hinv Hp Hnew H6 H4 x [t' Hx].
  rewrite get_set_table in Hx. rewrite heap_set_table. simpl db_heap.
  rewrite deref_insert.
  destruct (decide (p = x)) as [Ep|Ep]; [exact Hnew|].
  apply Hinv.
  destruct (decide (t = t')) as [Et|Et].
  - subst t'. simpl in Hx. exists t.
    destruct Hx as [Hx|Hx]; [apply H6 in Hx|apply H4 in Hx];
      (destruct Hx as [->|Hx]; [congruence|auto]).
  - rewrite get_table_store in Hx. exists t'. exact Hx.
Qed.

Lemma store_store (db : sessiondb) (p : nat) (a b : session_entry) :
  store (store db p a) p b = store db p b.
Proof. unfold store, set_heap. simpl. rewrite insert_insert_eq. reflexivity. Qed.

Lemma rbtree_find_heap_ext {K : Type} (h h' : gmap nat session_entry)
    (cmp : session_entry -> K -> Z) (key : K) (t : rb_node) :
  (forall x, x ∈ rb_inorder t -> deref h' x = deref h x) ->
  rbtree_find h' cmp key t = rbtree_find h cmp key t.
Proof.
  induction t as [|l IHl y r IHr]; intros H; [reflexivity|].
  simpl in *. rewrite (H y) by (rewrite elem_of_app, elem_of_cons; auto).
  rewrite IHl, IHr; [reflexivity| |];
    intros x Hx; apply H; rewrite elem_of_app, elem_of_cons; auto.
Qed.

Lemma rbtree_add_heap_ext {K : Type} (h h' : gmap nat session_entry)
    (cmp : session_entry -> K -> Z) (p : nat) (key : K) (t : rb_node) :
  (forall x, x ∈ rb_inorder t -> deref h' x = deref h x) ->
  rbtree_add h' cmp p key t = rbtree_add h cmp p key t.
Proof.
  induction t as [|l IHl y r IHr]; intros H; [reflexivity|].
  simpl in *. rewrite (H y) by (rewrite elem_of_app, elem_of_cons; auto).
  rewrite IHl, IHr; [reflexivity| |];
    intros x Hx; apply H; rewrite elem_of_app, elem_of_cons; auto.
Qed.

Lemma deref_insert_notin (h : gmap nat session_entry) (p : nat) (v : session_entry)
    (l : list nat) :
  p ∉ l -> forall x, x ∈ l -> deref (<[p := v]> h) x = deref h x.
Proof.
  intros Hp x Hx. rewrite deref_insert. case_decide; [congruence|reflexivity].
Qed.

Section GetOrCreateFacts.

Variable pool6_get : in6_addr -> Z * ipv6_prefix.
Variable pool6_peek : Z * ipv6_prefix.

Lemma get_or_create_ipv6_parent (k : kernel) (tuple : tuple) (parent : bib_entry)
    (db : sessiondb) :
  invariant_A db ->
  p6_remote (tuple_to_ipv6_pair tuple) = bib_ipv6 parent ->
  let r := sessiondb_get_or_create_ipv6 pool6_get k tuple parent db in
  invariant_A (snd r) /\
  (fst (fst r) = 0 ->
   exists p, snd (fst r) = Some p /\ linked (snd r) p /\
     parent_ok (deref (db_heap (snd r)) p) /\
     (sessiondb_get_by_ipv6 (tuple_to_ipv6_pair tuple) (t_l4_proto tuple) db
        = (- ENOENT, None) ->
      bib (deref (db_heap (snd r)) p) = Some parent)).
Proof.
  intros Hinv Hsrc r. subst r.
  unfold sessiondb_get_or_create_ipv6, sessiondb_get_by_ipv6.
  destruct (get_session_table (t_l4_proto tuple)) as [t|] eqn:Et;
    [|split; [exact Hinv|discriminate]].
  set (pair6 := tuple_to_ipv6_pair tuple) in *.
  destruct (rbtree_find (db_heap db) compare_full6 pair6 (tree6 (get_table db t)))
    as [found|] eqn:Ef.
  { split; [exact Hinv|]. intros _. exists found.
    assert (Hl : linked db found).
    { exists t. left. eapply rbtree_find_in. exact Ef. }
    repeat apply conj; auto. discriminate. }
  destruct (pool6_get (ipv6_of (t_addr (t_dst tuple)))) as [error prefix].
  destruct (error =? 0) eqn:Ee; cbn [negb];
    [|split; [exact Hinv|]; cbn [fst snd]; intros ->; discriminate].
  destruct (addr_6to4 (ipv6_of (t_addr (t_dst tuple))) prefix) as [ipv4_dst|];
    [|split; [exact Hinv|discriminate]].
  destruct (kmalloc_ok k); cbn [negb]; [|split; [exact Hinv|discriminate]].
  set (p := fresh (dom (db_heap db))).
  set (pair4 := mk_pair4 _ _).
  set (new := session_create k pair4 pair6 (t_l4_proto tuple)).
  pose proof (fresh_not_linked db Hinv) as Hfresh. fold p in Hfresh.
  assert (H6 : p ∉ rb_inorder (tree6 (get_table db t))).
  { intros H. apply Hfresh. exists t. left. exact H. }
  assert (H4 : p ∉ rb_inorder (tree4 (get_table db t))).
  { intros H. apply Hfresh. exists t. right. exact H. }
  cbn [db_heap store set_heap].
  rewrite (rbtree_add_heap_ext (db_heap db) _ compare_full6 p pair6 _
             (deref_insert_notin _ _ _ _ H6)).
  rewrite (rbtree_add_heap_ext (db_heap db) _ compare_full4 p pair4 _
             (deref_insert_notin _ _ _ _ H4)).
  destruct (rbtree_add (db_heap db) compare_full6 p pair6
              (tree6 (get_table db t))) as [t6|] eqn:E6.
  2:{ apply rbtree_add_collision in E6. congruence. }
  cbn [from_option id].
  destruct (rbtree_add (db_heap db) compare_full4 p pair4
              (tree4 (get_table db t))) as [t4|] eqn:E4.
  - (* created *)
    cbn [fst snd].
    assert (Hnew : parent_ok (set_bib (deref (<[p:=new]> (db_heap db)) p) parent)).
    { exists parent. rewrite deref_insert. case_decide; [|congruence].
      repeat apply conj; try reflexivity. exact Hsrc. }
    rewrite store_store.
    split.
    + apply invariant_A_created; try assumption.
      * intros x Hx. apply (rbtree_add_elem _ _ _ _ _ _ x E6). exact Hx.
      * intros x Hx. apply (rbtree_add_elem _ _ _ _ _ _ x E4). exact Hx.
    + intros _. exists p. repeat apply conj; try reflexivity.
      * exists t. left. rewrite get_set_table. case_decide; [|congruence]. simpl.
        apply (rbtree_add_elem _ _ _ _ _ _ p E6). left. reflexivity.
      * rewrite heap_set_table. simpl. rewrite deref_insert.
        case_decide; [exact Hnew|congruence].
      * intros _. rewrite heap_set_table. simpl. rewrite !deref_insert.
        case_decide; [reflexivity|congruence].
  - (* the IPv4 index refuses *)
    cbn [fst snd]. split; [|intros H; vm_compute in H; lia].
    rewrite (rbtree_add_erase _ _ _ _ _ _ H6 E6), table_eta.
    apply (invariant_A_ext db); [| |exact Hinv].
    + intros t'. destruct t, t'; reflexivity.
    + simpl. rewrite delete_insert_eq. apply delete_id. apply fresh_heap.
Qed.

Lemma get_or_create_ipv4_parent (k : kernel) (tuple : tuple) (parent : bib_entry)
    (db : sessiondb) :
  invariant_A db ->
  p4_local (tuple_to_ipv4_pair tuple) = bib_ipv4 parent ->
  let r := sessiondb_get_or_create_ipv4 pool6_peek k tuple parent db in
  invariant_A (snd r) /\
  (fst (fst r) = 0 ->
   exists p, snd (fst r) = Some p /\ linked (snd r) p /\
     parent_ok (deref (db_heap (snd r)) p) /\
     (sessiondb_get_by_ipv4 (tuple_to_ipv4_pair tuple) (t_l4_proto tuple) db
        = (- ENOENT, None) ->
      bib (deref (db_heap (snd r)) p) = Some parent)).
Proof.
  intros Hinv Hdst r. subst r.
  unfold sessiondb_get_or_create_ipv4, sessiondb_get_by_ipv4.
  destruct (get_session_table (t_l4_proto tuple)) as [t|] eqn:Et;
    [|split; [exact Hinv|discriminate]].
  set (pair4 := tuple_to_ipv4_pair tuple) in *.
  destruct (rbtree_find (db_heap db) compare_full4 pair4 (tree4 (get_table db t)))
    as [found|] eqn:Ef.
  { split; [exact Hinv|]. intros _. exists found.
    assert (Hl : linked db found).
    { exists t. right. eapply rbtree_find_in. exact Ef. }
    repeat apply conj; auto. discriminate. }
  destruct pool6_peek as [error prefix].
  destruct (error =? 0) eqn:Ee; cbn [negb];
    [|split; [exact Hinv|]; cbn [fst snd]; intros ->; discriminate].
  destruct (addr_4to6 (ipv4_of (t_addr (t_src tuple))) prefix) as [ipv6_src|];
    [|split; [exact Hinv|discriminate]].
  destruct (kmalloc_ok k); cbn [negb]; [|split; [exact Hinv|discriminate]].
  set (p := fresh (dom (db_heap db))).
  set (pair6 := mk_pair6 _ _).
  set (new := session_create k pair4 pair6 (t_l4_proto tuple)).
  pose proof (fresh_not_linked db Hinv) as Hfresh. fold p in Hfresh.
  assert (H6 : p ∉ rb_inorder (tree6 (get_table db t))).
  { intros H. apply Hfresh. exists t. left. exact H. }
  assert (H4 : p ∉ rb_inorder (tree4 (get_table db t))).
  { intros H. apply Hfresh. exists t. right. exact H. }
  cbn [db_heap store set_heap].
  rewrite (rbtree_add_heap_ext (db_heap db) _ compare_full6 p pair6 _
             (deref_insert_notin _ _ _ _ H6)).
  rewrite (rbtree_add_heap_ext (db_heap db) _ compare_full4 p pair4 _
             (deref_insert_notin _ _ _ _ H4)).
  destruct (rbtree_add (db_heap db) compare_full4 p pair4
              (tree4 (get_table db t))) as [t4|] eqn:E4.
  2:{ apply rbtree_add_collision in E4. congruence. }
  cbn [from_option id].
  destruct (rbtree_add (db_heap db) compare_full6 p pair6
              (tree6 (get_table db t))) as [t6|] eqn:E6.
  - (* created *)
    cbn [fst snd].
    assert (Hnew : parent_ok (set_bib (deref (<[p:=new]> (db_heap db)) p) parent)).
    { exists parent. rewrite deref_insert. case_decide; [|congruence].
      repeat apply conj; try reflexivity. exact Hdst. }
    rewrite store_store.
    split.
    + apply invariant_A_created; try assumption.
      * intros x Hx. apply (rbtree_add_elem _ _ _ _ _ _ x E6). exact Hx.
      * intros x Hx. apply (rbtree_add_elem _ _ _ _ _ _ x E4). exact Hx.
    + intros _. exists p. repeat apply conj; try reflexivity.
      * exists t. left. rewrite get_set_table. case_decide; [|congruence]. simpl.
        apply (rbtree_add_elem _ _ _ _ _ _ p E6). left. reflexivity.
      * rewrite heap_set_table. simpl. rewrite deref_insert.
        case_decide; [exact Hnew|congruence].
      * intros _. rewrite heap_set_table. simpl. rewrite !deref_insert.
        case_decide; [reflexivity|congruence].
  - (* the IPv6 index refuses *)
    cbn [fst snd]. split; [|intros H; vm_compute in H; lia].
    rewrite (rbtree_add_erase _ _ _ _ _ _ H4 E4), table_eta.
    apply (invariant_A_ext db); [| |exact Hinv].
    + intros t'. destruct t, t'; reflexivity.
    + simpl. rewrite delete_insert_eq. apply delete_id. apply fresh_heap.
Qed.

(** C3: where every linked session has a parent BIB whose IPv4 address
    is the IPv4 local address of the session and whose IPv6 address is the
    IPv6 remote address of the session, [sessiondb_get_or_create_ipv6] and
    [sessiondb_get_or_create_ipv4], called with the BIB of the tuple, keep
    it so; the session they return on success is linked and is such a
    session, and when they created it its parent is the BIB they were
    given. *)
Theorem get_or_create_keeps_parent (k : kernel) (tuple : tuple) (parent : bib_entry)
    (db : sessiondb) :
  invariant_A db ->
  (p6_remote (tuple_to_ipv6_pair tuple) = bib_ipv6 parent ->
   let r := sessiondb_get_or_create_ipv6 pool6_get k tuple parent db in
   invariant_A (snd r) /\
   (fst (fst r) = 0 ->
    exists p, snd (fst r) = Some p /\ linked (snd r) p /\
      parent_ok (deref (db_heap (snd r)) p) /\
      (sessiondb_get_by_ipv6 (tuple_to_ipv6_pair tuple) (t_l4_proto tuple) db
         = (- ENOENT, None) ->
       bib (deref (db_heap (snd r)) p) = Some parent))) /\
  (p4_local (tuple_to_ipv4_pair tuple) = bib_ipv4 parent ->
   let r := sessiondb_get_or_create_ipv4 pool6_peek k tuple parent db in
   invariant_A (snd r) /\
   (fst (fst r) = 0 ->
    exists p, snd (fst r) = Some p /\ linked (snd r) p /\
      parent_ok (deref (db_heap (snd r)) p) /\
      (sessiondb_get_by_ipv4 (tuple_to_ipv4_pair tuple) (t_l4_proto tuple) db
         = (- ENOENT, None) ->
       bib (deref (db_heap (snd r)) p) = Some parent))).
Proof.
  intros Hinv. split; intros H.
  - apply get_or_create_ipv6_parent; assumption.
  - apply get_or_create_ipv4_parent; assumption.
Qed.

End GetOrCreateFacts.

(** ** Session database: bulk removal *)

Lemma length_filter_ne (x : nat) (l : list nat) :
  NoDup l -> x ∈ l -> S (length (filter (fun y => y <> x) l)) = length l.
Proof.
  induction l as [|a l IH]; intros Hd Hx; [inversion Hx|].
  apply NoDup_cons in Hd. destruct Hd as [Ha Hd].
  rewrite filter_cons. case_decide as E.
  - simpl. f_equal. apply IH; [exact Hd|].
    apply elem_of_cons in Hx. destruct Hx as [->|Hx]; [congruence|exact Hx].
  - assert (a = x) by (destruct (decide (a = x)); [assumption|contradiction]).
    subst a. simpl. f_equal. f_equal. apply filter_all.
    intros y Hy ->. contradiction.
Qed.

Lemma rb_around_list_spec (node : nat) (l : list nat) : forall seen b a,
  node ∈ l -> rb_around_list node seen l = (b, a) ->
  rev b ++ node :: a = rev seen ++ l.
Proof.
  induction l as [|x l IH]; intros seen b a Hin H; [inversion Hin|].
  simpl in H. case_decide as E.
  - injection H as <- <-. subst x. reflexivity.
  - apply elem_of_cons in Hin. destruct Hin as [->|Hin]; [congruence|].
    rewrite (IH _ _ _ Hin H). simpl. rewrite <- app_assoc. reflexivity.
Qed.

Lemma rb_around_spec (t : rb_node) (node : nat) :
  node ∈ rb_inorder t ->
  rev (fst (rb_around t node)) ++ node :: snd (rb_around t node) = rb_inorder t.
Proof.
  intros H. unfold rb_around.
  destruct (rb_around_list node [] (rb_inorder t)) as [b a] eqn:E.
  apply (rb_around_list_spec _ _ _ _ _ H E).
Qed.

(** Removing one entry from a well-formed table *)

Lemma table_ok_remove (tb : session_table) (p : nat) :
  table_ok tb -> p ∈ rb_inorder (tree4 tb) ->
  let tb' := mk_table (rb_erase p (tree6 tb)) (rb_erase p (tree4 tb)) (count tb) in
  table_ok tb' /\
  rb_size (tree4 tb') = rb_size (tree4 tb) - 1 /\
  rb_size (tree6 tb') = rb_size (tree6 tb) - 1 /\
  (forall x, x ∈ rb_inorder (tree4 tb') <-> x <> p /\ x ∈ rb_inorder (tree4 tb)).
Proof.
  intros (N6 & N4 & Hsame & Hc & Hsz) Hp tb'. subst tb'. simpl.
  assert (Hp6 : p ∈ rb_inorder (tree6 tb)) by (apply Hsame; exact Hp).
  unfold table_ok, rb_size in *. simpl.
  rewrite !rb_erase_inorder by assumption.
  pose proof (length_filter_ne p _ N4 Hp). pose proof (length_filter_ne p _ N6 Hp6).
  repeat apply conj; try lia; try (apply NoDup_filter; assumption);
    intros x; rewrite ?list_elem_of_filter, ?Hsame; tauto.
Qed.

Lemma remove_table (p : nat) (t t' : table_id) (db : sessiondb) :
  get_table (snd (remove p t db)) t' =
  if decide (t = t')
  then mk_table (rb_erase p (tree6 (get_table db t))) (rb_erase p (tree4 (get_table db t)))
         (count (get_table db t))
  else get_table db t'.
Proof. unfold remove. simpl. rewrite get_table_list_del, get_set_table. reflexivity. Qed.

Lemma remove_heap (p : nat) (t : table_id) (db : sessiondb) :
  db_heap (snd (remove p t db)) = db_heap db.
Proof. reflexivity. Qed.

Lemma remove_one (p : nat) (t : table_id) (db : sessiondb) : fst (remove p t db) = 1.
Proof. reflexivity. Qed.

Lemma remove_eta (p : nat) (t : table_id) (db : sessiondb) :
  remove p t db = (1, snd (remove p t db)).
Proof. reflexivity. Qed.

Lemma table_ok_inv (tb : session_table) :
  table_ok tb ->
  NoDup (rb_inorder (tree6 tb)) /\ NoDup (rb_inorder (tree4 tb)) /\
  (forall x, x ∈ rb_inorder (tree6 tb) <-> x ∈ rb_inorder (tree4 tb)) /\
  rb_size (tree4 tb) < 2 ^ 31.
Proof. intros (N6 & N4 & Hsame & _ & Hsz). auto. Qed.

Lemma table_ok_size6 (tb : session_table) :
  table_ok tb -> rb_size (tree6 tb) = rb_size (tree4 tb).
Proof.
  intros (N6 & N4 & Hsame & _). unfold rb_size. f_equal.
  apply Permutation_length. apply NoDup_Permutation; assumption.
Qed.

Lemma s32_small (x : Z) : 0 <= x < 2 ^ 31 -> s32 x = x.
Proof. intros H. unfold s32. rewrite Z.mod_small; lia. Qed.

Lemma NoDup_length_le (l k : list nat) :
  NoDup l -> (forall x, x ∈ l -> x ∈ k) -> (length l <= length k)%nat.
Proof. intros Hnd Hin. apply submseteq_length. apply NoDup_submseteq; assumption. Qed.

Lemma table_ok_count (tb : session_table) (c : Z) :
  table_ok tb -> table_ok (mk_table (tree6 tb) (tree4 tb) (u64 c)).
Proof.
  intros (N6 & N4 & Hsame & _ & Hsz). unfold table_ok. simpl.
  repeat apply conj; try assumption; unfold u64; apply Z.mod_pos_bound; lia.
Qed.

Lemma table_ok_u64 (tb : session_table) : table_ok tb -> u64 (count tb) = count tb.
Proof. intros (_ & _ & _ & H & _). unfold u64. apply Z.mod_small. exact H. Qed.

(** A walk that removes entries *)

Local Opaque table_ok.

Lemma remove_while_spec (keep_going : session_entry -> bool) (t : table_id) :
  forall (nodes : list nat) (s : Z) (db : sessiondb),
  table_ok (get_table db t) -> NoDup nodes ->
  (forall x, x ∈ nodes -> x ∈ rb_inorder (tree4 (get_table db t))) ->
  0 <= s -> s + Z.of_nat (length nodes) < 2 ^ 31 ->
  let r := remove_while keep_going nodes t s db in
  db_heap (snd r) = db_heap db /\
  (forall t', t' <> t -> get_table (snd r) t' = get_table db t') /\
  table_ok (get_table (snd r) t) /\
  count (get_table (snd r) t) = count (get_table db t) /\
  rb_size (tree4 (get_table (snd r) t)) = rb_size (tree4 (get_table db t)) - (fst r - s) /\
  0 <= fst r - s <= Z.of_nat (length nodes) /\
  (forall x, x ∈ rb_inorder (tree4 (get_table db t)) -> x ∉ nodes ->
     x ∈ rb_inorder (tree4 (get_table (snd r) t))).
Proof.
  induction nodes as [|n nodes IH]; intros s db Hok Hnd Hin Hs0 Hs r; subst r.
  - simpl. repeat apply conj; auto; lia.
  - cbn [remove_while]. cbn [length] in Hs.
    destruct (keep_going (deref (db_heap db) n)).
    2:{ cbn [fst snd length]. repeat apply conj; auto; lia. }
    apply NoDup_cons in Hnd. destruct Hnd as [Hn Hnd].
    assert (Hn4 : n ∈ rb_inorder (tree4 (get_table db t))) by (apply Hin; left).
    destruct (table_ok_remove _ n Hok Hn4) as (Hok' & Hs4 & Hs6 & Hel).
    rewrite remove_eta. cbn beta iota.
    set (db1 := snd (remove n t db)).
    assert (T1 : forall t', get_table db1 t' = _) by (intros t'; apply remove_table).
    assert (H1 : db_heap db1 = db_heap db) by reflexivity.
    assert (Tt : get_table db1 t = _) by (rewrite T1; case_decide; [reflexivity|congruence]).
    rewrite (s32_small (s + 1)) by lia.
    destruct (IH (s + 1) db1) as (I1 & I2 & I3 & I4 & I5 & I6 & I7).
    { rewrite Tt. exact Hok'. }
    { exact Hnd. }
    { intros x Hx. rewrite Tt. apply Hel. split; [intros ->; contradiction|].
      apply Hin. right. exact Hx. }
    { lia. }
    { lia. }
    rewrite Tt in I4, I5, I7. simpl count in I4.
    repeat apply conj.
    + rewrite I1. exact H1.
    + intros t' Hne. rewrite I2 by exact Hne. rewrite T1.
      case_decide; [congruence|reflexivity].
    + exact I3.
    + exact I4.
    + rewrite I5, Hs4. lia.
    + lia.
    + cbn [length]. lia.
    + intros x Hx Hnx. apply I7.
      * apply Hel. split; [|exact Hx]. intros ->. apply Hnx. left.
      * intros Hx'. apply Hnx. right. exact Hx'.
Qed.

Lemma get_table_set_count (db : sessiondb) (t t' : table_id) (c : Z) :
  get_table (set_count db t c) t' =
  if decide (t = t')
  then mk_table (tree6 (get_table db t)) (tree4 (get_table db t)) c
  else get_table db t'.
Proof. unfold set_count. apply get_set_table. Qed.

Lemma remove_around_spec (keep_going : session_entry -> bool) (t : table_id)
    (before after : list nat) (root_session : nat) (db : sessiondb) :
  table_ok (get_table db t) ->
  NoDup (before ++ root_session :: after) ->
  (forall x, x ∈ before ++ root_session :: after ->
     x ∈ rb_inorder (tree4 (get_table db t))) ->
  let db' := snd (remove_around keep_going (before, after) root_session t db) in
  removal_pass t db db' /\ 1 <= deleted db db' t.
Proof.
  intros Hok Hnd Hin db'. subst db'.
  apply NoDup_app in Hnd. destruct Hnd as (Nb & Hdis & Nra).
  apply NoDup_cons in Nra. destruct Nra as [Hra Na].
  assert (Hrb : root_session ∉ before).
  { intros H. apply (Hdis _ H). left. }
  unfold remove_around. cbn [fst snd].
  assert (Hlen : Z.of_nat (length (before ++ root_session :: after)) < 2 ^ 31).
  { destruct (table_ok_inv _ Hok) as (_ & _ & _ & Hsz). unfold rb_size in Hsz.
    assert (length (before ++ root_session :: after)
            <= length (rb_inorder (tree4 (get_table db t))))%nat; [|lia].
    apply NoDup_length_le; [|exact Hin].
    apply NoDup_app. repeat apply conj; [exact Nb|exact Hdis|].
    apply NoDup_cons. split; assumption. }
  rewrite length_app in Hlen. cbn [length] in Hlen.
  pose proof (remove_while_spec keep_going t before 0 db Hok Nb) as W1.
  destruct (remove_while keep_going before t 0 db) as [s1 db1].
  cbn [fst snd] in W1.
  destruct W1 as (A1 & A2 & A3 & A4 & A5 & A6 & A7); [|lia|lia|].
  { intros x Hx. apply Hin. apply elem_of_app. left. exact Hx. }
  pose proof (remove_while_spec keep_going t after s1 db1 A3 Na) as W2.
  destruct (remove_while keep_going after t s1 db1) as [s2 db2].
  cbn [fst snd] in W2.
  destruct W2 as (B1 & B2 & B3 & B4 & B5 & B6 & B7); [|lia|lia|].
  { intros x Hx. apply A7.
    - apply Hin. apply elem_of_app. right. right. exact Hx.
    - intros Hb. apply (Hdis _ Hb). right. exact Hx. }
  assert (Hr2 : root_session ∈ rb_inorder (tree4 (get_table db2 t))).
  { apply B7; [|exact Hra]. apply A7; [|exact Hrb].
    apply Hin. apply elem_of_app. right. left. }
  destruct (table_ok_remove _ root_session B3 Hr2) as (Hok' & Hs4 & _ & _).
  rewrite remove_eta. cbn beta iota.
  set (db3 := snd (remove root_session t db2)).
  assert (T3 : forall t', get_table db3 t' = _) by (intros t'; apply remove_table).
  assert (Tt : get_table db3 t = _) by (rewrite T3; case_decide; [reflexivity|congruence]).
  cbn [snd]. rewrite (s32_small (s2 + 1)) by lia.
  set (s := s2 + 1).
  assert (Hdel : deleted db (set_count db3 t (u64 (count (get_table db3 t) - s))) t = s).
  { unfold deleted. rewrite get_table_set_count.
    destruct (decide (t = t)); [|congruence]. cbn [tree4].
    rewrite Tt. cbn [tree4]. simpl tree4 in Hs4. rewrite Hs4, B5, A5. unfold s. lia. }
  split; [|rewrite Hdel; unfold s; lia].
  unfold removal_pass. rewrite Hdel. repeat apply conj.
  - unfold set_count. rewrite heap_set_table. change (db_heap db3) with (db_heap db2).
    rewrite B1. exact A1.
  - intros t' Hne. rewrite get_table_set_count.
    destruct (decide (t = t')); [congruence|].
    rewrite T3. destruct (decide (t = t')); [congruence|].
    rewrite B2, A2 by exact Hne. reflexivity.
  - rewrite get_table_set_count. destruct (decide (t = t)); [|congruence].
    apply table_ok_count. rewrite Tt in *. exact Hok'.
  - unfold s. lia.
  - rewrite get_table_set_count. destruct (decide (t = t)); [|congruence].
    cbn [count]. rewrite Tt. cbn [count]. rewrite B4, A4. reflexivity.
Qed.

Lemma removal_pass_refl (t : table_id) (db : sessiondb) :
  table_ok (get_table db t) -> removal_pass t db db.
Proof.
  intros Hok. unfold removal_pass, deleted. repeat apply conj; try done; try lia.
  rewrite Z.sub_diag, Z.sub_0_r. symmetry. apply table_ok_u64. exact Hok.
Qed.

Lemma remove_around_walk (keep_going : session_entry -> bool) (t : table_id)
    (tree : rb_node) (root_session : nat) (db : sessiondb) :
  table_ok (get_table db t) ->
  NoDup (rb_inorder tree) ->
  (forall x, x ∈ rb_inorder tree -> x ∈ rb_inorder (tree4 (get_table db t))) ->
  root_session ∈ rb_inorder tree ->
  removal_pass t db
    (snd (remove_around keep_going (rb_around tree root_session) root_session t db)).
Proof.
  intros Hok Hnd Hin Hroot.
  pose proof (rb_around_spec tree root_session Hroot) as Hsp.
  destruct (rb_around tree root_session) as [b a]. cbn [fst snd] in Hsp.
  apply remove_around_spec; [exact Hok| |].
  - rewrite <- Hsp in Hnd. revert Hnd. apply NoDup_Permutation_proper.
    apply Permutation_app_tail. apply Permutation_rev.
  - intros x Hx. apply Hin. rewrite <- Hsp.
    apply elem_of_app. apply elem_of_app in Hx.
    destruct Hx as [Hx|Hx]; [left|right; exact Hx].
    apply list_elem_of_In. apply -> in_rev. apply list_elem_of_In. exact Hx.
Qed.

(** Passes put together *)

Lemma removal_pass_bulk (t : table_id) (db db' : sessiondb) :
  (forall t', table_ok (get_table db t')) -> removal_pass t db db' -> bulk_removal db db'.
Proof.
  intros Hok (_ & Hother & Hok' & Hd & Hc) t'.
  destruct (decide (t' = t)) as [->|Hne]; [auto|].
  unfold deleted. rewrite (Hother t' Hne), Z.sub_diag, Z.sub_0_r.
  repeat apply conj; [apply Hok|lia|]. symmetry. apply table_ok_u64. apply Hok.
Qed.

Lemma bulk_removal_refl (db : sessiondb) :
  (forall t, table_ok (get_table db t)) -> bulk_removal db db.
Proof.
  intros Hok t. unfold deleted. rewrite Z.sub_diag, Z.sub_0_r.
  repeat apply conj; [apply Hok|lia|]. symmetry. apply table_ok_u64. apply Hok.
Qed.

Lemma bulk_removal_ok (db db' : sessiondb) :
  bulk_removal db db' -> forall t, table_ok (get_table db' t).
Proof. intros H t. apply H. Qed.

Lemma bulk_removal_trans (db1 db2 db3 : sessiondb) :
  bulk_removal db1 db2 -> bulk_removal db2 db3 -> bulk_removal db1 db3.
Proof.
  intros H12 H23 t. destruct (H12 t) as (_ & D12 & C12). destruct (H23 t) as (O3 & D23 & C23).
  assert (Hd : deleted db1 db3 t = deleted db1 db2 t + deleted db2 db3 t)
    by (unfold deleted; lia).
  repeat apply conj; [exact O3|lia|].
  rewrite C23, C12, Hd. unfold u64. rewrite Zminus_mod_idemp_l. f_equal. lia.
Qed.

Lemma delete_by_bib_bulk (bib : bib_entry) (db : sessiondb) :
  (forall t, table_ok (get_table db t)) ->
  bulk_removal db (snd (sessiondb_delete_by_bib bib db)).
Proof.
  intros Hok. unfold sessiondb_delete_by_bib.
  destruct (get_session_table (bib_l4_proto bib)) as [t|]; [|apply bulk_removal_refl, Hok].
  destruct (rbtree_find _ _ _ _) as [root|] eqn:E; [|apply bulk_removal_refl, Hok].
  apply (removal_pass_bulk t); [exact Hok|]. cbn [snd].
  destruct (table_ok_inv _ (Hok t)) as (N6 & N4 & Hsame & _).
  apply remove_around_walk; [apply Hok|exact N4|auto|].
  apply (rbtree_find_in _ _ _ _ _ E).
Qed.

Lemma delete_sessions_by_ipv4_bulk (t : table_id) (addr : in_addr) (db : sessiondb) :
  (forall t, table_ok (get_table db t)) ->
  bulk_removal db (snd (delete_sessions_by_ipv4 t addr db)).
Proof.
  intros Hok. unfold delete_sessions_by_ipv4.
  destruct (rbtree_find _ _ _ _) as [root|] eqn:E; [|apply bulk_removal_refl, Hok].
  apply (removal_pass_bulk t); [exact Hok|]. cbn [snd].
  destruct (table_ok_inv _ (Hok t)) as (N6 & N4 & Hsame & _).
  apply remove_around_walk; [apply Hok|exact N4|auto|].
  apply (rbtree_find_in _ _ _ _ _ E).
Qed.

Lemma delete_sessions_by_ipv6_prefix_bulk (t : table_id) (prefix : ipv6_prefix)
    (db : sessiondb) :
  (forall t, table_ok (get_table db t)) ->
  bulk_removal db (snd (delete_sessions_by_ipv6_prefix t prefix db)).
Proof.
  intros Hok. unfold delete_sessions_by_ipv6_prefix.
  destruct (rbtree_find _ _ _ _) as [root|] eqn:E; [|apply bulk_removal_refl, Hok].
  apply (removal_pass_bulk t); [exact Hok|]. cbn [snd].
  destruct (table_ok_inv _ (Hok t)) as (N6 & N4 & Hsame & _).
  apply remove_around_walk; [apply Hok|exact N6|apply Hsame|].
  apply (rbtree_find_in _ _ _ _ _ E).
Qed.

Lemma flush_aux_bulk (t : table_id) (db : sessiondb) :
  (forall t, table_ok (get_table db t)) -> bulk_removal db (snd (flush_aux t db)).
Proof.
  intros Hok. unfold flush_aux.
  destruct (tree4 (get_table db t)) as [|l root r] eqn:E; [apply bulk_removal_refl, Hok|].
  apply (removal_pass_bulk t); [exact Hok|]. cbn [snd].
  destruct (table_ok_inv _ (Hok t)) as (N6 & N4 & Hsame & _).
  rewrite E in N4.
  apply remove_around_walk; [apply Hok|exact N4|rewrite E; auto|].
  simpl. apply elem_of_app. right. left.
Qed.

(** C2: under invariant B, each bulk-removal operation of the session
    database ([sessiondb_delete_by_bib], [sessiondb_delete_by_ipv4],
    [sessiondb_delete_by_ipv6_prefix], [sessiondb_flush]) returns a status
    and not a number of sessions: zero, or for [sessiondb_delete_by_bib]
    alone minus [EINVAL] when the protocol of the BIB entry has no table.
    The number of sessions it unlinked from a table is what it subtracted
    from the count of that table, and every table is left well formed. *)
Theorem bulk_removal_returns_status (db : sessiondb) (bib : bib_entry) (addr4 : in_addr)
    (prefix : ipv6_prefix) :
  (forall t, table_ok (get_table db t)) ->
  (fst (sessiondb_delete_by_bib bib db) =
     (if decide (bib_l4_proto bib = L4PROTO_NONE) then - EINVAL else 0) /\
   bulk_removal db (snd (sessiondb_delete_by_bib bib db))) /\
  (fst (sessiondb_delete_by_ipv4 addr4 db) = 0 /\
   bulk_removal db (snd (sessiondb_delete_by_ipv4 addr4 db))) /\
  (fst (sessiondb_delete_by_ipv6_prefix prefix db) = 0 /\
   bulk_removal db (snd (sessiondb_delete_by_ipv6_prefix prefix db))) /\
  (fst (sessiondb_flush db) = 0 /\ bulk_removal db (snd (sessiondb_flush db))).
Proof.
  intros Hok. repeat apply conj.
  - unfold sessiondb_delete_by_bib.
    destruct (bib_l4_proto bib); simpl; try reflexivity;
      destruct (rbtree_find _ _ _ _); reflexivity.
  - apply delete_by_bib_bulk, Hok.
  - reflexivity.
  - unfold sessiondb_delete_by_ipv4. cbn [snd].
    pose proof (delete_sessions_by_ipv4_bulk TABLE_TCP addr4 db Hok) as H1.
    pose proof (delete_sessions_by_ipv4_bulk TABLE_ICMP addr4 _ (bulk_removal_ok _ _ H1)) as H2.
    pose proof (delete_sessions_by_ipv4_bulk TABLE_UDP addr4 _ (bulk_removal_ok _ _ H2)) as H3.
    exact (bulk_removal_trans _ _ _ (bulk_removal_trans _ _ _ H1 H2) H3).
  - reflexivity.
  - unfold sessiondb_delete_by_ipv6_prefix. cbn [snd].
    pose proof (delete_sessions_by_ipv6_prefix_bulk TABLE_TCP prefix db Hok) as H1.
    pose proof (delete_sessions_by_ipv6_prefix_bulk TABLE_ICMP prefix _
                  (bulk_removal_ok _ _ H1)) as H2.
    pose proof (delete_sessions_by_ipv6_prefix_bulk TABLE_UDP prefix _
                  (bulk_removal_ok _ _ H2)) as H3.
    exact (bulk_removal_trans _ _ _ (bulk_removal_trans _ _ _ H1 H2) H3).
  - reflexivity.
  - unfold sessiondb_flush. cbn [snd].
    pose proof (flush_aux_bulk TABLE_UDP db Hok) as H1.
    pose proof (flush_aux_bulk TABLE_TCP _ (bulk_removal_ok _ _ H1)) as H2.
    pose proof (flush_aux_bulk TABLE_ICMP _ (bulk_removal_ok _ _ H2)) as H3.
    exact (bulk_removal_trans _ _ _ (bulk_removal_trans _ _ _ H1 H2) H3).
Qed.

Local Transparent table_ok.

(** ** Timers, and the statements at the examples *)

(** What [get_timeout] reads for each expirer. *)
Lemma get_timeout_reads (k : kernel) (db : sessiondb) :
  get_timeout k db EXPIRER_UDP = ttl_udp (config db) /\
  get_timeout k db EXPIRER_ICMP = beyond_config db 8 /\
  get_timeout k db EXPIRER_TCP_EST = beyond_config db 16 /\
  get_timeout k db EXPIRER_TCP_TRANS = beyond_config db 24 /\
  get_timeout k db EXPIRER_SYN = msecs_to_jiffies k (1000 * TCP_INCOMING_SYN).
Proof. repeat split. Qed.

(** The timer is never set to fire sooner than [MIN_TIMER_SLEEP] ticks
    from now. *)
Lemma schedule_timer_floor (k : kernel) (e : expirer_id) (next_time : Z) (db : sessiondb) :
  exists expires,
    timer (get_expirer (schedule_timer k e next_time db) e) = Some expires /\
    time_before expires (u64 (jiffies k + MIN_TIMER_SLEEP)) = false.
Proof.
  unfold schedule_timer. rewrite get_set_expirer.
  destruct (decide (e = e)); [|congruence]. cbn [timer].
  destruct (time_before next_time (u64 (jiffies k + MIN_TIMER_SLEEP))) eqn:E.
  - eexists. split; [reflexivity|]. unfold time_before. rewrite Z.sub_diag. reflexivity.
  - eexists. split; [reflexivity|exact E].
Qed.

(** C6: the timeout the cleaner adds to [update_time] is not the configured
    one for the ICMP and TCP expirers.  With the default configuration (an
    ICMP timeout of 15000 ticks) and zeroes after the configuration object,
    an ICMP session updated 255 ticks ago, whose deadline has not passed, is
    removed by the timer of the ICMP expirer, which is not scheduled again. *)
Theorem cleaner_timer_icmp_ignores_ttl :
  ttl_icmp (config (db1 (session0 L4PROTO_ICMP CLOSED 999745) EXPIRER_ICMP)) = 15000 /\
  time_before (jiffies kernel0) (u64 (999745 + 15000)) = true /\
  get_timeout kernel0 (db1 (session0 L4PROTO_ICMP CLOSED 999745) EXPIRER_ICMP) EXPIRER_ICMP
    = 0 /\
  exists db',
    cleaner_timer kernel0 EXPIRER_ICMP (db1 (session0 L4PROTO_ICMP CLOSED 999745) EXPIRER_ICMP)
      = Some db' /\
    rb_inorder (tree4 (session_table_icmp db')) = [] /\
    count (session_table_icmp db') = 0 /\
    sessions (expirer_icmp db') = [] /\
    timer (expirer_icmp db') = None.
Proof.
  repeat apply conj; try reflexivity.
  eexists. split; [vm_compute; reflexivity|]. repeat split.
Qed.

(** C2, as stated, fails: flushing a database that stores one UDP session
    deletes one session and returns zero. *)
Lemma flush_returns_status_counterexample :
  deleted (db1 (session0 L4PROTO_UDP CLOSED 0) EXPIRER_UDP)
    (snd (sessiondb_flush (db1 (session0 L4PROTO_UDP CLOSED 0) EXPIRER_UDP))) TABLE_UDP = 1 /\
  fst (sessiondb_flush (db1 (session0 L4PROTO_UDP CLOSED 0) EXPIRER_UDP)) = 0.
Proof. split; reflexivity. Qed.

(** The flush of that database. *)
Lemma bulk_removal_returns_status_witness :
  fst (sessiondb_flush (db1 (session0 L4PROTO_UDP CLOSED 0) EXPIRER_UDP)) = 0 /\
  bulk_removal (db1 (session0 L4PROTO_UDP CLOSED 0) EXPIRER_UDP)
    (snd (sessiondb_flush (db1 (session0 L4PROTO_UDP CLOSED 0) EXPIRER_UDP))).
Proof.
  apply (bulk_removal_returns_status (db1 (session0 L4PROTO_UDP CLOSED 0) EXPIRER_UDP)
           (bib0 L4PROTO_UDP) addr4_pool4 prefix0).
  intros t. unfold table_ok.
  destruct t; cbn [get_table]; unfold rb_size;
    repeat match goal with
    | |- context [rb_inorder ?t] =>
        let v := eval vm_compute in (rb_inorder t) in change (rb_inorder t) with v
    | |- context [count ?t] =>
        let v := eval vm_compute in (count t) in change (count t) with v
    end;
    cbn [length];
    (repeat apply conj; [..|lia|lia|lia]);
    first [apply NoDup_nil_2 | apply NoDup_singleton | intros x; reflexivity].
Defined.

(** C3, as stated, fails, in three ways.  The session
    [sessiondb_get_or_create_ipv4] creates for a packet of 192.0.2.1 has
    the binding as its parent and 64:ff9b::192.0.2.1 port 80 as its IPv6
    local address, which is not the IPv6 address of the binding (its IPv6
    remote address is).  [sessiondb_add] stores a session as
    [session_create] leaves it, without a parent.  And
    [sessiondb_get_or_create_ipv6], given a binding of another node than the
    source of the tuple, stores a session whose parent is that binding and
    whose IPv6 remote address is not the IPv6 address of the binding. *)
Lemma session_local6_counterexample :
  (exists p db',
     sessiondb_get_or_create_ipv4 (0, prefix0) kernel0 (tuple4 L4PROTO_TCP) (bib0 L4PROTO_TCP)
       db0 = (0, Some p, db') /\
     p ∈ rb_inorder (tree6 (session_table_tcp db')) /\
     bib (deref (db_heap db') p) = Some (bib0 L4PROTO_TCP) /\
     p6_local (ipv6 (deref (db_heap db') p)) = mk_addr6 addr6_node4 80 /\
     p6_local (ipv6 (deref (db_heap db') p)) <> bib_ipv6 (bib0 L4PROTO_TCP) /\
     p6_remote (ipv6 (deref (db_heap db') p)) = bib_ipv6 (bib0 L4PROTO_TCP) /\
     p4_local (ipv4 (deref (db_heap db') p)) = bib_ipv4 (bib0 L4PROTO_TCP)) /\
  (exists db',
     sessiondb_add 0%nat
       (store db0 0%nat
          (session_create kernel0 (ipv4 (session0 L4PROTO_TCP V6_INIT 0))
             (ipv6 (session0 L4PROTO_TCP V6_INIT 0)) L4PROTO_TCP)) = (0, db') /\
     0%nat ∈ rb_inorder (tree6 (session_table_tcp db')) /\
     0%nat ∈ rb_inorder (tree4 (session_table_tcp db')) /\
     bib (deref (db_heap db') 0%nat) = None) /\
  (exists p db',
     sessiondb_get_or_create_ipv6 (fun _ => (0, prefix0)) kernel0 (tuple6 L4PROTO_TCP)
       (mk_bib (mk_addr4 addr4_pool4 6000) (mk_addr6 addr6_node4 5000) L4PROTO_TCP false)
       db0 = (0, Some p, db') /\
     p ∈ rb_inorder (tree6 (session_table_tcp db')) /\
     bib (deref (db_heap db') p)
     = Some (mk_bib (mk_addr4 addr4_pool4 6000) (mk_addr6 addr6_node4 5000) L4PROTO_TCP
               false) /\
     p6_remote (ipv6 (deref (db_heap db') p)) = mk_addr6 addr6_node6 5000 /\
     p6_remote (ipv6 (deref (db_heap db') p)) <> mk_addr6 addr6_node4 5000).
Proof.
  repeat apply conj.
  - do 2 eexists. split; [vm_compute; reflexivity|].
    repeat apply conj; try reflexivity; [left|discriminate].
  - eexists. split; [vm_compute; reflexivity|].
    repeat apply conj; try reflexivity; left.
  - do 2 eexists. split; [vm_compute; reflexivity|].
    repeat apply conj; try reflexivity; [left|discriminate].
Qed.

Lemma invariant_A_db0 : invariant_A db0.
Proof. intros x [t H]. destruct t; destruct H as [H|H]; inversion H. Qed.

(** The first packet of 192.0.2.1 for the binding, in an empty database. *)
Lemma get_or_create_keeps_parent_witness :
  invariant_A
    (snd (sessiondb_get_or_create_ipv4 (0, prefix0) kernel0 (tuple4 L4PROTO_TCP)
            (bib0 L4PROTO_TCP) db0)).
Proof.
  apply (get_or_create_keeps_parent (fun _ => (0, prefix0)) (0, prefix0) kernel0
           (tuple4 L4PROTO_TCP) (bib0 L4PROTO_TCP) db0 invariant_A_db0).
  reflexivity.
Defined.


(** C9, as stated, fails: 2001:db8:c000:201::1 lies within 2001:db8::/32
    and comes back as 2001:db8:c000:201::. *)
Lemma addr_roundtrip_counterexample :
  addr_in_prefix addr6_suffix prefix32 = true /\
  In (prefix_len prefix32) POOL6_PREFIX_LENGTHS /\
  addr_6to4 addr6_suffix prefix32 = Some addr4_node4 /\
  addr_4to6 addr4_node4 prefix32 =
    Some [32; 1; 13; 184; 192; 0; 2; 1; 0; 0; 0; 0; 0; 0; 0; 0] /\
  addr_4to6 addr4_node4 prefix32 <> Some addr6_suffix.
Proof.
  repeat apply conj; try reflexivity; [left; reflexivity|discriminate].
Qed.

(** 64:ff9b::192.0.2.1 under the well-known prefix. *)
Lemma addr_roundtrip_plain_witness :
  exists v, addr_6to4 addr6_node4 prefix0 = Some v /\ addr_4to6 v prefix0 = Some addr6_node4.
Proof.
  apply (addr_roundtrip_plain addr6_node4 prefix0).
  - simpl. tauto.
  - reflexivity.
  - reflexivity.
  - reflexivity.
  - reflexivity.
Defined.

(** C10, as stated, fails: with 250 ticks a second a UDP timeout of 119999
    milliseconds, below the minimum of 120 seconds, is accepted and stored
    as 30000 ticks. *)
Lemma sessiondb_set_config_counterexample :
  119999 < 1000 * UDP_MIN /\
  fst (sessiondb_set_config kernel0 UDP_TIMEOUT 8 119999 db0) = 0 /\
  ttl_udp (config (snd (sessiondb_set_config kernel0 UDP_TIMEOUT 8 119999 db0))) = 30000 /\
  snd (sessiondb_set_config kernel0 UDP_TIMEOUT 8 119999 db0) <> db0.
Proof.
  repeat apply conj; try reflexivity. vm_compute. discriminate.
Qed.

(** ** The fragment offset fields *)

Lemma lor_add (a b : Z) : Z.land a b = 0 -> Z.lor a b = a + b.
Proof. intros H. rewrite <- Z.lxor_lor, <- Z.add_nocarry_lxor by exact H. reflexivity. Qed.

Lemma land_shiftl_small (f q n : Z) :
  0 <= n -> 0 <= q < 2 ^ n -> Z.land (Z.shiftl f n) q = 0.
Proof.
  intros Hn Hq. apply Z.bits_inj'. intros m Hm.
  rewrite Z.land_spec, Z.bits_0.
  destruct (Z_lt_le_dec m n) as [Hlt|Hge].
  - rewrite Z.shiftl_spec_low by lia. reflexivity.
  - replace (Z.testbit q m) with false; [apply andb_false_r|].
    symmetry. destruct (Z.eq_dec q 0) as [->|Hq0]; [apply Z.bits_0|].
    apply Z.bits_above_log2; [lia|].
    assert (Z.log2 q < n); [|lia]. apply Z.log2_lt_pow2; lia.
Qed.

Lemma ipv4_frag_off_field_value (df mf : bool) (frag_offset : Z) :
  0 <= frag_offset < 65536 ->
  build_ipv4_frag_off_field df mf frag_offset =
  (if df then 16384 else 0) + (if mf then 8192 else 0) + frag_offset / 8.
Proof.
  intros H. unfold build_ipv4_frag_off_field.
  rewrite Z.shiftr_div_pow2 by lia. change (2 ^ 3) with 8.
  assert (Hq : 0 <= frag_offset / 8 < 8192).
  { split; [apply Z.div_pos; lia|apply Z.div_lt_upper_bound; lia]. }
  set (q := frag_offset / 8) in *.
  replace (Z.lor (if df then Z.shiftl 1 14 else 0) (if mf then Z.shiftl 1 13 else 0))
    with (Z.shiftl ((if df then 2 else 0) + (if mf then 1 else 0)) 13)
    by (destruct df, mf; reflexivity).
  rewrite lor_add by (apply land_shiftl_small; lia).
  rewrite Z.shiftl_mul_pow2 by lia. change (2 ^ 13) with 8192.
  rewrite u16_small by (destruct df, mf; lia).
  destruct df, mf; lia.
Qed.

(** The three readers of the IPv4 "fragment offset" field give back what
    [build_ipv4_frag_off_field] was given: the two flags, and the offset
    rounded down to a multiple of 8. *)
Theorem ipv4_frag_off_roundtrip (hdr : list Z) (df mf : bool) (frag_offset : Z) :
  (8 <= length hdr)%nat -> 0 <= frag_offset < 65536 ->
  let hdr' := write_at 6 (be16_bytes (build_ipv4_frag_off_field df mf frag_offset)) hdr in
  is_dont_fragment_set hdr' = df /\
  is_more_fragments_set_ipv4 hdr' = mf /\
  get_fragment_offset_ipv4 hdr' = 8 * (frag_offset / 8).
Proof.
  intros Hlen Hoff hdr'.
  assert (Hf : iphdr_frag_off hdr' = build_ipv4_frag_off_field df mf frag_offset).
  { unfold iphdr_frag_off, hdr'. rewrite be16_at_bytes by lia.
    unfold build_ipv4_frag_off_field. unfold u16. apply Z.mod_mod. lia. }
  unfold is_dont_fragment_set, is_more_fragments_set_ipv4, get_fragment_offset_ipv4.
  rewrite Hf, ipv4_frag_off_field_value by exact Hoff.
  assert (Hq : 0 <= frag_offset / 8 < 8192).
  { split; [apply Z.div_pos; lia|apply Z.div_lt_upper_bound; lia]. }
  set (q := frag_offset / 8) in *.
  set (v := (if df then 16384 else 0) + (if mf then 8192 else 0) + q).
  assert (Hv : v = q + 8192 * ((if mf then 1 else 0) + 2 * (if df then 1 else 0)))
    by (unfold v; destruct df, mf; lia).
  repeat apply conj.
  - unfold IP_DF. change 0x4000 with (Z.shiftl 1 14).
    rewrite Z.shiftr_land, Z.shiftr_shiftl_l, Z.sub_diag, Z.shiftl_0_r by lia.
    rewrite Z.shiftr_div_pow2 by lia. change (2 ^ 14) with 16384.
    change 1 with (Z.ones 1). rewrite Z.land_ones by lia. change (2 ^ 1) with 2.
    replace (v / 16384) with (if df then 1 else 0).
    + destruct df; reflexivity.
    + unfold v. destruct df, mf;
        [apply (Z.div_unique _ _ _ (8192 + q))|apply (Z.div_unique _ _ _ q)
        |apply (Z.div_unique _ _ _ (8192 + q))|apply (Z.div_unique _ _ _ q)]; lia.
  - unfold IP_MF. change 0x2000 with (Z.shiftl 1 13).
    rewrite Z.shiftr_land, Z.shiftr_shiftl_l, Z.sub_diag, Z.shiftl_0_r by lia.
    rewrite Z.shiftr_div_pow2 by lia. change (2 ^ 13) with 8192.
    change 1 with (Z.ones 1). rewrite Z.land_ones by lia. change (2 ^ 1) with 2.
    replace (v / 8192) with ((if mf then 1 else 0) + 2 * (if df then 1 else 0)).
    + destruct df, mf; reflexivity.
    + apply (Z.div_unique _ _ _ q); [lia|]. rewrite Hv. ring.
  - unfold IP_OFFSET. change 0x1FFF with (Z.ones 13). rewrite Z.land_ones by lia.
    change (2 ^ 13) with 8192.
    replace (v mod 8192) with q.
    + rewrite Z.shiftl_mul_pow2 by lia. change (2 ^ 3) with 8.
      rewrite u16_small by lia. ring.
    + apply (Z.mod_unique _ _ ((if mf then 1 else 0) + 2 * (if df then 1 else 0)));
        [lia|]. rewrite Hv. ring.
Qed.

(** The same for the Fragment header of IPv6: the offset comes back rounded
    down to a multiple of 8, and the flag as it was given. *)
Theorem ipv6_frag_off_roundtrip (hdr : list Z) (frag_offset : Z) (mf : bool) :
  (4 <= length hdr)%nat -> 0 <= frag_offset < 65536 ->
  let hdr' := write_at 2 (be16_bytes (build_ipv6_frag_off_field frag_offset mf)) hdr in
  get_fragment_offset_ipv6 hdr' = 8 * (frag_offset / 8) /\
  is_more_fragments_set_ipv6 hdr' = mf.
Proof.
  intros Hlen Hoff hdr'.
  assert (Hf : frag_hdr_frag_off hdr' = build_ipv6_frag_off_field frag_offset mf).
  { unfold frag_hdr_frag_off, hdr'. rewrite be16_at_bytes by lia.
    apply u16_small. apply frag_off_field_range. }
  unfold get_fragment_offset_ipv6, is_more_fragments_set_ipv6.
  rewrite Hf, frag_off_field_value, (u16_small frag_offset) by exact Hoff.
  assert (Hq : 0 <= frag_offset / 8 < 8192).
  { split; [apply Z.div_pos; lia|apply Z.div_lt_upper_bound; lia]. }
  set (q := frag_offset / 8) in *.
  split.
  - rewrite land_fff8. rewrite u16_small by (destruct mf; lia).
    f_equal. symmetry. apply (Z.div_unique _ _ _ (if mf then 1 else 0)); destruct mf; lia.
  - change IP6_MF with (Z.ones 1). rewrite Z.land_ones by lia. change (2 ^ 1) with 2.
    replace ((8 * q + (if mf then 1 else 0)) mod 2) with (if mf then 1 else 0).
    + destruct mf; reflexivity.
    + apply (Z.mod_unique _ _ (4 * q)); destruct mf; lia.
Qed.

Lemma ipv4_frag_off_roundtrip_witness :
  is_dont_fragment_set (write_at 6 (be16_bytes (build_ipv4_frag_off_field true false 1480))
                          (frag_skb in0)) = true.
Proof.
  apply (ipv4_frag_off_roundtrip (frag_skb in0) true false 1480).
  - simpl. lia.
  - lia.
Defined.

Lemma ipv6_frag_off_roundtrip_witness :
  get_fragment_offset_ipv6
    (write_at 2 (be16_bytes (build_ipv6_frag_off_field 1234 true)) (fragment_header out0))
  = 8 * (1234 / 8).
Proof.
  apply (ipv6_frag_off_roundtrip (fragment_header out0) 1234 true).
  - simpl. lia.
  - lia.
Defined.

(** ** The MTU plateaus and [translate_set_config] *)

(** [sort] *)

Lemma sort_insert_perm (x : Z) (l : list Z) : sort_insert x l ≡ₚ x :: l.
Proof.
  induction l as [|y l IH]; simpl; [reflexivity|].
  destruct (be16_compare x y <=? 0); [reflexivity|].
  rewrite IH. apply Permutation_swap.
Qed.

Lemma sort_perm (l : list Z) : sort l ≡ₚ l.
Proof.
  induction l as [|x l IH]; simpl; [reflexivity|].
  rewrite sort_insert_perm, IH. reflexivity.
Qed.

Lemma sort_insert_sorted (x : Z) (l : list Z) :
  StronglySorted Z.ge l -> StronglySorted Z.ge (sort_insert x l).
Proof.
  induction l as [|y l IH]; intros Hs; simpl.
  - constructor; constructor.
  - apply StronglySorted_inv in Hs. destruct Hs as [Hs Hy].
    unfold be16_compare. destruct (y - x <=? 0) eqn:E.
    + apply Z.leb_le in E. constructor; [constructor; assumption|].
      constructor; [lia|]. eapply Forall_impl; [exact Hy|]. simpl. intros z Hz. lia.
    + apply Z.leb_gt in E. constructor; [apply IH; exact Hs|].
      rewrite sort_insert_perm. constructor; [lia|exact Hy].
Qed.

Lemma sort_sorted (l : list Z) : StronglySorted Z.ge (sort l).
Proof.
  induction l as [|x l IH]; simpl; [constructor|]. apply sort_insert_sorted, IH.
Qed.

Lemma sorted_nth_ge (l : list Z) (i j : nat) :
  StronglySorted Z.ge l -> (i <= j < length l)%nat -> nth i l 0 >= nth j l 0.
Proof.
  intros Hs. revert i j. induction Hs as [|x l Hs IH Hx]; intros i j Hij; [simpl in *; lia|].
  destruct i as [|i], j as [|j]; simpl in *; try lia.
  - rewrite Forall_forall in Hx. apply Hx. apply list_elem_of_In, nth_In. lia.
  - apply IH. lia.
Qed.

Lemma sorted_gt_snoc (a : list Z) (x : Z) :
  StronglySorted Z.gt a -> (forall y, y ∈ a -> y > x) -> StronglySorted Z.gt (a ++ [x]).
Proof.
  induction a as [|y a IH]; intros Hs Hy; simpl.
  - constructor; constructor.
  - apply StronglySorted_inv in Hs. destruct Hs as [Hs Hya]. constructor.
    + apply IH; [exact Hs|]. intros z Hz. apply Hy. right. exact Hz.
    + apply Forall_app. split; [exact Hya|]. constructor; [|constructor].
      apply Hy. left.
Qed.

Lemma sorted_gt_length (l : list Z) : forall N,
  StronglySorted Z.gt l -> (forall y, y ∈ l -> 1 <= y <= N) -> Z.of_nat (length l) <= Z.max 0 N.
Proof.
  induction l as [|x l IH]; intros N Hs Hr; [simpl; lia|].
  apply StronglySorted_inv in Hs. destruct Hs as [Hs Hx].
  rewrite Forall_forall in Hx.
  specialize (IH (x - 1) Hs).
  assert (1 <= x <= N) by (apply Hr; left).
  cbn [length]. rewrite Nat2Z.inj_succ.
  assert (Z.of_nat (length l) <= Z.max 0 (x - 1)); [|lia].
  apply IH. intros y Hy. specialize (Hx y Hy). assert (1 <= y <= N) by (apply Hr; right; exact Hy).
  lia.
Qed.

Lemma elem_of_take_nth (l : list Z) (j : nat) (x : Z) :
  x ∈ take j l <-> exists p, (p < j)%nat /\ (p < length l)%nat /\ nth p l 0 = x.
Proof.
  rewrite list_elem_of_lookup. split.
  - intros [p Hp]. apply lookup_take_Some in Hp. destruct Hp as [Hp Hlt].
    exists p. repeat split; [exact Hlt|eapply lookup_lt_Some; exact Hp|].
    rewrite nth_lookup_Z, Hp. reflexivity.
  - intros (p & Hp & Hl & Hx). exists p. rewrite lookup_take_lt by exact Hp.
    destruct (lookup_lt_is_Some_2 l p Hl) as [v Hv].
    rewrite nth_lookup_Z, Hv in Hx. simpl in Hx. congruence.
Qed.

Section UpdatePlateaus.

Variable L : list Z.
Hypothesis Hsorted : StronglySorted Z.ge L.
Hypothesis Hnonneg : forall x, x ∈ L -> 0 <= x.

Lemma remove_zeroes_and_duplicates_spec : forall (n i j : nat) (l : list Z),
  length l = length L ->
  (i < j)%nat -> (j + n = length L)%nat ->
  StronglySorted Z.gt (take (S i) l) ->
  (forall p, (j <= p)%nat -> nth p l 0 = nth p L 0) ->
  nth i l 0 = nth (j - 1) L 0 ->
  (forall x, x ∈ take (S i) l <-> x ∈ take j L) ->
  nth 0 l 0 = nth 0 L 0 ->
  ((1 < j)%nat -> nth (j - 1) L 0 <> 0) ->
  let r := remove_zeroes_and_duplicates n i j l in
  exists j',
    (fst r < j' <= length L)%nat /\
    length (snd r) = length L /\
    StronglySorted Z.gt (take (S (fst r)) (snd r)) /\
    (forall x, x ∈ take (S (fst r)) (snd r) <-> x ∈ take j' L) /\
    nth 0 (snd r) 0 = nth 0 L 0 /\
    ((j' < length L)%nat -> nth j' L 0 = 0) /\
    ((1 < j')%nat -> nth (j' - 1) L 0 <> 0).
Proof using Hsorted.
  induction n as [|n IH]; intros i j l Hlen Hij Hjn Hs Hrest Hi Hmem H0 Hnz r; subst r.
  - simpl. exists j. repeat apply conj; try assumption; lia.
  - cbn [remove_zeroes_and_duplicates].
    assert (Hj : nth j l 0 = nth j L 0) by (apply Hrest; lia).
    destruct (nth j l 0 =? 0) eqn:Ez.
    { apply Z.eqb_eq in Ez. cbn [fst snd]. exists j.
      repeat apply conj; first [assumption | lia | intros _; congruence]. }
    apply Z.eqb_neq in Ez.
    assert (Hge : nth (j - 1) L 0 >= nth j L 0) by (apply sorted_nth_ge; [exact Hsorted|lia]).
    assert (HjL : take (S j) L = take j L ++ [nth j L 0]).
    { apply take_S_r. destruct (lookup_lt_is_Some_2 L j) as [v Hv]; [lia|].
      rewrite nth_lookup_Z, Hv. reflexivity. }
    destruct (nth i l 0 =? nth j l 0) eqn:Eq; cbn [negb].
    + apply Z.eqb_eq in Eq.
      apply IH; try assumption; try lia.
      * intros p Hp. apply Hrest. lia.
      * replace (S j - 1)%nat with j by lia. congruence.
      * intros x. rewrite Hmem, HjL, elem_of_app, list_elem_of_singleton.
        split; [auto|]. intros [H| ->]; [exact H|].
        apply elem_of_take_nth. exists (j - 1)%nat. repeat split; first [lia | congruence].
      * intros _. replace (S j - 1)%nat with j by lia. congruence.
    + apply Z.eqb_neq in Eq.
      assert (Hsi : (S i < length l)%nat) by lia.
      assert (Ht : take (S (S i)) (<[S i := nth j l 0]> l) = take (S i) l ++ [nth j l 0]).
      { rewrite (take_S_r _ _ (nth j l 0)) by (apply list_lookup_insert_eq; exact Hsi).
        rewrite take_insert_ge by lia. reflexivity. }
      apply IH; try lia.
      * rewrite length_insert. exact Hlen.
      * rewrite Ht. apply sorted_gt_snoc; [exact Hs|].
        intros y Hy. apply Hmem in Hy. apply elem_of_take_nth in Hy.
        destruct Hy as (p & Hp & Hpl & <-).
        assert (nth p L 0 >= nth (j - 1) L 0) by (apply sorted_nth_ge; [exact Hsorted|lia]).
        lia.
      * intros p Hp. rewrite nth_insert. case_decide; [lia|]. apply Hrest. lia.
      * rewrite nth_insert. case_decide; [|lia]. replace (S j - 1)%nat with j by lia.
        exact Hj.
      * intros x. rewrite Ht, HjL, !elem_of_app, !list_elem_of_singleton, Hmem, Hj.
        reflexivity.
      * rewrite nth_insert. case_decide; [lia|]. exact H0.
      * intros _. replace (S j - 1)%nat with j by lia. congruence.
Qed.

End UpdatePlateaus.

Lemma sorted_head_zero (L : list Z) :
  StronglySorted Z.ge L -> (forall x, x ∈ L -> 0 <= x) ->
  nth 0 L 0 = 0 -> forall x, x ∈ L -> x = 0.
Proof.
  intros Hs Hn H0 x Hx. pose proof (Hn x Hx).
  apply list_elem_of_lookup in Hx. destruct Hx as [p Hp].
  assert (Hpl : (p < length L)%nat) by (eapply lookup_lt_Some; exact Hp).
  pose proof (sorted_nth_ge L 0 p Hs ltac:(lia)) as Hge.
  rewrite (nth_lookup_Z L p), Hp in Hge. simpl in Hge. lia.
Qed.

Lemma nonzero_prefix (L : list Z) (j' : nat) :
  StronglySorted Z.ge L -> (forall x, x ∈ L -> 0 <= x) ->
  (0 < j' <= length L)%nat -> nth 0 L 0 <> 0 ->
  ((j' < length L)%nat -> nth j' L 0 = 0) ->
  ((1 < j')%nat -> nth (j' - 1) L 0 <> 0) ->
  forall x, x ∈ take j' L <-> x ∈ L /\ x <> 0.
Proof.
  intros Hs Hn Hj H0 Hz Hnz x. split.
  - intros Hx. split; [apply (subseteq_take j' L); exact Hx|].
    apply elem_of_take_nth in Hx. destruct Hx as (p & Hp & Hpl & <-).
    assert (Hlast : nth (j' - 1) L 0 <> 0).
    { destruct (decide (1 < j')%nat) as [H1|H1]; [apply Hnz; exact H1|].
      replace (j' - 1)%nat with 0%nat by lia. exact H0. }
    pose proof (sorted_nth_ge L p (j' - 1) Hs ltac:(lia)).
    assert (0 <= nth (j' - 1) L 0).
    { apply Hn. apply list_elem_of_In, nth_In. lia. }
    lia.
  - intros [Hx Hx0]. apply list_elem_of_lookup in Hx. destruct Hx as [p Hp].
    assert (Hpl : (p < length L)%nat) by (eapply lookup_lt_Some; exact Hp).
    apply list_elem_of_lookup. exists p.
    destruct (decide (p < j')%nat) as [Hlt|Hge]; [rewrite lookup_take_lt by exact Hlt; exact Hp|].
    exfalso. assert (Hj' : (j' < length L)%nat) by lia.
    pose proof (sorted_nth_ge L j' p Hs ltac:(lia)) as Hge'.
    rewrite (Hz Hj'), (nth_lookup_Z L p), Hp in Hge'. simpl in Hge'.
    assert (0 <= x) by (apply Hn; apply list_elem_of_lookup; exists p; exact Hp).
    lia.
Qed.

(** [update_plateaus], for a payload that holds the array it announces:
    an empty or odd-sized payload, or one of zeroes alone, is refused with
    minus [EINVAL] and the configuration is as it was.  Otherwise, when the
    array cannot be allocated, the status is minus [ENOMEM] and the
    configuration is left with a null plateaus pointer and the count it
    had; and when it can, the plateaus of the configuration are the values
    of the payload other than zero, each once, from the largest to the
    smallest, the count is their number, and nothing else changes. *)
Theorem update_plateaus_sorted (alloc : bool) (config : translate_config) (size : Z)
    (value : list Z) :
  0 <= size ->
  (Z.to_nat (u32 (size / 2)) <= length value)%nat ->
  (forall x, x ∈ value -> 0 <= x < 65536) ->
  let input := take (Z.to_nat (u32 (size / 2))) value in
  let r := update_plateaus alloc config size value in
  (u32 (size / 2) = 0 \/ size mod 2 = 1 \/ (forall x, x ∈ input -> x = 0) ->
   fst r = - EINVAL /\ snd r = config) /\
  (u32 (size / 2) <> 0 -> size mod 2 = 0 -> (exists x, x ∈ input /\ x <> 0) ->
   (alloc = false ->
    fst r = - ENOMEM /\ snd r = set_mtu_plateaus config None /\
    mtu_plateaus (snd r) = None /\ mtu_plateau_count (snd r) = mtu_plateau_count config) /\
   (alloc = true ->
    exists l,
      fst r = 0 /\
      snd r = set_mtu_plateau_count (set_mtu_plateaus config (Some l)) (Z.of_nat (length l)) /\
      StronglySorted Z.gt l /\
      forall x, x ∈ l <-> x ∈ input /\ x <> 0)).
Proof.
  intros Hsize Hlen Hrange input r.
  set (count := u32 (size / 2)) in *.
  assert (Hcount : 0 <= count) by (unfold count, u32; apply Z.mod_pos_bound; lia).
  assert (Hin_len : length input = Z.to_nat count) by (unfold input; apply length_take_le; lia).
  set (L := sort input).
  assert (HLp : L ≡ₚ input) by apply sort_perm.
  assert (HLs : StronglySorted Z.ge L) by apply sort_sorted.
  assert (HLlen : length L = Z.to_nat count) by (rewrite HLp; exact Hin_len).
  assert (HLin : forall x, x ∈ L <-> x ∈ input) by (intros x; rewrite HLp; reflexivity).
  assert (Hinput : forall x, x ∈ input -> 0 <= x < 65536).
  { intros x Hx. apply Hrange. apply (subseteq_take (Z.to_nat count) value). exact Hx. }
  assert (HLn : forall x, x ∈ L -> 0 <= x) by (intros x Hx; apply HLin, Hinput in Hx; lia).
  subst r. unfold update_plateaus. fold count. fold input. fold L.
  destruct (count =? 0) eqn:Ec.
  { apply Z.eqb_eq in Ec. split; [intros _; split; reflexivity|]. intros H. contradiction. }
  apply Z.eqb_neq in Ec.
  destruct (size mod 2 =? 1) eqn:Eo.
  { apply Z.eqb_eq in Eo. split; [intros _; split; reflexivity|]. intros _ H. lia. }
  apply Z.eqb_neq in Eo.
  assert (Hc1 : (1 <= length L)%nat) by lia.
  pose proof (remove_zeroes_and_duplicates_spec L HLs (Z.to_nat count - 1) 0 1 L) as Hloop.
  destruct (remove_zeroes_and_duplicates (Z.to_nat count - 1) 0 1 L) as [i l'].
  cbn [fst snd] in Hloop.
  destruct Hloop as (j' & Hj' & Hl' & Hs' & Hmem & H0 & Hz & Hnz); try reflexivity; try lia.
  { destruct L as [|x0 L0]; [simpl in Hc1; lia|]. simpl. constructor; constructor. }
  destruct (nth 0 l' 0 =? 0) eqn:E0.
  { apply Z.eqb_eq in E0. rewrite H0 in E0.
    split; [intros _; split; reflexivity|].
    intros _ _ (x & Hx & Hx0). exfalso. apply Hx0.
    apply (sorted_head_zero L HLs HLn E0). apply HLin. exact Hx. }
  apply Z.eqb_neq in E0. rewrite H0 in E0.
  split.
  { intros [H|[H|H]]; [lia| |].
    - pose proof (Z.mod_pos_bound size 2). lia.
    - exfalso. apply E0. apply H. apply HLin. apply list_elem_of_In, nth_In. lia. }
  intros _ _ _.
  destruct alloc; cbn [negb].
  2:{ split; [intros _; repeat apply conj; reflexivity|discriminate]. }
  split; [discriminate|]. intros _.
  assert (Hpre : forall x, x ∈ take (S i) l' <-> x ∈ input /\ x <> 0).
  { intros x. rewrite Hmem, (nonzero_prefix L j' HLs HLn) by (assumption || lia).
    rewrite HLin. reflexivity. }
  assert (Hi : Z.of_nat (length (take (S i) l')) <= Z.max 0 65535).
  { apply sorted_gt_length; [exact Hs'|]. intros y Hy. apply Hpre in Hy.
    destruct Hy as [Hy Hy0]. apply Hinput in Hy. lia. }
  assert (Hli : length (take (S i) l') = S i) by (rewrite length_take_le; lia).
  rewrite Hli in Hi.
  assert (Eu : u32 (Z.of_nat i + 1) = Z.of_nat (S i)).
  { unfold u32. rewrite Z.mod_small; lia. }
  exists (take (S i) l').
  cbn [fst snd]. rewrite Eu, u16_small by lia. rewrite Nat2Z.id, Hli.
  repeat apply conj; [reflexivity|reflexivity|exact Hs'|exact Hpre].
Qed.

(** The payload 1280, 0, 1500, 1280, 68 gives the plateaus 1500, 1280, 68;
    without memory for them the configuration is left with none. *)
Lemma update_plateaus_sorted_witness :
  (exists l,
     fst (update_plateaus true (config0 1280) 10 [1280; 0; 1500; 1280; 68]) = 0 /\
     snd (update_plateaus true (config0 1280) 10 [1280; 0; 1500; 1280; 68])
     = set_mtu_plateau_count (set_mtu_plateaus (config0 1280) (Some l)) (Z.of_nat (length l)) /\
     StronglySorted Z.gt l /\
     forall x, x ∈ l <-> x ∈ take (Z.to_nat (u32 (10 / 2))) [1280; 0; 1500; 1280; 68] /\ x <> 0) /\
  mtu_plateaus (snd (update_plateaus false (config0 1280) 10 [1280; 0; 1500; 1280; 68]))
  = None.
Proof.
  assert (Hr : forall x, x ∈ [1280; 0; 1500; 1280; 68] -> 0 <= x < 65536).
  { intros x Hx. repeat (apply elem_of_cons in Hx; destruct Hx as [->|Hx]; [lia|]).
    inversion Hx. }
  assert (Hnz : exists x, x ∈ take (Z.to_nat (u32 (10 / 2))) [1280; 0; 1500; 1280; 68] /\
                          x <> 0).
  { exists 1280. split; [left|lia]. }
  split.
  - apply (proj2 (proj2 (update_plateaus_sorted true (config0 1280) 10
                           [1280; 0; 1500; 1280; 68] ltac:(lia) ltac:(vm_compute; lia) Hr)
                    ltac:(discriminate) eq_refl Hnz)).
    reflexivity.
  - apply (proj1 (proj2 (update_plateaus_sorted false (config0 1280) 10
                           [1280; 0; 1500; 1280; 68] ltac:(lia) ltac:(vm_compute; lia) Hr)
                    ltac:(discriminate) eq_refl Hnz)).
    reflexivity.
Defined.

Lemma update_plateaus_cases (alloc : bool) (config : translate_config) (size : Z)
    (value : list Z) :
  let r := update_plateaus alloc config size value in
  fst r = - EINVAL /\ snd r = config \/
  fst r = - ENOMEM /\ alloc = false \/
  fst r = 0 /\ alloc = true /\
    exists l n, snd r = set_mtu_plateau_count (set_mtu_plateaus config l) n.
Proof.
  unfold update_plateaus.
  destruct (_ =? 0); [left; auto|].
  destruct (_ =? 1); [left; auto|].
  destruct (remove_zeroes_and_duplicates _ _ _ _) as [i l].
  destruct (_ =? 0); [left; auto|].
  destruct alloc; cbn [negb]; [right; right|right; left; auto].
  repeat split. do 2 eexists. reflexivity.
Qed.

(** [translate_set_config] changes the configuration on success only, and
    then the one option its [type] names: the status is zero, minus
    [EINVAL] or minus [ENOMEM]; unless it is zero the configuration is as it
    was, also when [update_plateaus] could not allocate the plateaus of the
    copy it worked on; an 8-bit option is set from a payload of one byte,
    the minimum IPv6 MTU from a payload of two. *)
Theorem translate_set_config_frame (k : kernel) (plateaus_alloc : bool)
    (type : translate_type) (size : Z) (value : list Z) (config : translate_config) :
  let r := translate_set_config k plateaus_alloc type size value config in
  (fst r = 0 \/ fst r = - EINVAL \/ fst r = - ENOMEM) /\
  (fst r <> 0 -> snd r = config) /\
  (kmalloc_ok k = false -> fst r = - ENOMEM) /\
  (fst r = 0 ->
   (type <> RESET_TCLASS -> reset_traffic_class (snd r) = reset_traffic_class config) /\
   (type <> RESET_TOS -> reset_tos (snd r) = reset_tos config) /\
   (type <> NEW_TOS -> new_tos (snd r) = new_tos config) /\
   (type <> DF_ALWAYS_ON -> df_always_on (snd r) = df_always_on config) /\
   (type <> BUILD_IPV4_ID -> build_ipv4_id (snd r) = build_ipv4_id config) /\
   (type <> LOWER_MTU_FAIL -> lower_mtu_fail (snd r) = lower_mtu_fail config) /\
   (type <> MTU_PLATEAUS -> mtu_plateaus (snd r) = mtu_plateaus config) /\
   (type <> MTU_PLATEAUS -> mtu_plateau_count (snd r) = mtu_plateau_count config) /\
   (type <> MIN_IPV6_MTU -> min_ipv6_mtu (snd r) = min_ipv6_mtu config) /\
   (type <> MTU_PLATEAUS -> size = if decide (type = MIN_IPV6_MTU) then 2 else 1) /\
   (type = MIN_IPV6_MTU -> min_ipv6_mtu (snd r) = u16 (nth 0 value 0)) /\
   (type = RESET_TOS -> reset_tos (snd r) = u8 (nth 0 value 0)) /\
   (type = NEW_TOS -> new_tos (snd r) = u8 (nth 0 value 0))).
Proof.
  unfold translate_set_config.
  destruct (kmalloc_ok k) eqn:Ek; cbn [negb].
  2:{ cbn [fst snd]. repeat apply conj; auto; discriminate. }
  destruct type;
    try (unfold expect_u8, expect_u16;
         match goal with |- context [?a =? size] => destruct (Z.eqb_spec a size) end;
         cbn [negb fst snd];
         repeat apply conj; auto; try discriminate; try congruence;
         intros _; repeat apply conj; auto; try congruence; intros; discriminate).
  pose proof (update_plateaus_cases plateaus_alloc config size value) as H. cbn zeta in H.
  destruct (update_plateaus plateaus_alloc config size value) as [error tmp].
  cbn [fst snd] in H.
  destruct H as [[-> ->]|[[-> _]|(-> & _ & l & n & ->)]];
    cbn [negb fst snd Z.eqb Z.opp EINVAL ENOMEM].
  - repeat apply conj; auto; discriminate.
  - repeat apply conj; auto; discriminate.
  - repeat apply conj; auto; try discriminate; try congruence.
    intros _. repeat apply conj; auto; congruence.
Qed.

(** ** The tuple of an ICMP error and the packet it quotes *)

Section MirrorFacts.

Variables is_icmp4_info is_icmp4_error is_icmp6_info is_icmp6_error : Z -> bool.
Variable hdr_iterator_last : Z * list Z -> Z * list Z.

Let step1' := determine_in_tuple is_icmp4_info is_icmp4_error is_icmp6_info
                is_icmp6_error hdr_iterator_last.

(** The tuple of an ICMP error is the tuple of the packet it quotes with
    its two ends exchanged.  The error is given by its parts, the 8 bytes
    of the ICMP header, the quoted network header [hdr] and the bytes
    [rest] after it; the quoted packet by itself has [hdr] and [rest] as
    its bytes and its transport header where that of the quotation is:
    at [rest] for IPv4, where [hdr] is as long as its IHL field says, and
    for IPv6 at the header [l4hdr] that the header iterator, started at
    the next-header field of the 40 bytes of [hdr] and at [rest], ends
    at.  Where the quoted packet is UDP, TCP or an informational ICMP
    message, the step continues on both and the two tuples mirror each
    other. *)
Theorem icmp_error_tuple_mirrors_quoted (skb : sk_buff) (t : tuple) (l4 : l4_protocol)
    (icmp hdr rest : list Z) :
  skb_l4_proto skb = L4PROTO_ICMP ->
  skb_transport skb = icmp ++ hdr ++ rest ->
  length icmp = 8%nat ->
  (skb_l3_proto skb = L3PROTO_IPV4 ->
   is_icmp4_info (icmp_type icmp) = false ->
   is_icmp4_error (icmp_type icmp) = true ->
   Z.of_nat (length hdr) = 4 * iphdr_ihl hdr -> 5 <= iphdr_ihl hdr ->
   (l4 = L4PROTO_UDP /\ iphdr_protocol hdr = IPPROTO_UDP \/
    l4 = L4PROTO_TCP /\ iphdr_protocol hdr = IPPROTO_TCP \/
    l4 = L4PROTO_ICMP /\ iphdr_protocol hdr = IPPROTO_ICMP /\
      is_icmp4_info (icmp_type rest) = true /\
      is_icmp4_error (icmp_type rest) = false) ->
   fst (step1' (quoted L3PROTO_IPV4 l4 hdr rest rest) t) = VER_CONTINUE /\
   step1' skb t
   = (VER_CONTINUE, mirror (snd (step1' (quoted L3PROTO_IPV4 l4 hdr rest rest) t)))) /\
  (skb_l3_proto skb = L3PROTO_IPV6 ->
   is_icmp6_info (icmp_type icmp) = false ->
   is_icmp6_error (icmp_type icmp) = true ->
   length hdr = 40%nat ->
   forall (hdr_type : Z) (l4hdr : list Z),
   hdr_iterator_last (ipv6hdr_nexthdr hdr, rest) = (hdr_type, l4hdr) ->
   (l4 = L4PROTO_UDP /\ hdr_type = NEXTHDR_UDP \/
    l4 = L4PROTO_TCP /\ hdr_type = NEXTHDR_TCP \/
    l4 = L4PROTO_ICMP /\ hdr_type = NEXTHDR_ICMP /\
      is_icmp6_info (icmp_type l4hdr) = true /\
      is_icmp6_error (icmp_type l4hdr) = false) ->
   fst (step1' (quoted L3PROTO_IPV6 l4 hdr rest l4hdr) t) = VER_CONTINUE /\
   step1' skb t
   = (VER_CONTINUE, mirror (snd (step1' (quoted L3PROTO_IPV6 l4 hdr rest l4hdr) t)))).
Proof.
  intros Hl4 Ht Hl.
  destruct (inner_packet_parts skb icmp hdr rest Ht Hl) as [Hin Hty].
  split.
  - intros Hl3 Hi He Hlen Hihl H.
    destruct (ipv4_header_parts hdr rest Hlen Hihl) as (Ep & Es & Ed & El4').
    unfold step1', determine_in_tuple at 2. rewrite Hl3, Hl4, Hty, Hi, He.
    unfold ipv4_icmp_err. rewrite Hin, Ep, Es, Ed, El4'.
    destruct H as [[-> Hp]|[[-> Hp]|(-> & Hp & Hii & Hie)]]; rewrite Hp;
      unfold determine_in_tuple, quoted; cbn [skb_l3_proto skb_l4_proto skb_transport];
      rewrite ?Hii, ?Hie;
      unfold ipv4_udp, ipv4_tcp, ipv4_icmp_info; cbn [skb_network skb_transport];
      rewrite ?Es, ?Ed; split; reflexivity.
  - intros Hl3 Hi He Hlen hdr_type l4hdr Hlast H.
    destruct (ipv6_header_parts hdr rest Hlen) as (En & Es & Ed & El4').
    unfold step1', determine_in_tuple at 2. rewrite Hl3, Hl4, Hty, Hi, He.
    unfold ipv6_icmp_err, inner6_last_header. rewrite Hin, En, Es, Ed, El4', Hlast.
    destruct H as [[-> Hp]|[[-> Hp]|(-> & Hp & Hii & Hie)]]; rewrite Hp;
      unfold determine_in_tuple, quoted; cbn [skb_l3_proto skb_l4_proto skb_transport];
      rewrite ?Hii, ?Hie;
      unfold ipv6_udp, ipv6_tcp, ipv6_icmp_info; cbn [skb_network skb_transport];
      rewrite ?Es, ?Ed; split; reflexivity.
Qed.

End MirrorFacts.

(** The quoted datagrams go from 203.0.113.1 port 6000 to 192.0.2.1 port
    80 and from 64:ff9b::192.0.2.1 port 80 to 2001:db8::1 port 5000; the
    tuples of the errors are these with the ends exchanged. *)
Lemma icmp_error_tuple_mirrors_quoted_witness :
  (snd (determine_in_tuple icmp4_info0 icmp4_error0 icmp6_info0 icmp6_error0
          hdr_iterator_last0 quoted4_0 tuple_blank)
   = mk_tuple (mk_tuple_addr (Ip4 [203; 0; 113; 1]) 6000)
       (mk_tuple_addr (Ip4 [192; 0; 2; 1]) 80) L3PROTO_IPV4 L4PROTO_UDP /\
   determine_in_tuple icmp4_info0 icmp4_error0 icmp6_info0 icmp6_error0 hdr_iterator_last0
     icmp4_error_skb tuple_blank
   = (VER_CONTINUE,
      mirror (snd (determine_in_tuple icmp4_info0 icmp4_error0 icmp6_info0 icmp6_error0
                     hdr_iterator_last0 quoted4_0 tuple_blank)))) /\
  (snd (determine_in_tuple icmp4_info0 icmp4_error0 icmp6_info0 icmp6_error0
          hdr_iterator_last0 quoted6_0 tuple_blank)
   = mk_tuple
       (mk_tuple_addr (Ip6 [0; 100; 255; 155; 0; 0; 0; 0; 0; 0; 0; 0; 192; 0; 2; 1]) 80)
       (mk_tuple_addr (Ip6 [32; 1; 13; 184; 0; 0; 0; 0; 0; 0; 0; 0; 0; 0; 0; 1]) 5000)
       L3PROTO_IPV6 L4PROTO_UDP /\
   determine_in_tuple icmp4_info0 icmp4_error0 icmp6_info0 icmp6_error0 hdr_iterator_last0
     icmp6_error_skb tuple_blank
   = (VER_CONTINUE,
      mirror (snd (determine_in_tuple icmp4_info0 icmp4_error0 icmp6_info0 icmp6_error0
                     hdr_iterator_last0 quoted6_0 tuple_blank)))).
Proof.
  split; (split; [reflexivity|]).
  - apply (proj1 (icmp_error_tuple_mirrors_quoted icmp4_info0 icmp4_error0 icmp6_info0
                    icmp6_error0 hdr_iterator_last0 icmp4_error_skb tuple_blank L4PROTO_UDP
                    [3; 1; 0; 0; 0; 0; 0; 0]
                    [69; 0; 0; 28; 0; 2; 0; 0; 63; 17; 0; 0; 203; 0; 113; 1; 192; 0; 2; 1]
                    [23; 112; 0; 80; 0; 8; 0; 0]
                    eq_refl eq_refl eq_refl)
                 eq_refl eq_refl eq_refl eq_refl ltac:(vm_compute; discriminate)).
    left. split; reflexivity.
  - apply (proj2 (icmp_error_tuple_mirrors_quoted icmp4_info0 icmp4_error0 icmp6_info0
                    icmp6_error0 hdr_iterator_last0 icmp6_error_skb tuple_blank L4PROTO_UDP
                    [1; 0; 0; 0; 0; 0; 0; 0]
                    [96; 0; 0; 0; 0; 24; 60; 63;
                     0; 100; 255; 155; 0; 0; 0; 0; 0; 0; 0; 0; 192; 0; 2; 1;
                     32; 1; 13; 184; 0; 0; 0; 0; 0; 0; 0; 0; 0; 0; 0; 1]
                    [44; 0; 1; 4; 0; 0; 0; 0; 17; 0; 0; 0; 0; 0; 18; 52;
                     0; 80; 19; 136; 0; 8; 0; 0]
                    eq_refl eq_refl eq_refl)
                 eq_refl eq_refl eq_refl eq_refl
                 17 [0; 80; 19; 136; 0; 8; 0; 0] eq_refl).
    left. split; reflexivity.
Defined.

(** ** The configuration on its way to user space *)

Section Ticks.

Variable k : kernel.
Hypothesis Hz : 0 < HZ k.
Hypothesis Hdiv : 1000 mod HZ k = 0.

Let T := 1000 / HZ k.

Lemma tick_positive : 0 < T.
Proof using Hz Hdiv.
  assert (HT : 1000 = HZ k * (1000 / HZ k)) by (apply Z.div_exact; lia).
  fold T in HT. nia.
Qed.

Lemma msecs_to_jiffies_value (m : Z) :
  0 <= m < 2 ^ 31 -> msecs_to_jiffies k m = (m + T - 1) / T.
Proof using Hz Hdiv.
  intros Hm. unfold msecs_to_jiffies. fold T.
  assert (Em : u32 m = m) by (unfold u32; apply Z.mod_small; lia).
  rewrite Em. destruct (2 ^ 31 <=? m) eqn:E; [apply Z.leb_le in E; lia|reflexivity].
Qed.

Lemma jiffies_to_msecs_value (j : Z) :
  0 <= j -> T * j < 2 ^ 32 -> jiffies_to_msecs k j = T * j.
Proof using Hz Hdiv.
  intros Hj Hlt. unfold jiffies_to_msecs. fold T. unfold u32.
  pose proof tick_positive. apply Z.mod_small. nia.
Qed.

(** Ticks shown in milliseconds and read back are the same ticks. *)
Lemma msecs_jiffies_roundtrip (j : Z) :
  0 <= j -> T * j < 2 ^ 31 -> msecs_to_jiffies k (jiffies_to_msecs k j) = j.
Proof using Hz Hdiv.
  intros Hj Hlt. pose proof tick_positive as HT.
  rewrite jiffies_to_msecs_value by lia.
  rewrite msecs_to_jiffies_value by nia.
  replace (T * j + T - 1) with ((T - 1) + j * T) by ring.
  rewrite Z.div_add by lia. rewrite Z.div_small by lia. lia.
Qed.

(** Milliseconds stored as ticks are shown rounded up to a whole tick. *)
Lemma jiffies_msecs_rounds_up (m : Z) :
  0 <= m < 2 ^ 31 ->
  let shown := jiffies_to_msecs k (msecs_to_jiffies k m) in
  m <= shown < m + T /\ shown mod T = 0 /\ (m mod T = 0 -> shown = m).
Proof using Hz Hdiv.
  intros Hm shown. subst shown. pose proof tick_positive as HT.
  assert (HT' : T <= 1000).
  { unfold T. apply Z.div_le_upper_bound; lia. }
  rewrite msecs_to_jiffies_value by lia.
  set (q := (m + T - 1) / T).
  assert (Hq : T * q <= m + T - 1 < T * q + T).
  { pose proof (Z.div_mod (m + T - 1) T ltac:(lia)).
    pose proof (Z.mod_pos_bound (m + T - 1) T HT). fold q in H. lia. }
  assert (0 <= q) by (apply Z.div_pos; lia).
  rewrite jiffies_to_msecs_value by nia.
  repeat apply conj; try lia.
  - rewrite Z.mul_comm. apply Z.mod_mul. lia.
  - intros Hm0. apply Z.mod_divide in Hm0; [|lia]. destruct Hm0 as [c Hc].
    assert (Hqc : q = c); [|rewrite Hqc, Hc; ring]. unfold q. rewrite Hc.
    replace (c * T + T - 1) with ((T - 1) + c * T) by ring.
    rewrite Z.div_add by lia. rewrite Z.div_small by lia. lia.
Qed.

(** From 2^31 milliseconds on the ticks stored are [MAX_JIFFY_OFFSET],
    which the 32 bits of [jiffies_to_msecs] show as two ticks short of
    2^32 milliseconds. *)
Lemma jiffies_msecs_wraps (m : Z) :
  2 ^ 31 <= m <= 0xFFFFFFFF ->
  jiffies_to_msecs k (msecs_to_jiffies k m) = 2 ^ 32 - 2 * T.
Proof using Hz Hdiv.
  intros Hm. pose proof tick_positive as HT.
  assert (HT' : T <= 1000).
  { unfold T. apply Z.div_le_upper_bound; lia. }
  unfold msecs_to_jiffies.
  assert (Em : u32 m = m) by (unfold u32; apply Z.mod_small; lia).
  rewrite Em. destruct (2 ^ 31 <=? m) eqn:E; [|apply Z.leb_gt in E; lia].
  unfold jiffies_to_msecs. fold T. unfold u32.
  replace (T * MAX_JIFFY_OFFSET) with ((2 ^ 32 - 2 * T) + (T * 2 ^ 30 - 1) * 2 ^ 32)
    by (change MAX_JIFFY_OFFSET with (2 ^ 62 - 2); ring).
  rewrite Z.mod_add by lia. apply Z.mod_small. lia.
Qed.

End Ticks.

(** Integers and bytes *)

Lemma le_bytes_S (n : nat) (x : Z) :
  le_bytes (S n) x = x mod 256 :: le_bytes n (x / 256).
Proof.
  unfold le_bytes. cbn [List.seq map]. f_equal.
  - simpl. rewrite Z.div_1_r. reflexivity.
  - rewrite <- seq_shift, map_map. apply map_ext. intros i.
    rewrite Z.div_div by lia. f_equal. f_equal.
    replace (8 * Z.of_nat (S i)) with (8 + 8 * Z.of_nat i) by lia.
    rewrite Z.pow_add_r by lia. reflexivity.
Qed.

Lemma length_le_bytes (n : nat) (x : Z) : length (le_bytes n x) = n.
Proof. unfold le_bytes. rewrite length_map, length_seq. reflexivity. Qed.

Lemma le_value_bytes (n : nat) : forall x : Z,
  0 <= x < 2 ^ (8 * Z.of_nat n) -> le_value (le_bytes n x) = x.
Proof.
  induction n as [|n IH]; intros x Hx.
  - simpl in *. lia.
  - rewrite le_bytes_S. cbn [le_value]. rewrite IH.
    + pose proof (Z.div_mod x 256). lia.
    + replace (8 * Z.of_nat (S n)) with (8 + 8 * Z.of_nat n) in Hx by lia.
      rewrite Z.pow_add_r in Hx by lia. change (2 ^ 8) with 256 in Hx.
      split; [apply Z.div_pos; lia|]. apply Z.div_lt_upper_bound; lia.
Qed.

Lemma nth_map_seq (f : nat -> Z) (n j : nat) :
  (j < n)%nat -> nth j (map f (List.seq 0 n)) 0 = f j.
Proof.
  intros H. rewrite (nth_indep (map f (List.seq 0 n)) 0 (f 0%nat))
    by (rewrite length_map, length_seq; lia).
  rewrite map_nth, seq_nth by lia. reflexivity.
Qed.

Lemma bytes_at_nth (p : list Z) (off n : nat) :
  (off + n <= length p)%nat ->
  bytes_at p off n = map (fun i => nth (off + i) p 0) (List.seq 0 n).
Proof.
  intros H. apply (nth_ext _ _ 0 0).
  - unfold bytes_at. rewrite length_take, length_drop, length_map, length_seq. lia.
  - intros i Hi. unfold bytes_at in *.
    rewrite length_take, length_drop in Hi.
    rewrite nth_take_Z by lia. rewrite nth_skipn_Z.
    rewrite nth_map_seq by lia. reflexivity.
Qed.

(** The bytes of an integer, wherever they were written, are read back as
    the integer. *)
Lemma field_written (p : list Z) (off n : nat) (x : Z) :
  (off + n <= length p)%nat -> 0 <= x < 2 ^ (8 * Z.of_nat n) ->
  (forall i, (i < n)%nat -> nth (off + i) p 0 = nth i (le_bytes n x) 0) ->
  field p off n = x.
Proof.
  intros Hl Hx Hn. unfold field. rewrite bytes_at_nth by exact Hl.
  replace (map (fun i => nth (off + i) p 0) (List.seq 0 n)) with (le_bytes n x).
  - apply le_value_bytes. exact Hx.
  - apply (nth_ext _ _ 0 0).
    + rewrite length_le_bytes, length_map, length_seq. reflexivity.
    + intros i Hi. rewrite length_le_bytes in Hi.
      rewrite nth_map_seq by lia. symmetry. apply Hn. exact Hi.
Qed.

Lemma field_byte (p : list Z) (off : nat) :
  (off < length p)%nat -> field p off 1 = nth off p 0.
Proof.
  intros H. unfold field. rewrite bytes_at_nth by lia. simpl.
  rewrite Nat.add_0_r. lia.
Qed.

Lemma field_two (p : list Z) (off : nat) :
  (off + 2 <= length p)%nat -> field p off 2 = nth off p 0 + 256 * nth (S off) p 0.
Proof.
  intros H. unfold field. rewrite bytes_at_nth by lia. simpl.
  rewrite Nat.add_0_r. replace (off + 1)%nat with (S off) by lia. lia.
Qed.

(** The bytes of an array of 16-bit integers. *)
Lemma length_concat_le_bytes (l : list Z) :
  length (concat (map (le_bytes 2) l)) = (2 * length l)%nat.
Proof. induction l as [|x l IH]; simpl; [reflexivity|]. rewrite IH. lia. Qed.

Lemma nth_concat_le_bytes (l : list Z) : forall (i b : nat),
  (b < 2)%nat ->
  nth (2 * i + b) (concat (map (le_bytes 2) l)) 0 = nth b (le_bytes 2 (nth i l 0)) 0.
Proof.
  induction l as [|x l IH]; intros i b Hb.
  - simpl. destruct (2 * i + b)%nat, i, b as [|[|b]]; try reflexivity; lia.
  - destruct i as [|i].
    + cbn [map concat]. rewrite app_nth1 by (rewrite length_le_bytes; lia).
      reflexivity.
    + cbn [map concat]. rewrite app_nth2 by (rewrite length_le_bytes; lia).
      rewrite length_le_bytes.
      replace (2 * S i + b - 2)%nat with (2 * i + b)%nat by lia.
      apply IH. exact Hb.
Qed.

(** A timeout that [sessiondb_set_config] accepted on a machine whose tick
    rate divides 1000 is shown by the serialized configuration in
    milliseconds as follows.  Below 2^31 milliseconds it is rounded up to a
    whole tick: never less than what was asked for, less than one tick more,
    and the same when the value is a whole number of ticks.  From 2^31
    milliseconds on, up to the 0xFFFFFFFF that are accepted, it is shown
    as two ticks short of 2^32 milliseconds whatever was asked for. *)
Theorem accepted_timeout_shown (k : kernel) (type : sessiondb_type) (value : Z)
    (db : sessiondb) :
  0 < HZ k -> 1000 mod HZ k = 0 ->
  fst (sessiondb_set_config k type 8 value db) = 0 ->
  let db' := snd (sessiondb_set_config k type 8 value db) in
  let shown := jiffies_to_msecs k (timeout_of (snd (sessiondb_clone_config db')) type) in
  u64 value <= 0xFFFFFFFF /\
  (u64 value < 2 ^ 31 ->
   u64 value <= shown < u64 value + 1000 / HZ k /\
   shown mod (1000 / HZ k) = 0 /\
   (u64 value mod (1000 / HZ k) = 0 -> shown = u64 value)) /\
  (2 ^ 31 <= u64 value -> shown = 2 ^ 32 - 2 * (1000 / HZ k)).
Proof.
  intros Hz Hdiv Hok db' shown.
  pose proof (tick_positive k Hz Hdiv) as HT.
  assert (H64 : 0 <= u64 value) by (unfold u64; apply Z.mod_pos_bound; lia).
  assert (Hmax : u64 value <= 0xFFFFFFFF).
  { revert Hok. unfold sessiondb_set_config. cbn [Z.eqb negb].
    destruct (u64 value >? _) eqn:E; [discriminate|]. intros _.
    rewrite Z.gtb_ltb in E. apply Z.ltb_ge in E. exact E. }
  assert (Hcfg : timeout_of (config db') type = msecs_to_jiffies k (u64 value)).
  { subst db'. revert Hok. unfold sessiondb_set_config. cbn [Z.eqb negb].
    destruct (u64 value >? _); [discriminate|].
    destruct (kmalloc_ok k); cbn [negb]; [|discriminate].
    destruct type; try destruct (_ <? _); try discriminate; intros _; reflexivity. }
  subst shown. cbn [sessiondb_clone_config snd]. rewrite Hcfg.
  split; [exact Hmax|]. split; intros Hv.
  - apply jiffies_msecs_rounds_up; try assumption. lia.
  - apply jiffies_msecs_wraps; try assumption. lia.
Qed.

(** 119999 milliseconds at 250 ticks a second are shown as 120000, and
    4000000000 milliseconds as 4294967288. *)
Lemma accepted_timeout_shown_witness :
  jiffies_to_msecs kernel0
    (timeout_of (snd (sessiondb_clone_config
                        (snd (sessiondb_set_config kernel0 UDP_TIMEOUT 8 119999 db0))))
       UDP_TIMEOUT) mod (1000 / HZ kernel0) = 0 /\
  jiffies_to_msecs kernel0
    (timeout_of (snd (sessiondb_clone_config
                        (snd (sessiondb_set_config kernel0 UDP_TIMEOUT 8 4000000000 db0))))
       UDP_TIMEOUT) = 2 ^ 32 - 2 * (1000 / HZ kernel0).
Proof.
  split.
  - apply (proj1 (proj2 (accepted_timeout_shown kernel0 UDP_TIMEOUT 119999 db0
                           eq_refl eq_refl eq_refl))).
    reflexivity.
  - apply (proj2 (proj2 (accepted_timeout_shown kernel0 UDP_TIMEOUT 4000000000 db0
                           eq_refl eq_refl eq_refl))).
    vm_compute. discriminate.
Defined.

(** ** The configuration buffer, byte by byte *)

(** Reads one layer of writes after the other; the layers that do not
    cover the byte fall away. *)
Ltac peel :=
  repeat (rewrite nth_write_at, ?write_at_length, ?length_app, ?length_le_bytes,
            ?length_concat_le_bytes, ?length_map, ?length_seq;
          cbn [length];
          case_decide; [try (exfalso; lia)|try (exfalso; lia)]).

Section Wire.

Variable k : kernel.
Variable untracked : nat -> Z.
Variable config : response_general.
Variable l : list Z.

Hypothesis Hk : kmalloc_ok k = true.
Hypothesis Hfits : fits config.
Hypothesis Hl : mtu_plateaus (rg_translate config) = Some l.
Hypothesis Hcount : Z.of_nat (length l) = mtu_plateau_count (rg_translate config).
Hypothesis Hrange : forall x, x ∈ l -> 0 <= x < 2 ^ 16.

Let s := rg_sessiondb config.
Let f := rg_filtering config.
Let t := rg_translate config.
Let n := (80 + 2 * length l)%nat.

(** The buffer [serialize_general_config] builds. *)
Let buffer : list Z :=
  write_at 72 (le_bytes 8 (fragment_timeout (rg_fragmentation config)))
    (write_at 32 (le_bytes 8 (max_pkts (rg_pktqueue config)))
       (write_at 72 (concat (map (le_bytes 2) l))
          (write_at 64 (le_bytes 2 (min_ipv6_mtu t))
             (write_at 48
                ([reset_traffic_class t; reset_tos t; new_tos t; df_always_on t;
                  build_ipv4_id t; lower_mtu_fail t] ++ le_bytes 2 (mtu_plateau_count t))
                (write_at 40 [drop_by_addr f; drop_icmp6_info f; drop_external_tcp f]
                   (write_at 8 (le_bytes 8 (jiffies_to_msecs k (ttl_icmp s)))
                      (write_at 24 (le_bytes 8 (jiffies_to_msecs k (ttl_tcp_trans s)))
                         (write_at 16 (le_bytes 8 (jiffies_to_msecs k (ttl_tcp_est s)))
                            (write_at 0 (le_bytes 8 (jiffies_to_msecs k (ttl_udp s)))
                               (map untracked (List.seq 0 n))))))))))).

Lemma serialize_buffer :
  serialize_general_config k untracked config = Some (0, Some buffer).
Proof.
  assert (Hpr : plateaus_read t = Some l).
  { unfold plateaus_read, t. rewrite Hl, <- Hcount, Z.leb_refl, Nat2Z.id, firstn_all.
    reflexivity. }
  unfold serialize_general_config. rewrite Hk. cbn [negb]. fold t. rewrite Hpr.
  replace (Z.to_nat (sizeof_response_general + mtu_plateau_count t * 2)) with n
    by (unfold sizeof_response_general, n, t; lia).
  reflexivity.
Qed.

Lemma length_buffer : length buffer = n.
Proof. unfold buffer. rewrite !write_at_length, length_map, length_seq. reflexivity. Qed.

Lemma buffer_bytes :
  (forall i, (i < 8)%nat ->
     nth (0 + i) buffer 0 = nth i (le_bytes 8 (jiffies_to_msecs k (ttl_udp s))) 0 /\
     nth (8 + i) buffer 0 = nth i (le_bytes 8 (jiffies_to_msecs k (ttl_icmp s))) 0 /\
     nth (16 + i) buffer 0 = nth i (le_bytes 8 (jiffies_to_msecs k (ttl_tcp_est s))) 0 /\
     nth (24 + i) buffer 0 = nth i (le_bytes 8 (jiffies_to_msecs k (ttl_tcp_trans s))) 0 /\
     nth (32 + i) buffer 0 = nth i (le_bytes 8 (max_pkts (rg_pktqueue config))) 0 /\
     nth (72 + i) buffer 0
     = nth i (le_bytes 8 (fragment_timeout (rg_fragmentation config))) 0) /\
  (forall i, (i < 2)%nat ->
     nth (54 + i) buffer 0 = nth i (le_bytes 2 (mtu_plateau_count t)) 0 /\
     nth (64 + i) buffer 0 = nth i (le_bytes 2 (min_ipv6_mtu t)) 0) /\
  nth 40 buffer 0 = drop_by_addr f /\ nth 41 buffer 0 = drop_icmp6_info f /\
  nth 42 buffer 0 = drop_external_tcp f /\
  nth 48 buffer 0 = reset_traffic_class t /\ nth 49 buffer 0 = reset_tos t /\
  nth 50 buffer 0 = new_tos t /\ nth 51 buffer 0 = df_always_on t /\
  nth 52 buffer 0 = build_ipv4_id t /\ nth 53 buffer 0 = lower_mtu_fail t.
Proof.
  assert (Hn : (80 <= n)%nat) by (unfold n; lia).
  split; [|split].
  - intros i Hi. unfold buffer.
    repeat apply conj; peel; try lia; try (f_equal; lia).
  - intros i Hi. unfold buffer.
    destruct i as [|[|i]]; [| |lia]; (split; peel; try lia; try reflexivity).
  - unfold buffer.
    repeat apply conj; peel; try lia; try reflexivity.
Qed.

(** The bytes the plateaus are read from: the first lie where the
    plateaus after the fourth were written, the last four past what was
    written. *)
Lemma buffer_plateaus (i b : nat) :
  (i < length l)%nat -> (b < 2)%nat ->
  nth (80 + 2 * i + b) buffer 0 =
  if decide (i + 4 < length l)%nat then nth b (le_bytes 2 (nth (i + 4) l 0)) 0
  else untracked (80 + 2 * i + b).
Proof.
  intros Hi Hb. unfold buffer. peel; try lia.
  - case_decide; [|unfold n in *; lia].
    replace (80 + 2 * i + b - 72)%nat with (2 * (i + 4) + b)%nat by lia.
    apply nth_concat_le_bytes. exact Hb.
  - case_decide; [unfold n in *; lia|].
    apply nth_map_seq. unfold n. lia.
Qed.

Hypothesis Hz : 0 < HZ k.
Hypothesis Hdiv : 1000 mod HZ k = 0.
Hypothesis Ht : forall type,
  0 <= timeout_of s type /\ 1000 / HZ k * timeout_of s type < 2 ^ 31.

(** The plateaus [deserialize_general_config] reads. *)
Let plateaus' : list Z :=
  map (fun i => field buffer (80 + 2 * i) 2) (List.seq 0 (length l)).

Lemma deserialize_buffer :
  deserialize_general_config k buffer
  = Some (0, mk_response_general s (rg_pktqueue config) f
               (set_mtu_plateaus t (Some plateaus')) (rg_fragmentation config)).
Proof.
  destruct buffer_bytes as
    (B8 & B2 & F0 & F1 & F2 & T0 & T1 & T2 & T3 & T4 & T5).
  pose proof length_buffer as Hlen.
  assert (Hn : (80 <= n)%nat) by (unfold n; lia).
  destruct Hfits as (P1 & P2 & P3 & P4). fold t in P3, P4.
  assert (Hms : forall j, 0 <= jiffies_to_msecs k j < 2 ^ (8 * Z.of_nat 8)).
  { intros j. unfold jiffies_to_msecs, u32.
    pose proof (Z.mod_pos_bound (1000 / HZ k * j) (2 ^ 32) ltac:(lia)).
    change (2 ^ (8 * Z.of_nat 8)) with (2 ^ 64). lia. }
  assert (E0 : field buffer 0 8 = jiffies_to_msecs k (ttl_udp s)).
  { apply field_written; [lia|apply Hms|]. intros i Hi. apply (B8 i Hi). }
  assert (E8 : field buffer 8 8 = jiffies_to_msecs k (ttl_icmp s)).
  { apply field_written; [lia|apply Hms|]. intros i Hi. apply (B8 i Hi). }
  assert (E16 : field buffer 16 8 = jiffies_to_msecs k (ttl_tcp_est s)).
  { apply field_written; [lia|apply Hms|]. intros i Hi. apply (B8 i Hi). }
  assert (E24 : field buffer 24 8 = jiffies_to_msecs k (ttl_tcp_trans s)).
  { apply field_written; [lia|apply Hms|]. intros i Hi. apply (B8 i Hi). }
  assert (E32 : field buffer 32 8 = max_pkts (rg_pktqueue config)).
  { apply field_written; [lia|exact P1|]. intros i Hi. apply (B8 i Hi). }
  assert (E72 : field buffer 72 8 = fragment_timeout (rg_fragmentation config)).
  { apply field_written; [lia|exact P2|]. intros i Hi. apply (B8 i Hi). }
  assert (E54 : field buffer 54 2 = mtu_plateau_count t).
  { apply field_written; [lia|exact P3|]. intros i Hi. apply (B2 i Hi). }
  assert (E64 : field buffer 64 2 = min_ipv6_mtu t).
  { apply field_written; [lia|exact P4|]. intros i Hi. apply (B2 i Hi). }
  unfold deserialize_general_config.
  rewrite Hlen, E0, E8, E16, E24, E32, E72, E54, E64.
  rewrite !field_byte by lia. rewrite F0, F1, F2, T0, T1, T2, T3, T4, T5.
  destruct (Z.of_nat n <? sizeof_response_general) eqn:El;
    [apply Z.ltb_lt in El; unfold sizeof_response_general in El; lia|].
  rewrite Hk, orb_true_r. cbn [negb].
  destruct (Z.of_nat n <? sizeof_response_general + mtu_plateau_count t * 2) eqn:El2;
    [apply Z.ltb_lt in El2; unfold sizeof_response_general, n, t in *; lia|].
  pose proof (Ht UDP_TIMEOUT) as [U1 U2]. pose proof (Ht ICMP_TIMEOUT) as [I1 I2].
  pose proof (Ht TCP_EST_TIMEOUT) as [A1 A2]. pose proof (Ht TCP_TRANS_TIMEOUT) as [R1 R2].
  cbn [timeout_of] in *.
  rewrite !(msecs_jiffies_roundtrip k Hz Hdiv) by assumption.
  replace (Z.to_nat (mtu_plateau_count t)) with (length l) by (unfold t; lia).
  fold plateaus'. generalize plateaus'. intros pl.
  unfold set_mtu_plateaus, s, f, t.
  destruct config as [[u i e r] [p] [f1 f2 f3] [c1 c2 c3 c4 c5 c6 cn cp cm] [fr]].
  reflexivity.
Qed.

Lemma plateaus_shifted :
  length plateaus' = length l /\
  (forall i, (i + 4 < length l)%nat -> plateaus' !! i = l !! (i + 4)%nat) /\
  (forall i, (i < length l <= i + 4)%nat ->
     plateaus' !! i
     = Some (untracked (80 + 2 * i) + 256 * untracked (S (80 + 2 * i)))).
Proof.
  pose proof length_buffer as Hlen.
  assert (Hlook : forall i, (i < length l)%nat ->
            plateaus' !! i = Some (field buffer (80 + 2 * i) 2)).
  { intros i Hi. unfold plateaus'. rewrite list_lookup_fmap, lookup_seq_lt by exact Hi.
    reflexivity. }
  repeat apply conj.
  - unfold plateaus'. rewrite length_map, length_seq. reflexivity.
  - intros i Hi. rewrite Hlook by lia.
    destruct (lookup_lt_is_Some_2 l (i + 4) Hi) as [x Hx]. rewrite Hx. f_equal.
    assert (Hxr : 0 <= x < 2 ^ 16) by (apply Hrange; eapply list_elem_of_lookup_2; exact Hx).
    apply field_written; [unfold n in Hlen; lia|exact Hxr|].
    intros b Hb.
    rewrite buffer_plateaus by lia. case_decide; [|lia].
    rewrite (nth_lookup_Z l), Hx. reflexivity.
  - intros i Hi. rewrite Hlook by lia. f_equal.
    rewrite field_two by (unfold n in Hlen; lia).
    pose proof (buffer_plateaus i 0 ltac:(lia) ltac:(lia)) as H0.
    pose proof (buffer_plateaus i 1 ltac:(lia) ltac:(lia)) as H1.
    rewrite Nat.add_0_r in H0. replace (80 + 2 * i + 1)%nat with (S (80 + 2 * i)) in H1 by lia.
    rewrite H0, H1. repeat case_decide; try lia.
Qed.

End Wire.

(** A configuration that is serialized and deserialized on a machine whose
    tick rate divides 1000, with memory to be had, comes back with every
    member but the plateaus as it was, when its integers fit their types,
    its plateaus are as many as its count says and each of its four
    timeouts is at least zero and below 2^31 milliseconds.  The plateaus do
    not come back: [serialize_general_config] writes them at [tconfig + 1],
    in the place of the fragmentation member that is written afterwards,
    and [deserialize_general_config] reads them after the structure, 8 bytes
    further.  A plateau that is read is the one written four places later,
    and the last four are bytes that nothing wrote. *)
Theorem general_config_roundtrip_shifts_plateaus (k : kernel) (untracked : nat -> Z)
    (config : response_general) (l : list Z) :
  0 < HZ k -> 1000 mod HZ k = 0 -> kmalloc_ok k = true ->
  fits config ->
  mtu_plateaus (rg_translate config) = Some l ->
  Z.of_nat (length l) = mtu_plateau_count (rg_translate config) ->
  (forall x, x ∈ l -> 0 <= x < 2 ^ 16) ->
  (forall type, 0 <= timeout_of (rg_sessiondb config) type /\
                1000 / HZ k * timeout_of (rg_sessiondb config) type < 2 ^ 31) ->
  exists buffer l',
    serialize_general_config k untracked config = Some (0, Some buffer) /\
    Z.of_nat (length buffer) = sizeof_response_general + 2 * Z.of_nat (length l) /\
    deserialize_general_config k buffer
    = Some (0, mk_response_general (rg_sessiondb config) (rg_pktqueue config)
                 (rg_filtering config) (set_mtu_plateaus (rg_translate config) (Some l'))
                 (rg_fragmentation config)) /\
    length l' = length l /\
    (forall i, (i + 4 < length l)%nat -> l' !! i = l !! (i + 4)%nat) /\
    (forall i, (i < length l <= i + 4)%nat ->
       l' !! i = Some (untracked (80 + 2 * i)%nat + 256 * untracked (S (80 + 2 * i)))).
Proof.
  intros Hz Hdiv Hk Hfits Hl Hcount Hrange Ht.
  assert (P : _) by (apply (plateaus_shifted k untracked config l); assumption).
  destruct P as (P1 & P2 & P3).
  do 2 eexists. split; [apply (serialize_buffer k untracked config l); assumption|].
  split; [rewrite (length_buffer k untracked config l); unfold sizeof_response_general; lia|].
  split; [apply (deserialize_buffer k untracked config l); assumption|].
  split; [exact P1|]. split; [exact P2|exact P3].
Qed.

(** The configuration of the examples has the five plateaus 1492, 1006,
    508, 296 and 68: the fifth comes back as the first, followed by what
    the buffer held. *)
Lemma general_config_roundtrip_shifts_plateaus_witness :
  exists buffer l',
    serialize_general_config kernel0 (fun _ => 170)
      (mk_response_general (config db0) (mk_pktqueue_config 1024) (mk_filtering_config 0 0 1)
         (config0 1280) (mk_fragmentation_config 2000)) = Some (0, Some buffer) /\
    Z.of_nat (length buffer) = sizeof_response_general + 2 * Z.of_nat 5 /\
    deserialize_general_config kernel0 buffer
    = Some (0, mk_response_general (config db0) (mk_pktqueue_config 1024)
                 (mk_filtering_config 0 0 1) (set_mtu_plateaus (config0 1280) (Some l'))
                 (mk_fragmentation_config 2000)) /\
    length l' = 5%nat /\
    (forall i, (i + 4 < 5)%nat -> l' !! i = [1492; 1006; 508; 296; 68] !! (i + 4)%nat) /\
    (forall i, (i < 5 <= i + 4)%nat -> l' !! i = Some (170 + 256 * 170)).
Proof.
  apply (general_config_roundtrip_shifts_plateaus kernel0 (fun _ => 170)
           (mk_response_general (config db0) (mk_pktqueue_config 1024)
              (mk_filtering_config 0 0 1) (config0 1280) (mk_fragmentation_config 2000))
           [1492; 1006; 508; 296; 68]).
  - reflexivity.
  - reflexivity.
  - reflexivity.
  - vm_compute. repeat split; discriminate.
  - reflexivity.
  - reflexivity.
  - intros x Hx. repeat (apply elem_of_cons in Hx; destruct Hx as [->|Hx]; [lia|]).
    inversion Hx.
  - intros type. destruct type; vm_compute; split; [discriminate|reflexivity| discriminate|
      reflexivity|discriminate|reflexivity|discriminate|reflexivity].
Defined.

(** ** Session database: a lookup after [sessiondb_add] *)

(** Comparisons *)

Lemma nth_tl (a : list Z) (i : nat) : nth i (tl a) 0 = nth (S i) a 0.
Proof. destruct a; simpl; [destruct i; reflexivity|reflexivity]. Qed.

Lemma memcmp_zero_iff (n : nat) : forall a b : list Z,
  memcmp a b n = 0 <-> same_bytes n a b.
Proof.
  unfold same_bytes. induction n as [|n IH]; intros a b; cbn [memcmp].
  - split; [intros _ i Hi; lia|reflexivity].
  - destruct (nth 0 a 0 - nth 0 b 0 =? 0) eqn:E.
    + apply Z.eqb_eq in E. rewrite IH. split.
      * intros H [|i] Hi; [lia|]. rewrite <- !nth_tl. apply H. lia.
      * intros H i Hi. rewrite !nth_tl. apply H. lia.
    + apply Z.eqb_neq in E. split; [lia|]. intros H. specialize (H 0%nat ltac:(lia)).
      rewrite H. apply Z.sub_diag.
Qed.

Lemma memcmp_refl (n : nat) (a : list Z) : memcmp a a n = 0.
Proof. apply memcmp_zero_iff. intros i _. reflexivity. Qed.

Lemma compare_full6_refl (s : session_entry) : compare_full6 s (ipv6 s) = 0.
Proof.
  unfold compare_full6, ipv6_addr_cmp. rewrite !memcmp_refl, !Z.sub_diag. reflexivity.
Qed.

Lemma compare_full4_refl (s : session_entry) : compare_full4 s (ipv4 s) = 0.
Proof.
  unfold compare_full4, compare_addrs4, compare_local4, ipv4_addr_cmp.
  rewrite !memcmp_refl, !Z.sub_diag. reflexivity.
Qed.

Lemma compare_full6_zero (s : session_entry) (pair : ipv6_pair) :
  compare_full6 s pair = 0 <->
  same_bytes 16 (a6_address (p6_local pair)) (a6_address (p6_local (ipv6 s))) /\
  same_bytes 16 (a6_address (p6_remote pair)) (a6_address (p6_remote (ipv6 s))) /\
  a6_l4_id (p6_local pair) = a6_l4_id (p6_local (ipv6 s)) /\
  a6_l4_id (p6_remote pair) = a6_l4_id (p6_remote (ipv6 s)).
Proof.
  unfold compare_full6, ipv6_addr_cmp. rewrite <- !memcmp_zero_iff.
  repeat match goal with
  | |- context [negb (?x =? 0)] => destruct (Z.eqb_spec x 0); cbn [negb]
  end; lia.
Qed.

Lemma compare_local4_zero (s : session_entry) (addr : ipv4_tuple_address) :
  compare_local4 s addr = 0 <->
  same_bytes 4 (a4_address addr) (a4_address (p4_local (ipv4 s))) /\
  a4_l4_id addr = a4_l4_id (p4_local (ipv4 s)).
Proof.
  unfold compare_local4, ipv4_addr_cmp. rewrite <- !memcmp_zero_iff.
  destruct (Z.eqb_spec (memcmp (a4_address addr) (a4_address (p4_local (ipv4 s))) 4) 0);
    cbn [negb]; lia.
Qed.

Lemma compare_addrs4_zero (s : session_entry) (pair : ipv4_pair) :
  compare_addrs4 s pair = 0 <->
  same_bytes 4 (a4_address (p4_local pair)) (a4_address (p4_local (ipv4 s))) /\
  a4_l4_id (p4_local pair) = a4_l4_id (p4_local (ipv4 s)) /\
  same_bytes 4 (a4_address (p4_remote pair)) (a4_address (p4_remote (ipv4 s))).
Proof.
  unfold compare_addrs4, ipv4_addr_cmp.
  pose proof (compare_local4_zero s (p4_local pair)) as HL.
  pose proof (memcmp_zero_iff 4 (a4_address (p4_remote pair))
                (a4_address (p4_remote (ipv4 s)))) as HR.
  destruct (Z.eqb_spec (compare_local4 s (p4_local pair)) 0) as [E|E]; cbn [negb].
  - rewrite <- HR. destruct HL as [HL _]. specialize (HL E). tauto.
  - split; [contradiction|]. intros (A & B & C). exfalso. apply E, HL. auto.
Qed.

Lemma compare_full4_zero (s : session_entry) (pair : ipv4_pair) :
  compare_full4 s pair = 0 <->
  same_bytes 4 (a4_address (p4_local pair)) (a4_address (p4_local (ipv4 s))) /\
  a4_l4_id (p4_local pair) = a4_l4_id (p4_local (ipv4 s)) /\
  same_bytes 4 (a4_address (p4_remote pair)) (a4_address (p4_remote (ipv4 s))) /\
  a4_l4_id (p4_remote pair) = a4_l4_id (p4_remote (ipv4 s)).
Proof.
  unfold compare_full4. pose proof (compare_addrs4_zero s pair) as H.
  destruct (Z.eqb_spec (compare_addrs4 s pair) 0) as [E|E]; cbn [negb].
  - rewrite E in H. split.
    + intros Hid. destruct H as [H _]. destruct (H eq_refl) as (A & B & C).
      repeat split; try assumption. lia.
    + intros (_ & _ & _ & Hid). lia.
  - split; [intros E'; contradiction|]. intros (A & B & C & _). exfalso. apply E, H. auto.
Qed.

(** Searching what was linked *)

Section FindAdd.

Context {K : Type}.
Variable heap : gmap nat session_entry.
Variable compare_cb : session_entry -> K -> Z.

Lemma rbtree_find_add (session : nat) (key : K) (t t' : rb_node) :
  rbtree_add heap compare_cb session key t = Some t' ->
  compare_cb (deref heap session) key = 0 ->
  rbtree_find heap compare_cb key t' = Some session.
Proof.
  revert t'. induction t as [|l IHl x r IHr]; intros t' Hadd Hz; simpl in Hadd.
  - injection Hadd as <-. simpl. rewrite Hz. reflexivity.
  - destruct (compare_cb (deref heap x) key <? 0) eqn:E1.
    + destruct (rbtree_add heap compare_cb session key l) as [l'|] eqn:El; [|discriminate].
      injection Hadd as <-. simpl. rewrite E1. apply IHl; [reflexivity|exact Hz].
    + destruct (0 <? compare_cb (deref heap x) key) eqn:E2; [|discriminate].
      destruct (rbtree_add heap compare_cb session key r) as [r'|] eqn:Er; [|discriminate].
      injection Hadd as <-. simpl. rewrite E1, E2. apply IHr; [reflexivity|exact Hz].
Qed.

Lemma rbtree_find_add_kept (session : nat) (key other : K) (t t' : rb_node) (x : nat) :
  rbtree_add heap compare_cb session key t = Some t' ->
  rbtree_find heap compare_cb other t = Some x ->
  rbtree_find heap compare_cb other t' = Some x.
Proof.
  revert t'. induction t as [|l IHl y r IHr]; intros t' Hadd Hf; simpl in Hadd, Hf;
    [discriminate|].
  destruct (compare_cb (deref heap y) key <? 0) eqn:E1.
  - destruct (rbtree_add heap compare_cb session key l) as [l'|] eqn:El; [|discriminate].
    injection Hadd as <-. simpl.
    destruct (compare_cb (deref heap y) other <? 0); [apply IHl; auto|exact Hf].
  - destruct (0 <? compare_cb (deref heap y) key) eqn:E2; [|discriminate].
    destruct (rbtree_add heap compare_cb session key r) as [r'|] eqn:Er; [|discriminate].
    injection Hadd as <-. simpl.
    destruct (compare_cb (deref heap y) other <? 0); [exact Hf|].
    destruct (0 <? compare_cb (deref heap y) other); [apply IHr; auto|exact Hf].
Qed.

Lemma rbtree_find_add_new (session : nat) (key other : K) (t t' : rb_node) (x : nat) :
  rbtree_add heap compare_cb session key t = Some t' ->
  rbtree_find heap compare_cb other t' = Some x ->
  x = session \/ rbtree_find heap compare_cb other t = Some x.
Proof.
  revert t'. induction t as [|l IHl y r IHr]; intros t' Hadd Hf; simpl in Hadd.
  - injection Hadd as <-. simpl in Hf.
    destruct (_ <? 0); [discriminate|]. destruct (0 <? _); [discriminate|].
    left. congruence.
  - destruct (compare_cb (deref heap y) key <? 0) eqn:E1.
    + destruct (rbtree_add heap compare_cb session key l) as [l'|] eqn:El; [|discriminate].
      injection Hadd as <-. simpl in *.
      destruct (compare_cb (deref heap y) other <? 0); [eapply IHl; eauto|auto].
    + destruct (0 <? compare_cb (deref heap y) key) eqn:E2; [|discriminate].
      destruct (rbtree_add heap compare_cb session key r) as [r'|] eqn:Er; [|discriminate].
      injection Hadd as <-. simpl in *.
      destruct (compare_cb (deref heap y) other <? 0); [auto|].
      destruct (0 <? compare_cb (deref heap y) other); [eapply IHr; eauto|auto].
Qed.

End FindAdd.

Lemma sessiondb_add_success (session : nat) (db : sessiondb) :
  fst (sessiondb_add session db) = 0 ->
  exists t t6 t4,
    get_session_table (l4_proto (deref (db_heap db) session)) = Some t /\
    rbtree_add (db_heap db) compare_full6 session (ipv6 (deref (db_heap db) session))
      (tree6 (get_table db t)) = Some t6 /\
    rbtree_add (db_heap db) compare_full4 session (ipv4 (deref (db_heap db) session))
      (tree4 (get_table db t)) = Some t4 /\
    snd (sessiondb_add session db) =
      set_table db t (mk_table t6 t4 (u64 (count (get_table db t) + 1))).
Proof.
  unfold sessiondb_add.
  destruct (get_session_table _) as [t|] eqn:Et; [|discriminate].
  destruct (rbtree_add _ compare_full6 _ _ _) as [t6|] eqn:E6; [|discriminate].
  destruct (rbtree_add _ compare_full4 _ _ _) as [t4|] eqn:E4; [|discriminate].
  intros _. exists t, t6, t4.
  repeat apply conj; first [reflexivity | assumption | cbn [snd]; apply set_table_twice].
Qed.

(** After a successful [sessiondb_add] the session is what a lookup by its
    IPv6 pair and a lookup by its IPv4 pair return; every lookup that found
    a session before finds the same one, and a lookup finds nothing but the
    new session or what it found before. *)
Theorem sessiondb_add_then_get (session : nat) (db : sessiondb) :
  fst (sessiondb_add session db) = 0 ->
  let s := deref (db_heap db) session in
  let db' := snd (sessiondb_add session db) in
  sessiondb_get_by_ipv6 (ipv6 s) (l4_proto s) db' = (0, Some session) /\
  sessiondb_get_by_ipv4 (ipv4 s) (l4_proto s) db' = (0, Some session) /\
  (forall pair l4 x,
     sessiondb_get_by_ipv6 pair l4 db = (0, Some x) ->
     sessiondb_get_by_ipv6 pair l4 db' = (0, Some x)) /\
  (forall pair l4 x,
     sessiondb_get_by_ipv4 pair l4 db = (0, Some x) ->
     sessiondb_get_by_ipv4 pair l4 db' = (0, Some x)) /\
  (forall pair l4 x,
     sessiondb_get_by_ipv6 pair l4 db' = (0, Some x) ->
     x = session \/ sessiondb_get_by_ipv6 pair l4 db = (0, Some x)) /\
  (forall pair l4 x,
     sessiondb_get_by_ipv4 pair l4 db' = (0, Some x) ->
     x = session \/ sessiondb_get_by_ipv4 pair l4 db = (0, Some x)).
Proof.
  intros Hok s db'.
  destruct (sessiondb_add_success session db Hok) as (t & t6 & t4 & Ht & H6 & H4 & Hdb).
  fold s in Ht, H6, H4. subst db'. rewrite Hdb.
  assert (Hh : db_heap (set_table db t (mk_table t6 t4 (u64 (count (get_table db t) + 1))))
               = db_heap db) by apply heap_set_table.
  assert (Hs6 : compare_full6 (deref (db_heap db) session) (ipv6 s) = 0)
    by apply compare_full6_refl.
  assert (Hs4 : compare_full4 (deref (db_heap db) session) (ipv4 s) = 0)
    by apply compare_full4_refl.
  unfold sessiondb_get_by_ipv6, sessiondb_get_by_ipv4.
  repeat apply conj.
  - rewrite Ht, Hh, get_set_table. destruct (decide (t = t)); [|congruence]. cbn [tree6].
    rewrite (rbtree_find_add _ _ _ _ _ _ H6 Hs6). reflexivity.
  - rewrite Ht, Hh, get_set_table. destruct (decide (t = t)); [|congruence]. cbn [tree4].
    rewrite (rbtree_find_add _ _ _ _ _ _ H4 Hs4). reflexivity.
  - intros pair l4 x. destruct (get_session_table l4) as [t'|]; [|discriminate].
    rewrite Hh, get_set_table. destruct (decide (t = t')) as [<-|]; [|auto]. cbn [tree6].
    destruct (rbtree_find _ _ pair (tree6 _)) as [y|] eqn:E; [|discriminate].
    rewrite (rbtree_find_add_kept _ _ _ _ _ _ _ _ H6 E). auto.
  - intros pair l4 x. destruct (get_session_table l4) as [t'|]; [|discriminate].
    rewrite Hh, get_set_table. destruct (decide (t = t')) as [<-|]; [|auto]. cbn [tree4].
    destruct (rbtree_find _ _ pair (tree4 _)) as [y|] eqn:E; [|discriminate].
    rewrite (rbtree_find_add_kept _ _ _ _ _ _ _ _ H4 E). auto.
  - intros pair l4 x. destruct (get_session_table l4) as [t'|]; [|discriminate].
    rewrite Hh, get_set_table. destruct (decide (t = t')) as [<-|]; [|auto]. cbn [tree6].
    destruct (rbtree_find _ _ pair t6) as [y|] eqn:E; [|discriminate].
    intros [= <-]. destruct (rbtree_find_add_new _ _ _ _ _ _ _ _ H6 E) as [->|E'];
      [left; reflexivity|right; rewrite E'; reflexivity].
  - intros pair l4 x. destruct (get_session_table l4) as [t'|]; [|discriminate].
    rewrite Hh, get_set_table. destruct (decide (t = t')) as [<-|]; [|auto]. cbn [tree4].
    destruct (rbtree_find _ _ pair t4) as [y|] eqn:E; [|discriminate].
    intros [= <-]. destruct (rbtree_find_add_new _ _ _ _ _ _ _ _ H4 E) as [->|E'];
      [left; reflexivity|right; rewrite E'; reflexivity].
Qed.

(** A TCP session added to the empty database. *)
Lemma sessiondb_add_then_get_witness :
  sessiondb_get_by_ipv6 (ipv6 (session0 L4PROTO_TCP ESTABLISHED 0)) L4PROTO_TCP
    (snd (sessiondb_add 0%nat (store db0 0%nat (session0 L4PROTO_TCP ESTABLISHED 0))))
  = (0, Some 0%nat).
Proof.
  destruct (sessiondb_add_then_get 0%nat
              (store db0 0%nat (session0 L4PROTO_TCP ESTABLISHED 0)) eq_refl) as [H _].
  exact H.
Defined.

(** ** Session database: a lookup after a creation *)

Lemma fresh_unlinked (db : sessiondb) :
  allocated db ->
  ~ linked db (fresh (dom (db_heap db))).
Proof.
  intros H Hl. apply H in Hl. rewrite fresh_heap in Hl. destruct Hl. discriminate.
Qed.

Section GetOrCreateShape.

Variable pool6_get : in6_addr -> Z * ipv6_prefix.
Variable pool6_peek : Z * ipv6_prefix.

(** What a call that answers zero has done: found, or created. *)
Lemma get_or_create_ipv6_cases (k : kernel) (tuple : tuple) (parent : bib_entry)
    (db db' : sessiondb) (p : nat) :
  allocated db ->
  sessiondb_get_or_create_ipv6 pool6_get k tuple parent db = (0, Some p, db') ->
  exists t, get_session_table (t_l4_proto tuple) = Some t /\
  let pair6 := tuple_to_ipv6_pair tuple in
  (rbtree_find (db_heap db) compare_full6 pair6 (tree6 (get_table db t)) = Some p /\
   db' = db \/
   rbtree_find (db_heap db) compare_full6 pair6 (tree6 (get_table db t)) = None /\
   p = fresh (dom (db_heap db)) /\
   exists pair4 t6 t4,
     p4_local pair4 = bib_ipv4 parent /\
     rbtree_add (db_heap db) compare_full6 p pair6 (tree6 (get_table db t)) = Some t6 /\
     rbtree_add (db_heap db) compare_full4 p pair4 (tree4 (get_table db t)) = Some t4 /\
     db' = set_table
             (store db p (set_bib (session_create k pair4 pair6 (t_l4_proto tuple)) parent))
             t (mk_table t6 t4 (u64 (count (get_table db t) + 1)))).
Proof.
  intros Halloc. unfold sessiondb_get_or_create_ipv6.
  destruct (get_session_table (t_l4_proto tuple)) as [t|] eqn:Et; [|discriminate].
  intros H. exists t. split; [reflexivity|]. cbv zeta.
  set (pair6 := tuple_to_ipv6_pair tuple) in *. revert H.
  destruct (rbtree_find (db_heap db) compare_full6 pair6 (tree6 (get_table db t)))
    as [found|] eqn:Ef.
  { intros [= -> ->]. left. auto. }
  destruct (pool6_get (ipv6_of (t_addr (t_dst tuple)))) as [error prefix].
  destruct (error =? 0) eqn:Ee; cbn [negb];
    [|intros [= -> _ _]; discriminate].
  destruct (addr_6to4 (ipv6_of (t_addr (t_dst tuple))) prefix) as [ipv4_dst|];
    [|discriminate].
  destruct (kmalloc_ok k); cbn [negb]; [|discriminate].
  set (p0 := fresh (dom (db_heap db))).
  set (pair4 := mk_pair4 _ _).
  set (new := session_create k pair4 pair6 (t_l4_proto tuple)).
  pose proof (fresh_unlinked db Halloc) as Hfresh. fold p0 in Hfresh.
  assert (H6 : p0 ∉ rb_inorder (tree6 (get_table db t))).
  { intros H. apply Hfresh. exists t. left. exact H. }
  assert (H4 : p0 ∉ rb_inorder (tree4 (get_table db t))).
  { intros H. apply Hfresh. exists t. right. exact H. }
  cbn [db_heap store set_heap].
  rewrite (rbtree_add_heap_ext (db_heap db) _ compare_full6 p0 pair6 _
             (deref_insert_notin _ _ _ _ H6)).
  rewrite (rbtree_add_heap_ext (db_heap db) _ compare_full4 p0 pair4 _
             (deref_insert_notin _ _ _ _ H4)).
  destruct (rbtree_add (db_heap db) compare_full6 p0 pair6
              (tree6 (get_table db t))) as [t6|] eqn:E6.
  2:{ apply rbtree_add_collision in E6. congruence. }
  cbn [from_option id].
  destruct (rbtree_add (db_heap db) compare_full4 p0 pair4
              (tree4 (get_table db t))) as [t4|] eqn:E4;
    [|intros [= H _ _]; vm_compute in H; lia].
  intros [= <- <-]. right. repeat apply conj; try reflexivity.
  exists pair4, t6, t4. repeat apply conj; try reflexivity; try assumption.
  fold (store db p0 new). rewrite store_store.
  rewrite deref_insert. destruct (decide (p0 = p0)); [reflexivity|congruence].
Qed.

Lemma get_or_create_ipv4_cases (k : kernel) (tuple : tuple) (parent : bib_entry)
    (db db' : sessiondb) (p : nat) :
  allocated db ->
  sessiondb_get_or_create_ipv4 pool6_peek k tuple parent db = (0, Some p, db') ->
  exists t, get_session_table (t_l4_proto tuple) = Some t /\
  let pair4 := tuple_to_ipv4_pair tuple in
  (rbtree_find (db_heap db) compare_full4 pair4 (tree4 (get_table db t)) = Some p /\
   db' = db \/
   rbtree_find (db_heap db) compare_full4 pair4 (tree4 (get_table db t)) = None /\
   p = fresh (dom (db_heap db)) /\
   exists pair6 t6 t4,
     p6_remote pair6 = bib_ipv6 parent /\
     rbtree_add (db_heap db) compare_full6 p pair6 (tree6 (get_table db t)) = Some t6 /\
     rbtree_add (db_heap db) compare_full4 p pair4 (tree4 (get_table db t)) = Some t4 /\
     db' = set_table
             (store db p (set_bib (session_create k pair4 pair6 (t_l4_proto tuple)) parent))
             t (mk_table t6 t4 (u64 (count (get_table db t) + 1)))).
Proof.
  intros Halloc. unfold sessiondb_get_or_create_ipv4.
  destruct (get_session_table (t_l4_proto tuple)) as [t|] eqn:Et; [|discriminate].
  intros H. exists t. split; [reflexivity|]. cbv zeta.
  set (pair4 := tuple_to_ipv4_pair tuple) in *. revert H.
  destruct (rbtree_find (db_heap db) compare_full4 pair4 (tree4 (get_table db t)))
    as [found|] eqn:Ef.
  { intros [= -> ->]. left. auto. }
  destruct pool6_peek as [error prefix].
  destruct (error =? 0) eqn:Ee; cbn [negb];
    [|intros [= -> _ _]; discriminate].
  destruct (addr_4to6 (ipv4_of (t_addr (t_src tuple))) prefix) as [ipv6_src|];
    [|discriminate].
  destruct (kmalloc_ok k); cbn [negb]; [|discriminate].
  set (p0 := fresh (dom (db_heap db))).
  set (pair6 := mk_pair6 _ _).
  set (new := session_create k pair4 pair6 (t_l4_proto tuple)).
  pose proof (fresh_unlinked db Halloc) as Hfresh. fold p0 in Hfresh.
  assert (H6 : p0 ∉ rb_inorder (tree6 (get_table db t))).
  { intros H. apply Hfresh. exists t. left. exact H. }
  assert (H4 : p0 ∉ rb_inorder (tree4 (get_table db t))).
  { intros H. apply Hfresh. exists t. right. exact H. }
  cbn [db_heap store set_heap].
  rewrite (rbtree_add_heap_ext (db_heap db) _ compare_full6 p0 pair6 _
             (deref_insert_notin _ _ _ _ H6)).
  rewrite (rbtree_add_heap_ext (db_heap db) _ compare_full4 p0 pair4 _
             (deref_insert_notin _ _ _ _ H4)).
  destruct (rbtree_add (db_heap db) compare_full4 p0 pair4
              (tree4 (get_table db t))) as [t4|] eqn:E4.
  2:{ apply rbtree_add_collision in E4. congruence. }
  cbn [from_option id].
  destruct (rbtree_add (db_heap db) compare_full6 p0 pair6
              (tree6 (get_table db t))) as [t6|] eqn:E6;
    [|intros [= H _ _]; vm_compute in H; lia].
  intros [= <- <-]. right. repeat apply conj; try reflexivity.
  exists pair6, t6, t4. repeat apply conj; try reflexivity; try assumption.
  fold (store db p0 new). rewrite store_store.
  rewrite deref_insert. destruct (decide (p0 = p0)); [reflexivity|congruence].
Qed.


Lemma created_heap (db : sessiondb) (t : table_id) (p : nat)
    (e : session_entry) (x : session_table) :
  db_heap (set_table (store db p e) t x) = <[p := e]> (db_heap db).
Proof. reflexivity. Qed.

(** After [sessiondb_get_or_create_ipv6] has answered zero with a session,
    a lookup by the IPv6 pair of the tuple returns that session, a second
    call returns it again and changes nothing, and every lookup that found
    a session before finds the same one. *)
Theorem get_or_create_ipv6_then_get (k : kernel) (tuple : tuple) (parent : bib_entry)
    (db db' : sessiondb) (p : nat) :
  allocated db ->
  sessiondb_get_or_create_ipv6 pool6_get k tuple parent db = (0, Some p, db') ->
  sessiondb_get_by_ipv6 (tuple_to_ipv6_pair tuple) (t_l4_proto tuple) db' = (0, Some p) /\
  (forall k' parent',
     sessiondb_get_or_create_ipv6 pool6_get k' tuple parent' db' = (0, Some p, db')) /\
  (forall pair l4 x,
     sessiondb_get_by_ipv6 pair l4 db = (0, Some x) ->
     sessiondb_get_by_ipv6 pair l4 db' = (0, Some x)) /\
  (forall pair l4 x,
     sessiondb_get_by_ipv4 pair l4 db = (0, Some x) ->
     sessiondb_get_by_ipv4 pair l4 db' = (0, Some x)).
Proof.
  intros Halloc Hcall.
  destruct (get_or_create_ipv6_cases k tuple parent db db' p Halloc Hcall)
    as (t & Ht & Hcases). cbv zeta in Hcases.
  assert (Hfind : rbtree_find (db_heap db') compare_full6 (tuple_to_ipv6_pair tuple)
                    (tree6 (get_table db' t)) = Some p /\
          (forall pair l4 x,
             sessiondb_get_by_ipv6 pair l4 db = (0, Some x) ->
             sessiondb_get_by_ipv6 pair l4 db' = (0, Some x)) /\
          (forall pair l4 x,
             sessiondb_get_by_ipv4 pair l4 db = (0, Some x) ->
             sessiondb_get_by_ipv4 pair l4 db' = (0, Some x))).
  { destruct Hcases as [[Hf ->]|(Hf & Hp & pair4 & t6 & t4 & _ & H6 & H4 & ->)];
      [auto|].
    pose proof (fresh_unlinked db Halloc) as Hfresh. rewrite <- Hp in Hfresh.
    assert (N6 : forall t', p ∉ rb_inorder (tree6 (get_table db t'))).
    { intros t' H. apply Hfresh. exists t'. left. exact H. }
    assert (N4 : forall t', p ∉ rb_inorder (tree4 (get_table db t'))).
    { intros t' H. apply Hfresh. exists t'. right. exact H. }
    set (e := set_bib _ parent) in *.
    rewrite <- (rbtree_add_heap_ext (db_heap db) (<[p := e]> (db_heap db)) compare_full6
                  p _ _ (deref_insert_notin _ _ _ _ (N6 t))) in H6.
    rewrite <- (rbtree_add_heap_ext (db_heap db) (<[p := e]> (db_heap db)) compare_full4
                  p _ _ (deref_insert_notin _ _ _ _ (N4 t))) in H4.
    unfold sessiondb_get_by_ipv6, sessiondb_get_by_ipv4.
    rewrite created_heap.
    repeat apply conj.
    - rewrite get_set_table. destruct (decide (t = t)); [|congruence]. cbn [tree6].
      apply (rbtree_find_add _ _ _ _ _ _ H6).
      rewrite deref_insert. destruct (decide (p = p)); [|congruence].
      apply (compare_full6_refl e).
    - intros pair l4 x. destruct (get_session_table l4) as [t'|]; [|discriminate].
      rewrite get_set_table.
      rewrite <- (rbtree_find_heap_ext (db_heap db) (<[p := e]> (db_heap db)) compare_full6
                    pair _ (deref_insert_notin _ _ _ _ (N6 t'))).
      destruct (decide (t = t')) as [<-|]; [|auto]. cbn [tree6 get_table store set_heap].
      destruct (rbtree_find _ _ pair (tree6 _)) as [y|] eqn:E; [|discriminate].
      rewrite (rbtree_find_add_kept _ _ _ _ _ _ _ _ H6 E). auto.
    - intros pair l4 x. destruct (get_session_table l4) as [t'|]; [|discriminate].
      rewrite get_set_table.
      rewrite <- (rbtree_find_heap_ext (db_heap db) (<[p := e]> (db_heap db)) compare_full4
                    pair _ (deref_insert_notin _ _ _ _ (N4 t'))).
      destruct (decide (t = t')) as [<-|]; [|auto]. cbn [tree4 get_table store set_heap].
      destruct (rbtree_find _ _ pair (tree4 _)) as [y|] eqn:E; [|discriminate].
      rewrite (rbtree_find_add_kept _ _ _ _ _ _ _ _ H4 E). auto. }
  destruct Hfind as (Hfind & Hk6 & Hk4).
  repeat apply conj; try assumption.
  - unfold sessiondb_get_by_ipv6. rewrite Ht, Hfind. reflexivity.
  - intros k' parent'. unfold sessiondb_get_or_create_ipv6. rewrite Ht, Hfind. reflexivity.
Qed.

(** After [sessiondb_get_or_create_ipv4] has answered zero with a session,
    [sessiondb_get] on the tuple returns that session when the tuple is an
    IPv4 one, a second call returns it again and changes nothing, and
    every lookup that found a session before finds the same one. *)
Theorem get_or_create_ipv4_then_get (k : kernel) (tuple : tuple) (parent : bib_entry)
    (db db' : sessiondb) (p : nat) :
  allocated db ->
  sessiondb_get_or_create_ipv4 pool6_peek k tuple parent db = (0, Some p, db') ->
  sessiondb_get_by_ipv4 (tuple_to_ipv4_pair tuple) (t_l4_proto tuple) db' = (0, Some p) /\
  (t_l3_proto tuple = L3PROTO_IPV4 -> sessiondb_get tuple db' = (0, Some p)) /\
  (forall k' parent',
     sessiondb_get_or_create_ipv4 pool6_peek k' tuple parent' db' = (0, Some p, db')) /\
  (forall pair l4 x,
     sessiondb_get_by_ipv6 pair l4 db = (0, Some x) ->
     sessiondb_get_by_ipv6 pair l4 db' = (0, Some x)) /\
  (forall pair l4 x,
     sessiondb_get_by_ipv4 pair l4 db = (0, Some x) ->
     sessiondb_get_by_ipv4 pair l4 db' = (0, Some x)).
Proof.
  intros Halloc Hcall.
  destruct (get_or_create_ipv4_cases k tuple parent db db' p Halloc Hcall)
    as (t & Ht & Hcases). cbv zeta in Hcases.
  assert (Hfind : rbtree_find (db_heap db') compare_full4 (tuple_to_ipv4_pair tuple)
                    (tree4 (get_table db' t)) = Some p /\
          (forall pair l4 x,
             sessiondb_get_by_ipv6 pair l4 db = (0, Some x) ->
             sessiondb_get_by_ipv6 pair l4 db' = (0, Some x)) /\
          (forall pair l4 x,
             sessiondb_get_by_ipv4 pair l4 db = (0, Some x) ->
             sessiondb_get_by_ipv4 pair l4 db' = (0, Some x))).
  { destruct Hcases as [[Hf ->]|(Hf & Hp & pair6 & t6 & t4 & _ & H6 & H4 & ->)];
      [auto|].
    pose proof (fresh_unlinked db Halloc) as Hfresh. rewrite <- Hp in Hfresh.
    assert (N6 : forall t', p ∉ rb_inorder (tree6 (get_table db t'))).
    { intros t' H. apply Hfresh. exists t'. left. exact H. }
    assert (N4 : forall t', p ∉ rb_inorder (tree4 (get_table db t'))).
    { intros t' H. apply Hfresh. exists t'. right. exact H. }
    set (e := set_bib _ parent) in *.
    rewrite <- (rbtree_add_heap_ext (db_heap db) (<[p := e]> (db_heap db)) compare_full6
                  p _ _ (deref_insert_notin _ _ _ _ (N6 t))) in H6.
    rewrite <- (rbtree_add_heap_ext (db_heap db) (<[p := e]> (db_heap db)) compare_full4
                  p _ _ (deref_insert_notin _ _ _ _ (N4 t))) in H4.
    unfold sessiondb_get_by_ipv6, sessiondb_get_by_ipv4.
    rewrite created_heap.
    repeat apply conj.
    - rewrite get_set_table. destruct (decide (t = t)); [|congruence]. cbn [tree4].
      apply (rbtree_find_add _ _ _ _ _ _ H4).
      rewrite deref_insert. destruct (decide (p = p)); [|congruence].
      apply (compare_full4_refl e).
    - intros pair l4 x. destruct (get_session_table l4) as [t'|]; [|discriminate].
      rewrite get_set_table.
      rewrite <- (rbtree_find_heap_ext (db_heap db) (<[p := e]> (db_heap db)) compare_full6
                    pair _ (deref_insert_notin _ _ _ _ (N6 t'))).
      destruct (decide (t = t')) as [<-|]; [|auto]. cbn [tree6 get_table store set_heap].
      destruct (rbtree_find _ _ pair (tree6 _)) as [y|] eqn:E; [|discriminate].
      rewrite (rbtree_find_add_kept _ _ _ _ _ _ _ _ H6 E). auto.
    - intros pair l4 x. destruct (get_session_table l4) as [t'|]; [|discriminate].
      rewrite get_set_table.
      rewrite <- (rbtree_find_heap_ext (db_heap db) (<[p := e]> (db_heap db)) compare_full4
                    pair _ (deref_insert_notin _ _ _ _ (N4 t'))).
      destruct (decide (t = t')) as [<-|]; [|auto]. cbn [tree4 get_table store set_heap].
      destruct (rbtree_find _ _ pair (tree4 _)) as [y|] eqn:E; [|discriminate].
      rewrite (rbtree_find_add_kept _ _ _ _ _ _ _ _ H4 E). auto. }
  destruct Hfind as (Hfind & Hk6 & Hk4).
  repeat apply conj; try assumption.
  - unfold sessiondb_get_by_ipv4. rewrite Ht, Hfind. reflexivity.
  - intros H3. unfold sessiondb_get, sessiondb_get_by_ipv4. rewrite H3, Ht, Hfind.
    reflexivity.
  - intros k' parent'. unfold sessiondb_get_or_create_ipv4. rewrite Ht, Hfind. reflexivity.
Qed.

End GetOrCreateShape.

Lemma allocated_db0 : allocated db0.
Proof. intros x [t H]. destruct t; destruct H as [H|H]; inversion H. Qed.

(** The first packet of 2001:db8::1 for the binding, in an empty database. *)
Lemma get_or_create_ipv6_then_get_witness :
  exists p db',
    sessiondb_get_or_create_ipv6 (fun _ => (0, prefix0)) kernel0 (tuple6 L4PROTO_TCP)
      (bib0 L4PROTO_TCP) db0 = (0, Some p, db') /\
    sessiondb_get_by_ipv6 (tuple_to_ipv6_pair (tuple6 L4PROTO_TCP)) L4PROTO_TCP db'
      = (0, Some p).
Proof.
  eexists _, _. split; [vm_compute; reflexivity|].
  refine (proj1 (get_or_create_ipv6_then_get (fun _ => (0, prefix0)) kernel0
                   (tuple6 L4PROTO_TCP) (bib0 L4PROTO_TCP) db0 _ _ allocated_db0 _)).
  vm_compute. reflexivity.
Defined.

(** The first packet of 192.0.2.1 for the binding, in an empty database. *)
Lemma get_or_create_ipv4_then_get_witness :
  exists p db',
    sessiondb_get_or_create_ipv4 (0, prefix0) kernel0 (tuple4 L4PROTO_TCP)
      (bib0 L4PROTO_TCP) db0 = (0, Some p, db') /\
    sessiondb_get_by_ipv4 (tuple_to_ipv4_pair (tuple4 L4PROTO_TCP)) L4PROTO_TCP db'
      = (0, Some p).
Proof.
  eexists _, _. split; [vm_compute; reflexivity|].
  refine (proj1 (get_or_create_ipv4_then_get (0, prefix0) kernel0
                   (tuple4 L4PROTO_TCP) (bib0 L4PROTO_TCP) db0 _ _ allocated_db0 _)).
  vm_compute. reflexivity.
Defined.

(** ** Session database: what a walk removes *)

Lemma without_nil (l : list nat) : without [] l = l.
Proof. apply filter_all. intros x _ H. inversion H. Qed.

Lemma without_cons (n : nat) (removed l : list nat) :
  without removed (filter (fun x => x <> n) l) = without (n :: removed) l.
Proof.
  unfold without. rewrite list_filter_filter. apply list_filter_iff.
  intros x. rewrite not_elem_of_cons. tauto.
Qed.

Lemma without_app (a b l : list nat) : without b (without a l) = without (a ++ b) l.
Proof.
  unfold without. rewrite list_filter_filter. apply list_filter_iff.
  intros x. rewrite not_elem_of_app. tauto.
Qed.

Lemma without_all (removed l : list nat) :
  (forall x, x ∈ l -> x ∈ removed) -> without removed l = [].
Proof.
  intros H. induction l as [|a l IH]; [reflexivity|].
  unfold without. rewrite filter_cons. case_decide as E.
  - destruct E. apply H. left.
  - apply IH. intros x Hx. apply H. right. exact Hx.
Qed.

Lemma elem_of_without (removed l : list nat) (x : nat) :
  x ∈ without removed l <-> ~ x ∈ removed /\ x ∈ l.
Proof. unfold without. rewrite list_elem_of_filter. tauto. Qed.

Lemma length_without (removed l : list nat) :
  NoDup l -> NoDup removed -> (forall x, x ∈ removed -> x ∈ l) ->
  (length (without removed l) + length removed = length l)%nat.
Proof.
  revert l. induction removed as [|n removed IH]; intros l Hl Hr Hin.
  - rewrite without_nil. simpl. lia.
  - apply NoDup_cons in Hr. destruct Hr as [Hn Hr].
    rewrite <- without_cons. cbn [length].
    assert (Hnl : n ∈ l) by (apply Hin; left).
    pose proof (length_filter_ne n l Hl Hnl) as E.
    assert (I : (length (without removed (filter (fun x => x <> n) l)) + length removed
                 = length (filter (fun x => x <> n) l))%nat).
    { apply IH.
      - apply NoDup_filter. exact Hl.
      - exact Hr.
      - intros x Hx. apply list_elem_of_filter. split; [intros ->; contradiction|].
        apply Hin. right. exact Hx. }
    lia.
Qed.


Local Opaque table_ok.

Lemma remove_while_exact (keep_going : session_entry -> bool) (t : table_id) :
  forall (nodes : list nat) (s : Z) (db : sessiondb),
  table_ok (get_table db t) -> NoDup nodes ->
  (forall x, x ∈ nodes -> x ∈ rb_inorder (tree4 (get_table db t))) ->
  0 <= s -> s + Z.of_nat (length nodes) < 2 ^ 31 ->
  let r := remove_while keep_going nodes t s db in
  exists removed,
    walked keep_going t nodes removed db (snd r) /\
    fst r = s + Z.of_nat (length removed) /\
    table_ok (get_table (snd r) t).
Proof.
  induction nodes as [|n nodes IH]; intros s db Hok Hnd Hin Hs0 Hs r; subst r.
  - exists []. simpl. split; [|split; [lia|exact Hok]].
    constructor; try reflexivity; try (intros; rewrite without_nil; reflexivity);
      try (rewrite without_nil; reflexivity).
    + exists []. auto.
    + intros x Hx. inversion Hx.
  - cbn [remove_while]. cbn [length] in Hs.
    destruct (keep_going (deref (db_heap db) n)) eqn:Ek.
    2:{ exists []. cbn [fst snd length]. split; [|split; [lia|exact Hok]].
        constructor; try reflexivity; try (intros; rewrite without_nil; reflexivity);
          try (rewrite without_nil; reflexivity).
        + exists (n :: nodes). auto.
        + intros x Hx. inversion Hx. }
    apply NoDup_cons in Hnd. destruct Hnd as [Hn Hnd].
    assert (Hn4 : n ∈ rb_inorder (tree4 (get_table db t))) by (apply Hin; left).
    destruct (table_ok_remove _ n Hok Hn4) as (Hok' & Hs4 & Hs6 & Hel).
    destruct (table_ok_inv _ Hok) as (N6 & N4 & _ & _).
    rewrite remove_eta. cbn beta iota.
    set (db1 := snd (remove n t db)).
    assert (T1 : forall t', get_table db1 t' = _) by (intros t'; apply remove_table).
    assert (H1 : db_heap db1 = db_heap db) by reflexivity.
    assert (Tt : get_table db1 t = _) by (rewrite T1; case_decide; [reflexivity|congruence]).
    rewrite (s32_small (s + 1)) by lia.
    destruct (IH (s + 1) db1) as (removed & W & Hfst & Hok2).
    { rewrite Tt. exact Hok'. }
    { exact Hnd. }
    { intros x Hx. rewrite Tt. apply Hel. split; [intros ->; contradiction|].
      apply Hin. right. exact Hx. }
    { lia. }
    { lia. }
    exists (n :: removed). split; [|split; [cbn [length]; lia|exact Hok2]].
    destruct W as [(rest & Hrest & Hstop) Wt Wh Wo W4 W6 Wc Ws Wm Wf Wn].
    rewrite H1 in *.
    constructor.
    + exists rest. split; [rewrite Hrest; reflexivity|exact Hstop].
    + intros x Hx. apply elem_of_cons in Hx. destruct Hx as [->|Hx]; [exact Ek|auto].
    + exact Wh.
    + intros t' Hne. rewrite Wo by exact Hne. rewrite T1.
      case_decide; [congruence|reflexivity].
    + rewrite W4, Tt. cbn [tree4]. rewrite rb_erase_inorder by exact N4.
      apply without_cons.
    + rewrite W6, Tt. cbn [tree6]. rewrite rb_erase_inorder by exact N6.
      apply without_cons.
    + rewrite Wc, Tt. reflexivity.
    + intros e. rewrite Ws. unfold db1, remove. cbn [snd].
      rewrite get_expirer_list_del. cbn [sessions].
      change (get_expirer (set_table db t _) e) with (get_expirer db e).
      apply without_cons.
    + intros e. rewrite Wm. unfold db1, remove. cbn [snd].
      rewrite get_expirer_list_del. reflexivity.
    + rewrite Wf. reflexivity.
    + rewrite Wn. reflexivity.
Qed.



Lemma remove_around_exact (keep_going : session_entry -> bool) (t : table_id)
    (before after : list nat) (root_session : nat) (db : sessiondb) :
  table_ok (get_table db t) ->
  NoDup (before ++ root_session :: after) ->
  (forall x, x ∈ before ++ root_session :: after ->
     x ∈ rb_inorder (tree4 (get_table db t))) ->
  let r := remove_around keep_going (before, after) root_session t db in
  exists rb ra,
    run_of keep_going (db_heap db) before rb /\
    run_of keep_going (db_heap db) after ra /\
    removed_from t (rb ++ ra ++ [root_session]) db (snd r) /\
    fst r = Z.of_nat (length (rb ++ ra ++ [root_session])) /\
    table_ok (get_table (snd r) t).
Proof.
  intros Hok Hnd Hin r. subst r.
  apply NoDup_app in Hnd. destruct Hnd as (Nb & Hdis & Nra).
  apply NoDup_cons in Nra. destruct Nra as [Hra Na].
  assert (Hrb : root_session ∉ before).
  { intros H. apply (Hdis _ H). left. }
  unfold remove_around. cbn [fst snd].
  assert (Hlen : Z.of_nat (length (before ++ root_session :: after)) < 2 ^ 31).
  { destruct (table_ok_inv _ Hok) as (_ & _ & _ & Hsz). unfold rb_size in Hsz.
    assert (length (before ++ root_session :: after)
            <= length (rb_inorder (tree4 (get_table db t))))%nat; [|lia].
    apply NoDup_length_le; [|exact Hin].
    apply NoDup_app. repeat apply conj; [exact Nb|exact Hdis|].
    apply NoDup_cons. split; assumption. }
  rewrite length_app in Hlen. cbn [length] in Hlen.
  pose proof (remove_while_exact keep_going t before 0 db Hok Nb) as W1.
  destruct (remove_while keep_going before t 0 db) as [s1 db1].
  cbn [fst snd] in W1.
  destruct W1 as (rb & [(rest1 & Hrest1 & Hstop1) At Ah Ao A4 A6 Ac As Am Af An] & Hs1 & Hok1);
    [|lia|lia|].
  { intros x Hx. apply Hin. apply elem_of_app. left. exact Hx. }
  assert (Lb : (length rb <= length before)%nat).
  { rewrite Hrest1, length_app. lia. }
  pose proof (remove_while_exact keep_going t after s1 db1 Hok1 Na) as W2.
  destruct (remove_while keep_going after t s1 db1) as [s2 db2].
  cbn [fst snd] in W2.
  destruct W2 as (ra & [(rest2 & Hrest2 & Hstop2) Bt Bh Bo B4 B6 Bc Bs Bm Bf Bn] & Hs2 & Hok2);
    [|lia|lia|].
  { intros x Hx. rewrite A4. apply elem_of_without. split.
    - intros Hb. apply (Hdis x); [|right; exact Hx].
      rewrite Hrest1. apply elem_of_app. left. exact Hb.
    - apply Hin. apply elem_of_app. right. right. exact Hx. }
  assert (La : (length ra <= length after)%nat).
  { rewrite Hrest2, length_app. lia. }
  rewrite Ah in *.
  assert (Hr2 : root_session ∈ rb_inorder (tree4 (get_table db2 t))).
  { rewrite B4, A4, without_app. apply elem_of_without. split.
    - rewrite elem_of_app. intros [H|H].
      + apply Hrb. rewrite Hrest1. apply elem_of_app. left. exact H.
      + apply Hra. rewrite Hrest2. apply elem_of_app. left. exact H.
    - apply Hin. apply elem_of_app. right. left. }
  destruct (table_ok_remove _ root_session Hok2 Hr2) as (Hok' & _ & _ & _).
  destruct (table_ok_inv _ Hok2) as (N6 & N4 & _ & _).
  rewrite remove_eta. cbn beta iota.
  set (db3 := snd (remove root_session t db2)).
  assert (T3 : forall t', get_table db3 t' = _) by (intros t'; apply remove_table).
  assert (Tt : get_table db3 t = _) by (rewrite T3; case_decide; [reflexivity|congruence]).
  cbn [fst snd]. rewrite (s32_small (s2 + 1)) by lia.
  assert (Hs : s2 + 1 = Z.of_nat (length (rb ++ ra ++ [root_session]))).
  { rewrite !length_app. cbn [length]. lia. }
  exists rb, ra. repeat apply conj.
  - exists rest1. auto.
  - exact At.
  - exists rest2. auto.
  - exact Bt.
  - constructor.
    + unfold set_count. rewrite heap_set_table. change (db_heap db3) with (db_heap db2).
      rewrite Bh. reflexivity.
    + intros t' Hne. rewrite get_table_set_count.
      destruct (decide (t = t')); [congruence|].
      rewrite T3. destruct (decide (t = t')); [congruence|].
      rewrite Bo, Ao by exact Hne. reflexivity.
    + rewrite get_table_set_count. destruct (decide (t = t)); [|congruence].
      cbn [tree4]. rewrite Tt. cbn [tree4]. rewrite rb_erase_inorder by exact N4.
      rewrite B4, A4, without_app.
      rewrite <- (without_nil (filter _ _)), without_cons, without_app, <- app_assoc.
      reflexivity.
    + rewrite get_table_set_count. destruct (decide (t = t)); [|congruence].
      cbn [tree6]. rewrite Tt. cbn [tree6]. rewrite rb_erase_inorder by exact N6.
      rewrite B6, A6, without_app.
      rewrite <- (without_nil (filter _ _)), without_cons, without_app, <- app_assoc.
      reflexivity.
    + rewrite get_table_set_count. destruct (decide (t = t)); [|congruence].
      cbn [count]. rewrite Tt. cbn [count]. rewrite Bc, Ac, Hs. reflexivity.
    + intros e. unfold set_count, db3, remove. cbn [snd].
      change (get_expirer (set_table ?d _ _) e) with (get_expirer d e).
      rewrite get_expirer_list_del. cbn [sessions].
      change (get_expirer (set_table ?d _ _) e) with (get_expirer d e).
      rewrite Bs, As, without_app.
      rewrite <- (without_nil (filter _ _)), without_cons, without_app, <- app_assoc.
      reflexivity.
    + intros e. unfold set_count, db3, remove. cbn [snd].
      change (get_expirer (set_table ?d _ _) e) with (get_expirer d e).
      rewrite get_expirer_list_del. cbn [timer].
      change (get_expirer (set_table ?d _ _) e) with (get_expirer d e).
      rewrite Bm, Am. reflexivity.
    + change (config db2 = config db). rewrite Bf, Af. reflexivity.
    + change (sent db2 = sent db). rewrite Bn, An. reflexivity.
  - exact Hs.
  - rewrite get_table_set_count. destruct (decide (t = t)); [|congruence].
    apply table_ok_count. rewrite Tt in *. exact Hok'.
Qed.

Local Transparent table_ok.

(** ** Session database: the order of the indexes *)

(** The order of the comparison callbacks *)

Lemma lex_opp (a : list Z) : forall b, lex b a = - lex a b.
Proof.
  induction a as [|x a IH]; intros [|y b]; simpl; try reflexivity.
  rewrite IH. destruct (Z.eqb_spec (x - y) 0), (Z.eqb_spec (y - x) 0); lia.
Qed.

Lemma lex_refl (a : list Z) : lex a a = 0.
Proof. induction a as [|x a IH]; simpl; [reflexivity|]. rewrite Z.sub_diag. exact IH. Qed.

Lemma lex_app (a : list Z) : forall b a' b',
  length a = length b ->
  lex (a ++ a') (b ++ b') = if lex a b =? 0 then lex a' b' else lex a b.
Proof.
  induction a as [|x a IH]; intros [|y b] a' b' Hl; try discriminate; simpl.
  - reflexivity.
  - destruct (Z.eqb_spec (x - y) 0) as [E|E].
    + apply IH. simpl in Hl. lia.
    + destruct (Z.eqb_spec (x - y) 0); [contradiction|reflexivity].
Qed.

Lemma lex_lt_le_trans (a : list Z) : forall b c,
  length a = length b -> length b = length c ->
  lex a b < 0 -> lex b c <= 0 -> lex a c < 0.
Proof.
  induction a as [|x a IH]; intros [|y b] [|z c] H1 H2; try discriminate; simpl; try lia.
  simpl in H1, H2.
  destruct (Z.eqb_spec (x - y) 0), (Z.eqb_spec (y - z) 0), (Z.eqb_spec (x - z) 0);
    try lia.
  apply IH; lia.
Qed.

Lemma lex_le_lt_trans (a : list Z) : forall b c,
  length a = length b -> length b = length c ->
  lex a b <= 0 -> lex b c < 0 -> lex a c < 0.
Proof.
  induction a as [|x a IH]; intros [|y b] [|z c] H1 H2; try discriminate; simpl; try lia.
  simpl in H1, H2.
  destruct (Z.eqb_spec (x - y) 0), (Z.eqb_spec (y - z) 0), (Z.eqb_spec (x - z) 0);
    try lia.
  apply IH; lia.
Qed.

Lemma lex_take_le (n : nat) : forall a b,
  lex a b <= 0 -> lex (take n a) (take n b) <= 0.
Proof.
  induction n as [|n IH]; intros [|x a] [|y b]; simpl; try lia.
  destruct (Z.eqb_spec (x - y) 0); [apply IH|auto].
Qed.

Lemma length_bytes_of (n : nat) (a : list Z) : length (bytes_of n a) = n.
Proof. unfold bytes_of. rewrite length_map, length_seq. reflexivity. Qed.

Lemma bytes_of_S (n : nat) (a : list Z) :
  bytes_of (S n) a = nth 0 a 0 :: bytes_of n (tl a).
Proof.
  unfold bytes_of. cbn [List.seq map]. f_equal.
  rewrite <- seq_shift, map_map. apply map_ext. intros i. symmetry. apply nth_tl.
Qed.

Lemma memcmp_lex (n : nat) : forall a b, memcmp a b n = lex (bytes_of n a) (bytes_of n b).
Proof.
  induction n as [|n IH]; intros a b; [reflexivity|].
  rewrite !bytes_of_S. cbn [memcmp lex]. rewrite IH. reflexivity.
Qed.

Lemma lex_one (x y : Z) : lex [x] [y] = x - y.
Proof. simpl. destruct (Z.eqb_spec (x - y) 0); lia. Qed.

Lemma length_key4 (pair : ipv4_pair) : length (key4 pair) = 10%nat.
Proof. reflexivity. Qed.

Lemma length_key6 (pair : ipv6_pair) : length (key6 pair) = 34%nat.
Proof. reflexivity. Qed.

(** The callbacks of the IPv4 index, on rows of numbers *)

Lemma compare_local4_lex (s : session_entry) (addr : ipv4_tuple_address) :
  compare_local4 s addr = lex (key_local4 addr) (take 5 (key4 (ipv4 s))).
Proof.
  unfold compare_local4, ipv4_addr_cmp, key_local4.
  change (take 5 (key4 (ipv4 s)))
    with (bytes_of 4 (a4_address (p4_local (ipv4 s))) ++ [a4_l4_id (p4_local (ipv4 s))]).
  rewrite lex_app by reflexivity. rewrite memcmp_lex, lex_one.
  destruct (_ =? 0); reflexivity.
Qed.

Lemma compare_local_addr4_lex (s : session_entry) (addr : in_addr) :
  compare_local_addr4 s addr = lex (bytes_of 4 addr) (take 4 (key4 (ipv4 s))).
Proof. unfold compare_local_addr4, ipv4_addr_cmp. apply memcmp_lex. Qed.

Lemma compare_addrs4_lex (s : session_entry) (pair : ipv4_pair) :
  compare_addrs4 s pair = lex (take 9 (key4 pair)) (take 9 (key4 (ipv4 s))).
Proof.
  unfold compare_addrs4. rewrite compare_local4_lex. unfold ipv4_addr_cmp.
  change (take 9 (key4 pair))
    with (key_local4 (p4_local pair) ++ bytes_of 4 (a4_address (p4_remote pair))).
  change (take 9 (key4 (ipv4 s)))
    with (take 5 (key4 (ipv4 s)) ++ bytes_of 4 (a4_address (p4_remote (ipv4 s)))).
  rewrite lex_app by reflexivity. rewrite memcmp_lex.
  destruct (_ =? 0); reflexivity.
Qed.

Lemma compare_full4_lex (s : session_entry) (pair : ipv4_pair) :
  compare_full4 s pair = lex (key4 pair) (key4 (ipv4 s)).
Proof.
  unfold compare_full4. rewrite compare_addrs4_lex.
  change (key4 pair) with (take 9 (key4 pair) ++ [a4_l4_id (p4_remote pair)]) at 3.
  change (key4 (ipv4 s))
    with (take 9 (key4 (ipv4 s)) ++ [a4_l4_id (p4_remote (ipv4 s))]) at 3.
  rewrite lex_app by reflexivity. rewrite lex_one.
  destruct (_ =? 0); reflexivity.
Qed.

Lemma compare_full6_lex (s : session_entry) (pair : ipv6_pair) :
  compare_full6 s pair = lex (key6 pair) (key6 (ipv6 s)).
Proof.
  unfold compare_full6, ipv6_addr_cmp, key6.
  rewrite !lex_app by (rewrite ?length_bytes_of; reflexivity).
  rewrite !memcmp_lex, !lex_one.
  repeat destruct (_ =? 0); reflexivity.
Qed.

(** Searching an index in order *)

Lemma StronglySorted_app_iff {A : Type} (R : A -> A -> Prop) (l1 l2 : list A) :
  StronglySorted R (l1 ++ l2) <->
  StronglySorted R l1 /\ StronglySorted R l2 /\
  (forall a b, a ∈ l1 -> b ∈ l2 -> R a b).
Proof.
  induction l1 as [|x l1 IH]; simpl.
  - split.
    + intros H. repeat split; [constructor|exact H|]. intros a b Ha. inversion Ha.
    + intros (_ & H & _). exact H.
  - split.
    + intros H. apply StronglySorted_inv in H. destruct H as [H Hx].
      apply IH in H. destruct H as (H1 & H2 & H12).
      rewrite Forall_app in Hx. destruct Hx as [Hx1 Hx2].
      repeat split; [constructor; assumption|exact H2|].
      intros a b Ha Hb. apply elem_of_cons in Ha. destruct Ha as [->|Ha]; [|auto].
      rewrite List.Forall_forall in Hx2. apply Hx2. apply list_elem_of_In. exact Hb.
    + intros (H1 & H2 & H12). apply StronglySorted_inv in H1. destruct H1 as [H1 Hx].
      constructor.
      * apply IH. repeat split; [exact H1|exact H2|].
        intros a b Ha Hb. apply H12; [right; exact Ha|exact Hb].
      * rewrite Forall_app. split; [exact Hx|].
        rewrite List.Forall_forall. intros b Hb. apply H12; [left|].
        apply list_elem_of_In. exact Hb.
Qed.

Lemma StronglySorted_cons_iff {A : Type} (R : A -> A -> Prop) (x : A) (l : list A) :
  StronglySorted R (x :: l) <-> StronglySorted R l /\ forall b, b ∈ l -> R x b.
Proof.
  split.
  - intros H. apply StronglySorted_inv in H. destruct H as [H Hx]. split; [exact H|].
    intros b Hb. rewrite List.Forall_forall in Hx. apply Hx, list_elem_of_In, Hb.
  - intros [H Hx]. constructor; [exact H|]. rewrite List.Forall_forall.
    intros b Hb. apply Hx, list_elem_of_In, Hb.
Qed.

Lemma StronglySorted_filter {A : Type} (R : A -> A -> Prop) (P : A -> Prop)
    `{forall x, Decision (P x)} (l : list A) :
  StronglySorted R l -> StronglySorted R (filter P l).
Proof.
  induction l as [|x l IH]; intros Hs; [constructor|].
  apply StronglySorted_cons_iff in Hs. destruct Hs as [Hs Hx].
  rewrite filter_cons. case_decide.
  - apply StronglySorted_cons_iff. split; [auto|].
    intros b Hb. apply list_elem_of_filter in Hb. apply Hx, Hb.
  - auto.
Qed.

Lemma StronglySorted_impl {A : Type} (R R' : A -> A -> Prop) (l : list A) :
  (forall a b, a ∈ l -> b ∈ l -> R a b -> R' a b) ->
  StronglySorted R l -> StronglySorted R' l.
Proof.
  induction l as [|x l IH]; intros Himp Hs; [constructor|].
  apply StronglySorted_cons_iff in Hs. destruct Hs as [Hs Hx].
  apply StronglySorted_cons_iff. split.
  - apply IH; [|exact Hs]. intros a b Ha Hb. apply Himp; right; assumption.
  - intros b Hb. apply Himp; [left|right; exact Hb|auto].
Qed.

Section Search.

Context {K : Type}.
Variable heap : gmap nat session_entry.
Variable compare_cb : session_entry -> K -> Z.
Variable key : K.

(** A search that finds nothing has missed nothing. *)
Lemma rbtree_find_none (t : rb_node) :
  signs_fall heap compare_cb key (rb_inorder t) ->
  rbtree_find heap compare_cb key t = None ->
  forall x, x ∈ rb_inorder t -> compare_cb (deref heap x) key <> 0.
Proof.
  unfold signs_fall.
  induction t as [|l IHl y r IHr]; intros Hs Hf x Hx; [inversion Hx|].
  cbn [rb_inorder] in Hs, Hx. apply StronglySorted_app_iff in Hs.
  destruct Hs as (Hl & Hyr & Hlr).
  apply StronglySorted_cons_iff in Hyr. destruct Hyr as [Hr Hy].
  cbn [rbtree_find] in Hf.
  apply elem_of_app in Hx. rewrite elem_of_cons in Hx.
  destruct (compare_cb (deref heap y) key <? 0) eqn:E1.
  - apply Z.ltb_lt in E1. destruct Hx as [Hx|[->|Hx]].
    + apply IHl; assumption.
    + lia.
    + destruct (Hy x Hx) as [H _]. specialize (H E1). lia.
  - apply Z.ltb_ge in E1.
    destruct (0 <? compare_cb (deref heap y) key) eqn:E2; [|discriminate].
    apply Z.ltb_lt in E2. destruct Hx as [Hx|[->|Hx]].
    + destruct (Hlr x y Hx ltac:(left)) as [_ H]. specialize (H E2). lia.
    + lia.
    + apply IHr; assumption.
Qed.

Lemma rbtree_find_complete (t : rb_node) (x : nat) :
  signs_fall heap compare_cb key (rb_inorder t) ->
  x ∈ rb_inorder t -> compare_cb (deref heap x) key = 0 ->
  exists y, rbtree_find heap compare_cb key t = Some y.
Proof.
  intros Hs Hx Hz.
  destruct (rbtree_find heap compare_cb key t) as [y|] eqn:E; [eauto|].
  exfalso. exact (rbtree_find_none t Hs E x Hx Hz).
Qed.

(** Around an entry that compares as equal, those that do are next to one
    another. *)
Lemma signs_fall_before (before after rest run : list nat) (root : nat) :
  signs_fall heap compare_cb key (rev before ++ root :: after) ->
  compare_cb (deref heap root) key = 0 ->
  before = run ++ rest ->
  match rest with
  | [] => True
  | x :: _ => (compare_cb (deref heap x) key =? 0) = false
  end ->
  forall x, x ∈ rest -> compare_cb (deref heap x) key <> 0.
Proof.
  unfold signs_fall. intros Hs Hroot -> Hstop x Hx.
  destruct rest as [|z rest]; [inversion Hx|]. apply Z.eqb_neq in Hstop.
  rewrite rev_app_distr in Hs. cbn [rev] in Hs. rewrite <- !app_assoc in Hs.
  cbn [app] in Hs.
  apply StronglySorted_app_iff in Hs. destruct Hs as (_ & Hs & Hrest).
  apply StronglySorted_cons_iff in Hs. destruct Hs as [_ Hz].
  assert (Hzr : 0 < compare_cb (deref heap z) key).
  { destruct (Hz root) as [H _]; [apply elem_of_app; right; left|]. lia. }
  apply elem_of_cons in Hx. destruct Hx as [->|Hx]; [lia|].
  destruct (Hrest x z) as [_ H]; [|left|].
  - apply list_elem_of_In. apply -> in_rev. apply list_elem_of_In. exact Hx.
  - specialize (H Hzr). lia.
Qed.

Lemma signs_fall_after (before after rest run : list nat) (root : nat) :
  signs_fall heap compare_cb key (rev before ++ root :: after) ->
  compare_cb (deref heap root) key = 0 ->
  after = run ++ rest ->
  match rest with
  | [] => True
  | x :: _ => (compare_cb (deref heap x) key =? 0) = false
  end ->
  forall x, x ∈ rest -> compare_cb (deref heap x) key <> 0.
Proof.
  unfold signs_fall. intros Hs Hroot -> Hstop x Hx.
  destruct rest as [|z rest]; [inversion Hx|]. apply Z.eqb_neq in Hstop.
  apply StronglySorted_app_iff in Hs. destruct Hs as (_ & Hs & _).
  apply StronglySorted_cons_iff in Hs. destruct Hs as [Hs Hr].
  apply StronglySorted_app_iff in Hs. destruct Hs as (_ & Hs & _).
  apply StronglySorted_cons_iff in Hs. destruct Hs as [_ Hz].
  assert (Hzr : compare_cb (deref heap z) key < 0).
  { destruct (Hr z) as [_ H]; [apply elem_of_app; right; left|]. lia. }
  apply elem_of_cons in Hx. destruct Hx as [->|Hx]; [lia|].
  destruct (Hz x Hx) as [H _]. specialize (H Hzr). lia.
Qed.

End Search.

Lemma lex_signs (n : nat) (k a b : list Z) :
  length a = length b -> length k = length (take n a) ->
  lex a b < 0 ->
  (lex k (take n a) < 0 -> lex k (take n b) < 0) /\
  (0 < lex k (take n b) -> 0 < lex k (take n a)).
Proof.
  intros Hab Hk Hlt.
  assert (Hle : lex (take n a) (take n b) <= 0) by (apply lex_take_le; lia).
  assert (Hl : length (take n a) = length (take n b)).
  { rewrite !length_take. lia. }
  split; intros H.
  - apply (lex_lt_le_trans k (take n a) (take n b)); auto.
  - rewrite (lex_opp (take n b) k) in H.
    rewrite (lex_opp (take n a) k).
    assert (lex (take n a) k < 0); [|lia].
    apply (lex_le_lt_trans (take n a) (take n b) k); auto; lia.
Qed.

Section Sorted4.

Variable db : sessiondb.
Variable t : table_id.
Hypothesis Hsorted : sorted4 db t.

Lemma sorted4_lex :
  StronglySorted
    (fun a b => lex (key4 (ipv4 (deref (db_heap db) a)))
                  (key4 (ipv4 (deref (db_heap db) b))) < 0)
    (rb_inorder (tree4 (get_table db t))).
Proof using Hsorted.
  revert Hsorted. unfold sorted4. apply StronglySorted_impl.
  intros a b _ _. rewrite compare_full4_lex. auto.
Qed.

Lemma sorted4_signs_full (pair : ipv4_pair) :
  signs_fall (db_heap db) compare_full4 pair (rb_inorder (tree4 (get_table db t))).
Proof using Hsorted.
  generalize sorted4_lex. apply StronglySorted_impl.
  intros a b _ _ H. rewrite !compare_full4_lex.
  apply (lex_signs 10 (key4 pair) (key4 (ipv4 (deref (db_heap db) a)))
           (key4 (ipv4 (deref (db_heap db) b))) eq_refl eq_refl H).
Qed.

Lemma sorted4_signs_addrs (pair : ipv4_pair) :
  signs_fall (db_heap db) compare_addrs4 pair (rb_inorder (tree4 (get_table db t))).
Proof using Hsorted.
  generalize sorted4_lex. apply StronglySorted_impl.
  intros a b _ _ H. rewrite !compare_addrs4_lex.
  apply (lex_signs 9 (take 9 (key4 pair)) (key4 (ipv4 (deref (db_heap db) a)))
           (key4 (ipv4 (deref (db_heap db) b))) eq_refl eq_refl H).
Qed.

Lemma sorted4_signs_local (addr : ipv4_tuple_address) :
  signs_fall (db_heap db) compare_local4 addr (rb_inorder (tree4 (get_table db t))).
Proof using Hsorted.
  generalize sorted4_lex. apply StronglySorted_impl.
  intros a b _ _ H. rewrite !compare_local4_lex.
  apply (lex_signs 5 (key_local4 addr) (key4 (ipv4 (deref (db_heap db) a)))
           (key4 (ipv4 (deref (db_heap db) b))) eq_refl eq_refl H).
Qed.

Lemma sorted4_signs_local_addr (addr : in_addr) :
  signs_fall (db_heap db) compare_local_addr4 addr (rb_inorder (tree4 (get_table db t))).
Proof using Hsorted.
  generalize sorted4_lex. apply StronglySorted_impl.
  intros a b _ _ H. rewrite !compare_local_addr4_lex.
  apply (lex_signs 4 (bytes_of 4 addr) (key4 (ipv4 (deref (db_heap db) a)))
           (key4 (ipv4 (deref (db_heap db) b))) eq_refl eq_refl H).
Qed.

End Sorted4.

Lemma sorted6_signs_full (db : sessiondb) (t : table_id) (pair : ipv6_pair) :
  sorted6 db t ->
  signs_fall (db_heap db) compare_full6 pair (rb_inorder (tree6 (get_table db t))).
Proof.
  unfold sorted6. apply StronglySorted_impl.
  intros a b _ _ H. rewrite !compare_full6_lex in *.
  pose proof (lex_signs 34 (key6 pair) (key6 (ipv6 (deref (db_heap db) a)))
                (key6 (ipv6 (deref (db_heap db) b))) eq_refl eq_refl H) as L.
  rewrite !firstn_all2 in L by (rewrite length_key6; lia). exact L.
Qed.

(** ** Session database: what a lookup finds *)

Lemma StronglySorted_total {A : Type} (R : A -> A -> Prop) (l : list A) (x y : A) :
  StronglySorted R l -> x ∈ l -> y ∈ l -> x = y \/ R x y \/ R y x.
Proof.
  induction l as [|a l IH]; intros Hs Hx Hy; [inversion Hx|].
  apply StronglySorted_cons_iff in Hs. destruct Hs as [Hs Ha].
  apply elem_of_cons in Hx, Hy.
  destruct Hx as [->|Hx], Hy as [->|Hy]; auto.
Qed.

Lemma sorted4_unique (db : sessiondb) (t : table_id) (pair : ipv4_pair) (x y : nat) :
  sorted4 db t ->
  x ∈ rb_inorder (tree4 (get_table db t)) -> y ∈ rb_inorder (tree4 (get_table db t)) ->
  compare_full4 (deref (db_heap db) x) pair = 0 ->
  compare_full4 (deref (db_heap db) y) pair = 0 ->
  x = y.
Proof.
  intros Hs Hx Hy Zx Zy. rewrite compare_full4_lex in Zx, Zy.
  assert (Zx' := Zx). assert (Zy' := Zy).
  rewrite lex_opp in Zx', Zy'.
  destruct (StronglySorted_total _ _ x y (sorted4_lex db t Hs) Hx Hy) as [E|[H|H]];
    [exact E| |]; exfalso.
  - pose proof (lex_lt_le_trans (key4 (ipv4 (deref (db_heap db) x)))
                  (key4 (ipv4 (deref (db_heap db) y))) (key4 pair) eq_refl eq_refl H
                  ltac:(lia)). lia.
  - pose proof (lex_lt_le_trans (key4 (ipv4 (deref (db_heap db) y)))
                  (key4 (ipv4 (deref (db_heap db) x))) (key4 pair) eq_refl eq_refl H
                  ltac:(lia)). lia.
Qed.

Lemma sorted6_unique (db : sessiondb) (t : table_id) (pair : ipv6_pair) (x y : nat) :
  sorted6 db t ->
  x ∈ rb_inorder (tree6 (get_table db t)) -> y ∈ rb_inorder (tree6 (get_table db t)) ->
  compare_full6 (deref (db_heap db) x) pair = 0 ->
  compare_full6 (deref (db_heap db) y) pair = 0 ->
  x = y.
Proof.
  intros Hs Hx Hy Zx Zy. rewrite compare_full6_lex in Zx, Zy.
  assert (Zx' := Zx). assert (Zy' := Zy).
  rewrite lex_opp in Zx', Zy'.
  destruct (StronglySorted_total _ _ x y Hs Hx Hy) as [E|[H|H]];
    [exact E| |]; exfalso; rewrite compare_full6_lex in H.
  - pose proof (lex_lt_le_trans (key6 (ipv6 (deref (db_heap db) x)))
                  (key6 (ipv6 (deref (db_heap db) y))) (key6 pair) eq_refl eq_refl H
                  ltac:(lia)). lia.
  - pose proof (lex_lt_le_trans (key6 (ipv6 (deref (db_heap db) y)))
                  (key6 (ipv6 (deref (db_heap db) x))) (key6 pair) eq_refl eq_refl H
                  ltac:(lia)). lia.
Qed.

Section Found.

Context {K : Type}.
Variable heap : gmap nat session_entry.
Variable compare_cb : session_entry -> K -> Z.
Variable key : K.
Variable t : rb_node.
Hypothesis Hfall : signs_fall heap compare_cb key (rb_inorder t).
Hypothesis Hunique : forall x y, x ∈ rb_inorder t -> y ∈ rb_inorder t ->
  compare_cb (deref heap x) key = 0 -> compare_cb (deref heap y) key = 0 -> x = y.

Lemma rbtree_find_Some (x : nat) :
  rbtree_find heap compare_cb key t = Some x <->
  x ∈ rb_inorder t /\ compare_cb (deref heap x) key = 0.
Proof using Hfall Hunique.
  split.
  - intros H. split; [eapply rbtree_find_in|eapply rbtree_find_zero]; exact H.
  - intros [Hx Hz]. destruct (rbtree_find_complete heap compare_cb key t x Hfall Hx Hz)
      as [y Hy].
    rewrite Hy. f_equal. apply Hunique; auto.
    + eapply rbtree_find_in. exact Hy.
    + eapply rbtree_find_zero. exact Hy.
Qed.

Lemma rbtree_find_None :
  rbtree_find heap compare_cb key t = None <->
  forall x, x ∈ rb_inorder t -> compare_cb (deref heap x) key <> 0.
Proof using Hfall.
  split; [apply rbtree_find_none; exact Hfall|].
  intros H. destruct (rbtree_find heap compare_cb key t) as [y|] eqn:E; [|reflexivity].
  exfalso. apply (H y); [eapply rbtree_find_in|eapply rbtree_find_zero]; exact E.
Qed.

End Found.

(** In a table whose indexes are in order, a lookup by an IPv4 pair or by
    an IPv6 pair returns a session exactly when that session is the linked
    one that compares as equal to the pair, and answers minus [ENOENT]
    exactly when no linked session does. *)
Theorem sessiondb_get_finds (db : sessiondb) (l4 : l4_protocol) (t : table_id) :
  get_session_table l4 = Some t -> sorted4 db t -> sorted6 db t ->
  (forall pair x,
     sessiondb_get_by_ipv4 pair l4 db = (0, Some x) <->
     x ∈ rb_inorder (tree4 (get_table db t)) /\
     compare_full4 (deref (db_heap db) x) pair = 0) /\
  (forall pair,
     sessiondb_get_by_ipv4 pair l4 db = (- ENOENT, None) <->
     forall x, x ∈ rb_inorder (tree4 (get_table db t)) ->
       compare_full4 (deref (db_heap db) x) pair <> 0) /\
  (forall pair x,
     sessiondb_get_by_ipv6 pair l4 db = (0, Some x) <->
     x ∈ rb_inorder (tree6 (get_table db t)) /\
     compare_full6 (deref (db_heap db) x) pair = 0) /\
  (forall pair,
     sessiondb_get_by_ipv6 pair l4 db = (- ENOENT, None) <->
     forall x, x ∈ rb_inorder (tree6 (get_table db t)) ->
       compare_full6 (deref (db_heap db) x) pair <> 0).
Proof.
  intros Ht H4 H6. unfold sessiondb_get_by_ipv4, sessiondb_get_by_ipv6. rewrite Ht.
  repeat apply conj.
  - intros pair x.
    rewrite <- (rbtree_find_Some _ _ _ _ (sorted4_signs_full db t H4 pair)
                  (fun a b Ha Hb => sorted4_unique db t pair a b H4 Ha Hb)).
    destruct (rbtree_find _ _ pair _); split; congruence.
  - intros pair.
    rewrite <- (rbtree_find_None _ _ _ _ (sorted4_signs_full db t H4 pair)).
    destruct (rbtree_find _ _ pair _); split; congruence.
  - intros pair x.
    rewrite <- (rbtree_find_Some _ _ _ _ (sorted6_signs_full db t pair H6)
                  (fun a b Ha Hb => sorted6_unique db t pair a b H6 Ha Hb)).
    destruct (rbtree_find _ _ pair _); split; congruence.
  - intros pair.
    rewrite <- (rbtree_find_None _ _ _ _ (sorted6_signs_full db t pair H6)).
    destruct (rbtree_find _ _ pair _); split; congruence.
Qed.

(** [sessiondb_allow] answers true exactly when the table of the tuple's
    protocol links a session whose IPv4 local address and port are the
    destination of the tuple and whose IPv4 remote address is the source
    address of the tuple, whatever the source port.  For a tuple whose
    protocol has no table it answers true as well. *)
Theorem sessiondb_allow_iff (db : sessiondb) (tuple : tuple) :
  (get_session_table (t_l4_proto tuple) = None -> sessiondb_allow tuple db = true) /\
  forall t,
    get_session_table (t_l4_proto tuple) = Some t -> sorted4 db t ->
    (sessiondb_allow tuple db = true <->
     exists x, x ∈ rb_inorder (tree4 (get_table db t)) /\
       let s := ipv4 (deref (db_heap db) x) in
       same_bytes 4 (ipv4_of (t_addr (t_dst tuple))) (a4_address (p4_local s)) /\
       t_l4_id (t_dst tuple) = a4_l4_id (p4_local s) /\
       same_bytes 4 (ipv4_of (t_addr (t_src tuple))) (a4_address (p4_remote s))).
Proof.
  split; [unfold sessiondb_allow; intros ->; reflexivity|].
  intros t Ht H4. unfold sessiondb_allow. rewrite Ht.
  pose proof (sorted4_signs_addrs db t H4 (tuple_to_ipv4_pair tuple)) as Hfall.
  split.
  - destruct (rbtree_find _ _ _ _) as [x|] eqn:E; [|discriminate].
    intros _. exists x. split; [eapply rbtree_find_in; exact E|].
    apply rbtree_find_zero in E. apply compare_addrs4_zero in E.
    unfold tuple_to_ipv4_pair in E. cbn [p4_local p4_remote a4_address a4_l4_id] in E. exact E.
  - intros (x & Hx & Hz). cbv zeta in Hz.
    apply (compare_addrs4_zero (deref (db_heap db) x) (tuple_to_ipv4_pair tuple)) in Hz.
    destruct (rbtree_find_complete _ _ _ _ x Hfall Hx Hz) as [y ->]. reflexivity.
Qed.

(** ** Session database: [sessiondb_add], both indexes or neither *)

(** In an index in order, the search for a key finds something exactly
    when an entry of the index has that key. *)
Lemma rbtree_find_collides6 (db : sessiondb) (t : table_id) (pair : ipv6_pair) :
  sorted6 db t ->
  rbtree_find (db_heap db) compare_full6 pair (tree6 (get_table db t)) <> None <->
  exists x, x ∈ rb_inorder (tree6 (get_table db t)) /\
            same_pair6 pair (ipv6 (deref (db_heap db) x)).
Proof.
  intros Hs. pose proof (sorted6_signs_full db t pair Hs) as Hf. split.
  - destruct (rbtree_find _ _ pair _) as [y|] eqn:E; [intros _|congruence].
    exists y. split; [eapply rbtree_find_in; exact E|].
    apply compare_full6_zero. eapply rbtree_find_zero. exact E.
  - intros (x & Hx & Hp) Hn.
    apply (proj1 (rbtree_find_None _ _ _ _ Hf) Hn x Hx).
    apply compare_full6_zero. exact Hp.
Qed.

Lemma rbtree_find_collides4 (db : sessiondb) (t : table_id) (pair : ipv4_pair) :
  sorted4 db t ->
  rbtree_find (db_heap db) compare_full4 pair (tree4 (get_table db t)) <> None <->
  exists x, x ∈ rb_inorder (tree4 (get_table db t)) /\
            same_pair4 pair (ipv4 (deref (db_heap db) x)).
Proof.
  intros Hs. pose proof (sorted4_signs_full db t Hs pair) as Hf. split.
  - destruct (rbtree_find _ _ pair _) as [y|] eqn:E; [intros _|congruence].
    exists y. split; [eapply rbtree_find_in; exact E|].
    apply compare_full4_zero. eapply rbtree_find_zero. exact E.
  - intros (x & Hx & Hp) Hn.
    apply (proj1 (rbtree_find_None _ _ _ _ Hf) Hn x Hx).
    apply compare_full4_zero. exact Hp.
Qed.

(** C4: [sessiondb_add] links the session in both indexes of its table or
    in neither.  Where every entry of the IPv6 index is found by a search
    for its own key: the status is zero, minus [EEXIST] or minus [EINVAL];
    it is minus [EINVAL] exactly when the protocol of the session has no
    table, minus [EEXIST] exactly when the search of the IPv6 index or of
    the IPv4 index finds the key of the session, which in indexes that are
    in order is when some linked session has the IPv6 pair or the IPv4 pair
    of the session, and zero exactly when neither search finds it.  On
    every failure the database, both trees and the count included, is as it
    was, so an insertion in the IPv6 index that the IPv4 index refuses is
    undone; on success both indexes gain the session and the count grows
    by one. *)
Theorem sessiondb_add_atomic (db : sessiondb) (session : nat) :
  (forall t, indexed6 db t) ->
  let s := deref (db_heap db) session in
  let r := sessiondb_add session db in
  (fst r = 0 \/ fst r = - EEXIST \/ fst r = - EINVAL) /\
  (fst r <> 0 -> snd r = db) /\
  (fst r = - EINVAL <-> get_session_table (l4_proto s) = None) /\
  (forall t, get_session_table (l4_proto s) = Some t ->
     let table := get_table db t in
     (fst r = - EEXIST <->
      rbtree_find (db_heap db) compare_full6 (ipv6 s) (tree6 table) <> None \/
      rbtree_find (db_heap db) compare_full4 (ipv4 s) (tree4 table) <> None) /\
     (fst r = 0 <->
      rbtree_find (db_heap db) compare_full6 (ipv6 s) (tree6 table) = None /\
      rbtree_find (db_heap db) compare_full4 (ipv4 s) (tree4 table) = None) /\
     (sorted4 db t -> sorted6 db t ->
      (fst r = - EEXIST <->
       (exists x, x ∈ rb_inorder (tree6 table) /\
                  same_pair6 (ipv6 s) (ipv6 (deref (db_heap db) x))) \/
       (exists x, x ∈ rb_inorder (tree4 table) /\
                  same_pair4 (ipv4 s) (ipv4 (deref (db_heap db) x))))) /\
     (fst r = 0 ->
      rb_inorder (tree6 (get_table (snd r) t)) ≡ₚ session :: rb_inorder (tree6 table) /\
      rb_inorder (tree4 (get_table (snd r) t)) ≡ₚ session :: rb_inorder (tree4 table) /\
      count (get_table (snd r) t) = u64 (count table + 1) /\
      db_heap (snd r) = db_heap db /\
      forall t', t' <> t -> get_table (snd r) t' = get_table db t')).
Proof.
  intros Hidx s r.
  destruct (sessiondb_add_cases db session Hidx) as (H1 & H2 & H3 & H4).
  fold s in H3, H4. fold r in H1, H2, H3, H4.
  split; [exact H1|]. split; [exact H2|]. split.
  - split; [|exact H3].
    intros HE. destruct (get_session_table (l4_proto s)) as [t|] eqn:Et; [|reflexivity].
    exfalso. destruct (H4 t eq_refl) as [_ _].
    revert HE. subst r. unfold sessiondb_add. fold s. rewrite Et.
    destruct (rbtree_add _ compare_full6 _ _ _); [|vm_compute; lia].
    destruct (rbtree_add _ compare_full4 _ _ _); vm_compute; lia.
  - intros t Et. destruct (H4 t Et) as [HX HS]. cbn zeta in HX, HS.
    assert (HNI : fst r <> - EINVAL).
    { intros HE. revert HE. subst r. unfold sessiondb_add. fold s. rewrite Et.
      destruct (rbtree_add _ compare_full6 _ _ _); [|vm_compute; lia].
      destruct (rbtree_add _ compare_full4 _ _ _); vm_compute; lia. }
    assert (HZ : fst r = 0 <->
              rbtree_find (db_heap db) compare_full6 (ipv6 s) (tree6 (get_table db t)) = None /\
              rbtree_find (db_heap db) compare_full4 (ipv4 s) (tree4 (get_table db t)) = None).
    { split.
      - intros H0. split.
        + destruct (rbtree_find _ compare_full6 _ _) eqn:E; [|reflexivity].
          assert (fst r = - EEXIST) by (apply HX; left; congruence).
          exfalso. rewrite H0 in H. vm_compute in H. lia.
        + destruct (rbtree_find _ compare_full4 _ _) eqn:E; [|reflexivity].
          assert (fst r = - EEXIST) by (apply HX; right; congruence).
          exfalso. rewrite H0 in H. vm_compute in H. lia.
      - intros [N6 N4]. destruct H1 as [H0|[HE|HE]]; [exact H0| |contradiction].
        apply HX in HE. destruct HE as [HE|HE]; contradiction. }
    repeat apply conj; [apply HX|apply HX|apply HZ|apply HZ| |exact HS].
    intros S4 S6. rewrite HX.
    rewrite (rbtree_find_collides6 db t (ipv6 s) S6), (rbtree_find_collides4 db t (ipv4 s) S4).
    reflexivity.
Qed.

(** A session added to the empty database is linked in both indexes, and
    adding it again is refused and changes nothing. *)
Lemma sessiondb_add_atomic_witness :
  (fst (sessiondb_add 0%nat (store db0 0%nat (session0 L4PROTO_TCP ESTABLISHED 0))) = 0 /\
   rb_inorder (tree6 (get_table
     (snd (sessiondb_add 0%nat (store db0 0%nat (session0 L4PROTO_TCP ESTABLISHED 0))))
     TABLE_TCP)) ≡ₚ [0%nat]) /\
  snd (sessiondb_add 0%nat (db1 (session0 L4PROTO_TCP ESTABLISHED 0) EXPIRER_TCP_EST)) =
  db1 (session0 L4PROTO_TCP ESTABLISHED 0) EXPIRER_TCP_EST.
Proof.
  split.
  - assert (Hidx : forall t, indexed6 (store db0 0%nat (session0 L4PROTO_TCP ESTABLISHED 0)) t).
    { intros t x Hx. destruct t; inversion Hx. }
    pose proof (sessiondb_add_atomic (store db0 0%nat (session0 L4PROTO_TCP ESTABLISHED 0))
                  0%nat Hidx) as H.
    destruct H as (_ & _ & _ & H). destruct (H TABLE_TCP eq_refl) as (_ & HZ & _ & HS).
    assert (H0 : fst (sessiondb_add 0%nat
                        (store db0 0%nat (session0 L4PROTO_TCP ESTABLISHED 0))) = 0).
    { apply HZ. split; reflexivity. }
    split; [exact H0|]. apply (proj1 (HS H0)).
  - apply (sessiondb_add_atomic (db1 (session0 L4PROTO_TCP ESTABLISHED 0) EXPIRER_TCP_EST)
             0%nat).
    + intros t x Hx. destruct t; cbn in Hx; inversion Hx as [|? ? ? Hx']; subst;
        [|inversion Hx']. vm_compute. discriminate.
    + vm_compute. discriminate.
Defined.

(** ** Session database: what the bulk removals remove *)

Local Opaque table_ok.

Lemma without_ext (a b l : list nat) :
  (forall x, x ∈ l -> (x ∈ a <-> x ∈ b)) -> without a l = without b l.
Proof.
  intros H. induction l as [|y l IH]; [reflexivity|].
  unfold without. rewrite !filter_cons.
  assert (Hy : y ∈ a <-> y ∈ b) by (apply H; left).
  assert (E : without a l = without b l).
  { apply IH. intros x Hx. apply H. right. exact Hx. }
  unfold without in E. rewrite E.
  repeat case_decide; tauto.
Qed.

(** One pass over a table, seen from the whole database *)

Lemma removed_all_nil (db : sessiondb) :
  (forall t, table_ok (get_table db t)) -> removed_all (fun _ => []) db db.
Proof.
  intros Hok. constructor; try reflexivity; intros; rewrite ?without_nil; try reflexivity.
  cbn [length]. rewrite Z.sub_0_r. symmetry. apply table_ok_u64, Hok.
Qed.

Lemma removed_all_step (r : table_id -> list nat) (t : table_id) (removed : list nat)
    (db db1 db2 : sessiondb) :
  removed_all r db db1 -> r t = [] -> removed_from t removed db1 db2 ->
  removed_all (fun t' => if decide (t = t') then removed else r t') db db2.
Proof.
  intros [Ah A4 A6 Ac As Am Af An] Hr [Bh Bo B4 B6 Bc Bs Bm Bf Bn].
  constructor.
  - congruence.
  - intros t'. case_decide as E.
    + subst t'. rewrite B4, A4, Hr, without_nil. reflexivity.
    + rewrite Bo by congruence. apply A4.
  - intros t'. case_decide as E.
    + subst t'. rewrite B6, A6, Hr, without_nil. reflexivity.
    + rewrite Bo by congruence. apply A6.
  - intros t'. case_decide as E.
    + subst t'. rewrite Bc, Ac, Hr. cbn [length]. rewrite Z.sub_0_r.
      unfold u64. rewrite Zminus_mod_idemp_l. reflexivity.
    + rewrite Bo by congruence. apply Ac.
  - intros e. rewrite Bs, As, without_app. apply without_ext. intros x _.
    rewrite !elem_of_app.
    destruct t; repeat (case_decide; try congruence); rewrite ?Hr;
      rewrite ?elem_of_nil; tauto.
  - intros e. rewrite Bm. apply Am.
  - congruence.
  - congruence.
Qed.

(** The two walks and the root, around a node of an index *)

Lemma remove_around_tree (keep_going : session_entry -> bool) (t : table_id)
    (tree : rb_node) (root_session : nat) (db : sessiondb) :
  table_ok (get_table db t) ->
  NoDup (rb_inorder tree) ->
  (forall x, x ∈ rb_inorder tree -> x ∈ rb_inorder (tree4 (get_table db t))) ->
  root_session ∈ rb_inorder tree ->
  let walk := rb_around tree root_session in
  let r := remove_around keep_going walk root_session t db in
  exists rb ra,
    rev (fst walk) ++ root_session :: snd walk = rb_inorder tree /\
    run_of keep_going (db_heap db) (fst walk) rb /\
    run_of keep_going (db_heap db) (snd walk) ra /\
    removed_from t (rb ++ ra ++ [root_session]) db (snd r) /\
    table_ok (get_table (snd r) t) /\
    NoDup (rb ++ ra ++ [root_session]) /\
    (forall x, x ∈ rb ++ ra ++ [root_session] -> x ∈ rb_inorder tree).
Proof.
  intros Hok Hnd Hin Hroot walk r. subst walk r.
  pose proof (rb_around_spec tree root_session Hroot) as Hsp.
  destruct (rb_around tree root_session) as [b a]. cbn [fst snd] in *.
  assert (Hnd' : NoDup (b ++ root_session :: a)).
  { rewrite <- Hsp in Hnd. revert Hnd. apply NoDup_Permutation_proper.
    apply Permutation_app_tail. apply Permutation_rev. }
  assert (Hin' : forall x, x ∈ b ++ root_session :: a -> x ∈ rb_inorder tree).
  { intros x Hx. rewrite <- Hsp.
    apply elem_of_app. apply elem_of_app in Hx.
    destruct Hx as [Hx|Hx]; [left|right; exact Hx].
    apply list_elem_of_In. apply -> in_rev. apply list_elem_of_In. exact Hx. }
  destruct (remove_around_exact keep_going t b a root_session db Hok Hnd')
    as (rb & ra & Rb & Ra & Hrem & _ & Hok').
  { intros x Hx. apply Hin, Hin', Hx. }
  exists rb, ra.
  split; [exact Hsp|]. split; [exact Rb|]. split; [exact Ra|].
  split; [exact Hrem|]. split; [exact Hok'|]. split.
  - destruct Rb as [(rest1 & -> & _) _]. destruct Ra as [(rest2 & -> & _) _].
    revert Hnd'. rewrite <- !app_assoc.
    intros H. apply NoDup_app in H. destruct H as (N1 & D1 & H).
    apply NoDup_app in H. destruct H as (_ & _ & H).
    apply NoDup_cons in H. destruct H as [Hr H].
    apply NoDup_app in H. destruct H as (N2 & D2 & _).
    apply NoDup_app. repeat apply conj; [exact N1| |].
    + intros x Hx Hx'. apply (D1 x Hx). apply elem_of_app. right. right.
      apply elem_of_app in Hx'. destruct Hx' as [Hx'|Hx'].
      * apply elem_of_app. left. exact Hx'.
      * apply list_elem_of_singleton in Hx'. subst x. exfalso.
        apply (D1 root_session Hx). apply elem_of_app. right. left.
    + apply NoDup_app. repeat apply conj; [exact N2| |apply NoDup_singleton].
      intros x Hx Hx'. apply list_elem_of_singleton in Hx'. subst x.
      apply Hr. apply elem_of_app. left. exact Hx.
  - intros x Hx. apply Hin'.
    destruct Rb as [(rest1 & -> & _) _]. destruct Ra as [(rest2 & -> & _) _].
    rewrite !elem_of_app, elem_of_cons, !elem_of_app.
    rewrite !elem_of_app, list_elem_of_singleton in Hx. tauto.
Qed.

Lemma removed_from_nil (t : table_id) (db : sessiondb) :
  table_ok (get_table db t) -> removed_from t [] db db.
Proof.
  intros Hok. constructor; try reflexivity; intros; rewrite ?without_nil; try reflexivity.
  cbn [length]. rewrite Z.sub_0_r. symmetry. apply table_ok_u64, Hok.
Qed.

Section Matching.

Context {K : Type}.
Variable compare_cb : session_entry -> K -> Z.
Variable key : K.

Lemma pass_matching_exact (t : table_id) (db : sessiondb) :
  table_ok (get_table db t) ->
  exists removed,
    NoDup removed /\
    removed_from t removed db (pass_matching compare_cb key t db) /\
    table_ok (get_table (pass_matching compare_cb key t db) t) /\
    (forall x, x ∈ removed ->
       x ∈ rb_inorder (tree4 (get_table db t)) /\
       compare_cb (deref (db_heap db) x) key = 0) /\
    (signs_fall (db_heap db) compare_cb key (rb_inorder (tree4 (get_table db t))) ->
     forall x, x ∈ rb_inorder (tree4 (get_table db t)) ->
       compare_cb (deref (db_heap db) x) key = 0 -> x ∈ removed).
Proof.
  intros Hok. unfold pass_matching.
  destruct (rbtree_find (db_heap db) compare_cb key (tree4 (get_table db t)))
    as [root|] eqn:E.
  - destruct (table_ok_inv _ Hok) as (_ & N4 & _ & _).
    pose proof (rbtree_find_in _ _ _ _ _ E) as Hroot.
    pose proof (rbtree_find_zero _ _ _ _ _ E) as Hzero.
    destruct (remove_around_tree (fun session => compare_cb session key =? 0) t
                (tree4 (get_table db t)) root db Hok N4 (fun x H => H) Hroot)
      as (rb & ra & Hsp & Rb & Ra & Hrem & Hok' & Hnd & Hin).
    exists (rb ++ ra ++ [root]).
    split; [exact Hnd|]. split; [exact Hrem|]. split; [exact Hok'|]. split.
    + intros x Hx. split; [apply Hin, Hx|].
      rewrite !elem_of_app, list_elem_of_singleton in Hx.
      destruct Hx as [Hx|[Hx| ->]]; [| |exact Hzero].
      * apply Z.eqb_eq. apply (proj2 Rb x Hx).
      * apply Z.eqb_eq. apply (proj2 Ra x Hx).
    + intros Hfall x Hx Hz. rewrite <- Hsp in Hx, Hfall.
      rewrite !elem_of_app, list_elem_of_singleton.
      apply elem_of_app in Hx. rewrite elem_of_cons in Hx.
      destruct Rb as [(rest1 & Hb & Hstop1) _]. destruct Ra as [(rest2 & Ha & Hstop2) _].
      destruct Hx as [Hx|[->|Hx]]; [| auto |].
      * apply list_elem_of_In, in_rev, list_elem_of_In in Hx.
        rewrite Hb in Hx. apply elem_of_app in Hx. destruct Hx as [Hx|Hx]; [auto|].
        exfalso.
        exact (signs_fall_before _ _ _ _ _ rest1 rb root Hfall Hzero Hb Hstop1 x Hx Hz).
      * rewrite Ha in Hx. apply elem_of_app in Hx. destruct Hx as [Hx|Hx]; [auto|].
        exfalso.
        exact (signs_fall_after _ _ _ _ _ rest2 ra root Hfall Hzero Ha Hstop2 x Hx Hz).
  - exists []. split; [apply NoDup_nil_2|]. split; [apply removed_from_nil, Hok|].
    split; [exact Hok|]. split.
    + intros x Hx. inversion Hx.
    + intros Hfall x Hx Hz. exfalso.
      exact (rbtree_find_none _ _ _ _ Hfall E x Hx Hz).
Qed.

End Matching.

Lemma delete_by_bib_pass (bib : bib_entry) (db : sessiondb) (t : table_id) :
  get_session_table (bib_l4_proto bib) = Some t ->
  sessiondb_delete_by_bib bib db = (0, pass_matching compare_local4 (bib_ipv4 bib) t db).
Proof.
  intros Ht. unfold sessiondb_delete_by_bib, pass_matching. rewrite Ht.
  destruct (rbtree_find _ _ _ _); reflexivity.
Qed.

Lemma delete_sessions_by_ipv4_pass (t : table_id) (addr : in_addr) (db : sessiondb) :
  delete_sessions_by_ipv4 t addr db = (0, pass_matching compare_local_addr4 addr t db).
Proof.
  unfold delete_sessions_by_ipv4, pass_matching.
  destruct (rbtree_find _ _ _ _); reflexivity.
Qed.

(** [sessiondb_delete_by_bib] on a BIB entry whose protocol has a table [t]:
    it answers zero; the sessions it unlinks are sessions of [t] whose IPv4
    local address and port compare as equal to those of the entry, and all
    of them when the IPv4 index of [t] is in order; both indexes and the
    expiration lists lose these sessions and keep the others in place, the
    count drops by their number, and the other tables are not touched. *)
Theorem sessiondb_delete_by_bib_exact (bib : bib_entry) (db : sessiondb) (t : table_id) :
  (forall t, table_ok (get_table db t)) ->
  get_session_table (bib_l4_proto bib) = Some t ->
  let r := sessiondb_delete_by_bib bib db in
  fst r = 0 /\
  exists removed,
    removed_all removed db (snd r) /\
    (forall t', t' <> t -> removed t' = []) /\
    NoDup (removed t) /\
    (forall x, x ∈ removed t ->
       x ∈ rb_inorder (tree4 (get_table db t)) /\
       compare_local4 (deref (db_heap db) x) (bib_ipv4 bib) = 0) /\
    (sorted4 db t ->
     forall x, x ∈ rb_inorder (tree4 (get_table db t)) ->
       compare_local4 (deref (db_heap db) x) (bib_ipv4 bib) = 0 -> x ∈ removed t).
Proof.
  intros Hok Ht r. subst r. rewrite (delete_by_bib_pass bib db t Ht). cbn [fst snd].
  split; [reflexivity|].
  destruct (pass_matching_exact compare_local4 (bib_ipv4 bib) t db (Hok t))
    as (removed & Hnd & Hrem & _ & Hsound & Hcomplete).
  exists (fun t' => if decide (t = t') then removed else []).
  split; [|split; [|split; [|split]]].
  - apply (removed_all_step (fun _ => []) t removed db db);
      [apply removed_all_nil, Hok|reflexivity|exact Hrem].
  - intros t' Hne. case_decide; congruence.
  - case_decide; [exact Hnd|congruence].
  - case_decide; [exact Hsound|congruence].
  - intros Hs. case_decide; [|congruence].
    apply Hcomplete, sorted4_signs_local, Hs.
Qed.

Lemma sorted4_same (db db' : sessiondb) (t : table_id) :
  db_heap db' = db_heap db ->
  rb_inorder (tree4 (get_table db' t)) = rb_inorder (tree4 (get_table db t)) ->
  sorted4 db t -> sorted4 db' t.
Proof. unfold sorted4. intros -> ->. auto. Qed.

(** [sessiondb_delete_by_ipv4]: it answers zero; in each table the sessions
    it unlinks are sessions whose IPv4 local address compares as equal to
    the address, and all of them when the IPv4 index of the table is in
    order; the indexes and the expiration lists lose these sessions and
    keep the others in place, and each count drops by their number. *)
Theorem sessiondb_delete_by_ipv4_exact (addr4 : in_addr) (db : sessiondb) :
  (forall t, table_ok (get_table db t)) ->
  let r := sessiondb_delete_by_ipv4 addr4 db in
  fst r = 0 /\
  exists removed,
    removed_all removed db (snd r) /\
    forall t,
      NoDup (removed t) /\
      (forall x, x ∈ removed t ->
         x ∈ rb_inorder (tree4 (get_table db t)) /\
         compare_local_addr4 (deref (db_heap db) x) addr4 = 0) /\
      (sorted4 db t ->
       forall x, x ∈ rb_inorder (tree4 (get_table db t)) ->
         compare_local_addr4 (deref (db_heap db) x) addr4 = 0 -> x ∈ removed t).
Proof.
  intros Hok r. subst r. unfold sessiondb_delete_by_ipv4.
  rewrite !delete_sessions_by_ipv4_pass. cbn [fst snd].
  split; [reflexivity|].
  set (db1 := pass_matching compare_local_addr4 addr4 TABLE_TCP db).
  set (db2 := pass_matching compare_local_addr4 addr4 TABLE_ICMP db1).
  set (db3 := pass_matching compare_local_addr4 addr4 TABLE_UDP db2).
  destruct (pass_matching_exact compare_local_addr4 addr4 TABLE_TCP db (Hok _))
    as (r1 & N1 & R1 & K1 & S1 & C1). fold db1 in R1, K1.
  assert (O1 : forall t, table_ok (get_table db1 t)).
  { intros t. destruct (decide (t = TABLE_TCP)) as [->|Hne]; [exact K1|].
    rewrite (removed_other _ _ _ _ R1) by exact Hne. apply Hok. }
  destruct (pass_matching_exact compare_local_addr4 addr4 TABLE_ICMP db1 (O1 _))
    as (r2 & N2 & R2 & K2 & S2 & C2). fold db2 in R2, K2.
  assert (O2 : forall t, table_ok (get_table db2 t)).
  { intros t. destruct (decide (t = TABLE_ICMP)) as [->|Hne]; [exact K2|].
    rewrite (removed_other _ _ _ _ R2) by exact Hne. apply O1. }
  destruct (pass_matching_exact compare_local_addr4 addr4 TABLE_UDP db2 (O2 _))
    as (r3 & N3 & R3 & K3 & S3 & C3). fold db3 in R3, K3.
  pose proof (removed_other _ _ _ _ R1) as E1.
  pose proof (removed_other _ _ _ _ R2) as E2.
  pose proof (removed_heap _ _ _ _ R1) as H1.
  pose proof (removed_heap _ _ _ _ R2) as H2.
  rewrite H1 in *. rewrite H2 in *.
  rewrite (E1 TABLE_ICMP) in * by discriminate.
  rewrite (E2 TABLE_UDP), (E1 TABLE_UDP) in * by discriminate.
  pose proof (removed_all_step _ TABLE_TCP r1 db db db1 (removed_all_nil db Hok)
                eq_refl R1) as A1.
  pose proof (removed_all_step _ TABLE_ICMP r2 db db1 db2 A1 eq_refl R2) as A2.
  pose proof (removed_all_step _ TABLE_UDP r3 db db2 db3 A2 eq_refl R3) as A3.
  eexists. split; [exact A3|].
  intros t. destruct t; cbn beta; repeat (case_decide; try congruence).
  - split; [exact N3|]. split; [exact S3|].
    intros Hs. apply C3, sorted4_signs_local_addr, Hs.
  - split; [exact N1|]. split; [exact S1|].
    intros Hs. apply C1, sorted4_signs_local_addr, Hs.
  - split; [exact N2|]. split; [exact S2|].
    intros Hs. apply C2, sorted4_signs_local_addr, Hs.
Qed.

Lemma rb_inorder_nil (t : rb_node) : rb_inorder t = [] -> t = Leaf.
Proof.
  destruct t as [|l x r]; [reflexivity|]. simpl. intros H.
  apply app_eq_nil in H. destruct H as [_ H]. discriminate.
Qed.

Lemma run_of_all (heap : gmap nat session_entry) (nodes removed : list nat) :
  run_of (fun _ => true) heap nodes removed -> removed = nodes.
Proof.
  intros [(rest & -> & Hstop) _]. destruct rest as [|x rest]; [|discriminate].
  rewrite app_nil_r. reflexivity.
Qed.

Lemma flush_aux_exact (t : table_id) (db : sessiondb) :
  table_ok (get_table db t) ->
  fst (flush_aux t db) = 0 /\
  exists removed,
    removed_from t removed db (snd (flush_aux t db)) /\
    table_ok (get_table (snd (flush_aux t db)) t) /\
    NoDup removed /\
    (forall x, x ∈ removed <-> x ∈ rb_inorder (tree4 (get_table db t))).
Proof.
  intros Hok. unfold flush_aux.
  destruct (tree4 (get_table db t)) as [|l root r] eqn:E.
  - split; [reflexivity|]. exists [].
    split; [apply removed_from_nil, Hok|]. split; [exact Hok|].
    split; [apply NoDup_nil_2|]. intros x. reflexivity.
  - split; [reflexivity|]. rewrite <- E. cbn [snd].
    destruct (table_ok_inv _ Hok) as (_ & N4 & _ & _).
    assert (Hroot : root ∈ rb_inorder (tree4 (get_table db t))).
    { rewrite E. simpl. apply elem_of_app. right. left. }
    destruct (remove_around_tree (fun _ => true) t (tree4 (get_table db t)) root db
                Hok N4 (fun x H => H) Hroot)
      as (rb & ra & Hsp & Rb & Ra & Hrem & Hok' & Hnd & Hin).
    exists (rb ++ ra ++ [root]).
    split; [exact Hrem|]. split; [exact Hok'|]. split; [exact Hnd|].
    intros x. split; [apply Hin|].
    apply run_of_all in Rb, Ra. subst rb ra. rewrite <- Hsp.
    rewrite !elem_of_app, elem_of_cons, list_elem_of_singleton.
    intros [H|[H|H]]; auto. left.
    apply list_elem_of_In, in_rev, list_elem_of_In in H. exact H.
Qed.

(** [sessiondb_flush] answers zero and leaves every index of every table
    empty: it unlinks every session, takes each of them out of its
    expiration list and lowers each count by the number of sessions of its
    table, which leaves zero where the count was that number; a lookup
    then finds nothing. *)
Theorem sessiondb_flush_empties (db : sessiondb) :
  (forall t, table_ok (get_table db t)) ->
  let r := sessiondb_flush db in
  fst r = 0 /\
  (exists removed,
     removed_all removed db (snd r) /\
     forall t, NoDup (removed t) /\
       forall x, x ∈ removed t <-> x ∈ rb_inorder (tree4 (get_table db t))) /\
  (forall t, tree4 (get_table (snd r) t) = Leaf /\ tree6 (get_table (snd r) t) = Leaf) /\
  (forall t, count (get_table db t) = rb_size (tree4 (get_table db t)) ->
     count (get_table (snd r) t) = 0) /\
  (forall pair l4, snd (sessiondb_get_by_ipv4 pair l4 (snd r)) = None) /\
  (forall pair l4, snd (sessiondb_get_by_ipv6 pair l4 (snd r)) = None).
Proof.
  intros Hok r. subst r. unfold sessiondb_flush. cbn [fst snd].
  set (db1 := snd (flush_aux TABLE_UDP db)).
  set (db2 := snd (flush_aux TABLE_TCP db1)).
  set (db3 := snd (flush_aux TABLE_ICMP db2)).
  destruct (flush_aux_exact TABLE_UDP db (Hok _)) as (_ & r1 & R1 & K1 & N1 & S1).
  fold db1 in R1, K1.
  assert (O1 : forall t, table_ok (get_table db1 t)).
  { intros t. destruct (decide (t = TABLE_UDP)) as [->|Hne]; [exact K1|].
    rewrite (removed_other _ _ _ _ R1) by exact Hne. apply Hok. }
  destruct (flush_aux_exact TABLE_TCP db1 (O1 _)) as (_ & r2 & R2 & K2 & N2 & S2).
  fold db2 in R2, K2.
  assert (O2 : forall t, table_ok (get_table db2 t)).
  { intros t. destruct (decide (t = TABLE_TCP)) as [->|Hne]; [exact K2|].
    rewrite (removed_other _ _ _ _ R2) by exact Hne. apply O1. }
  destruct (flush_aux_exact TABLE_ICMP db2 (O2 _)) as (_ & r3 & R3 & K3 & N3 & S3).
  fold db3 in R3, K3.
  pose proof (removed_other _ _ _ _ R1) as E1.
  pose proof (removed_other _ _ _ _ R2) as E2.
  rewrite (E1 TABLE_TCP) in S2 by discriminate.
  rewrite (E2 TABLE_ICMP), (E1 TABLE_ICMP) in S3 by discriminate.
  pose proof (removed_all_step _ TABLE_UDP r1 db db db1 (removed_all_nil db Hok)
                eq_refl R1) as A1.
  pose proof (removed_all_step _ TABLE_TCP r2 db db1 db2 A1 eq_refl R2) as A2.
  pose proof (removed_all_step _ TABLE_ICMP r3 db db2 db3 A2 eq_refl R3) as A3.
  set (removed := fun t' : table_id => _) in A3.
  assert (HS : forall t, NoDup (removed t) /\
            forall x, x ∈ removed t <-> x ∈ rb_inorder (tree4 (get_table db t))).
  { intros t. unfold removed.
    destruct t; repeat (case_decide; try congruence); split; assumption. }
  assert (H4 : forall t, rb_inorder (tree4 (get_table db3 t)) = []).
  { intros t. rewrite (all_tree4 _ _ _ A3). apply without_all.
    intros x Hx. apply HS, Hx. }
  assert (H6 : forall t, rb_inorder (tree6 (get_table db3 t)) = []).
  { intros t. rewrite (all_tree6 _ _ _ A3). apply without_all.
    intros x Hx. apply HS. destruct (table_ok_inv _ (Hok t)) as (_ & _ & Hsame & _).
    apply Hsame, Hx. }
  assert (HL : forall t, tree4 (get_table db3 t) = Leaf /\ tree6 (get_table db3 t) = Leaf).
  { intros t. split; apply rb_inorder_nil; auto. }
  split; [reflexivity|]. split; [exists removed; split; assumption|].
  split; [exact HL|]. split; [|split].
  - intros t Hc. rewrite (all_count _ _ _ A3), Hc. unfold rb_size.
    destruct (HS t) as [Hn Hel]. destruct (table_ok_inv _ (Hok t)) as (_ & N4 & _ & _).
    assert (length (removed t) = length (rb_inorder (tree4 (get_table db t)))) as ->.
    { apply Permutation_length. apply NoDup_Permutation; assumption. }
    rewrite Z.sub_diag. reflexivity.
  - intros pair l4. unfold sessiondb_get_by_ipv4.
    destruct (get_session_table l4) as [t|]; [|reflexivity].
    rewrite (proj1 (HL t)). reflexivity.
  - intros pair l4. unfold sessiondb_get_by_ipv6.
    destruct (get_session_table l4) as [t|]; [|reflexivity].
    rewrite (proj2 (HL t)). reflexivity.
Qed.

(** The pass over the IPv6 index *)

Lemma same_bytes_le (n m : nat) (a b : list Z) :
  (n <= m)%nat -> same_bytes m a b -> same_bytes n a b.
Proof. intros Hle H i Hi. apply H. lia. Qed.

Lemma prefix_equal_same (a b : in6_addr) (len : Z) :
  0 <= len <= 128 -> memcmp a b 16 = 0 -> ipv6_prefix_equal a b len = true.
Proof.
  intros Hlen H. apply memcmp_zero_iff in H. unfold ipv6_prefix_equal.
  assert (Hw : 0 <= len / 8 <= 16).
  { split; [apply Z.div_pos; lia|]. apply Z.div_le_upper_bound; lia. }
  apply andb_true_iff. split.
  - apply Z.eqb_eq. apply memcmp_zero_iff. apply (same_bytes_le _ 16); [lia|exact H].
  - destruct (Z.eqb_spec (len mod 8) 0) as [E|E]; [reflexivity|]. cbn [orb].
    apply Z.eqb_eq. f_equal. apply H.
    assert (len / 8 <> 16); [|lia].
    intros E16. pose proof (Z.div_mod len 8 ltac:(lia)).
    pose proof (Z.mod_pos_bound len 8 ltac:(lia)). lia.
Qed.

Lemma delete_sessions_by_ipv6_prefix_exact (t : table_id) (prefix : ipv6_prefix)
    (db : sessiondb) :
  table_ok (get_table db t) ->
  fst (delete_sessions_by_ipv6_prefix t prefix db) = 0 /\
  exists removed,
    NoDup removed /\
    removed_from t removed db (snd (delete_sessions_by_ipv6_prefix t prefix db)) /\
    table_ok (get_table (snd (delete_sessions_by_ipv6_prefix t prefix db)) t) /\
    forall x, x ∈ removed ->
      x ∈ rb_inorder (tree6 (get_table db t)) /\
      (0 <= prefix_len prefix <= 128 ->
       sessiondb_ipv6_prefix_equal (deref (db_heap db) x) prefix = true).
Proof.
  intros Hok. unfold delete_sessions_by_ipv6_prefix.
  destruct (rbtree_find _ _ _ _) as [root|] eqn:E.
  - split; [reflexivity|]. cbn [snd].
    destruct (table_ok_inv _ Hok) as (N6 & _ & Hsame & _).
    pose proof (rbtree_find_in _ _ _ _ _ E) as Hroot.
    pose proof (rbtree_find_zero _ _ _ _ _ E) as Hzero.
    destruct (remove_around_tree
                (fun session => sessiondb_ipv6_prefix_equal session prefix) t
                (tree6 (get_table db t)) root db Hok N6 (fun x H => proj1 (Hsame x) H) Hroot)
      as (rb & ra & Hsp & Rb & Ra & Hrem & Hok' & Hnd & Hin).
    exists (rb ++ ra ++ [root]).
    split; [exact Hnd|]. split; [exact Hrem|]. split; [exact Hok'|].
    intros x Hx. split; [apply Hin, Hx|]. intros Hlen.
    rewrite !elem_of_app, list_elem_of_singleton in Hx.
    destruct Hx as [Hx|[Hx| ->]]; [apply (proj2 Rb x Hx)|apply (proj2 Ra x Hx)|].
    unfold compare_local_prefix6 in Hzero.
    destruct (Z.eqb_spec (ipv6_addr_cmp (prefix_address prefix)
                (a6_address (p6_local (ipv6 (deref (db_heap db) root))))) 0) as [G|G].
    + apply prefix_equal_same; assumption.
    + destruct (sessiondb_ipv6_prefix_equal (deref (db_heap db) root) prefix);
        [reflexivity|contradiction].
  - split; [reflexivity|]. exists []. split; [apply NoDup_nil_2|].
    split; [apply removed_from_nil, Hok|]. split; [exact Hok|].
    intros x Hx. inversion Hx.
Qed.

(** [sessiondb_delete_by_ipv6_prefix] with a prefix of at most 128 bits: it
    answers zero; every session it unlinks has its IPv6 local address in
    the prefix; the indexes and the expiration lists lose these sessions
    and keep the others in place, and each count drops by their number. *)
Theorem sessiondb_delete_by_ipv6_prefix_sound (prefix : ipv6_prefix) (db : sessiondb) :
  (forall t, table_ok (get_table db t)) -> 0 <= prefix_len prefix <= 128 ->
  let r := sessiondb_delete_by_ipv6_prefix prefix db in
  fst r = 0 /\
  exists removed,
    removed_all removed db (snd r) /\
    forall t,
      NoDup (removed t) /\
      forall x, x ∈ removed t ->
        x ∈ rb_inorder (tree6 (get_table db t)) /\
        sessiondb_ipv6_prefix_equal (deref (db_heap db) x) prefix = true.
Proof.
  intros Hok Hlen r. subst r. unfold sessiondb_delete_by_ipv6_prefix. cbn [fst snd].
  split; [reflexivity|].
  set (db1 := snd (delete_sessions_by_ipv6_prefix TABLE_TCP prefix db)).
  set (db2 := snd (delete_sessions_by_ipv6_prefix TABLE_ICMP prefix db1)).
  set (db3 := snd (delete_sessions_by_ipv6_prefix TABLE_UDP prefix db2)).
  destruct (delete_sessions_by_ipv6_prefix_exact TABLE_TCP prefix db (Hok _))
    as (_ & r1 & N1 & R1 & K1 & S1). fold db1 in R1, K1.
  assert (O1 : forall t, table_ok (get_table db1 t)).
  { intros t. destruct (decide (t = TABLE_TCP)) as [->|Hne]; [exact K1|].
    rewrite (removed_other _ _ _ _ R1) by exact Hne. apply Hok. }
  destruct (delete_sessions_by_ipv6_prefix_exact TABLE_ICMP prefix db1 (O1 _))
    as (_ & r2 & N2 & R2 & K2 & S2). fold db2 in R2, K2.
  assert (O2 : forall t, table_ok (get_table db2 t)).
  { intros t. destruct (decide (t = TABLE_ICMP)) as [->|Hne]; [exact K2|].
    rewrite (removed_other _ _ _ _ R2) by exact Hne. apply O1. }
  destruct (delete_sessions_by_ipv6_prefix_exact TABLE_UDP prefix db2 (O2 _))
    as (_ & r3 & N3 & R3 & K3 & S3). fold db3 in R3, K3.
  pose proof (removed_other _ _ _ _ R1) as E1.
  pose proof (removed_other _ _ _ _ R2) as E2.
  pose proof (removed_heap _ _ _ _ R1) as H1.
  pose proof (removed_heap _ _ _ _ R2) as H2.
  rewrite H1 in *. rewrite H2 in *.
  rewrite (E1 TABLE_ICMP) in * by discriminate.
  rewrite (E2 TABLE_UDP), (E1 TABLE_UDP) in * by discriminate.
  pose proof (removed_all_step _ TABLE_TCP r1 db db db1 (removed_all_nil db Hok)
                eq_refl R1) as A1.
  pose proof (removed_all_step _ TABLE_ICMP r2 db db1 db2 A1 eq_refl R2) as A2.
  pose proof (removed_all_step _ TABLE_UDP r3 db db2 db3 A2 eq_refl R3) as A3.
  eexists. split; [exact A3|].
  intros t. destruct t; cbn beta; repeat (case_decide; try congruence);
    (split; [assumption|]); intros x Hx.
  - destruct (S3 x Hx). auto.
  - destruct (S1 x Hx). auto.
  - destruct (S2 x Hx). auto.
Qed.

Local Transparent table_ok.

(** ** Session database: the state the functions keep *)

(** Linking keeps the order *)

Section AddSorted.

Context {K : Type}.
Variable heap : gmap nat session_entry.
Variable compare_cb : session_entry -> K -> Z.
Variable key_of : session_entry -> K.

Let before (a b : nat) : Prop :=
  compare_cb (deref heap b) (key_of (deref heap a)) < 0.

Hypothesis Htrans : forall a b c, before a b -> before b c -> before a c.
Hypothesis Hopp : forall a b,
  0 < compare_cb (deref heap a) (key_of (deref heap b)) -> before a b.

Lemma rbtree_add_sorted (session : nat) (t t' : rb_node) :
  StronglySorted before (rb_inorder t) ->
  rbtree_add heap compare_cb session (key_of (deref heap session)) t = Some t' ->
  StronglySorted before (rb_inorder t').
Proof using Htrans Hopp.
  revert t'. induction t as [|l IHl y r IHr]; intros t' Hs Hadd; simpl in Hadd.
  - injection Hadd as <-. simpl. repeat constructor.
  - cbn [rb_inorder] in Hs. apply StronglySorted_app_iff in Hs.
    destruct Hs as (Hl & Hyr & Hlr).
    apply StronglySorted_cons_iff in Hyr. destruct Hyr as [Hr Hy].
    destruct (compare_cb (deref heap y) (key_of (deref heap session)) <? 0) eqn:E1.
    + apply Z.ltb_lt in E1.
      destruct (rbtree_add heap compare_cb session _ l) as [l'|] eqn:El; [|discriminate].
      injection Hadd as <-. cbn [rb_inorder].
      apply StronglySorted_app_iff. split; [apply IHl; auto|]. split.
      * apply StronglySorted_cons_iff. split; assumption.
      * intros a b Ha Hb.
        apply (rbtree_add_elem _ _ _ _ _ _ a El) in Ha.
        destruct Ha as [->|Ha]; [|apply Hlr; assumption].
        apply elem_of_cons in Hb. destruct Hb as [->|Hb]; [exact E1|].
        apply (Htrans _ y); [exact E1|apply Hy, Hb].
    + destruct (0 <? compare_cb (deref heap y) (key_of (deref heap session))) eqn:E2;
        [|discriminate].
      apply Z.ltb_lt in E2. apply Hopp in E2.
      destruct (rbtree_add heap compare_cb session _ r) as [r'|] eqn:Er; [|discriminate].
      injection Hadd as <-. cbn [rb_inorder].
      assert (Hy' : forall b, b ∈ rb_inorder r' -> before y b).
      { intros b Hb. apply (rbtree_add_elem _ _ _ _ _ _ b Er) in Hb.
        destruct Hb as [->|Hb]; [exact E2|apply Hy, Hb]. }
      apply StronglySorted_app_iff. split; [exact Hl|]. split.
      * apply StronglySorted_cons_iff. split; [apply IHr; auto|exact Hy'].
      * intros a b Ha Hb.
        apply elem_of_cons in Hb. destruct Hb as [->|Hb]; [apply Hlr; [exact Ha|left]|].
        apply (Htrans _ y); [apply Hlr; [exact Ha|left]|apply Hy', Hb].
Qed.

End AddSorted.

Lemma before4_trans (heap : gmap nat session_entry) (a b c : nat) :
  compare_full4 (deref heap b) (ipv4 (deref heap a)) < 0 ->
  compare_full4 (deref heap c) (ipv4 (deref heap b)) < 0 ->
  compare_full4 (deref heap c) (ipv4 (deref heap a)) < 0.
Proof.
  rewrite !compare_full4_lex. intros H1 H2.
  apply (lex_lt_le_trans (key4 (ipv4 (deref heap a))) (key4 (ipv4 (deref heap b)))
           (key4 (ipv4 (deref heap c))) eq_refl eq_refl H1). lia.
Qed.

Lemma before4_opp (heap : gmap nat session_entry) (a b : nat) :
  0 < compare_full4 (deref heap a) (ipv4 (deref heap b)) ->
  compare_full4 (deref heap b) (ipv4 (deref heap a)) < 0.
Proof. rewrite !compare_full4_lex. rewrite (lex_opp (key4 (ipv4 (deref heap a)))). lia. Qed.

Lemma before6_trans (heap : gmap nat session_entry) (a b c : nat) :
  compare_full6 (deref heap b) (ipv6 (deref heap a)) < 0 ->
  compare_full6 (deref heap c) (ipv6 (deref heap b)) < 0 ->
  compare_full6 (deref heap c) (ipv6 (deref heap a)) < 0.
Proof.
  rewrite !compare_full6_lex. intros H1 H2.
  apply (lex_lt_le_trans (key6 (ipv6 (deref heap a))) (key6 (ipv6 (deref heap b)))
           (key6 (ipv6 (deref heap c))) eq_refl eq_refl H1). lia.
Qed.

Lemma before6_opp (heap : gmap nat session_entry) (a b : nat) :
  0 < compare_full6 (deref heap a) (ipv6 (deref heap b)) ->
  compare_full6 (deref heap b) (ipv6 (deref heap a)) < 0.
Proof. rewrite !compare_full6_lex. rewrite (lex_opp (key6 (ipv6 (deref heap a)))). lia. Qed.

(** A table with one more session *)

Lemma table_ok_added (heap : gmap nat session_entry) (tb : session_table) (session : nat)
    (pair6 : ipv6_pair) (pair4 : ipv4_pair) (t6 t4 : rb_node) :
  table_ok tb -> count tb = rb_size (tree4 tb) ->
  rb_size (tree4 tb) + 1 < 2 ^ 31 ->
  session ∉ rb_inorder (tree4 tb) ->
  rbtree_add heap compare_full6 session pair6 (tree6 tb) = Some t6 ->
  rbtree_add heap compare_full4 session pair4 (tree4 tb) = Some t4 ->
  let tb' := mk_table t6 t4 (u64 (count tb + 1)) in
  table_ok tb' /\ count tb' = rb_size (tree4 tb').
Proof.
  intros (N6 & N4 & Hsame & Hc & Hsz) Hcount Hroom Hnew H6 H4 tb'. subst tb'.
  destruct (rbtree_add_inorder _ _ _ _ _ _ H6) as (a6 & b6 & E6 & E6').
  destruct (rbtree_add_inorder _ _ _ _ _ _ H4) as (a4 & b4 & E4 & E4').
  assert (Hnew6 : session ∉ rb_inorder (tree6 tb)) by (rewrite Hsame; exact Hnew).
  assert (Hs4 : rb_size t4 = rb_size (tree4 tb) + 1).
  { unfold rb_size. rewrite E4, E4', !length_app. cbn [length]. lia. }
  assert (Hu : u64 (count tb + 1) = count tb + 1).
  { unfold u64. apply Z.mod_small. unfold rb_size in *. lia. }
  unfold table_ok. cbn [tree6 tree4 count]. rewrite Hu, Hs4. repeat apply conj; try lia.
  - rewrite E6'. rewrite E6 in N6, Hnew6. apply NoDup_app in N6.
    destruct N6 as (Na & Hd & Nb). rewrite not_elem_of_app in Hnew6.
    apply NoDup_app. repeat apply conj; [exact Na| |apply NoDup_cons; tauto].
    intros x Hx Hx'. apply elem_of_cons in Hx'. destruct Hx' as [->|Hx']; [tauto|].
    exact (Hd x Hx Hx').
  - rewrite E4'. rewrite E4 in N4, Hnew. apply NoDup_app in N4.
    destruct N4 as (Na & Hd & Nb). rewrite not_elem_of_app in Hnew.
    apply NoDup_app. repeat apply conj; [exact Na| |apply NoDup_cons; tauto].
    intros x Hx Hx'. apply elem_of_cons in Hx'. destruct Hx' as [->|Hx']; [tauto|].
    exact (Hd x Hx Hx').
  - intros x. rewrite (rbtree_add_elem _ _ _ _ _ _ x H6), (rbtree_add_elem _ _ _ _ _ _ x H4).
    rewrite Hsame. tauto.
Qed.

Lemma sorted4_heap (db : sessiondb) (heap : gmap nat session_entry) (l : list nat) :
  (forall x, x ∈ l -> deref heap x = deref (db_heap db) x) ->
  StronglySorted
    (fun a b => compare_full4 (deref (db_heap db) b) (ipv4 (deref (db_heap db) a)) < 0) l ->
  StronglySorted (fun a b => compare_full4 (deref heap b) (ipv4 (deref heap a)) < 0) l.
Proof.
  intros H. apply StronglySorted_impl. intros a b Ha Hb. rewrite !H by assumption. auto.
Qed.

Lemma sorted6_heap (db : sessiondb) (heap : gmap nat session_entry) (l : list nat) :
  (forall x, x ∈ l -> deref heap x = deref (db_heap db) x) ->
  StronglySorted
    (fun a b => compare_full6 (deref (db_heap db) b) (ipv6 (deref (db_heap db) a)) < 0) l ->
  StronglySorted (fun a b => compare_full6 (deref heap b) (ipv6 (deref heap a)) < 0) l.
Proof.
  intros H. apply StronglySorted_impl. intros a b Ha Hb. rewrite !H by assumption. auto.
Qed.

(** The database with a session [p], stored as [e], linked in table [t]. *)
Lemma consistent_linked (db : sessiondb) (heap : gmap nat session_entry) (t : table_id)
    (p : nat) (t6 t4 : rb_node) (db' : sessiondb) :
  consistent db ->
  ~ linked db p ->
  rb_size (tree4 (get_table db t)) + 1 < 2 ^ 31 ->
  is_Some (heap !! p) ->
  (forall x, x <> p -> heap !! x = db_heap db !! x) ->
  rbtree_add heap compare_full6 p (ipv6 (deref heap p)) (tree6 (get_table db t)) = Some t6 ->
  rbtree_add heap compare_full4 p (ipv4 (deref heap p)) (tree4 (get_table db t)) = Some t4 ->
  db_heap db' = heap ->
  (forall t', get_table db' t' =
     if decide (t = t') then mk_table t6 t4 (u64 (count (get_table db t) + 1))
     else get_table db t') ->
  consistent db'.
Proof.
  intros (Hcounted & Hsorted & Halloc) Hnew Hroom Hp Hheap H6 H4 Hh Ht.
  assert (N6 : forall t', p ∉ rb_inorder (tree6 (get_table db t'))).
  { intros t' H. apply Hnew. exists t'. left. exact H. }
  assert (N4 : forall t', p ∉ rb_inorder (tree4 (get_table db t'))).
  { intros t' H. apply Hnew. exists t'. right. exact H. }
  assert (Hd : forall x, x <> p -> deref heap x = deref (db_heap db) x).
  { intros x Hx. unfold deref. rewrite Hheap by exact Hx. reflexivity. }
  split; [|split; [intros t'; split|]].
  - intros t'. rewrite Ht. case_decide as E; [|apply Hcounted].
    destruct (Hcounted t) as [Hok Hc].
    apply (table_ok_added heap (get_table db t) p _ _ t6 t4 Hok Hc Hroom (N4 t) H6 H4).
  - unfold sorted4. rewrite Hh, Ht. case_decide as E.
    + cbn [tree4].
      refine (rbtree_add_sorted heap compare_full4 ipv4 (before4_trans heap)
                (before4_opp heap) p _ _ _ H4).
      apply (sorted4_heap db); [|apply Hsorted].
      intros x Hx. apply Hd. intros ->. exact (N4 _ Hx).
    + apply (sorted4_heap db); [|apply Hsorted].
      intros x Hx. apply Hd. intros ->. exact (N4 _ Hx).
  - unfold sorted6. rewrite Hh, Ht. case_decide as E.
    + cbn [tree6].
      refine (rbtree_add_sorted heap compare_full6 ipv6 (before6_trans heap)
                (before6_opp heap) p _ _ _ H6).
      apply (sorted6_heap db); [|apply Hsorted].
      intros x Hx. apply Hd. intros ->. exact (N6 _ Hx).
    + apply (sorted6_heap db); [|apply Hsorted].
      intros x Hx. apply Hd. intros ->. exact (N6 _ Hx).
  - intros x [t' Hx]. rewrite Hh. destruct (decide (x = p)) as [->|Hne]; [exact Hp|].
    rewrite Hheap by exact Hne. apply Halloc. exists t'.
    rewrite Ht in Hx. case_decide as E; [|exact Hx]. subst t'. cbn [tree6 tree4] in Hx.
    rewrite (rbtree_add_elem _ _ _ _ _ _ x H6), (rbtree_add_elem _ _ _ _ _ _ x H4) in Hx.
    tauto.
Qed.

Lemma sessiondb_add_consistent (session : nat) (db : sessiondb) :
  consistent db ->
  is_Some (db_heap db !! session) ->
  ~ linked db session ->
  (forall t, rb_size (tree4 (get_table db t)) + 1 < 2 ^ 31) ->
  consistent (snd (sessiondb_add session db)).
Proof.
  intros Hc Hp Hnew Hroom. unfold sessiondb_add.
  destruct (get_session_table _) as [t|] eqn:Et; [|exact Hc].
  destruct (rbtree_add _ compare_full6 _ _ _) as [t6|] eqn:E6; [|exact Hc].
  destruct (rbtree_add _ compare_full4 _ _ _) as [t4|] eqn:E4; cbn [snd].
  - apply (consistent_linked db (db_heap db) t session t6 t4); auto.
    intros t'. rewrite set_table_twice. apply get_set_table.
  - assert (N6 : session ∉ rb_inorder (tree6 (get_table db t))).
    { intros H. apply Hnew. exists t. left. exact H. }
    rewrite set_table_twice, (rbtree_add_erase _ _ _ _ _ _ N6 E6).
    rewrite table_eta, set_table_same. exact Hc.
Qed.

(** [sessiondb_add] keeps a consistent database consistent, whatever it
    answers, when the session is allocated, is linked nowhere yet, and its
    table has room for one more entry below the range of [int].  When it
    answers zero both indexes of the table of the session's protocol link
    the session, and the count of that table is one more than it was. *)
Theorem sessiondb_add_keeps_consistent (session : nat) (db : sessiondb) :
  consistent db ->
  is_Some (db_heap db !! session) ->
  ~ linked db session ->
  (forall t, rb_size (tree4 (get_table db t)) + 1 < 2 ^ 31) ->
  let db' := snd (sessiondb_add session db) in
  consistent db' /\
  (fst (sessiondb_add session db) = 0 ->
   exists t, get_session_table (l4_proto (deref (db_heap db) session)) = Some t /\
     session ∈ rb_inorder (tree6 (get_table db' t)) /\
     session ∈ rb_inorder (tree4 (get_table db' t)) /\
     count (get_table db' t) = count (get_table db t) + 1).
Proof.
  intros Hc Hp Hnew Hroom db'.
  split; [apply sessiondb_add_consistent; assumption|].
  intros Hok. subst db'.
  destruct (sessiondb_add_success session db Hok) as (t & t6 & t4 & Ht & H6 & H4 & ->).
  exists t. split; [exact Ht|].
  rewrite get_set_table. destruct (decide (t = t)); [|congruence]. cbn [tree6 tree4 count].
  split; [apply (rbtree_add_elem _ _ _ _ _ _ session H6); auto|].
  split; [apply (rbtree_add_elem _ _ _ _ _ _ session H4); auto|].
  destruct (proj1 Hc t) as [(_ & _ & _ & Hcount & Hsz) Heq].
  unfold u64. apply Z.mod_small. specialize (Hroom t). unfold rb_size in *. lia.
Qed.

Lemma rollback (db : sessiondb) (t : table_id) (p : nat) (new : session_entry) :
  db_heap db !! p = None ->
  set_heap (set_table (store db p new) t (get_table db t))
    (delete p (<[p := new]> (db_heap db))) = db.
Proof.
  intros H. rewrite delete_insert_id by exact H. destruct db, t; reflexivity.
Qed.

Section GetOrCreateConsistent.

Variable pool6_get : in6_addr -> Z * ipv6_prefix.
Variable pool6_peek : Z * ipv6_prefix.

Lemma get_or_create_ipv6_consistent (k : kernel) (tuple : tuple) (parent : bib_entry)
    (db : sessiondb) :
  consistent db ->
  (forall t, rb_size (tree4 (get_table db t)) + 1 < 2 ^ 31) ->
  consistent (snd (sessiondb_get_or_create_ipv6 pool6_get k tuple parent db)).
Proof.
  intros Hc Hroom. pose proof Hc as (_ & _ & Halloc).
  unfold sessiondb_get_or_create_ipv6.
  destruct (get_session_table (t_l4_proto tuple)) as [t|] eqn:Et; [|exact Hc].
  set (pair6 := tuple_to_ipv6_pair tuple) in *.
  destruct (rbtree_find (db_heap db) compare_full6 pair6 (tree6 (get_table db t)))
    as [found|] eqn:Ef; [exact Hc|].
  destruct (pool6_get (ipv6_of (t_addr (t_dst tuple)))) as [error prefix].
  destruct (error =? 0) eqn:Ee; cbn [negb]; [|exact Hc].
  destruct (addr_6to4 (ipv6_of (t_addr (t_dst tuple))) prefix) as [ipv4_dst|];
    [|exact Hc].
  destruct (kmalloc_ok k); cbn [negb]; [|exact Hc].
  set (p := fresh (dom (db_heap db))).
  set (pair4 := mk_pair4 _ _).
  set (new := session_create k pair4 pair6 (t_l4_proto tuple)).
  pose proof (fresh_unlinked db Halloc) as Hfresh. fold p in Hfresh.
  assert (N6 : p ∉ rb_inorder (tree6 (get_table db t))).
  { intros H. apply Hfresh. exists t. left. exact H. }
  assert (N4 : p ∉ rb_inorder (tree4 (get_table db t))).
  { intros H. apply Hfresh. exists t. right. exact H. }
  cbn [db_heap store set_heap].
  set (e := set_bib (deref (<[p := new]> (db_heap db)) p) parent).
  assert (He : e = set_bib new parent).
  { unfold e. rewrite deref_insert. destruct (decide (p = p)); [reflexivity|congruence]. }
  rewrite (rbtree_add_heap_ext (<[p := e]> (db_heap db)) (<[p := new]> (db_heap db))
             compare_full6 p pair6 (tree6 (get_table db t))).
  2:{ intros x Hx. rewrite !deref_insert.
      destruct (decide (p = x)) as [->|]; [contradiction|reflexivity]. }
  rewrite (rbtree_add_heap_ext (<[p := e]> (db_heap db)) (<[p := new]> (db_heap db))
             compare_full4 p pair4 (tree4 (get_table db t))).
  2:{ intros x Hx. rewrite !deref_insert.
      destruct (decide (p = x)) as [->|]; [contradiction|reflexivity]. }
  destruct (rbtree_add (<[p := e]> (db_heap db)) compare_full6 p pair6
              (tree6 (get_table db t))) as [t6|] eqn:E6.
  2:{ apply rbtree_add_collision in E6.
      rewrite (rbtree_find_heap_ext (db_heap db) (<[p := e]> (db_heap db)) compare_full6
                 pair6 _ (deref_insert_notin _ _ _ _ N6)) in E6. congruence. }
  cbn [from_option id].
  destruct (rbtree_add (<[p := e]> (db_heap db)) compare_full4 p pair4
              (tree4 (get_table db t))) as [t4|] eqn:E4; cbn [snd].
  - fold (store db p new). rewrite store_store.
    assert (Dp : deref (<[p := e]> (db_heap db)) p = e).
    { rewrite deref_insert. destruct (decide (p = p)); [reflexivity|congruence]. }
    apply (consistent_linked db (<[p := e]> (db_heap db)) t p t6 t4); auto.
    + rewrite lookup_insert_eq. eauto.
    + intros x Hx. rewrite lookup_insert_ne by congruence. reflexivity.
    + rewrite Dp. replace (ipv6 e) with pair6 by (rewrite He; reflexivity). exact E6.
    + rewrite Dp. replace (ipv4 e) with pair4 by (rewrite He; reflexivity). exact E4.
    + intros t'. rewrite get_set_table. case_decide; [reflexivity|apply get_table_store].
  - rewrite (rbtree_add_erase _ _ _ _ _ _ N6 E6), table_eta.
    fold (store db p new). rewrite rollback by apply fresh_heap. exact Hc.
Qed.

Lemma get_or_create_ipv4_consistent (k : kernel) (tuple : tuple) (parent : bib_entry)
    (db : sessiondb) :
  consistent db ->
  (forall t, rb_size (tree4 (get_table db t)) + 1 < 2 ^ 31) ->
  consistent (snd (sessiondb_get_or_create_ipv4 pool6_peek k tuple parent db)).
Proof.
  intros Hc Hroom. pose proof Hc as (_ & _ & Halloc).
  unfold sessiondb_get_or_create_ipv4.
  destruct (get_session_table (t_l4_proto tuple)) as [t|] eqn:Et; [|exact Hc].
  set (pair4 := tuple_to_ipv4_pair tuple) in *.
  destruct (rbtree_find (db_heap db) compare_full4 pair4 (tree4 (get_table db t)))
    as [found|] eqn:Ef; [exact Hc|].
  destruct pool6_peek as [error prefix].
  destruct (error =? 0) eqn:Ee; cbn [negb]; [|exact Hc].
  destruct (addr_4to6 (ipv4_of (t_addr (t_src tuple))) prefix) as [ipv6_src|];
    [|exact Hc].
  destruct (kmalloc_ok k); cbn [negb]; [|exact Hc].
  set (p := fresh (dom (db_heap db))).
  set (pair6 := mk_pair6 _ _).
  set (new := session_create k pair4 pair6 (t_l4_proto tuple)).
  pose proof (fresh_unlinked db Halloc) as Hfresh. fold p in Hfresh.
  assert (N6 : p ∉ rb_inorder (tree6 (get_table db t))).
  { intros H. apply Hfresh. exists t. left. exact H. }
  assert (N4 : p ∉ rb_inorder (tree4 (get_table db t))).
  { intros H. apply Hfresh. exists t. right. exact H. }
  cbn [db_heap store set_heap].
  set (e := set_bib (deref (<[p := new]> (db_heap db)) p) parent).
  assert (He : e = set_bib new parent).
  { unfold e. rewrite deref_insert. destruct (decide (p = p)); [reflexivity|congruence]. }
  rewrite (rbtree_add_heap_ext (<[p := e]> (db_heap db)) (<[p := new]> (db_heap db))
             compare_full6 p pair6 (tree6 (get_table db t))).
  2:{ intros x Hx. rewrite !deref_insert.
      destruct (decide (p = x)) as [->|]; [contradiction|reflexivity]. }
  rewrite (rbtree_add_heap_ext (<[p := e]> (db_heap db)) (<[p := new]> (db_heap db))
             compare_full4 p pair4 (tree4 (get_table db t))).
  2:{ intros x Hx. rewrite !deref_insert.
      destruct (decide (p = x)) as [->|]; [contradiction|reflexivity]. }
  destruct (rbtree_add (<[p := e]> (db_heap db)) compare_full4 p pair4
              (tree4 (get_table db t))) as [t4|] eqn:E4.
  2:{ apply rbtree_add_collision in E4.
      rewrite (rbtree_find_heap_ext (db_heap db) (<[p := e]> (db_heap db)) compare_full4
                 pair4 _ (deref_insert_notin _ _ _ _ N4)) in E4. congruence. }
  cbn [from_option id].
  destruct (rbtree_add (<[p := e]> (db_heap db)) compare_full6 p pair6
              (tree6 (get_table db t))) as [t6|] eqn:E6; cbn [snd].
  - fold (store db p new). rewrite store_store.
    assert (Dp : deref (<[p := e]> (db_heap db)) p = e).
    { rewrite deref_insert. destruct (decide (p = p)); [reflexivity|congruence]. }
    apply (consistent_linked db (<[p := e]> (db_heap db)) t p t6 t4); auto.
    + rewrite lookup_insert_eq. eauto.
    + intros x Hx. rewrite lookup_insert_ne by congruence. reflexivity.
    + rewrite Dp. replace (ipv6 e) with pair6 by (rewrite He; reflexivity). exact E6.
    + rewrite Dp. replace (ipv4 e) with pair4 by (rewrite He; reflexivity). exact E4.
    + intros t'. rewrite get_set_table. case_decide; [reflexivity|apply get_table_store].
  - rewrite (rbtree_add_erase _ _ _ _ _ _ N4 E4), table_eta.
    fold (store db p new). rewrite rollback by apply fresh_heap. exact Hc.
Qed.

(** [sessiondb_get_or_create_ipv6] and [sessiondb_get_or_create_ipv4] keep
    a consistent database consistent, whatever they answer, when each
    table has room for one more entry below the range of [int]. *)
Theorem get_or_create_keeps_consistent (k : kernel) (tuple : tuple)
    (parent : bib_entry) (db : sessiondb) :
  consistent db ->
  (forall t, rb_size (tree4 (get_table db t)) + 1 < 2 ^ 31) ->
  consistent (snd (sessiondb_get_or_create_ipv6 pool6_get k tuple parent db)) /\
  consistent (snd (sessiondb_get_or_create_ipv4 pool6_peek k tuple parent db)).
Proof.
  intros Hc Hroom. split.
  - apply get_or_create_ipv6_consistent; assumption.
  - apply get_or_create_ipv4_consistent; assumption.
Qed.

End GetOrCreateConsistent.

(** Unlinking keeps the database consistent *)

Lemma removed_from_consistent (t : table_id) (removed : list nat) (db db' : sessiondb) :
  removed_from t removed db db' ->
  NoDup removed ->
  (forall x, x ∈ removed -> x ∈ rb_inorder (tree4 (get_table db t))) ->
  consistent db -> consistent db'.
Proof.
  intros [Bh Bo B4 B6 Bc Bs Bm Bf Bn] Hnd Hin (Hcounted & Hsorted & Halloc).
  destruct (Hcounted t) as [(N6 & N4 & Hsame & Hc & Hsz) Hcount].
  assert (Hlen : (length (without removed (rb_inorder (tree4 (get_table db t))))
                  + length removed = length (rb_inorder (tree4 (get_table db t))))%nat)
    by (apply length_without; assumption).
  assert (Hu : u64 (count (get_table db t) - Z.of_nat (length removed))
               = rb_size (tree4 (get_table db' t))).
  { unfold rb_size in *. rewrite B4, Hcount. unfold u64. rewrite Z.mod_small; lia. }
  split; [|split; [intros t'; split|]].
  - intros t'. destruct (decide (t' = t)) as [->|Hne]; [|rewrite Bo by exact Hne; auto].
    split; [|rewrite Bc; exact Hu].
    unfold table_ok. rewrite Bc, Hu. unfold rb_size in *. rewrite B4, B6.
    repeat apply conj; try lia; try (apply NoDup_filter; assumption).
    intros x. rewrite !elem_of_without, Hsame. reflexivity.
  - unfold sorted4. rewrite Bh. destruct (decide (t' = t)) as [->|Hne].
    + rewrite B4. apply StronglySorted_filter, Hsorted.
    + rewrite Bo by exact Hne. apply Hsorted.
  - unfold sorted6. rewrite Bh. destruct (decide (t' = t)) as [->|Hne].
    + rewrite B6. apply StronglySorted_filter, Hsorted.
    + rewrite Bo by exact Hne. apply Hsorted.
  - intros x [t' Hx]. rewrite Bh. apply Halloc. exists t'.
    destruct (decide (t' = t)) as [->|Hne]; [|rewrite Bo in Hx by exact Hne; exact Hx].
    rewrite B4, B6, !elem_of_without in Hx. tauto.
Qed.

Lemma pass_matching_consistent {K : Type} (compare_cb : session_entry -> K -> Z) (key : K)
    (t : table_id) (db : sessiondb) :
  consistent db -> consistent (pass_matching compare_cb key t db).
Proof.
  intros Hc.
  destruct (pass_matching_exact compare_cb key t db (proj1 (proj1 Hc t)))
    as (removed & Hnd & Hrem & _ & Hsound & _).
  apply (removed_from_consistent t removed db _ Hrem Hnd); [|exact Hc].
  intros x Hx. apply Hsound, Hx.
Qed.

Lemma delete_sessions_by_ipv6_prefix_consistent (t : table_id) (prefix : ipv6_prefix)
    (db : sessiondb) :
  consistent db -> consistent (snd (delete_sessions_by_ipv6_prefix t prefix db)).
Proof.
  intros Hc.
  destruct (delete_sessions_by_ipv6_prefix_exact t prefix db (proj1 (proj1 Hc t)))
    as (_ & removed & Hnd & Hrem & _ & Hsound).
  apply (removed_from_consistent t removed db _ Hrem Hnd); [|exact Hc].
  intros x Hx. destruct (proj1 Hc t) as [(_ & _ & Hsame & _) _].
  apply Hsame, Hsound, Hx.
Qed.

Lemma flush_aux_consistent (t : table_id) (db : sessiondb) :
  consistent db -> consistent (snd (flush_aux t db)).
Proof.
  intros Hc.
  destruct (flush_aux_exact t db (proj1 (proj1 Hc t)))
    as (_ & removed & Hrem & _ & Hnd & Hsound).
  apply (removed_from_consistent t removed db _ Hrem Hnd); [|exact Hc].
  intros x Hx. apply Hsound, Hx.
Qed.

Lemma delete_by_bib_consistent (bib : bib_entry) (db : sessiondb) :
  consistent db -> consistent (snd (sessiondb_delete_by_bib bib db)).
Proof.
  intros Hc. unfold sessiondb_delete_by_bib.
  destruct (get_session_table (bib_l4_proto bib)) as [t|] eqn:Et; [|exact Hc].
  pose proof (pass_matching_consistent compare_local4 (bib_ipv4 bib) t db Hc) as H.
  unfold pass_matching in H. destruct (rbtree_find _ _ _ _); exact H.
Qed.

Lemma delete_by_ipv4_consistent (addr4 : in_addr) (db : sessiondb) :
  consistent db -> consistent (snd (sessiondb_delete_by_ipv4 addr4 db)).
Proof.
  intros Hc. unfold sessiondb_delete_by_ipv4. rewrite !delete_sessions_by_ipv4_pass.
  cbn [snd]. repeat apply pass_matching_consistent. exact Hc.
Qed.

Lemma delete_by_ipv6_prefix_consistent (prefix : ipv6_prefix) (db : sessiondb) :
  consistent db -> consistent (snd (sessiondb_delete_by_ipv6_prefix prefix db)).
Proof.
  intros Hc. unfold sessiondb_delete_by_ipv6_prefix. cbn [snd].
  repeat apply delete_sessions_by_ipv6_prefix_consistent. exact Hc.
Qed.

Lemma flush_consistent (db : sessiondb) :
  consistent db -> consistent (snd (sessiondb_flush db)).
Proof.
  intros Hc. unfold sessiondb_flush. cbn [snd].
  repeat apply flush_aux_consistent. exact Hc.
Qed.

(** The four bulk removals keep a consistent database consistent: the
    tables stay well formed and counted, the indexes in order, and what is
    linked allocated. *)
Theorem bulk_removals_keep_consistent (db : sessiondb) (bib : bib_entry) (addr4 : in_addr)
    (prefix : ipv6_prefix) :
  consistent db ->
  consistent (snd (sessiondb_delete_by_bib bib db)) /\
  consistent (snd (sessiondb_delete_by_ipv4 addr4 db)) /\
  consistent (snd (sessiondb_delete_by_ipv6_prefix prefix db)) /\
  consistent (snd (sessiondb_flush db)).
Proof.
  intros Hc. split; [|split; [|split]].
  - apply delete_by_bib_consistent, Hc.
  - apply delete_by_ipv4_consistent, Hc.
  - apply delete_by_ipv6_prefix_consistent, Hc.
  - apply flush_consistent, Hc.
Qed.

(** ** Session database: [sessiondb_update_timer] *)

(** The hooks of a session *)

Lemma RB_EMPTY_NODE_false (index : session_table -> rb_node) (db : sessiondb) (session : nat) :
  RB_EMPTY_NODE index db session = false <->
  exists t, session ∈ rb_inorder (index (get_table db t)).
Proof.
  unfold RB_EMPTY_NODE. cbn [forallb]. rewrite andb_true_r.
  rewrite !andb_false_iff, !negb_false_iff, !bool_decide_eq_true. split.
  - intros [H|[H|H]]; eauto.
  - intros [[] H]; auto.
Qed.

Lemma in_database_iff (db : sessiondb) (session : nat) :
  in_database db session <->
  RB_EMPTY_NODE tree6 db session || RB_EMPTY_NODE tree4 db session = false.
Proof.
  unfold in_database. rewrite orb_false_iff, !RB_EMPTY_NODE_false. reflexivity.
Qed.

(** Lists without a hook *)

Lemma filter_ne_notin (x : nat) (l : list nat) : x ∉ filter (fun y => y <> x) l.
Proof. rewrite list_elem_of_filter. tauto. Qed.

Lemma sorted_snoc (l : list Z) (x : Z) :
  StronglySorted Z.le l -> (forall y, y ∈ l -> y <= x) -> StronglySorted Z.le (l ++ [x]).
Proof.
  intros Hs Hx. apply StronglySorted_app_iff. split; [exact Hs|]. split.
  - repeat constructor.
  - intros a b Ha Hb. apply list_elem_of_singleton in Hb. subst b. auto.
Qed.

Lemma sorted_map_filter (f : nat -> Z) (P : nat -> Prop) `{forall x, Decision (P x)}
    (l : list nat) :
  StronglySorted Z.le (map f l) -> StronglySorted Z.le (map f (filter P l)).
Proof.
  induction l as [|a l IH]; intros Hs; [constructor|].
  cbn [map] in Hs. apply StronglySorted_cons_iff in Hs. destruct Hs as [Hs Ha].
  rewrite filter_cons. case_decide; [|auto].
  cbn [map]. apply StronglySorted_cons_iff. split; [auto|].
  intros b Hb. apply Ha. apply list_elem_of_fmap in Hb. destruct Hb as (y & -> & Hy).
  apply list_elem_of_fmap. exists y. split; [reflexivity|].
  apply list_elem_of_filter in Hy. tauto.
Qed.

(** [sessiondb_update_timer] on a session that is in the database *)

Lemma update_timer_linked (k : kernel) (session : nat) (e : expirer_id) (db : sessiondb) :
  in_database db session ->
  let db' := sessiondb_update_timer k session e db in
  db_heap db' = <[session := set_update_time (deref (db_heap db) session) (jiffies k)]>
                  (db_heap db) /\
  (forall t, get_table db' t = get_table db t) /\
  (forall e', sessions (get_expirer db' e') =
     filter (fun x => x <> session) (sessions (get_expirer db e'))
     ++ (if decide (e = e') then [session] else [])) /\
  (forall e', e' <> e -> timer (get_expirer db' e') = timer (get_expirer db e')) /\
  timer (get_expirer db' e) =
    match timer (get_expirer db e) with
    | Some expires => Some expires
    | None =>
        let next_time := u64 (jiffies k + get_timeout k db e) in
        let min_next := u64 (jiffies k + MIN_TIMER_SLEEP) in
        Some (if time_before next_time min_next then min_next else next_time)
    end /\
  config db' = config db /\ sent db' = sent db.
Proof.
  intros Hin db'. subst db'. unfold sessiondb_update_timer.
  apply in_database_iff in Hin. rewrite Hin.
  set (s := set_update_time (deref (db_heap db) session) (jiffies k)).
  set (db1 := list_add_tail session e (list_del session (store db session s))).
  assert (Hs : forall e', sessions (get_expirer db1 e') =
             filter (fun x => x <> session) (sessions (get_expirer db e'))
             ++ (if decide (e = e') then [session] else [])).
  { intros e'. unfold db1, list_add_tail. rewrite get_set_expirer.
    case_decide as E.
    - subst e'. cbn [sessions]. rewrite get_expirer_list_del. cbn [sessions].
      rewrite get_expirer_store. reflexivity.
    - rewrite get_expirer_list_del. cbn [sessions]. rewrite get_expirer_store.
      rewrite app_nil_r. reflexivity. }
  assert (Hm : forall e', timer (get_expirer db1 e') = timer (get_expirer db e')).
  { intros e'. unfold db1, list_add_tail. rewrite get_set_expirer.
    case_decide as E; [subst e'|]; cbn [timer]; rewrite get_expirer_list_del;
      cbn [timer]; rewrite get_expirer_store; reflexivity. }
  assert (Ht : forall t, get_table db1 t = get_table db t).
  { intros t. unfold db1, list_add_tail. rewrite get_table_set_expirer, get_table_list_del.
    apply get_table_store. }
  unfold timer_pending. rewrite Hm.
  destruct (timer (get_expirer db e)) as [expires|] eqn:Et.
  - repeat apply conj; try reflexivity; try assumption.
    + intros e' _. apply Hm.
    + rewrite Hm. exact Et.
  - split; [reflexivity|].
    split; [intros t; rewrite get_table_schedule_timer; apply Ht|].
    split; [intros e'; rewrite sessions_schedule_timer; apply Hs|].
    split.
    { intros e' Hne. unfold schedule_timer. cbv zeta. rewrite get_set_expirer.
      case_decide; [congruence|]. apply Hm. }
    split; [|split; reflexivity].
    unfold schedule_timer. cbv zeta. rewrite get_set_expirer.
    case_decide; [|congruence]. reflexivity.
Qed.

(** A database whose entries keep their pairs *)

Lemma consistent_same_pairs (db db' : sessiondb) :
  (forall t, get_table db' t = get_table db t) ->
  (forall x, is_Some (db_heap db !! x) -> is_Some (db_heap db' !! x)) ->
  (forall x, ipv4 (deref (db_heap db') x) = ipv4 (deref (db_heap db) x) /\
             ipv6 (deref (db_heap db') x) = ipv6 (deref (db_heap db) x)) ->
  consistent db -> consistent db'.
Proof.
  intros Ht Hh Hp (Hcounted & Hsorted & Halloc).
  split; [|split; [intros t; split|]].
  - intros t. rewrite Ht. apply Hcounted.
  - unfold sorted4. rewrite Ht. generalize (proj1 (Hsorted t)). unfold sorted4.
    apply StronglySorted_impl. intros a b _ _.
    rewrite !compare_full4_lex, (proj1 (Hp a)), (proj1 (Hp b)). auto.
  - unfold sorted6. rewrite Ht. generalize (proj2 (Hsorted t)). unfold sorted6.
    apply StronglySorted_impl. intros a b _ _.
    rewrite !compare_full6_lex, (proj2 (Hp a)), (proj2 (Hp b)). auto.
  - intros x [t Hx]. apply Hh, Halloc. exists t. rewrite <- Ht. exact Hx.
Qed.

Lemma deref_store_pairs (heap : gmap nat session_entry) (p x : nat) (s : session_entry) :
  ipv4 s = ipv4 (deref heap p) -> ipv6 s = ipv6 (deref heap p) ->
  ipv4 (deref (<[p := s]> heap) x) = ipv4 (deref heap x) /\
  ipv6 (deref (<[p := s]> heap) x) = ipv6 (deref heap x).
Proof.
  intros H4 H6. rewrite deref_insert. case_decide; [subst x; auto|auto].
Qed.

Lemma is_Some_insert (heap : gmap nat session_entry) (p x : nat) (s : session_entry) :
  is_Some (heap !! x) -> is_Some (<[p := s]> heap !! x).
Proof.
  intros H. destruct (decide (p = x)) as [->|Hne].
  - rewrite lookup_insert_eq. eauto.
  - rewrite lookup_insert_ne by exact Hne. exact H.
Qed.

Lemma update_timer_consistent (k : kernel) (session : nat) (e : expirer_id)
    (db : sessiondb) :
  consistent db -> consistent (sessiondb_update_timer k session e db).
Proof.
  intros Hc.
  destruct (RB_EMPTY_NODE tree6 db session || RB_EMPTY_NODE tree4 db session) eqn:Eempty.
  { unfold sessiondb_update_timer. rewrite Eempty. exact Hc. }
  assert (Hin : in_database db session) by (apply in_database_iff; exact Eempty).
  destruct (update_timer_linked k session e db Hin) as (Hh & Ht & _).
  apply (consistent_same_pairs db); try assumption.
  - intros x. rewrite Hh. apply is_Some_insert.
  - intros x. rewrite Hh. apply deref_store_pairs; reflexivity.
Qed.

(** [sessiondb_update_timer] leaves a session that is not in the database
    alone and changes nothing then.  A session that is in the database gets
    the current time as its time of update and becomes the last entry of
    the list of the expirer, leaving the list it was in; the timer of the
    expirer is pending afterwards.  Each session stays in one list at most,
    every list stays in the order of the updates, none of them later than
    now, and a consistent database stays consistent. *)
Theorem sessiondb_update_timer_queues (k : kernel) (session : nat) (e : expirer_id)
    (db : sessiondb) :
  queued_once db ->
  (forall e', fifo_ordered db (jiffies k) e') ->
  let db' := sessiondb_update_timer k session e db in
  queued_once db' /\
  (forall e', fifo_ordered db' (jiffies k) e') /\
  (consistent db -> consistent db') /\
  (in_database db session ->
   last (sessions (get_expirer db' e)) = Some session /\
   update_time (deref (db_heap db') session) = jiffies k /\
   is_Some (timer (get_expirer db' e)) /\
   forall e', e' <> e -> session ∉ sessions (get_expirer db' e')) /\
  (~ in_database db session -> db' = db).
Proof.
  intros [Hnd Hone] Hfifo db'.
  destruct (RB_EMPTY_NODE tree6 db session || RB_EMPTY_NODE tree4 db session) eqn:Eempty.
  { assert (Hsame : db' = db).
    { unfold db', sessiondb_update_timer. rewrite Eempty. reflexivity. }
    rewrite Hsame. repeat apply conj; auto.
    - intros Hin. apply in_database_iff in Hin. congruence. }
  assert (Hin : in_database db session) by (apply in_database_iff; exact Eempty).
  destruct (update_timer_linked k session e db Hin) as (Hh & Ht & Hs & Hm & Hme & _).
  fold db' in Hh, Ht, Hs, Hm, Hme.
  set (s := set_update_time (deref (db_heap db) session) (jiffies k)) in *.
  assert (Hd : forall x, x <> session -> deref (db_heap db') x = deref (db_heap db) x).
  { intros x Hx. rewrite Hh, deref_insert. case_decide; congruence. }
  assert (Hds : deref (db_heap db') session = s).
  { rewrite Hh, deref_insert. case_decide; congruence. }
  assert (Hmap : forall l, map (fun x => update_time (deref (db_heap db') x))
                             (filter (fun x => x <> session) l)
                           = map (fun x => update_time (deref (db_heap db) x))
                               (filter (fun x => x <> session) l)).
  { intros l. apply map_ext_in. intros x Hx. apply list_elem_of_In in Hx.
    apply list_elem_of_filter in Hx. rewrite Hd by tauto. reflexivity. }
  split; [|split; [|split; [|split]]].
  - split.
    + intros e'. rewrite Hs. apply NoDup_app. repeat apply conj.
      * apply NoDup_filter, Hnd.
      * intros x Hx Hx'. case_decide; [|inversion Hx'].
        apply list_elem_of_singleton in Hx'. subst x. exact (filter_ne_notin _ _ Hx).
      * case_decide; [apply NoDup_singleton|apply NoDup_nil_2].
    + intros e1 e2 x. rewrite !Hs, !elem_of_app, !list_elem_of_filter.
      intros [[Hx H1]|H1] [[Hx' H2]|H2].
      * exact (Hone _ _ _ H1 H2).
      * case_decide; [|inversion H2]. apply list_elem_of_singleton in H2. congruence.
      * case_decide; [|inversion H1]. apply list_elem_of_singleton in H1. congruence.
      * repeat case_decide; try congruence; try inversion H1; inversion H2.
  - intros e'. destruct (Hfifo e') as [Hsorted Hle]. split.
    + rewrite Hs, map_app, Hmap. case_decide.
      * cbn [map]. rewrite Hds. cbn [update_time s set_update_time].
        apply sorted_snoc; [apply sorted_map_filter, Hsorted|].
        intros y Hy. apply list_elem_of_fmap in Hy. destruct Hy as (x & -> & Hx).
        apply list_elem_of_filter in Hx. apply Hle, Hx.
      * cbn [map]. rewrite app_nil_r. apply sorted_map_filter, Hsorted.
    + intros x. rewrite Hs, elem_of_app, list_elem_of_filter. intros [[Hx Hx']|Hx'].
      * rewrite Hd by exact Hx. apply Hle, Hx'.
      * case_decide; [|inversion Hx']. apply list_elem_of_singleton in Hx'. subst x.
        rewrite Hds. cbn. lia.
  - apply update_timer_consistent.
  - intros _. split; [|split; [|split]].
    + rewrite Hs. case_decide; [|congruence]. apply last_snoc.
    + rewrite Hds. reflexivity.
    + rewrite Hme. destruct (timer (get_expirer db e)); eauto.
    + intros e' Hne. rewrite Hs. case_decide; [congruence|].
      rewrite app_nil_r. apply filter_ne_notin.
  - intros Hn. contradiction.
Qed.

(** ** Session database: [cleaner_timer] *)

(** The expiry of a session that is not established *)

Lemma session_expire_destroys (k : kernel) (session : nat) (db : sessiondb) :
  ~ established (deref (db_heap db) session) ->
  exists s',
    (session_expire k session db = (true, db) \/
     session_expire k session db = (true, store db session s')) /\
    ipv4 s' = ipv4 (deref (db_heap db) session) /\
    ipv6 s' = ipv6 (deref (db_heap db) session) /\
    update_time s' = update_time (deref (db_heap db) session) /\
    l4_proto s' = l4_proto (deref (db_heap db) session) /\
    bib s' = bib (deref (db_heap db) session).
Proof.
  intros Hne. unfold session_expire, established in *.
  set (s := deref (db_heap db) session) in *.
  exists (set_state s CLOSED).
  split; [|repeat split].
  destruct (l4_proto s); auto.
  destruct (state s); auto. exfalso. auto.
Qed.

Lemma list_from_head (x : nat) (l : list nat) : list_from x (x :: l) = x :: l.
Proof. simpl. case_decide; [reflexivity|congruence]. Qed.

Lemma u32_small (x : Z) : 0 <= x < 2 ^ 32 -> u32 x = x.
Proof. intros H. unfold u32. apply Z.mod_small. exact H. Qed.

Lemma filter_ne_head (x : nat) (l : list nat) :
  NoDup (x :: l) -> filter (fun y => y <> x) (x :: l) = l.
Proof.
  intros H. apply NoDup_cons in H. destruct H as [Hx _].
  rewrite filter_cons. case_decide; [congruence|].
  apply filter_all. intros y Hy ->. contradiction.
Qed.

(** The database once the count of a table is written *)

Lemma heap_set_count (db : sessiondb) (t : table_id) (c : Z) :
  db_heap (set_count db t c) = db_heap db.
Proof. reflexivity. Qed.

Lemma get_expirer_set_count (db : sessiondb) (t : table_id) (c : Z) (e : expirer_id) :
  get_expirer (set_count db t c) e = get_expirer db e.
Proof. destruct e; reflexivity. Qed.

Lemma get_expirer_set_table (db : sessiondb) (t : table_id) (x : session_table)
    (e : expirer_id) :
  get_expirer (set_table db t x) e = get_expirer db e.
Proof. destruct e; reflexivity. Qed.

Lemma get_expirer_remove (p : nat) (t : table_id) (db : sessiondb) (e : expirer_id) :
  get_expirer (snd (remove p t db)) e =
  mk_expirer (timer (get_expirer db e))
    (filter (fun x => x <> p) (sessions (get_expirer db e))).
Proof.
  unfold remove. cbn [snd]. rewrite get_expirer_list_del, get_expirer_set_table.
  reflexivity.
Qed.

Lemma cleaned_none (k : kernel) (e : expirer_id) (timeout : Z) (rest : list nat) (s : Z)
    (db db' : sessiondb) :
  db_heap db' = db_heap db ->
  (forall t, get_table db' t =
     get_table (set_count db (expirer_table e)
                  (u64 (count (get_table db (expirer_table e)) - s))) t) ->
  (forall e', sessions (get_expirer db' e') = sessions (get_expirer db e')) ->
  (forall e', e' <> e -> timer (get_expirer db' e') = timer (get_expirer db e')) ->
  sessions (get_expirer db e) = rest ->
  timer (get_expirer db' e) =
    match rest with
    | [] => None
    | x :: _ => Some (floored k (u64 (update_time (deref (db_heap db) x) + timeout)))
    end ->
  config db' = config db -> sent db' = sent db ->
  cleaned k e timeout [] rest
    (set_count db (expirer_table e) (count (get_table db (expirer_table e)) - s)) db'.
Proof.
  intros Hh Ht Hs Hm Hq Htimer Hc Hn.
  constructor; rewrite ?heap_set_count.
  - intros x _. rewrite Hh. reflexivity.
  - intros x. rewrite Hh. repeat split.
  - intros x. rewrite Hh. auto.
  - intros t Hne. rewrite Ht, !get_table_set_count. case_decide; [congruence|reflexivity].
  - rewrite Ht, !get_table_set_count. case_decide; [|congruence]. cbn [tree4].
    rewrite without_nil. reflexivity.
  - rewrite Ht, !get_table_set_count. case_decide; [|congruence]. cbn [tree6].
    rewrite without_nil. reflexivity.
  - rewrite Ht, !get_table_set_count. case_decide; [|congruence]. cbn [count length].
    rewrite Z.sub_0_r. reflexivity.
  - rewrite Hs. exact Hq.
  - intros e' Hne. rewrite !get_expirer_set_count, without_nil. auto.
  - exact Htimer.
  - exact Hc.
  - exact Hn.
Qed.

Section CleanerWalk.

Variable k : kernel.
Variable e : expirer_id.
Variable timeout : Z.

Let t := expirer_table e.
Let expired_at (heap : gmap nat session_entry) (x : nat) : bool :=
  negb (time_before (jiffies k) (u64 (update_time (deref heap x) + timeout))).

Lemma cleaner_walk_expires : forall (hooks : list nat) (fuel : nat) (s : Z) (db : sessiondb),
  sessions (get_expirer db e) = hooks ->
  NoDup hooks ->
  (length hooks < fuel)%nat ->
  (forall x, x ∈ hooks -> ~ established (deref (db_heap db) x)) ->
  NoDup (rb_inorder (tree4 (get_table db t))) ->
  NoDup (rb_inorder (tree6 (get_table db t))) ->
  timer (get_expirer db e) = None ->
  0 <= s -> s + Z.of_nat (length hooks) < 2 ^ 32 ->
  exists expired rest db',
    hooks = expired ++ rest /\
    (forall x, x ∈ expired -> expired_at (db_heap db) x = true) /\
    match rest with
    | [] => True
    | x :: _ => expired_at (db_heap db) x = false
    end /\
    cleaner_walk fuel k e timeout hooks s db = Some db' /\
    cleaned k e timeout expired rest (set_count db t (count (get_table db t) - s)) db'.
Proof.
  induction hooks as [|current next IH]; intros fuel s db Hq Hnd Hfuel Hest N4 N6 Htimer Hs0 Hs.
  - exists [], [], (set_count db t (u64 (count (get_table db t) - s))).
    split; [reflexivity|]. split; [intros x Hx; inversion Hx|]. split; [exact I|].
    split; [destruct fuel; reflexivity|].
    apply cleaned_none; try reflexivity; try assumption.
  - destruct fuel as [|fuel]; [cbn [length] in Hfuel; lia|].
    cbn [cleaner_walk]. fold t.
    destruct (time_before (jiffies k)
                (u64 (update_time (deref (db_heap db) current) + timeout))) eqn:Etb.
    + (* the first session has not expired *)
      exists [], (current :: next). eexists.
      split; [reflexivity|]. split; [intros x Hx; inversion Hx|].
      split; [unfold expired_at; rewrite Etb; reflexivity|].
      split; [reflexivity|].
      apply cleaned_none; try reflexivity; try assumption.
      * intros e'. rewrite sessions_schedule_timer, get_expirer_set_count. reflexivity.
      * intros e' Hne. unfold schedule_timer. cbv zeta.
        rewrite get_set_expirer. case_decide; [congruence|].
        rewrite get_expirer_set_count. reflexivity.
      * unfold schedule_timer. cbv zeta. rewrite get_set_expirer.
        case_decide; [|congruence]. reflexivity.
    + (* the first session has expired *)
      apply NoDup_cons in Hnd. destruct Hnd as [Hcur Hnd].
      destruct (session_expire_destroys k current db (Hest current ltac:(left)))
        as (s' & Hexp & F4 & F6 & Fu & Fl & Fb).
      set (db1 := snd (session_expire k current db)).
      assert (Hexp1 : session_expire k current db = (true, db1)).
      { unfold db1. destruct Hexp as [-> | ->]; reflexivity. }
      assert (Hdb1 : db1 = db \/ db1 = store db current s').
      { unfold db1. destruct Hexp as [-> | ->]; auto. }
      rewrite Hexp1. rewrite remove_eta.
      set (db2 := snd (remove current t db1)).
      assert (T1 : forall t', get_table db1 t' = get_table db t').
      { intros t'. destruct Hdb1 as [-> | ->]; [reflexivity|apply get_table_store]. }
      assert (E1 : forall e', get_expirer db1 e' = get_expirer db e').
      { intros e'. destruct Hdb1 as [-> | ->]; [reflexivity|apply get_expirer_store]. }
      assert (D1 : forall x, x <> current ->
                 deref (db_heap db1) x = deref (db_heap db) x).
      { intros x Hx. destruct Hdb1 as [-> | ->]; [reflexivity|].
        cbn [store set_heap db_heap]. rewrite deref_insert. case_decide; congruence. }
      assert (P1 : forall x,
                 ipv4 (deref (db_heap db1) x) = ipv4 (deref (db_heap db) x) /\
                 ipv6 (deref (db_heap db1) x) = ipv6 (deref (db_heap db) x) /\
                 update_time (deref (db_heap db1) x) = update_time (deref (db_heap db) x) /\
                 l4_proto (deref (db_heap db1) x) = l4_proto (deref (db_heap db) x) /\
                 bib (deref (db_heap db1) x) = bib (deref (db_heap db) x)).
      { intros x. destruct Hdb1 as [-> | ->]; [repeat split|].
        cbn [store set_heap db_heap]. rewrite deref_insert.
        case_decide; [subst x; auto|repeat split]. }
      assert (A1 : forall x, is_Some (db_heap db !! x) -> is_Some (db_heap db1 !! x)).
      { intros x. destruct Hdb1 as [-> | ->]; [auto|]. apply is_Some_insert. }
      assert (H2 : db_heap db2 = db_heap db1) by reflexivity.
      assert (T2 : forall t', get_table db2 t' =
                 if decide (t = t')
                 then mk_table (rb_erase current (tree6 (get_table db t)))
                        (rb_erase current (tree4 (get_table db t)))
                        (count (get_table db t))
                 else get_table db t').
      { intros t'. unfold db2. rewrite remove_table, !T1. reflexivity. }
      assert (E2 : forall e', get_expirer db2 e' =
                 mk_expirer (timer (get_expirer db e'))
                   (filter (fun x => x <> current) (sessions (get_expirer db e')))).
      { intros e'. unfold db2. rewrite get_expirer_remove, E1. reflexivity. }
      assert (Q2 : sessions (get_expirer db2 e) = next).
      { rewrite E2. cbn [sessions]. rewrite Hq. apply filter_ne_head.
        apply NoDup_cons. split; assumption. }
      assert (Hnext : match next with
                      | [] => []
                      | next_hook :: _ => list_from next_hook (sessions (get_expirer db2 e))
                      end = next).
      { rewrite Q2. destruct next as [|n next']; [reflexivity|apply list_from_head]. }
      cbn beta iota. fold db2. rewrite Hnext.
      cbn [length] in Hfuel, Hs.
      rewrite (u32_small (s + 1)) by lia.
      assert (Tt : get_table db2 t = mk_table (rb_erase current (tree6 (get_table db t)))
                                       (rb_erase current (tree4 (get_table db t)))
                                       (count (get_table db t))).
      { rewrite T2. case_decide; [reflexivity|congruence]. }
      destruct (IH fuel (s + 1) db2) as (expired & rest & db' & Hsplit & Hexpd & Hstop
                                         & Hwalk & C); try assumption; try lia.
      { intros x Hx. rewrite H2, D1; [apply Hest; right; exact Hx|].
        intros ->. contradiction. }
      { rewrite Tt. cbn [tree4]. rewrite rb_erase_inorder by exact N4.
        apply NoDup_filter, N4. }
      { rewrite Tt. cbn [tree6]. rewrite rb_erase_inorder by exact N6.
        apply NoDup_filter, N6. }
      { rewrite E2. cbn [timer]. exact Htimer. }
      assert (Hin : forall x, x ∈ expired ++ rest -> x <> current).
      { intros x Hx ->. rewrite <- Hsplit in Hx. contradiction. }
      exists (current :: expired), rest, db'.
      split; [rewrite Hsplit; reflexivity|]. split; [|split; [|split; [exact Hwalk|]]].
      * intros x Hx. apply elem_of_cons in Hx. destruct Hx as [->|Hx].
        { unfold expired_at. rewrite Etb. reflexivity. }
        specialize (Hexpd x Hx). unfold expired_at in *.
        rewrite H2, D1 in Hexpd; [exact Hexpd|].
        apply Hin. apply elem_of_app. left. exact Hx.
      * destruct rest as [|r rest']; [exact I|].
        unfold expired_at in *. rewrite H2, D1 in Hstop; [exact Hstop|].
        apply Hin. apply elem_of_app. right. left.
      * destruct C as [Ck Cf Ca Co C4 C6 Cc Cs Cl Ct Cg Cn].
        rewrite heap_set_count in *.
        constructor.
        -- intros x Hx. rewrite not_elem_of_cons in Hx. destruct Hx as [Hx Hx'].
           rewrite (Ck x Hx'), H2. apply D1, Hx.
        -- intros x. specialize (Cf x). specialize (P1 x). rewrite H2 in Cf.
           destruct Cf as (a1 & a2 & a3 & a4 & a5), P1 as (b1 & b2 & b3 & b4 & b5).
           repeat split;
             [exact (eq_trans a1 b1)|exact (eq_trans a2 b2)|exact (eq_trans a3 b3)
             |exact (eq_trans a4 b4)|exact (eq_trans a5 b5)].
        -- intros x Hx. apply Ca. rewrite H2. apply A1, Hx.
        -- intros t' Hne. rewrite (Co t' Hne), !get_table_set_count.
           fold t in Hne. case_decide; [congruence|].
           rewrite T2. case_decide; [congruence|reflexivity].
        -- rewrite C4, !get_table_set_count. fold t. case_decide; [|congruence].
           cbn [tree4]. rewrite Tt. cbn [tree4].
           rewrite rb_erase_inorder by exact N4. apply without_cons.
        -- rewrite C6, !get_table_set_count. fold t. case_decide; [|congruence].
           cbn [tree6]. rewrite Tt. cbn [tree6].
           rewrite rb_erase_inorder by exact N6. apply without_cons.
        -- rewrite Cc, !get_table_set_count. fold t. case_decide; [|congruence].
           cbn [count]. rewrite Tt. cbn [count length]. f_equal. lia.
        -- exact Cs.
        -- intros e' Hne. destruct (Cl e' Hne) as [Cl1 Cl2].
           rewrite !get_expirer_set_count in *. rewrite E2 in Cl1, Cl2.
           cbn [sessions timer] in Cl1, Cl2. split; [|exact Cl2].
           rewrite Cl1. apply without_cons.
        -- rewrite Ct. destruct rest as [|r rest']; [reflexivity|].
           rewrite H2. destruct (P1 r) as (_ & _ & -> & _). reflexivity.
        -- rewrite Cg. destruct Hdb1 as [-> | ->]; reflexivity.
        -- rewrite Cn. destruct Hdb1 as [-> | ->]; reflexivity.
Qed.

End CleanerWalk.

Lemma consistent_unlinked (t : table_id) (removed : list nat) (db db' : sessiondb) :
  (forall x, ipv4 (deref (db_heap db') x) = ipv4 (deref (db_heap db) x) /\
             ipv6 (deref (db_heap db') x) = ipv6 (deref (db_heap db) x)) ->
  (forall x, is_Some (db_heap db !! x) -> is_Some (db_heap db' !! x)) ->
  (forall t', t' <> t -> get_table db' t' = get_table db t') ->
  rb_inorder (tree4 (get_table db' t)) = without removed (rb_inorder (tree4 (get_table db t))) ->
  rb_inorder (tree6 (get_table db' t)) = without removed (rb_inorder (tree6 (get_table db t))) ->
  count (get_table db' t) = u64 (count (get_table db t) - Z.of_nat (length removed)) ->
  NoDup removed ->
  (forall x, x ∈ removed -> x ∈ rb_inorder (tree4 (get_table db t))) ->
  consistent db -> consistent db'.
Proof.
  intros Hp Ha Bo B4 B6 Bc Hnd Hin (Hcounted & Hsorted & Halloc).
  destruct (Hcounted t) as [(N6 & N4 & Hsame & Hc & Hsz) Hcount].
  assert (Hlen : (length (without removed (rb_inorder (tree4 (get_table db t))))
                  + length removed = length (rb_inorder (tree4 (get_table db t))))%nat)
    by (apply length_without; assumption).
  assert (Hu : u64 (count (get_table db t) - Z.of_nat (length removed))
               = rb_size (tree4 (get_table db' t))).
  { unfold rb_size in *. rewrite B4, Hcount. unfold u64. rewrite Z.mod_small; lia. }
  split; [|split; [intros t'; split|]].
  - intros t'. destruct (decide (t' = t)) as [->|Hne]; [|rewrite Bo by exact Hne; auto].
    split; [|rewrite Bc; exact Hu].
    unfold table_ok. rewrite Bc, Hu. unfold rb_size in *. rewrite B4, B6.
    repeat apply conj; try lia; try (apply NoDup_filter; assumption).
    intros x. rewrite !elem_of_without, Hsame. reflexivity.
  - assert (S4 : StronglySorted
             (fun a b => compare_full4 (deref (db_heap db) b) (ipv4 (deref (db_heap db) a)) < 0)
             (rb_inorder (tree4 (get_table db' t')))).
    { destruct (decide (t' = t)) as [->|Hne].
      - rewrite B4. apply StronglySorted_filter, Hsorted.
      - rewrite Bo by exact Hne. apply Hsorted. }
    revert S4. unfold sorted4. apply StronglySorted_impl. intros a b _ _.
    rewrite !compare_full4_lex, (proj1 (Hp a)), (proj1 (Hp b)). auto.
  - assert (S6 : StronglySorted
             (fun a b => compare_full6 (deref (db_heap db) b) (ipv6 (deref (db_heap db) a)) < 0)
             (rb_inorder (tree6 (get_table db' t')))).
    { destruct (decide (t' = t)) as [->|Hne].
      - rewrite B6. apply StronglySorted_filter, Hsorted.
      - rewrite Bo by exact Hne. apply Hsorted. }
    revert S6. unfold sorted6. apply StronglySorted_impl. intros a b _ _.
    rewrite !compare_full6_lex, (proj2 (Hp a)), (proj2 (Hp b)). auto.
  - intros x [t' Hx]. apply Ha, Halloc. exists t'.
    destruct (decide (t' = t)) as [->|Hne]; [|rewrite Bo in Hx by exact Hne; exact Hx].
    rewrite B4, B6, !elem_of_without in Hx. tauto.
Qed.

Lemma time_before_lt (a b : Z) :
  0 <= a < 2 ^ 62 -> 0 <= b < 2 ^ 63 ->
  time_before a b = true <-> a < b.
Proof.
  intros Ha Hb. unfold time_before, u64. rewrite Z.leb_le.
  destruct (Z_lt_le_dec a b) as [Hlt|Hge].
  - replace ((a - b) mod 2 ^ 64) with (a - b + 2 ^ 64).
    + split; lia.
    + apply Z.mod_unique with (-1); lia.
  - rewrite Z.mod_small by lia. split; lia.
Qed.

Lemma set_count_same (db : sessiondb) (t : table_id) :
  set_count db t (count (get_table db t) - 0) = db.
Proof.
  unfold set_count. rewrite Z.sub_0_r, table_eta. apply set_table_same.
Qed.

(** [cleaner_timer] on an expirer whose list holds each session once and no
    established TCP session: the timer function returns; it has removed
    the sessions at the head of the list whose time of update plus the
    timeout that [get_timeout] reads is not after now, and stopped at the
    first that has not expired.  The removed sessions have left the
    indexes of the table of the expirer and every list, the count is lower
    by their number, and the timer is set again for the session it stopped
    at, if any, no sooner than [MIN_TIMER_SLEEP] from now.  When the list
    is in the order of the updates no expired session stays in it, and a
    consistent database whose table links the listed sessions stays
    consistent. *)
Theorem cleaner_timer_expires (k : kernel) (e : expirer_id) (db : sessiondb) :
  let queue := sessions (get_expirer db e) in
  let timeout := get_timeout k db e in
  let t := expirer_table e in
  NoDup queue ->
  Z.of_nat (length queue) < 2 ^ 32 ->
  (forall x, x ∈ queue -> ~ established (deref (db_heap db) x)) ->
  table_ok (get_table db t) ->
  exists expired rest db',
    queue = expired ++ rest /\
    (forall x, x ∈ expired ->
       time_before (jiffies k) (u64 (update_time (deref (db_heap db) x) + timeout)) = false) /\
    match rest with
    | [] => True
    | x :: _ =>
        time_before (jiffies k) (u64 (update_time (deref (db_heap db) x) + timeout)) = true
    end /\
    cleaner_timer k e db = Some db' /\
    cleaned k e timeout expired rest db db' /\
    (fifo_ordered db (jiffies k) e ->
     0 <= timeout < 2 ^ 62 -> jiffies k < 2 ^ 62 ->
     (forall x, x ∈ queue -> 0 <= update_time (deref (db_heap db) x)) ->
     forall x, x ∈ rest ->
       time_before (jiffies k) (u64 (update_time (deref (db_heap db) x) + timeout)) = true) /\
    (consistent db ->
     (forall x, x ∈ queue -> x ∈ rb_inorder (tree4 (get_table db t))) ->
     consistent db').
Proof.
  intros queue timeout t Hnd Hlen Hest Hok.
  destruct (table_ok_inv _ Hok) as (N6 & N4 & _ & _).
  set (db0 := set_expirer db e (mk_expirer None queue)).
  assert (T0 : forall t', get_table db0 t' = get_table db t')
    by (intros t'; apply get_table_set_expirer).
  assert (E0 : forall e', get_expirer db0 e' =
             if decide (e = e') then mk_expirer None queue else get_expirer db e')
    by (intros e'; apply get_set_expirer).
  assert (Q0 : sessions (get_expirer db0 e) = queue).
  { rewrite E0. case_decide; [reflexivity|congruence]. }
  destruct (cleaner_walk_expires k e timeout queue (2 * length queue + 1) 0 db0)
    as (expired & rest & db' & Hsplit & Hexp & Hstop & Hwalk & C); try assumption; try lia.
  { rewrite E0. case_decide; [reflexivity|congruence]. }
  rewrite set_count_same in C.
  change (db_heap db0) with (db_heap db) in Hexp, Hstop.
  assert (Hexp' : forall x, x ∈ expired ->
            time_before (jiffies k) (u64 (update_time (deref (db_heap db) x) + timeout))
            = false).
  { intros x Hx. apply negb_true_iff. exact (Hexp x Hx). }
  assert (Hstop' : match rest with
                   | [] => True
                   | x :: _ =>
                       time_before (jiffies k)
                         (u64 (update_time (deref (db_heap db) x) + timeout)) = true
                   end).
  { destruct rest as [|r rest']; [exact I|]. apply negb_false_iff. exact Hstop. }
  destruct C as [Ck Cf Ca Co C4 C6 Cc Cs Cl Ct Cg Cn].
  change (db_heap db0) with (db_heap db) in *.
  rewrite T0 in C4, C6, Cc.
  assert (C' : cleaned k e timeout expired rest db db').
  { constructor; try assumption.
    intros e' Hne. destruct (Cl e' Hne) as [Cl1 Cl2]. rewrite E0 in Cl1, Cl2.
    destruct (decide (e = e')); [congruence|]. auto. }
  exists expired, rest, db'.
  split; [exact Hsplit|]. split; [exact Hexp'|]. split; [exact Hstop'|].
  split.
  { unfold cleaner_timer. cbv zeta. fold queue. fold db0. rewrite Q0. exact Hwalk. }
  split; [exact C'|]. split.
  - intros [Hsorted Hle] Hto Hj Hpos x Hx.
    destruct rest as [|r rest']; [inversion Hx|].
    assert (Hr : r ∈ queue) by (rewrite Hsplit; apply elem_of_app; right; left).
    assert (Hxq : x ∈ queue) by (rewrite Hsplit; apply elem_of_app; right; exact Hx).
    pose proof (Hpos r Hr). pose proof (Hpos x Hxq).
    pose proof (Hle r Hr). pose proof (Hle x Hxq).
    unfold u64 in *. rewrite Z.mod_small in Hstop' by lia. rewrite Z.mod_small by lia.
    apply time_before_lt; [lia|lia|]. apply time_before_lt in Hstop'; [|lia|lia].
    apply elem_of_cons in Hx. destruct Hx as [->|Hx]; [exact Hstop'|].
    fold queue in Hsorted. rewrite Hsplit, map_app in Hsorted.
    apply StronglySorted_app_iff in Hsorted. destruct Hsorted as (_ & Hsorted & _).
    cbn [map] in Hsorted. apply StronglySorted_cons_iff in Hsorted.
    destruct Hsorted as [_ Hr'].
    assert (update_time (deref (db_heap db) r) <= update_time (deref (db_heap db) x)).
    { apply Hr'. apply list_elem_of_fmap. exists x. auto. }
    lia.
  - intros Hc Hlinked.
    apply (consistent_unlinked t expired db db'); try assumption.
    + intros x. destruct (Cf x) as (a & b & _). auto.
    + rewrite Hsplit in Hnd. apply NoDup_app in Hnd. tauto.
    + intros x Hx. apply Hlinked. rewrite Hsplit. apply elem_of_app. left. exact Hx.
Qed.

(** ** The reachable states, iteration, and the tuple of step 1 *)

(** The database from [sessiondb_init] on *)

Lemma consistent_init (k : kernel) (beyond : Z -> Z) : consistent (sessiondb_init k beyond).
Proof.
  split; [|split; [intros t; split|]].
  - intros t. split; [|destruct t; reflexivity].
    destruct t; unfold table_ok; cbn [get_table sessiondb_init session_table_udp
      session_table_tcp session_table_icmp empty_table tree6 tree4 count rb_inorder];
      unfold rb_size; cbn [rb_inorder length];
      (repeat apply conj; [apply NoDup_nil_2|apply NoDup_nil_2|reflexivity|lia|lia|lia]).
  - destruct t; constructor.
  - destruct t; constructor.
  - intros x [t Hx]. destruct t, Hx as [Hx|Hx]; inversion Hx.
Qed.

Lemma consistent_store_fresh (db : sessiondb) (s : session_entry) :
  consistent db -> consistent (store db (fresh (dom (db_heap db))) s).
Proof.
  intros Hc. pose proof Hc as (Hcounted & Hsorted & Halloc).
  pose proof (fresh_unlinked db Halloc) as Hfresh.
  set (p := fresh (dom (db_heap db))) in *.
  assert (Hd : forall t x,
            x ∈ rb_inorder (tree4 (get_table db t)) \/ x ∈ rb_inorder (tree6 (get_table db t)) ->
            deref (<[p := s]> (db_heap db)) x = deref (db_heap db) x).
  { intros t x Hx. rewrite deref_insert. case_decide; [|reflexivity]. subst x.
    exfalso. apply Hfresh. exists t. tauto. }
  split; [|split; [intros t; split|]].
  - intros t. rewrite get_table_store. apply Hcounted.
  - unfold sorted4. rewrite get_table_store. apply (sorted4_heap db); [|apply Hsorted].
    intros x Hx. apply (Hd t). auto.
  - unfold sorted6. rewrite get_table_store. apply (sorted6_heap db); [|apply Hsorted].
    intros x Hx. apply (Hd t). auto.
  - intros x [t Hx]. rewrite !get_table_store in Hx.
    cbn [store set_heap db_heap]. apply is_Some_insert. apply Halloc. exists t. exact Hx.
Qed.

Lemma set_config_tables (k : kernel) (type : sessiondb_type) (size value : Z)
    (db : sessiondb) :
  let db' := snd (sessiondb_set_config k type size value db) in
  db_heap db' = db_heap db /\ forall t, get_table db' t = get_table db t.
Proof.
  unfold sessiondb_set_config.
  repeat match goal with
  | |- context [if ?b then _ else _] => destruct b
  | |- context [match ?x with UDP_TIMEOUT => _ | _ => _ end] => destruct x
  end; cbn [snd]; split; try reflexivity; intros t; destruct t; reflexivity.
Qed.

Section ReachableFacts.

Variable pool6_get : in6_addr -> Z * ipv6_prefix.
Variable pool6_peek : Z * ipv6_prefix.

(** Every database that the functions of the module make of the one
    [sessiondb_init] builds is consistent: no index links an entry
    twice, the two indexes of a table link the same entries in the order
    of their comparison callbacks, each count is the number of entries of
    its table, and what is linked is allocated. *)
Theorem reachable_consistent (db : sessiondb) :
  reachable pool6_get pool6_peek db -> consistent db.
Proof.
  induction 1 as [k beyond|s db _ IH Hroom|k tuple bib db _ IH Hroom
                 |k tuple bib db _ IH Hroom|bib db _ IH|addr4 db _ IH|prefix db _ IH
                 |db _ IH|k type size value db _ IH|k session e db _ IH].
  - apply consistent_init.
  - pose proof IH as (_ & _ & Halloc).
    apply sessiondb_add_consistent.
    + apply consistent_store_fresh, IH.
    + cbn [store set_heap db_heap]. rewrite lookup_insert_eq. eauto.
    + intros [t Hx]. rewrite !get_table_store in Hx.
      apply (fresh_unlinked db Halloc). exists t. exact Hx.
    + intros t. rewrite get_table_store. apply Hroom.
  - apply get_or_create_ipv6_consistent; assumption.
  - apply get_or_create_ipv4_consistent; assumption.
  - apply delete_by_bib_consistent, IH.
  - apply delete_by_ipv4_consistent, IH.
  - apply delete_by_ipv6_prefix_consistent, IH.
  - apply flush_consistent, IH.
  - destruct (set_config_tables k type size value db) as [Hh Ht].
    apply (consistent_same_pairs db); try assumption.
    + intros x. rewrite Hh. auto.
    + intros x. rewrite Hh. auto.
  - apply update_timer_consistent, IH.
Qed.

End ReachableFacts.

(** Iteration *)

Section ForEachFacts.

Context {A : Type}.
Variable func : session_entry -> A -> Z * A.

Lemma for_each_loop_failed (heap : gmap nat session_entry) (nodes : list nat) (error : Z)
    (arg : A) :
  error <> 0 -> for_each_loop func heap nodes error arg = (error, arg).
Proof.
  intros H. destruct nodes as [|node rest]; [reflexivity|]. cbn [for_each_loop].
  destruct (Z.eqb_spec error 0); [contradiction|reflexivity].
Qed.

(** What the loop has done: it called [func] on the entries [visited],
    the first entries of the walk, and [func] answered zero on each of
    them but the last one. *)
Lemma for_each_loop_spec (heap : gmap nat session_entry) (nodes : list nat) : forall arg,
  exists visited rest,
    nodes = visited ++ rest /\
    snd (for_each_loop func heap nodes 0 arg)
      = fold_left (fun a x => snd (func (deref heap x) a)) visited arg /\
    (fst (for_each_loop func heap nodes 0 arg) = 0 -> rest = []) /\
    (fst (for_each_loop func heap nodes 0 arg) <> 0 ->
     exists before x, visited = before ++ [x] /\
       fst (func (deref heap x)
              (fold_left (fun a x => snd (func (deref heap x) a)) before arg))
       = fst (for_each_loop func heap nodes 0 arg)) /\
    (forall before x after, visited = before ++ x :: after -> after <> [] ->
       fst (func (deref heap x)
              (fold_left (fun a x => snd (func (deref heap x) a)) before arg)) = 0).
Proof.
  induction nodes as [|node nodes IH]; intros arg.
  - exists [], []. cbn. repeat split; try congruence.
    intros before x after H. destruct before; discriminate.
  - cbn [for_each_loop]. cbn [Z.eqb negb].
    destruct (func (deref heap node) arg) as [error arg'] eqn:Ef.
    destruct (Z.eqb_spec error 0) as [->|Hne].
    + destruct (IH arg') as (visited & rest & Hsplit & Hsnd & Hok & Hfail & Hmid).
      exists (node :: visited), rest. cbn [fold_left]. rewrite Ef. cbn [snd].
      split; [rewrite Hsplit; reflexivity|]. split; [exact Hsnd|].
      split; [exact Hok|]. split.
      * intros H. destruct (Hfail H) as (before & x & -> & Hx).
        exists (node :: before), x. split; [reflexivity|].
        cbn [fold_left]. rewrite Ef. exact Hx.
      * intros before x after H Hafter. destruct before as [|b before].
        -- injection H as <- _. cbn [fold_left]. rewrite Ef. reflexivity.
        -- injection H as <- H. cbn [fold_left]. rewrite Ef. cbn [snd].
           apply (Hmid before x after H Hafter).
    + rewrite for_each_loop_failed by exact Hne. cbn [fst snd].
      exists [node], nodes. cbn [fold_left]. rewrite Ef. cbn [snd].
      split; [reflexivity|]. split; [reflexivity|]. split; [contradiction|]. split.
      * intros _. exists [], node. split; [reflexivity|]. cbn [fold_left]. rewrite Ef.
        reflexivity.
      * intros before x after H Hafter. destruct before as [|b before].
        -- injection H as _ H. congruence.
        -- injection H as _ H. destruct before; discriminate.
Qed.

Lemma for_each_loop_all (heap : gmap nat session_entry) (nodes : list nat) : forall arg,
  (forall s a, fst (func s a) = 0) ->
  for_each_loop func heap nodes 0 arg
  = (0, fold_left (fun a x => snd (func (deref heap x) a)) nodes arg).
Proof.
  induction nodes as [|node nodes IH]; intros arg Hok; [reflexivity|].
  cbn [for_each_loop fold_left Z.eqb negb].
  specialize (Hok (deref heap node) arg) as H.
  destruct (func (deref heap node) arg) as [error arg']. cbn [fst snd] in *. subst error.
  apply IH, Hok.
Qed.

End ForEachFacts.

Lemma fold_left_count {B : Type} (l : list B) (n : Z) :
  fold_left (fun a _ => a + 1) l n = n + Z.of_nat (length l).
Proof.
  revert n. induction l as [|x l IH]; intros n; [cbn; lia|].
  cbn [fold_left length]. rewrite IH. lia.
Qed.

(** [sessiondb_for_each] calls the function on the first entries of the
    IPv4 index of the table, in the order of the index, with what the calls
    before left in [arg]: it goes on while the function answers zero and
    returns its first answer that is not zero, or zero after the last
    entry.  With a function that counts one for each entry, never failing,
    the total in a consistent database is what [sessiondb_count] reports. *)
Theorem sessiondb_for_each_visits {A : Type} (func : session_entry -> A -> Z * A)
    (l4_proto : l4_protocol) (t : table_id) (arg : A) (db : sessiondb) :
  get_session_table l4_proto = Some t ->
  let r := sessiondb_for_each func l4_proto arg db in
  let step := fun a x => snd (func (deref (db_heap db) x) a) in
  (exists visited rest,
     rb_inorder (tree4 (get_table db t)) = visited ++ rest /\
     snd r = fold_left step visited arg /\
     (fst r = 0 -> rest = []) /\
     (fst r <> 0 ->
      exists before x, visited = before ++ [x] /\
        fst (func (deref (db_heap db) x) (fold_left step before arg)) = fst r) /\
     (forall before x after, visited = before ++ x :: after -> after <> [] ->
        fst (func (deref (db_heap db) x) (fold_left step before arg)) = 0)) /\
  ((forall s a, fst (func s a) = 0) ->
   r = (0, fold_left step (rb_inorder (tree4 (get_table db t))) arg)) /\
  (consistent db ->
   sessiondb_count l4_proto db
   = (0, Some (snd (sessiondb_for_each (fun _ n => (0, n + 1)) l4_proto 0 db)))).
Proof.
  intros Ht r step. subst r. unfold sessiondb_for_each, sessiondb_count. rewrite Ht.
  split; [apply for_each_loop_spec|]. split; [apply for_each_loop_all|].
  intros Hc. rewrite for_each_loop_all by reflexivity. cbn [snd].
  rewrite fold_left_count. destruct (proj1 Hc t) as [_ ->]. reflexivity.
Qed.

(** The tuple that step 1 builds *)

Section TupleFacts.

Variables is_icmp4_info is_icmp4_error is_icmp6_info is_icmp6_error : Z -> bool.
Variable hdr_iterator_last : Z * list Z -> Z * list Z.

Let step1 := determine_in_tuple is_icmp4_info is_icmp4_error is_icmp6_info
               is_icmp6_error hdr_iterator_last.

(** [determine_in_tuple] continues or drops.  For a packet whose
    transport protocol is known, the tuple of a step that continues has
    the network protocol of the packet and two addresses of that family,
    a transport protocol that is not NONE (the one of the packet unless
    the packet is an ICMP message), and, when it is a 3-tuple, the same
    identifier at both ends.  For a packet whose transport protocol is
    NONE the step continues and leaves the tuple as it was. *)
Theorem determine_in_tuple_well_formed (skb : sk_buff) (t : tuple) :
  (fst (step1 skb t) = VER_CONTINUE \/ fst (step1 skb t) = VER_DROP) /\
  (skb_l4_proto skb = L4PROTO_NONE -> step1 skb t = (VER_CONTINUE, t)) /\
  (skb_l4_proto skb <> L4PROTO_NONE -> fst (step1 skb t) = VER_CONTINUE ->
   tuple_of_packet skb (snd (step1 skb t))).
Proof.
  unfold step1, determine_in_tuple, tuple_of_packet, is_3_tuple.
  destruct (skb_l3_proto skb), (skb_l4_proto skb);
    (split; [|split; [try discriminate; intros _; reflexivity|intros Hn]]);
    try congruence;
    unfold ipv4_udp, ipv4_tcp, ipv4_icmp_info, ipv4_icmp_err,
      ipv6_udp, ipv6_tcp, ipv6_icmp_info, ipv6_icmp_err;
    repeat match goal with
    | |- context [let '(_, _) := ?x in _] => destruct x
    | |- context [if ?b then _ else _] => destruct b
    end; cbn; auto;
    intros; repeat split; try discriminate; try congruence; try reflexivity;
    intros; rewrite ?bool_decide_eq_true in *; try discriminate; try congruence.
Qed.

End TupleFacts.

(** ** Session database: lookups after a removal *)

(** Lookups after a removal *)

Lemma same_bytes_trans (n : nat) (a b c : list Z) :
  same_bytes n a b -> same_bytes n b c -> same_bytes n a c.
Proof. intros H1 H2 i Hi. rewrite H1, H2 by exact Hi. reflexivity. Qed.

Lemma same_bytes_sym (n : nat) (a b : list Z) : same_bytes n a b -> same_bytes n b a.
Proof. intros H i Hi. symmetry. apply H, Hi. Qed.

Lemma compare_local4_same (s : session_entry) (a b : ipv4_tuple_address) :
  same_bytes 4 (a4_address a) (a4_address b) -> a4_l4_id a = a4_l4_id b ->
  compare_local4 s a = 0 -> compare_local4 s b = 0.
Proof.
  intros Hb Hp. rewrite !compare_local4_zero. intros [H1 H2]. split; [|congruence].
  apply (same_bytes_trans 4 _ (a4_address a)); [apply same_bytes_sym, Hb|exact H1].
Qed.

Lemma compare_full4_local (s : session_entry) (pair : ipv4_pair) :
  compare_full4 s pair = 0 -> compare_local4 s (p4_local pair) = 0.
Proof. rewrite compare_full4_zero, compare_local4_zero. tauto. Qed.

Lemma compare_addrs4_local (s : session_entry) (pair : ipv4_pair) :
  compare_addrs4 s pair = 0 -> compare_local4 s (p4_local pair) = 0.
Proof. rewrite compare_addrs4_zero, compare_local4_zero. tauto. Qed.

(** After [sessiondb_delete_by_bib] on a consistent database no session of
    the BIB entry is left to find: a lookup by an IPv4 pair whose local
    address and port are those of the entry answers minus [ENOENT], and
    [sessiondb_allow] answers false for a tuple of the entry's protocol
    with that destination.  A session with another local address or port
    that a lookup found before is still what the lookup finds. *)
Theorem deleted_by_bib_not_found (bib : bib_entry) (db : sessiondb) (t : table_id) :
  consistent db ->
  get_session_table (bib_l4_proto bib) = Some t ->
  let db' := snd (sessiondb_delete_by_bib bib db) in
  (forall pair,
     same_bytes 4 (a4_address (p4_local pair)) (a4_address (bib_ipv4 bib)) ->
     a4_l4_id (p4_local pair) = a4_l4_id (bib_ipv4 bib) ->
     sessiondb_get_by_ipv4 pair (bib_l4_proto bib) db' = (- ENOENT, None)) /\
  (forall tuple,
     t_l4_proto tuple = bib_l4_proto bib ->
     same_bytes 4 (ipv4_of (t_addr (t_dst tuple))) (a4_address (bib_ipv4 bib)) ->
     t_l4_id (t_dst tuple) = a4_l4_id (bib_ipv4 bib) ->
     sessiondb_allow tuple db' = false) /\
  (forall pair x,
     sessiondb_get_by_ipv4 pair (bib_l4_proto bib) db = (0, Some x) ->
     compare_local4 (deref (db_heap db) x) (bib_ipv4 bib) <> 0 ->
     sessiondb_get_by_ipv4 pair (bib_l4_proto bib) db' = (0, Some x)).
Proof.
  intros Hc Ht db'.
  pose proof (delete_by_bib_consistent bib db Hc) as Hc'. fold db' in Hc'.
  assert (Hdb' : db' = pass_matching compare_local4 (bib_ipv4 bib) t db).
  { unfold db'. rewrite (delete_by_bib_pass bib db t Ht). reflexivity. }
  destruct (pass_matching_exact compare_local4 (bib_ipv4 bib) t db (proj1 (proj1 Hc t)))
    as (removed & Hnd & Hrem & _ & Hsound & Hcomplete).
  rewrite <- Hdb' in Hrem.
  specialize (Hcomplete (sorted4_signs_local db t (proj1 (proj1 (proj2 Hc) t))
                           (bib_ipv4 bib))).
  destruct Hrem as [Bh _ B4 _ _ _ _ _ _].
  pose proof (proj1 (proj1 (proj2 Hc') t)) as Hs'.
  assert (Hleft : forall x, x ∈ rb_inorder (tree4 (get_table db' t)) ->
            x ∈ rb_inorder (tree4 (get_table db t)) /\
            compare_local4 (deref (db_heap db) x) (bib_ipv4 bib) <> 0).
  { intros x Hx. rewrite B4 in Hx. apply elem_of_without in Hx. destruct Hx as [Hn Hx].
    split; [exact Hx|]. intros Hz. apply Hn. apply Hcomplete; assumption. }
  split; [|split].
  - intros pair Hb Hp. unfold sessiondb_get_by_ipv4. rewrite Ht.
    destruct (rbtree_find _ _ pair _) as [x|] eqn:E; [|reflexivity]. exfalso.
    destruct (Hleft x (rbtree_find_in _ _ _ _ _ E)) as [_ Hn]. apply Hn.
    apply rbtree_find_zero in E. rewrite Bh in E.
    apply (compare_local4_same _ (p4_local pair)); [exact Hb|exact Hp|].
    apply compare_full4_local, E.
  - intros tuple Hl4 Hb Hp. unfold sessiondb_allow. rewrite Hl4, Ht.
    destruct (rbtree_find _ _ _ _) as [x|] eqn:E; [|reflexivity]. exfalso.
    destruct (Hleft x (rbtree_find_in _ _ _ _ _ E)) as [_ Hn]. apply Hn.
    apply rbtree_find_zero in E. rewrite Bh in E.
    apply (compare_local4_same _ (p4_local (tuple_to_ipv4_pair tuple))); [exact Hb|exact Hp|].
    apply compare_addrs4_local, E.
  - intros pair x. unfold sessiondb_get_by_ipv4. rewrite Ht.
    destruct (rbtree_find _ _ pair (tree4 (get_table db t))) as [y|] eqn:E; [|discriminate].
    intros [= ->] Hn.
    assert (Hx' : x ∈ rb_inorder (tree4 (get_table db' t))).
    { rewrite B4. apply elem_of_without. split.
      - intros Hr. apply Hn. apply Hsound, Hr.
      - eapply rbtree_find_in. exact E. }
    apply rbtree_find_zero in E. rewrite <- Bh in E.
    rewrite (proj2 (rbtree_find_Some _ _ _ _ (sorted4_signs_full db' t Hs' pair)
                      (fun a b Ha Hb => sorted4_unique db' t pair a b Hs' Ha Hb) x)
               (conj Hx' E)).
    reflexivity.
Qed.

(** ** The statements about the database at the examples *)

(** The examples are consistent *)

Ltac eval_indexes :=
  repeat match goal with
  | |- context [rb_inorder ?t] =>
      let v := eval vm_compute in (rb_inorder t) in change (rb_inorder t) with v
  | |- context [count ?t] =>
      let v := eval vm_compute in (count t) in change (count t) with v
  | H : context [rb_inorder ?t] |- _ =>
      let v := eval vm_compute in (rb_inorder t) in change (rb_inorder t) with v in H
  end.

Lemma table_ok_db2 (t : table_id) : table_ok (get_table db2 t).
Proof.
  unfold table_ok. destruct t; cbn [get_table]; unfold rb_size; eval_indexes;
    cbn [length]; (repeat apply conj; [..|lia|lia|lia]);
    first [apply (bool_decide_unpack _); vm_compute; exact I | intros x; reflexivity].
Qed.

Lemma consistent_db2 : consistent db2.
Proof.
  split; [|split; [intros t; split|]].
  - intros t. split; [apply table_ok_db2|].
    destruct t; cbn [get_table]; unfold rb_size; eval_indexes; reflexivity.
  - unfold sorted4. destruct t; cbn [get_table]; eval_indexes;
      repeat constructor; vm_compute; reflexivity.
  - unfold sorted6. destruct t; cbn [get_table]; eval_indexes;
      repeat constructor; vm_compute; reflexivity.
  - intros x [t Hx]. destruct t; cbn [get_table] in Hx; eval_indexes;
      destruct Hx as [Hx|Hx]; set_unfold in Hx;
      repeat (destruct Hx as [->|Hx]; [vm_compute; eauto|]); try contradiction.
Qed.

Lemma room_db2 (t : table_id) : rb_size (tree4 (get_table db2 t)) + 1 < 2 ^ 31.
Proof. destruct t; cbn [get_table]; unfold rb_size; eval_indexes; cbn [length]; lia. Qed.

(** The lookup of the second TCP session of the examples. *)
Lemma sessiondb_get_finds_witness :
  sessiondb_get_by_ipv4 (ipv4 (session1 L4PROTO_TCP TRANS 10)) L4PROTO_TCP db2
  = (0, Some 1%nat).
Proof.
  apply (proj1 (sessiondb_get_finds db2 L4PROTO_TCP TABLE_TCP eq_refl
                  (proj1 (proj1 (proj2 consistent_db2) TABLE_TCP))
                  (proj2 (proj1 (proj2 consistent_db2) TABLE_TCP)))
           (ipv4 (session1 L4PROTO_TCP TRANS 10)) 1%nat).
  split.
  - cbn [get_table]. eval_indexes. right. left.
  - vm_compute. reflexivity.
Defined.

(** A packet of 192.0.2.1 from another port is let through. *)
Lemma sessiondb_allow_iff_witness :
  sessiondb_allow
    (mk_tuple (mk_tuple_addr (Ip4 addr4_node4) 8080) (mk_tuple_addr (Ip4 addr4_pool4) 6000)
       L3PROTO_IPV4 L4PROTO_TCP) db2 = true.
Proof.
  apply (proj2 (sessiondb_allow_iff db2
                  (mk_tuple (mk_tuple_addr (Ip4 addr4_node4) 8080)
                     (mk_tuple_addr (Ip4 addr4_pool4) 6000) L3PROTO_IPV4 L4PROTO_TCP))
           TABLE_TCP eq_refl (proj1 (proj1 (proj2 consistent_db2) TABLE_TCP))).
  exists 0%nat. split.
  - cbn [get_table]. eval_indexes. left.
  - vm_compute. repeat split; intros i Hi; reflexivity.
Defined.

(** The sessions of the binding leave the TCP table of the examples. *)
Lemma sessiondb_delete_by_bib_exact_witness :
  fst (sessiondb_delete_by_bib (bib0 L4PROTO_TCP) db2) = 0.
Proof.
  exact (proj1 (sessiondb_delete_by_bib_exact (bib0 L4PROTO_TCP) db2 TABLE_TCP
                  table_ok_db2 eq_refl)).
Defined.

Lemma sessiondb_delete_by_ipv4_exact_witness :
  fst (sessiondb_delete_by_ipv4 addr4_pool4 db2) = 0.
Proof. exact (proj1 (sessiondb_delete_by_ipv4_exact addr4_pool4 db2 table_ok_db2)). Defined.

Lemma sessiondb_delete_by_ipv6_prefix_sound_witness :
  fst (sessiondb_delete_by_ipv6_prefix prefix0 db2) = 0.
Proof.
  apply (sessiondb_delete_by_ipv6_prefix_sound prefix0 db2 table_ok_db2).
  vm_compute. split; discriminate.
Defined.

Lemma sessiondb_flush_empties_witness :
  tree4 (get_table (snd (sessiondb_flush db2)) TABLE_TCP) = Leaf /\
  tree6 (get_table (snd (sessiondb_flush db2)) TABLE_TCP) = Leaf.
Proof.
  exact (proj1 (proj2 (proj2 (sessiondb_flush_empties db2 table_ok_db2))) TABLE_TCP).
Defined.

(** A TCP session, allocated and not linked yet. *)
Lemma sessiondb_add_keeps_consistent_witness :
  consistent (snd (sessiondb_add 0%nat (store db0 0%nat (session0 L4PROTO_TCP ESTABLISHED 0)))).
Proof.
  refine (proj1 (sessiondb_add_keeps_consistent 0%nat
                   (store db0 0%nat (session0 L4PROTO_TCP ESTABLISHED 0)) _ _ _ _)).
  - split; [|split; [intros t; split|]].
    + intros t. destruct t; vm_compute; repeat split; try discriminate;
        try apply NoDup_nil_2; tauto.
    + destruct t; constructor.
    + destruct t; constructor.
    + intros x [t Hx]. destruct t, Hx as [Hx|Hx]; inversion Hx.
  - vm_compute. eauto.
  - intros [t Hx]. destruct t, Hx as [Hx|Hx]; inversion Hx.
  - intros t. destruct t; vm_compute; reflexivity.
Defined.

Lemma get_or_create_keeps_consistent_witness :
  consistent (snd (sessiondb_get_or_create_ipv4 (0, prefix0) kernel0 (tuple4 L4PROTO_UDP)
                     (bib0 L4PROTO_UDP) db2)).
Proof.
  exact (proj2 (get_or_create_keeps_consistent (fun _ => (0, prefix0)) (0, prefix0) kernel0
                  (tuple4 L4PROTO_UDP) (bib0 L4PROTO_UDP) db2 consistent_db2 room_db2)).
Defined.

Lemma bulk_removals_keep_consistent_witness :
  consistent (snd (sessiondb_delete_by_bib (bib0 L4PROTO_TCP) db2)).
Proof.
  exact (proj1 (bulk_removals_keep_consistent db2 (bib0 L4PROTO_TCP) addr4_pool4 prefix0
                  consistent_db2)).
Defined.

(** The lists of the examples *)

Ltac eval_lists :=
  repeat match goal with
  | |- context [sessions ?x] =>
      let v := eval vm_compute in (sessions x) in change (sessions x) with v
  | H : context [sessions ?x] |- _ =>
      let v := eval vm_compute in (sessions x) in change (sessions x) with v in H
  end.

Lemma queued_once_db2 : queued_once db2.
Proof.
  split.
  - intros e. destruct e; cbn [get_expirer]; eval_lists;
      first [apply NoDup_nil_2 | apply NoDup_singleton].
  - intros e e' x H H'.
    destruct e, e'; try reflexivity; exfalso; cbn [get_expirer] in H, H'; eval_lists;
      repeat match goal with
      | H : _ ∈ [] |- _ => inversion H
      | H : _ ∈ [_] |- _ => apply list_elem_of_singleton in H; subst
      end; discriminate.
Qed.

Lemma fifo_ordered_db2 (e : expirer_id) : fifo_ordered db2 (jiffies kernel0) e.
Proof.
  unfold fifo_ordered.
  destruct e; cbn [get_expirer]; eval_lists; cbn [map]; (split; [repeat constructor|]);
    intros x Hx;
    repeat match goal with
    | H : _ ∈ [] |- _ => inversion H
    | H : _ ∈ [_] |- _ => apply list_elem_of_singleton in H; subst
    end; vm_compute; discriminate.
Qed.

(** A packet of the second TCP session moves it to the list of the
    established sessions. *)
Lemma sessiondb_update_timer_queues_witness :
  last (sessions (get_expirer (set_tcp_est_timer kernel0 1%nat db2) EXPIRER_TCP_EST))
  = Some 1%nat.
Proof.
  destruct (sessiondb_update_timer_queues kernel0 1%nat EXPIRER_TCP_EST db2
              queued_once_db2 fifo_ordered_db2) as (_ & _ & _ & H & _).
  apply H. clear H. split; exists TABLE_TCP; cbn [get_table]; eval_indexes; right; left.
Defined.

(** The timer of the UDP expirer at tick 1000000 removes the UDP session. *)
Lemma cleaner_timer_expires_witness :
  exists db', cleaner_timer kernel0 EXPIRER_UDP db2 = Some db'.
Proof.
  destruct (cleaner_timer_expires kernel0 EXPIRER_UDP db2)
    as (expired & rest & db' & _ & _ & _ & H & _).
  - cbn [get_expirer]. eval_lists. apply NoDup_singleton.
  - cbn [get_expirer]. eval_lists. cbn [length]. lia.
  - intros x Hx [Hl _]. cbn [get_expirer] in Hx. eval_lists.
    apply list_elem_of_singleton in Hx. subst x. vm_compute in Hl. discriminate.
  - apply table_ok_db2.
  - exists db'. exact H.
Defined.

(** The database after a creation, an update of the timer and a flush. *)
Lemma reachable_consistent_witness :
  consistent
    (snd (sessiondb_flush
            (set_udp_timer kernel0 0%nat
               (snd (sessiondb_get_or_create_ipv4 (0, prefix0) kernel0 (tuple4 L4PROTO_UDP)
                       (bib0 L4PROTO_UDP) db0))))).
Proof.
  apply (reachable_consistent (fun _ => (0, prefix0)) (0, prefix0)).
  apply reach_flush. apply reach_update_timer. apply reach_get_or_create_ipv4.
  - apply reach_init.
  - intros t. destruct t; vm_compute; reflexivity.
Defined.

(** Counting the TCP sessions of the examples. *)
Lemma sessiondb_for_each_visits_witness :
  sessiondb_for_each (fun _ n => (0, n + 1)) L4PROTO_TCP 0 db2 = (0, 2).
Proof.
  destruct (sessiondb_for_each_visits (fun _ n => (0, n + 1)) L4PROTO_TCP TABLE_TCP 0 db2
              eq_refl) as (_ & H & _).
  rewrite H by reflexivity. vm_compute. reflexivity.
Defined.

Lemma deleted_by_bib_not_found_witness :
  sessiondb_get_by_ipv4 (ipv4 (session1 L4PROTO_TCP TRANS 10)) L4PROTO_TCP
    (snd (sessiondb_delete_by_bib (bib0 L4PROTO_TCP) db2)) = (- ENOENT, None).
Proof.
  apply (proj1 (deleted_by_bib_not_found (bib0 L4PROTO_TCP) db2 TABLE_TCP
                  consistent_db2 eq_refl) (ipv4 (session1 L4PROTO_TCP TRANS 10))).
  - intros i Hi. reflexivity.
  - reflexivity.
Defined.

